(** * big-hardware-info: the inxi JSON parser ([app/collectors/inxi_parser.py])

    A shallow embedding of [InxiParser] and the properties its specification
    states about it.

    Modelling conventions.
    - A Python [str] is a Rocq [string] (a sequence of 8-bit characters, the
      UTF-8 bytes of the text).  Case mapping, digit tests and the digit
      class of the patterns are the ASCII ones, which is what inxi prints.
      On text with other characters Python's [isdigit], [lower], [upper]
      and [\d] know more digits and letters than their models here; the
      statements that depend on them are made for ASCII text ([ascii_only]).
    - A Python [int] is an integer of [Z].  Python refuses to convert
      between [int] and [str] beyond 4300 digits; the conversions here have
      no such limit, and the statements that a call returns are made for
      text and integers within it ([plain_doc]).
    - A Python [float] is the exact rational it denotes ([Q]); IEEE rounding,
      infinities and NaN are outside the model, and [str] of a float is
      written without an exponent.  No statement depends on the last digit
      of a computed float.
    - A [dict] is an association list in insertion order.
    - Exceptions are values of [exn]; a function that can raise returns
      [res A].  A [try]/[except] of the source is a [match] on that result. *)

From Stdlib Require Import ZArith QArith List String Ascii Bool Lia Permutation.
From Stdlib Require Import DecimalString.
Import ListNotations.

#[local] Set Warnings "-register-all".

Local Open Scope list_scope.
Local Open Scope string_scope.

(** ** Strings *)

Module Str.

(** [needle in hay] *)
Fixpoint contains (needle hay : string) : bool :=
  prefix needle hay ||
  match hay with
  | EmptyString => false
  | String _ hay' => contains needle hay'
  end.

(** [c in s] for a single character *)
Fixpoint mem (c : ascii) (s : string) : bool :=
  match s with
  | EmptyString => false
  | String d s' => Ascii.eqb d c || mem c s'
  end.

(** [s.split(sep)] for a one-character separator: never empty. *)
Fixpoint split (sep : ascii) (s : string) : list string :=
  match s with
  | EmptyString => [EmptyString]
  | String c s' =>
      if Ascii.eqb c sep then EmptyString :: split sep s'
      else match split sep s' with
           | f :: fs => String c f :: fs
           | [] => [String c EmptyString]
           end
  end.

Definition is_upper (c : ascii) : bool :=
  let n := nat_of_ascii c in (65 <=? n)%nat && (n <=? 90)%nat.
Definition is_lower (c : ascii) : bool :=
  let n := nat_of_ascii c in (97 <=? n)%nat && (n <=? 122)%nat.
Definition is_digit (c : ascii) : bool :=
  let n := nat_of_ascii c in (48 <=? n)%nat && (n <=? 57)%nat.

Definition lower_char (c : ascii) : ascii :=
  if is_upper c then ascii_of_nat (nat_of_ascii c + 32) else c.
Definition upper_char (c : ascii) : ascii :=
  if is_lower c then ascii_of_nat (nat_of_ascii c - 32) else c.

Fixpoint map (f : ascii -> ascii) (s : string) : string :=
  match s with
  | EmptyString => EmptyString
  | String c s' => String (f c) (map f s')
  end.

(** [s.lower()], [s.upper()] *)
Definition lower : string -> string := map lower_char.
Definition upper : string -> string := map upper_char.

Fixpoint all (p : ascii -> bool) (s : string) : bool :=
  match s with
  | EmptyString => true
  | String c s' => p c && all p s'
  end.

(** [s.isdigit()] *)
Definition isdigit (s : string) : bool :=
  negb (String.eqb s "") && all is_digit s.

(** The longest prefix of [s] made of characters satisfying [p], and the rest. *)
Fixpoint span (p : ascii -> bool) (s : string) : string * string :=
  match s with
  | EmptyString => (EmptyString, EmptyString)
  | String c s' =>
      if p c then let (a, b) := span p s' in (String c a, b)
      else (EmptyString, s)
  end.

Fixpoint chars (s : string) : list ascii :=
  match s with
  | EmptyString => []
  | String c s' => c :: chars s'
  end.

End Str.

(** ** The key normalizer *)

(** [InxiParser._clean_key]:
    [if "#" in key: return key.split("#")[-1]] else [return key]. *)
Definition clean_key (key : string) : string :=
  if Str.contains "#" key then last (Str.split "#" key) EmptyString else key.

(** ** Exceptions *)

(** The exceptions the parser can raise.  [Clobber] is not a Python exception:
    it marks an in-place write ([d[k] = v], [append], [update]) whose target is
    an object owned by the caller.  Python performs such a write silently; the
    embedding stops there, so that "the input is never modified" is the
    statement that no run yields [Clobber], and the embedding agrees with the
    source on every run that does not. *)
Inductive exn : Type :=
| AttributeError | TypeError | ValueError | KeyError | Clobber.

Inductive res (A : Type) : Type :=
| Ok (a : A)
| Raise (e : exn).
Arguments Ok {A} a.
Arguments Raise {A} e.

Definition bind {A B : Type} (m : res A) (f : A -> res B) : res B :=
  match m with
  | Ok a => f a
  | Raise e => Raise e
  end.

Notation "x <- m ;; k" := (bind m (fun x => k))
  (at level 61, m at next level, right associativity).

(** A [for] loop whose body can raise. *)
Fixpoint foldM {A B : Type} (f : A -> B -> res A) (a : A) (xs : list B) : res A :=
  match xs with
  | [] => Ok a
  | x :: xs' => a' <- f a x ;; foldM f a' xs'
  end.

(** ** Python values *)

(** Who allocated a container: the caller of [parse_full] (the input
    document) or the running call (a literal of the parser). *)
Inductive owner : Type := Caller | Local.

(** Hashable values as dictionary keys.  [True], [1] and [1.0] are one key. *)
Inductive key : Type :=
| KNone
| KInt (z : Z)
| KFloat (q : Q)
| KStr (s : string).

Coercion KStr : string >-> key.

Inductive value : Type :=
| VNone
| VBool (b : bool)
| VInt (z : Z)
| VFloat (q : Q)
| VStr (s : string)
| VList (o : owner) (xs : list value)
| VDict (o : owner) (kvs : list (key * value)).

(** The contents of a dictionary the running function created itself
    ([result = {...}], [cleaned = {}]). *)
Definition entries : Type := list (key * value).

Definition key_eqb (a b : key) : bool :=
  match a, b with
  | KNone, KNone => true
  | KInt x, KInt y => Z.eqb x y
  | KFloat x, KFloat y => Qeq_bool x y
  | KStr x, KStr y => String.eqb x y
  | _, _ => false
  end.

Definition Q_is_int (q : Q) : bool := (Qnum q mod Zpos (Qden q) =? 0)%Z.

(** [hash(v)]: lists and dicts are unhashable. *)
Definition hash_key (v : value) : res key :=
  match v with
  | VNone => Ok KNone
  | VBool b => Ok (KInt (if b then 1 else 0))
  | VInt z => Ok (KInt z)
  | VFloat q => Ok (if Q_is_int q then KInt (Qnum q / Zpos (Qden q)) else KFloat (Qred q))
  | VStr s => Ok (KStr s)
  | VList _ _ | VDict _ _ => Raise TypeError
  end.

Definition key_value (k : key) : value :=
  match k with
  | KNone => VNone
  | KInt z => VInt z
  | KFloat q => VFloat q
  | KStr s => VStr s
  end.

(** *** Dictionaries *)

(** [k in d] *)
Fixpoint dhas (d : entries) (k : key) : bool :=
  match d with
  | [] => false
  | (k', _) :: d' => key_eqb k' k || dhas d' k
  end.

Fixpoint dfind (d : entries) (k : key) : option value :=
  match d with
  | [] => None
  | (k', v) :: d' => if key_eqb k' k then Some v else dfind d' k
  end.

(** [d.get(k, dflt)] *)
Definition dget (d : entries) (k : key) (dflt : value) : value :=
  match dfind d k with
  | Some v => v
  | None => dflt
  end.

(** [d[k] = v]: an existing key keeps its position. *)
Fixpoint dset (d : entries) (k : key) (v : value) : entries :=
  match d with
  | [] => [(k, v)]
  | (k', v') :: d' =>
      if key_eqb k' k then (k', v) :: d' else (k', v') :: dset d' k v
  end.

(** [d.update(e)] *)
Definition dupdate (d e : entries) : entries :=
  fold_left (fun acc kv => dset acc (fst kv) (snd kv)) e d.

(** *** Truth, equality, iteration *)

(** [bool(v)] *)
Definition truthy (v : value) : bool :=
  match v with
  | VNone => false
  | VBool b => b
  | VInt z => negb (z =? 0)%Z
  | VFloat q => negb (Qnum q =? 0)%Z
  | VStr s => negb (String.eqb s "")
  | VList _ xs => match xs with [] => false | _ => true end
  | VDict _ kvs => match kvs with [] => false | _ => true end
  end.

(** [v in (None, "", [])] *)
Definition is_absent (v : value) : bool :=
  match v with
  | VNone => true
  | VStr s => String.eqb s ""
  | VList _ [] => true
  | _ => false
  end.

(** [v == s] for a string literal [s] *)
Definition eq_str (v : value) (s : string) : bool :=
  match v with
  | VStr t => String.eqb t s
  | _ => false
  end.

Definition is_list (v : value) : bool :=
  match v with VList _ _ => true | _ => false end.
Definition is_dict (v : value) : bool :=
  match v with VDict _ _ => true | _ => false end.
Definition is_str (v : value) : bool :=
  match v with VStr _ => true | _ => false end.
(** [isinstance(v, (int, float))]; [bool] is a subclass of [int]. *)
Definition is_number (v : value) : bool :=
  match v with VBool _ | VInt _ | VFloat _ => true | _ => false end.

(** [for x in v]: a dict yields its keys, a string its characters. *)
Definition py_iter (v : value) : res (list value) :=
  match v with
  | VList _ xs => Ok xs
  | VDict _ kvs => Ok (List.map (fun kv => key_value (fst kv)) kvs)
  | VStr s => Ok (List.map (fun c => VStr (String c EmptyString)) (Str.chars s))
  | VNone | VBool _ | VInt _ | VFloat _ => Raise TypeError
  end.

(** [v.items()] *)
Definition py_items (v : value) : res entries :=
  match v with
  | VDict _ kvs => Ok kvs
  | _ => Raise AttributeError
  end.

(** [v.get(k, dflt)] on a value that need not be a dict *)
Definition py_get (v : value) (k : key) (dflt : value) : res value :=
  match v with
  | VDict _ kvs => Ok (dget kvs k dflt)
  | _ => Raise AttributeError
  end.

(** [v.lower()], [v.upper()] *)
Definition py_lower (v : value) : res string :=
  match v with
  | VStr s => Ok (Str.lower s)
  | _ => Raise AttributeError
  end.
Definition py_upper (v : value) : res string :=
  match v with
  | VStr s => Ok (Str.upper s)
  | _ => Raise AttributeError
  end.

(** [needle in v] for a string [needle]: substring test on a string,
    membership on a list, key test on a dict. *)
Definition py_in_str (needle : string) (v : value) : res bool :=
  match v with
  | VStr s => Ok (Str.contains needle s)
  | VList _ xs => Ok (existsb (fun x => eq_str x needle) xs)
  | VDict _ kvs => Ok (dhas kvs (KStr needle))
  | VNone | VBool _ | VInt _ | VFloat _ => Raise TypeError
  end.

(** ** Numbers and text *)

Definition digit_val (c : ascii) : Z := Z.of_nat (nat_of_ascii c) - 48.

Fixpoint digits_acc (acc : Z) (s : string) : Z :=
  match s with
  | EmptyString => acc
  | String c s' => digits_acc (acc * 10 + digit_val c) s'
  end.

(** The number a run of decimal digits writes. *)
Definition digits_value (s : string) : Z := digits_acc 0 s.

Definition is_space (c : ascii) : bool :=
  let n := nat_of_ascii c in
  ((9 <=? n)%nat && (n <=? 13)%nat) || ((28 <=? n)%nat && (n <=? 32)%nat).

Fixpoint lstrip (s : string) : string :=
  match s with
  | EmptyString => EmptyString
  | String c s' => if is_space c then lstrip s' else s
  end.

Definition str_rev (s : string) : string :=
  string_of_list_ascii (List.rev (list_ascii_of_string s)).

(** [s.strip()] *)
Definition strip (s : string) : string := str_rev (lstrip (str_rev (lstrip s))).

(** The digits of an [int] literal: groups of digits joined by single
    underscores. *)
Definition int_body (s : string) : option Z :=
  let groups := Str.split "_" s in
  if forallb Str.isdigit groups
  then Some (digits_value (String.concat "" groups))
  else None.

(** [int(s)] for a string, base 10. *)
Definition int_of_string (s : string) : option Z :=
  match strip s with
  | String "+" body => int_body body
  | String "-" body => option_map Z.opp (int_body body)
  | body => int_body body
  end.

(** [int(v)]: [ValueError] for text that is no integer, [TypeError] for
    [None] and containers. *)
Definition py_int (v : value) : res Z :=
  match v with
  | VBool b => Ok (if b then 1 else 0)%Z
  | VInt z => Ok z
  | VFloat q => Ok (Z.quot (Qnum q) (Zpos (Qden q)))
  | VStr s => match int_of_string s with
              | Some z => Ok z
              | None => Raise ValueError
              end
  | VNone | VList _ _ | VDict _ _ => Raise TypeError
  end.

Fixpoint pow10 (n : nat) : positive :=
  match n with
  | O => 1%positive
  | S n' => (10 * pow10 n')%positive
  end.

Definition is_numeral_char (c : ascii) : bool :=
  Str.is_digit c || Ascii.eqb c ".".

(** [float(s)] for the text a [[\d.]+] group hands over: a number when [s]
    has a digit and at most one dot, [ValueError] otherwise. *)
Definition float_of_numeral (s : string) : res Q :=
  if Str.all is_numeral_char s then
    match Str.split "." s with
    | [a] => if Str.isdigit a then Ok (inject_Z (digits_value a)) else Raise ValueError
    | [a; b] =>
        if Str.all Str.is_digit a && Str.all Str.is_digit b
           && negb (String.eqb (a ++ b) "")
        then Ok (Qred (Qmake (digits_value (a ++ b)) (pow10 (String.length b))))
        else Raise ValueError
    | _ => Raise ValueError
    end
  else Raise ValueError.

(** [round(q, 1)]: to one decimal, ties to even. *)
Definition round1 (q : Q) : Q :=
  let n := (Qnum q * 10)%Z in
  let d := Zpos (Qden q) in
  let f := (n / d)%Z in
  let r := (n mod d)%Z in
  let up := match (2 * r ?= d)%Z with
            | Lt => false
            | Gt => true
            | Eq => Z.odd f
            end in
  Qred (Qmake (if up then f + 1 else f) 10).

Definition Z_str (z : Z) : string := NilZero.string_of_int (Z.to_int z).

Definition digit_char (z : Z) : ascii := ascii_of_nat (48 + Z.to_nat z).

Fixpoint frac_digits (fuel : nat) (r d : Z) : string :=
  match fuel with
  | O => EmptyString
  | S fuel' =>
      if (r =? 0)%Z then EmptyString
      else String (digit_char (r * 10 / d)) (frac_digits fuel' (r * 10 mod d) d)
  end.

(** [repr(q)] of a float: the decimal expansion, to at most 17 places. *)
Definition float_repr (q : Q) : string :=
  let d := Zpos (Qden q) in
  let a := Z.abs (Qnum q) in
  let fr := frac_digits 17 (a mod d) d in
  (if (Qnum q <? 0)%Z then "-" else "")
    ++ Z_str (a / d) ++ "." ++ (if String.eqb fr "" then "0" else fr).

Definition dquote : ascii := ascii_of_nat 34.
Definition squote : ascii := ascii_of_nat 39.
Definition backslash : ascii := ascii_of_nat 92.

Definition hex_digit (n : nat) : ascii :=
  if (n <? 10)%nat then ascii_of_nat (48 + n) else ascii_of_nat (87 + n).

Fixpoint escape (quote : ascii) (s : string) : string :=
  match s with
  | EmptyString => EmptyString
  | String c s' =>
      let n := nat_of_ascii c in
      (if Ascii.eqb c backslash || Ascii.eqb c quote then String backslash (String c EmptyString)
       else if (n =? 10)%nat then String backslash "n"
       else if (n =? 13)%nat then String backslash "r"
       else if (n =? 9)%nat then String backslash "t"
       else if (n <? 32)%nat || (n =? 127)%nat
            then String backslash (String "x" (String (hex_digit (n / 16))
                                                 (String (hex_digit (n mod 16)) EmptyString)))
       else String c EmptyString) ++ escape quote s'
  end.

(** [repr(s)] of a string *)
Definition str_repr (s : string) : string :=
  let quote := if Str.mem squote s && negb (Str.mem dquote s) then dquote else squote in
  String quote (escape quote s) ++ String quote EmptyString.

Definition key_repr (k : key) : string :=
  match k with
  | KNone => "None"
  | KInt z => Z_str z
  | KFloat q => float_repr q
  | KStr s => str_repr s
  end.

(** [repr(v)] *)
Fixpoint py_repr (v : value) : string :=
  match v with
  | VNone => "None"
  | VBool true => "True"
  | VBool false => "False"
  | VInt z => Z_str z
  | VFloat q => float_repr q
  | VStr s => str_repr s
  | VList _ xs =>
      "[" ++ (fix go (l : list value) : string :=
                match l with
                | [] => EmptyString
                | x :: l' =>
                    py_repr x ++ match l' with [] => EmptyString | _ => ", " ++ go l' end
                end) xs ++ "]"
  | VDict _ kvs =>
      "{" ++ (fix go (l : list (key * value)) : string :=
                match l with
                | [] => EmptyString
                | (k, x) :: l' =>
                    key_repr k ++ ": " ++ py_repr x
                      ++ match l' with [] => EmptyString | _ => ", " ++ go l' end
                end) kvs ++ "}"
  end.

(** [str(v)] *)
Definition py_str (v : value) : string :=
  match v with
  | VStr s => s
  | _ => py_repr v
  end.

(** ** The patterns of the parser *)

(** The first place in [s] from which [at_start] matches. *)
Fixpoint search {A : Type} (at_start : string -> option A) (s : string) : option A :=
  match at_start s with
  | Some a => Some a
  | None => match s with
            | EmptyString => None
            | String _ s' => search at_start s'
            end
  end.

(** [(\d+)[- ]core], anchored *)
Definition core_at (s : string) : option string :=
  let (ds, rest) := Str.span Str.is_digit s in
  if negb (String.eqb ds "") && (prefix "-core" rest || prefix " core" rest)
  then Some ds else None.

(** [([\d.]+)], anchored *)
Definition numeral_at (s : string) : option string :=
  let (run, _) := Str.span is_numeral_char s in
  if String.eqb run "" then None else Some run.

(** [\(([\d.]+)%\)], anchored *)
Definition percent_at (s : string) : option string :=
  match s with
  | String "(" s' =>
      let (run, rest) := Str.span is_numeral_char s' in
      if negb (String.eqb run "") && prefix "%)" rest then Some run else None
  | _ => None
  end.

(** [(\d+(?:\.\d+)?)], anchored *)
Definition decimal_at (s : string) : option string :=
  let (a, rest) := Str.span Str.is_digit s in
  if String.eqb a "" then None
  else match rest with
       | String "." rest' =>
           let (b, _) := Str.span Str.is_digit rest' in
           if String.eqb b "" then Some a else Some (a ++ "." ++ b)
       | _ => Some a
       end.

(** [re.search(r"(\d+)[- ]core", s)], group 1 *)
Definition search_core : string -> option string := search core_at.
(** [re.search(r"([\d.]+)", s)], group 1 *)
Definition search_numeral : string -> option string := search numeral_at.
(** [re.search(r"\(([\d.]+)%\)", s)], group 1 *)
Definition search_percent : string -> option string := search percent_at.
(** [re.search(r"(\d+(?:\.\d+)?)", s)], group 1 *)
Definition search_decimal : string -> option string := search decimal_at.

(** ** Building blocks shared by the section parsers *)

Notation "k ~> v" := (KStr k, v) (at level 60, no associativity).

(** [cleaned.get(k, "")] *)
Definition gets (d : entries) (k : string) : value := dget d (KStr k) (VStr "").

(** [self._clean_key(k)] on a dictionary key: ["#" in k] needs a string. *)
Definition clean_key_of (k : key) : res key :=
  match k with
  | KStr s => Ok (KStr (clean_key s))
  | KNone | KInt _ | KFloat _ => Raise TypeError
  end.

(** The loop that opens every section parser:
[[
    cleaned = {}
    for k, v in item.items():
        clean_key = self._clean_key(k)
        if v not in (None, "", []):
            cleaned[clean_key] = v
]] *)
Definition clean_item (item : value) : res entries :=
  kvs <- py_items item ;;
  foldM (fun cleaned kv =>
           ck <- clean_key_of (fst kv) ;;
           Ok (if is_absent (snd kv) then cleaned else dset cleaned ck (snd kv)))
        [] kvs.

(** [if src in cleaned: result[dst] = cleaned[src]] *)
Definition copy (cleaned : entries) (src : string) (result : entries) (dst : string) : entries :=
  match dfind cleaned (KStr src) with
  | Some v => dset result (KStr dst) v
  | None => result
  end.

(** [if src in cleaned: result[dst] = str(cleaned[src])] *)
Definition copy_str (cleaned : entries) (src : string) (result : entries) (dst : string) : entries :=
  match dfind cleaned (KStr src) with
  | Some v => dset result (KStr dst) (VStr (py_str v))
  | None => result
  end.

(** [d[k]] *)
Definition getitem (d : entries) (k : key) : res value :=
  match dfind d k with
  | Some v => Ok v
  | None => Raise KeyError
  end.

(** [l.append(x)]: a write to the list object [l]. *)
Definition py_append (l x : value) : res value :=
  match l with
  | VList Local xs => Ok (VList Local (xs ++ [x])%list)
  | VList Caller _ => Raise Clobber
  | _ => Raise AttributeError
  end.

(** [o[k] = v]: a write to the dict object [o]. *)
Definition py_setitem (o : value) (k : key) (v : value) : res value :=
  match o with
  | VDict Local kvs => Ok (VDict Local (dset kvs k v))
  | VDict Caller _ => Raise Clobber
  | VList Local _ | VList Caller _ => Raise TypeError
  | _ => Raise TypeError
  end.

(** [o.update(e)]: a write to the dict object [o]. *)
Definition py_update (o : value) (e : entries) : res value :=
  match o with
  | VDict Local kvs => Ok (VDict Local (dupdate kvs e))
  | VDict Caller _ => Raise Clobber
  | _ => Raise AttributeError
  end.

(** [d[k].append(x)].  The list under [k] is the object written; the
    dictionary [d] is only read, and carries the list's new contents. *)
Definition append_in (d : entries) (k : key) (x : value) : res entries :=
  l <- getitem d k ;;
  l' <- py_append l x ;;
  Ok (dset d k l').

(** [d[k][k2] = v] *)
Definition setitem_in (d : entries) (k k2 : key) (v : value) : res entries :=
  o <- getitem d k ;;
  o' <- py_setitem o k2 v ;;
  Ok (dset d k o').

(** [len(v)] *)
Definition py_len (v : value) : res Z :=
  match v with
  | VStr s => Ok (Z.of_nat (String.length s))
  | VList _ xs => Ok (Z.of_nat (List.length xs))
  | VDict _ kvs => Ok (Z.of_nat (List.length kvs))
  | VNone | VBool _ | VInt _ | VFloat _ => Raise TypeError
  end.

(** [v == z] for an integer literal [z] *)
Definition eq_int (v : value) (z : Z) : bool :=
  match v with
  | VBool b => ((if b then 1 else 0) =? z)%Z
  | VInt x => (x =? z)%Z
  | VFloat q => Qeq_bool q (inject_Z z)
  | _ => false
  end.

(** [v > 0] *)
Definition gt_zero (v : value) : res bool :=
  match v with
  | VBool b => Ok b
  | VInt x => Ok (0 <? x)%Z
  | VFloat q => Ok (0 <? Qnum q)%Z
  | _ => Raise TypeError
  end.

(** [v // 2 or v] for an [int] (the only type [threads] ever holds) *)
Definition half_or_self (v : value) : res value :=
  match v with
  | VInt x => Ok (VInt (if (x / 2 =? 0)%Z then x else x / 2))
  | _ => Raise TypeError
  end.

(** [any(kw in s for kw in kws)] *)
Definition any_in (kws : list string) (s : string) : bool :=
  existsb (fun kw => Str.contains kw s) kws.

(** ** The CPU parser *)

Definition E : value := VStr "".

(** The [result] literal of [_parse_cpu_section]. *)
Definition cpu_default : entries :=
  [ "model" ~> E; "cores" ~> VInt 0; "threads" ~> VInt 0; "type" ~> E;
    "bits" ~> VInt 0; "arch" ~> E; "gen" ~> E; "built" ~> E; "process" ~> E;
    "family" ~> E; "model_id" ~> E; "stepping" ~> E; "microcode" ~> E;
    "cache_l1" ~> E; "cache_l2" ~> E; "cache_l3" ~> E;
    "speed_current" ~> VInt 0; "speed_min" ~> VInt 0; "speed_max" ~> VInt 0;
    "bogomips" ~> VInt 0; "scaling_driver" ~> E; "scaling_governor" ~> E;
    "core_speeds" ~> VDict Local []; "flags" ~> E;
    "vulnerabilities" ~> VList Local []; "raw" ~> E ].

(** Lines 282-294: the core count mined from the [Info] text. *)
Definition cpu_info_cores (result cleaned : entries) : res entries :=
  let info := gets cleaned "Info" in
  if truthy info then
    low <- py_lower info ;;
    let result :=
      if Str.contains "quad core" low then dset result "cores" (VInt 4)
      else if Str.contains "octa core" low then dset result "cores" (VInt 8)
      else if Str.contains "dual core" low then dset result "cores" (VInt 2)
      else if Str.contains "hexa core" low then dset result "cores" (VInt 6)
      else result in
    Ok (match search_core low with
        | Some ds => dset result "cores" (VInt (digits_value ds))
        | None => result
        end)
  else Ok result.

(** Lines 297-306: [try: result[k] = int(cleaned[k])]
    [except (ValueError, TypeError): pass] *)
Definition cpu_topology (k : string) (result cleaned : entries) : res entries :=
  match dfind cleaned (KStr k) with
  | None => Ok result
  | Some v =>
      match py_int v with
      | Ok z => Ok (dset result (KStr k) (VInt z))
      | Raise ValueError | Raise TypeError => Ok result
      | Raise e => Raise e
      end
  end.

(** Lines 309-311: [for k, v in cleaned.items(): if k.isdigit():]
    [result["core_speeds"][int(k)] = v] *)
Definition cpu_core_speeds (result cleaned : entries) : res entries :=
  foldM (fun result kv =>
           match fst kv with
           | KStr k =>
               if Str.isdigit k
               then setitem_in result "core_speeds" (KInt (digits_value k)) (snd kv)
               else Ok result
           | KNone | KInt _ | KFloat _ => Raise AttributeError
           end)
        result cleaned.

(** Lines 316-323: the [min/max] field. *)
Definition cpu_minmax (result cleaned : entries) : entries :=
  match dfind cleaned (KStr "min/max") with
  | None => result
  | Some v =>
      match Str.split "/" (py_str v) with
      | [a; b] =>
          match int_of_string a with
          | None => result
          | Some x =>
              let result := dset result "speed_min" (VInt x) in
              match int_of_string b with
              | None => result
              | Some y => dset result "speed_max" (VInt y)
              end
          end
      | _ => result
      end
  end.

(** The body of the [for item in items] loop of [_parse_cpu_section]. *)
Definition cpu_item (result : entries) (item : value) : res entries :=
  cleaned <- clean_item item ;;
  let result := copy cleaned "model" result "model" in
  let result := copy cleaned "type" result "type" in
  let result := copy cleaned "bits" result "bits" in
  let result := copy cleaned "arch" result "arch" in
  let result := copy cleaned "gen" result "gen" in
  let result := copy cleaned "built" result "built" in
  let result := copy cleaned "process" result "process" in
  let result := copy cleaned "family" result "family" in
  let result := copy cleaned "model-id" result "model_id" in
  let result := copy cleaned "stepping" result "stepping" in
  let result := copy cleaned "microcode" result "microcode" in
  let result := copy cleaned "L1" result "cache_l1" in
  let result := copy cleaned "L2" result "cache_l2" in
  let result := copy cleaned "L3" result "cache_l3" in
  result <- cpu_info_cores result cleaned ;;
  result <- cpu_topology "cores" result cleaned ;;
  result <- cpu_topology "threads" result cleaned ;;
  result <- cpu_core_speeds result cleaned ;;
  let result := copy cleaned "avg" result "speed_current" in
  let result := cpu_minmax result cleaned in
  let result := copy cleaned "bogomips" result "bogomips" in
  let result := copy cleaned "driver" result "scaling_driver" in
  let result := copy cleaned "governor" result "scaling_governor" in
  let result :=
    if dhas cleaned "Flags" then copy cleaned "Flags" result "flags"
    else copy cleaned "Flags-basic" result "flags" in
  match dfind cleaned (KStr "Type") with
  | Some ty =>
      append_in result "vulnerabilities"
        (VDict Local [ "type" ~> ty;
                       "status" ~> gets cleaned "status";
                       "mitigation" ~> gets cleaned "mitigation" ])
  | None => Ok result
  end.

(** Lines 345-351: the thread and core fallbacks. *)
Definition cpu_fallback (result : entries) : res entries :=
  threads <- getitem result "threads" ;;
  result <- (if eq_int threads 0 then
               speeds <- getitem result "core_speeds" ;;
               n <- py_len speeds ;;
               Ok (dset result "threads" (VInt n))
             else Ok result) ;;
  threads <- getitem result "threads" ;;
  cores <- getitem result "cores" ;;
  positive <- gt_zero threads ;;
  if positive && eq_int cores 0 then
    c <- half_or_self threads ;;
    Ok (dset result "cores" c)
  else Ok result.

(** [InxiParser._parse_cpu_section] *)
Definition parse_cpu_section (items : value) : res value :=
  its <- py_iter items ;;
  result <- foldM cpu_item cpu_default its ;;
  result <- cpu_fallback result ;;
  Ok (VDict Local result).

(** ** The GPU parser *)

Definition webcam_keywords : list string :=
  [ "webcam"; "camera"; "cam"; "usb2.0"; "hd pro";
    "facetime"; "isight"; "brio"; "c920"; "c922"; "c925";
    "streamcam"; "kiyo"; "uvc"; "integrated_webcam" ].

Definition gpu_keywords : list string :=
  [ "vga"; "nvidia"; "amd"; "radeon"; "geforce"; "intel hd"; "intel uhd";
    "intel iris"; "matrox"; "quadro"; "firepro"; "arc "; "display";
    "graphics"; "gpu"; "rtx"; "gtx" ].

Definition gpu_drivers : list string :=
  [ "nvidia"; "amdgpu"; "radeon"; "i915"; "nouveau" ].

Definition gpu_default : entries :=
  [ "devices" ~> VList Local []; "webcams" ~> VList Local [];
    "displays" ~> VList Local []; "display_info" ~> VDict Local [];
    "opengl" ~> VDict Local []; "vulkan" ~> VDict Local [];
    "egl" ~> VDict Local []; "monitors" ~> VList Local [] ].

(** Line 392 *)
Definition is_webcam (device_name driver : string) : bool :=
  any_in webcam_keywords device_name || Str.contains "uvcvideo" driver.

(** Lines 393-394 *)
Definition is_gpu (device_name driver : string) : bool :=
  any_in gpu_keywords device_name || any_in gpu_drivers driver.

Definition webcam_entry (cleaned : entries) : value :=
  VDict Local
    [ "name" ~> gets cleaned "Device"; "driver" ~> gets cleaned "driver";
      "type" ~> dget cleaned "type" (VStr "USB");
      "bus_id" ~> gets cleaned "bus-ID"; "chip_id" ~> gets cleaned "chip-ID";
      "serial" ~> gets cleaned "serial"; "speed" ~> gets cleaned "speed";
      "mode" ~> gets cleaned "mode" ].

Definition gpu_entry (cleaned : entries) : value :=
  VDict Local
    [ "name" ~> gets cleaned "Device"; "vendor" ~> gets cleaned "vendor";
      "driver" ~> gets cleaned "driver"; "driver_version" ~> gets cleaned "v";
      "bus_id" ~> gets cleaned "bus-ID"; "arch" ~> gets cleaned "arch";
      "chip_id" ~> gets cleaned "chip-ID";
      "ports_active" ~> gets cleaned "active";
      "ports_empty" ~> gets cleaned "empty" ].

(** Lines 388-418: an item with a [Device] key. *)
Definition gpu_device (result cleaned : entries) : res entries :=
  device_name <- py_lower (gets cleaned "Device") ;;
  driver <- py_lower (gets cleaned "driver") ;;
  let webcam := is_webcam device_name driver in
  let gpu := is_gpu device_name driver in
  if webcam && negb gpu then append_in result "webcams" (webcam_entry cleaned)
  else if negb webcam || gpu then append_in result "devices" (gpu_entry cleaned)
  else Ok result.

(** [d[k][k2].append(x)] *)
Definition append_in2 (d : entries) (k k2 : key) (x : value) : res entries :=
  o <- getitem d k ;;
  match o with
  | VDict own kvs =>
      kvs' <- append_in kvs k2 x ;;
      Ok (dset d k (VDict own kvs'))
  | VList _ _ | VStr _ => Raise TypeError
  | VNone | VBool _ | VInt _ | VFloat _ => Raise TypeError
  end.

(** The body of the loop of [_parse_gpu_section]. *)
Definition gpu_item (result : entries) (item : value) : res entries :=
  cleaned <- clean_item item ;;
  if dhas cleaned "Device" then gpu_device result cleaned
  else if dhas cleaned "Display" || dhas cleaned "server" then
    Ok (dset result "display_info"
          (VDict Local
             [ "display" ~> gets cleaned "Display"; "server" ~> gets cleaned "server";
               "server_version" ~> gets cleaned "v"; "with" ~> gets cleaned "with";
               "compositor" ~> gets cleaned "compositor";
               "driver_loaded" ~> gets cleaned "loaded"; "gpu" ~> gets cleaned "gpu" ]))
  else if dhas cleaned "Monitor" then
    append_in result "monitors"
      (VDict Local
         [ "name" ~> gets cleaned "Monitor"; "model" ~> gets cleaned "model";
           "resolution" ~> gets cleaned "res"; "size" ~> gets cleaned "size";
           "diagonal" ~> gets cleaned "diag"; "dpi" ~> gets cleaned "dpi";
           "gamma" ~> gets cleaned "gamma"; "ratio" ~> gets cleaned "ratio" ])
  else if dhas cleaned "API" && eq_str (dget cleaned "API" VNone) "OpenGL" then
    Ok (dset result "opengl"
          (VDict Local
             [ "version" ~> gets cleaned "v"; "compat_version" ~> gets cleaned "compat-v";
               "vendor" ~> gets cleaned "vendor"; "glx_version" ~> gets cleaned "glx-v";
               "direct_render" ~> gets cleaned "direct-render";
               "renderer" ~> gets cleaned "renderer"; "memory" ~> gets cleaned "memory" ]))
  else if dhas cleaned "API" && eq_str (dget cleaned "API" VNone) "Vulkan" then
    let result :=
      dset result "vulkan"
        (VDict Local [ "version" ~> gets cleaned "v"; "layers" ~> gets cleaned "layers";
                       "devices" ~> VList Local [] ]) in
    if dhas cleaned "device" then
      append_in2 result "vulkan" "devices"
        (VDict Local [ "device" ~> gets cleaned "device"; "type" ~> gets cleaned "type";
                       "name" ~> gets cleaned "name"; "driver" ~> gets cleaned "driver" ])
    else Ok result
  else if dhas cleaned "API" && eq_str (dget cleaned "API" VNone) "EGL" then
    Ok (dset result "egl"
          (VDict Local [ "version" ~> gets cleaned "v"; "hw" ~> gets cleaned "hw";
                         "platforms" ~> gets cleaned "platforms" ]))
  else Ok result.

(** [InxiParser._parse_gpu_section] *)
Definition parse_gpu_section (items : value) : res value :=
  its <- py_iter items ;;
  result <- foldM gpu_item gpu_default its ;;
  Ok (VDict Local result).

(** ** The Memory parser *)

Definition memory_default : entries :=
  [ "total" ~> E; "used" ~> E; "available" ~> E; "used_percent" ~> VInt 0;
    "capacity" ~> E; "slots" ~> E; "ec" ~> E; "note" ~> E;
    "max_module_size" ~> E; "modules" ~> VList Local [] ].

(** Lines 505-509: the system RAM summary. *)
Definition memory_total (result cleaned : entries) : entries :=
  if dhas cleaned "total" && negb (dhas cleaned "Device") then
    let total_str := py_str (gets cleaned "total") in
    if Str.contains "GiB" total_str || Str.contains "GB" total_str then
      if negb (truthy (dget result "total" VNone))
      then dset result "total" (VStr total_str)
      else result
    else result
  else result.

(** [if k in cleaned and not result[k]: result[k] = str(cleaned[k])] *)
Definition memory_first (k : string) (result cleaned : entries) : entries :=
  match dfind cleaned (KStr k) with
  | Some v =>
      if negb (truthy (dget result (KStr k) VNone))
      then dset result (KStr k) (VStr (py_str v))
      else result
  | None => result
  end.

Definition module_entry (cleaned : entries) (size : value) : value :=
  let spec_speed := dget cleaned "spec" (gets cleaned "speed") in
  let actual_speed := dget cleaned "actual" (gets cleaned "configured") in
  VDict Local
    [ "size" ~> VStr (py_str size);
      "speed" ~> VStr (py_str spec_speed);
      "actual_speed" ~> VStr (py_str actual_speed);
      "type" ~> VStr (py_str (gets cleaned "type"));
      "slot" ~> VStr (py_str (gets cleaned "Device"));
      "manufacturer" ~> VStr (py_str (gets cleaned "manufacturer"));
      "volts" ~> VStr (py_str (gets cleaned "volts"));
      "part_no" ~> VStr (py_str (gets cleaned "part-no"));
      "serial" ~> VStr (py_str (gets cleaned "serial")) ].

(** Lines 530-547: a RAM module. *)
Definition memory_module (result cleaned : entries) : res entries :=
  if dhas cleaned "Device" && dhas cleaned "size" then
    let size := gets cleaned "size" in
    if truthy size && negb (Str.contains "No Module" (py_str size))
    then append_in result "modules" (module_entry cleaned size)
    else Ok result
  else Ok result.

(** The body of the loop of [_parse_memory_section]. *)
Definition memory_item (result : entries) (item : value) : res entries :=
  cleaned <- clean_item item ;;
  let result := memory_total result cleaned in
  let result := memory_first "used" result cleaned in
  let result := memory_first "available" result cleaned in
  let result := copy_str cleaned "capacity" result "capacity" in
  let result := copy_str cleaned "slots" result "slots" in
  let result := copy_str cleaned "EC" result "ec" in
  let result := copy_str cleaned "note" result "note" in
  let result := copy_str cleaned "max-module-size" result "max_module_size" in
  let result := copy_str cleaned "modules" result "modules_count" in
  memory_module result cleaned.

(** [re.search(r"([\d.]+)", v)] *)
Definition re_numeral (v : value) : res (option string) :=
  match v with
  | VStr s => Ok (search_numeral s)
  | _ => Raise TypeError
  end.

(** The [try] block of lines 551-558. *)
Definition memory_ratio (result : entries) (total used : value) : res entries :=
  total_match <- re_numeral total ;;
  used_match <- re_numeral used ;;
  match total_match, used_match with
  | Some t, Some u =>
      total_val <- float_of_numeral t ;;
      used_val <- float_of_numeral u ;;
      if (0 <? Qnum total_val)%Z
      then Ok (dset result "used_percent"
                 (VFloat (round1 (Qred ((used_val / total_val) * inject_Z 100)))))
      else Ok result
  | _, _ => Ok result
  end.

(** Lines 549-560: [used_percent], with
    [except (ValueError, ZeroDivisionError): pass]. *)
Definition memory_percent (result : entries) : res entries :=
  total <- getitem result "total" ;;
  used <- getitem result "used" ;;
  if truthy total && truthy used then
    match memory_ratio result total used with
    | Ok result' => Ok result'
    | Raise ValueError => Ok result
    | Raise e => Raise e
    end
  else Ok result.

(** [InxiParser._parse_memory_section] *)
Definition parse_memory_section (items : value) : res value :=
  its <- py_iter items ;;
  result <- foldM memory_item memory_default its ;;
  result <- memory_percent result ;;
  Ok (VDict Local result).

(** ** The host

    What the enrichment sub-collectors read from the machine.  Each external
    query is indexed by the position of the section being parsed, so that the
    machine may answer differently every time it is asked. *)

Record sysinfo : Type := {
  uptime : option string;        (* [uptime -p], stripped, when it succeeds *)
  hostname : option string;      (* [hostname] *)
  shell : string;                (* [$SHELL], or the first line of its [--version] *)
  install_date : option string   (* the date of the first line of the pacman log *)
}.

Record host : Type := {
  (** [ip_map] of [_add_ip_addresses], as built from [ip -j addr]:
      interface name to (ipv4, ipv6); [None] when the command fails, exits
      with an error or prints something that is no JSON table.  The boolean
      tells the call on [devices] from the one on [virtual_devices]. *)
  ip_table : nat -> bool -> option (list (key * (value * value)));
  (** [_get_network_routing_info()]: gateway, DNS servers, gateway interface *)
  routing : nat -> string * list string * string;
  (** [_collect_extra_system_info()] *)
  extra_info : nat -> sysinfo;
  (** the output of [sensors], when the command succeeds *)
  sensors_output : nat -> option string
}.

(** ** The Audio parser *)

(** Lines 576-598 and 622-645: the attributes of a USB or PCIe device. *)
Definition bus_attributes (device cleaned : entries) (is_usb : bool) : entries :=
  if is_usb then
    let device := dset device "usb_speed" (gets cleaned "speed") in
    dset device "usb_rev" (gets cleaned "rev")
  else
    let device := dset device "pcie_gen" (gets cleaned "gen") in
    let device := dset device "pcie_speed" (gets cleaned "speed") in
    dset device "pcie_lanes" (gets cleaned "lanes").

(** The body of the loop of [_parse_audio_section]. *)
Definition audio_item (result : entries) (item : value) : res entries :=
  cleaned <- clean_item item ;;
  if dhas cleaned "Device" then
    device_type <- py_upper (gets cleaned "type") ;;
    let is_usb := String.eqb device_type "USB" in
    let device :=
      [ "name" ~> gets cleaned "Device"; "vendor" ~> gets cleaned "vendor";
        "driver" ~> gets cleaned "driver"; "bus_id" ~> gets cleaned "bus-ID";
        "chip_id" ~> gets cleaned "chip-ID"; "class_id" ~> gets cleaned "class-ID";
        "type" ~> VStr (if String.eqb device_type "" then "PCI" else device_type);
        "serial" ~> gets cleaned "serial" ] in
    append_in result "devices" (VDict Local (bus_attributes device cleaned is_usb))
  else Ok result.

(** [InxiParser._parse_audio_section] *)
Definition parse_audio_section (items : value) : res value :=
  its <- py_iter items ;;
  result <- foldM audio_item [ "devices" ~> VList Local [] ] its ;;
  Ok (VDict Local result).

(** ** The Network parser *)

Definition virtual_keywords : list string :=
  [ "veth"; "docker"; "virbr"; "br-"; "vbox"; "vmnet" ].

(** The loop state: [result] and [current_device] ([None] or a dict made by
    the loop). *)
Definition net_state : Type := entries * option entries.

(** Lines 618-645: a hardware device entry. *)
Definition network_device (st : net_state) (cleaned : entries) : res net_state :=
  let (result, current_device) := st in
  result <- match current_device with
            | Some dev => append_in result "devices" (VDict Local dev)
            | None => Ok result
            end ;;
  device_type <- py_upper (gets cleaned "type") ;;
  let is_usb := String.eqb device_type "USB" in
  let device :=
    [ "name" ~> gets cleaned "Device"; "vendor" ~> gets cleaned "vendor";
      "driver" ~> gets cleaned "driver"; "bus_id" ~> gets cleaned "bus-ID";
      "chip_id" ~> gets cleaned "chip-ID"; "class_id" ~> gets cleaned "class-ID";
      "port" ~> gets cleaned "port"; "mac" ~> gets cleaned "mac";
      "type" ~> VStr (if String.eqb device_type "" then "PCI" else device_type) ] in
  Ok (result, Some (bus_attributes device cleaned is_usb)).

(** Lines 648-673: an interface entry. *)
Definition network_interface (st : net_state) (cleaned : entries) : res net_state :=
  let (result, current_device) := st in
  let interface_name := dget cleaned "IF" (gets cleaned "IF-ID") in
  let interface_info :=
    [ "IF" ~> interface_name; "state" ~> gets cleaned "state";
      "mac" ~> gets cleaned "mac"; "speed" ~> gets cleaned "speed";
      "duplex" ~> gets cleaned "duplex"; "ip" ~> gets cleaned "ip";
      "ipv6" ~> gets cleaned "ipv6" ] in
  low <- py_lower interface_name ;;
  let is_virtual := any_in virtual_keywords low in
  match current_device with
  | Some dev =>
      result <- append_in result "devices" (VDict Local (dupdate dev interface_info)) ;;
      Ok (result, None)
  | None =>
      let interface_info := dset interface_info "name" interface_name in
      result <- append_in result (if is_virtual then "virtual_devices" else "devices")
                  (VDict Local interface_info) ;;
      Ok (result, None)
  end.

(** The body of the loop of [_parse_network_section]. *)
Definition network_item (st : net_state) (item : value) : res net_state :=
  cleaned <- clean_item item ;;
  if dhas cleaned "Device" then network_device st cleaned
  else if dhas cleaned "IF" || dhas cleaned "IF-ID" then network_interface st cleaned
  else Ok st.

Fixpoint ip_lookup (ip_map : list (key * (value * value))) (k : key)
  : option (value * value) :=
  match ip_map with
  | [] => None
  | (k', a) :: m => if key_eqb k' k then Some a else ip_lookup m k
  end.

(** Lines 717-722: one device of the loop of [_add_ip_addresses]. *)
Definition ip_device (ip_map : list (key * (value * value))) (device : value) : res value :=
  name <- py_get device "name" E ;;
  ifname <- py_get device "IF" name ;;
  if truthy ifname then
    k <- hash_key ifname ;;
    match ip_lookup ip_map k with
    | Some (ipv4, ipv6) =>
        ip <- py_get device "ip" VNone ;;
        device <- (if negb (truthy ip) then py_setitem device "ip" ipv4 else Ok device) ;;
        ip6 <- py_get device "ipv6" VNone ;;
        if negb (truthy ip6) then py_setitem device "ipv6" ipv6 else Ok device
    | None => Ok device
    end
  else Ok device.

(** The loop of lines 716-722 under [except Exception]: an exception ends
    the loop and leaves the devices seen so far updated.  A write to a
    caller's object is no exception and is not swallowed. *)
Fixpoint ip_loop (ip_map : list (key * (value * value))) (devices : list value)
  : res (list value) :=
  match devices with
  | [] => Ok []
  | d :: rest =>
      match ip_device ip_map d with
      | Ok d' => rest' <- ip_loop ip_map rest ;; Ok (d' :: rest')
      | Raise Clobber => Raise Clobber
      | Raise _ => Ok (d :: rest)
      end
  end.

(** [InxiParser._add_ip_addresses]: the list [devices] is read, its
    elements are written. *)
Definition add_ip_addresses (ip_map : option (list (key * (value * value))))
  (devices : value) : res value :=
  match ip_map with
  | None => Ok devices
  | Some m =>
      match devices with
      | VList o xs => xs' <- ip_loop m xs ;; Ok (VList o xs')
      | _ => Ok devices
      end
  end.

(** [InxiParser._get_network_routing_info] *)
Definition get_network_routing_info (h : host) (n : nat) : entries :=
  let '(gateway, dns, iface) := routing h n in
  [ "gateway" ~> VStr gateway;
    "dns_servers" ~> VList Local (List.map VStr dns);
    "gateway_interface" ~> VStr iface ].

(** [InxiParser._parse_network_section] *)
Definition parse_network_section (h : host) (n : nat) (items : value) : res value :=
  its <- py_iter items ;;
  st <- foldM network_item
          ([ "devices" ~> VList Local []; "virtual_devices" ~> VList Local [] ], None) its ;;
  let (result, current_device) := st in
  result <- match current_device with
            | Some dev => append_in result "devices" (VDict Local dev)
            | None => Ok result
            end ;;
  devices <- getitem result "devices" ;;
  devices <- add_ip_addresses (ip_table h n false) devices ;;
  let result := dset result "devices" devices in
  virtual_devices <- getitem result "virtual_devices" ;;
  virtual_devices <- add_ip_addresses (ip_table h n true) virtual_devices ;;
  let result := dset result "virtual_devices" virtual_devices in
  Ok (VDict Local (dupdate result (get_network_routing_info h n))).

(** ** The Disk parser *)

(** [match = re.search(r"\(([\d.]+)%\)", used_str)] and, on a match,
    [float(match.group(1))]. *)
Definition percent_of (used_str : string) : res (option Q) :=
  match search_percent used_str with
  | Some run => q <- float_of_numeral run ;; Ok (Some q)
  | None => Ok None
  end.

Definition drive_entry (cleaned : entries) : value :=
  let tech := Str.upper (py_str (gets cleaned "tech")) in
  let drive_type :=
    if Str.contains "SSD" tech then "SSD"
    else if Str.contains "NVME" tech then "NVMe"
    else "HDD" in
  let drive_type :=
    if Str.contains "nvme" (Str.lower (py_str (gets cleaned "ID")))
    then "NVMe" else drive_type in
  VDict Local
    [ "id" ~> gets cleaned "ID"; "model" ~> gets cleaned "model";
      "size" ~> VStr (py_str (gets cleaned "size"));
      "vendor" ~> gets cleaned "vendor"; "type" ~> VStr drive_type;
      "serial" ~> gets cleaned "serial"; "temp" ~> gets cleaned "temp";
      "speed" ~> gets cleaned "speed"; "lanes" ~> gets cleaned "lanes";
      "firmware" ~> gets cleaned "fw-rev"; "scheme" ~> gets cleaned "scheme";
      "block_physical" ~> gets cleaned "physical";
      "block_logical" ~> gets cleaned "logical";
      "maj_min" ~> gets cleaned "maj-min" ].

(** Lines 791-834: the body of the loop over the Drives items. *)
Definition disk_item (result : entries) (item : value) : res entries :=
  cleaned <- clean_item item ;;
  if dhas cleaned "Local Storage" || dhas cleaned "total" then
    let result := dset result "total_size" (VStr (py_str (gets cleaned "total"))) in
    let used_str := py_str (gets cleaned "used") in
    let result := dset result "used" (VStr used_str) in
    pct <- percent_of used_str ;;
    Ok (match pct with
        | Some q => dset result "used_percent" (VFloat q)
        | None => result
        end)
  else if dhas cleaned "model" && dhas cleaned "size" then
    append_in result "drives" (drive_entry cleaned)
  else Ok result.

(** Lines 842-866: an item of a Partition section. *)
Definition partition_item (result : entries) (item : value) : res entries :=
  cleaned <- clean_item item ;;
  if dhas cleaned "ID" then
    let used_str := py_str (gets cleaned "used") in
    pct <- percent_of used_str ;;
    let used_percent := match pct with Some q => VFloat q | None => VInt 0 end in
    append_in result "partitions"
      (VDict Local
         [ "id" ~> gets cleaned "ID";
           "raw_size" ~> VStr (py_str (gets cleaned "raw-size"));
           "size" ~> VStr (py_str (gets cleaned "size"));
           "used" ~> VStr used_str; "used_percent" ~> used_percent;
           "fs" ~> gets cleaned "fs"; "dev" ~> gets cleaned "dev";
           "label" ~> gets cleaned "label";
           "mount" ~> dget cleaned "mount" (gets cleaned "mountpoint") ])
  else Ok result.

(** Lines 869-899: an item of a Swap section. *)
Definition swap_item (result : entries) (item : value) : res entries :=
  cleaned <- clean_item item ;;
  if dhas cleaned "Kernel" || dhas cleaned "swappiness" then
    Ok (dset result "swap_kernel"
          (VDict Local
             [ "swappiness" ~> gets cleaned "swappiness";
               "cache_pressure" ~> gets cleaned "cache-pressure";
               "zswap" ~> gets cleaned "zswap";
               "compressor" ~> gets cleaned "compressor" ]))
  else if dhas cleaned "ID" || dhas cleaned "type" then
    let used_str := py_str (gets cleaned "used") in
    pct <- percent_of used_str ;;
    let used_percent := match pct with Some q => VFloat q | None => VInt 0 end in
    append_in result "swap"
      (VDict Local
         [ "id" ~> gets cleaned "ID"; "type" ~> gets cleaned "type";
           "size" ~> VStr (py_str (gets cleaned "size"));
           "used" ~> VStr used_str; "used_percent" ~> used_percent;
           "priority" ~> gets cleaned "priority"; "comp" ~> gets cleaned "comp";
           "dev" ~> dget cleaned "dev" (gets cleaned "file") ])
  else Ok result.

(** Lines 838-899: one [key, value] pair of a section of the full document. *)
Definition disk_sibling (result : entries) (kv : key * value) : res entries :=
  section_name <- clean_key_of (fst kv) ;;
  match section_name, snd kv with
  | KStr name, VList _ its =>
      if Str.contains "Partition" name then foldM partition_item result its
      else if Str.contains "Swap" name then foldM swap_item result its
      else Ok result
  | _, _ => Ok result
  end.

Definition disk_default : entries :=
  [ "drives" ~> VList Local []; "partitions" ~> VList Local [];
    "swap" ~> VList Local []; "total_size" ~> E; "used" ~> E;
    "used_percent" ~> VInt 0 ].

(** [InxiParser._parse_disk_section] *)
Definition parse_disk_section (items full_data : value) : res value :=
  its <- py_iter items ;;
  result <- foldM disk_item disk_default its ;;
  sections <- py_iter full_data ;;
  result <- foldM (fun result section =>
                     kvs <- py_items section ;;
                     foldM disk_sibling result kvs)
                  result sections ;;
  Ok (VDict Local result).

(** ** The System parser *)

Definition system_default : entries :=
  [ "host" ~> E; "kernel" ~> E; "kernel_arch" ~> E; "kernel_bits" ~> E;
    "compiler" ~> E; "compiler_version" ~> E; "desktop" ~> E;
    "desktop_version" ~> E; "wm" ~> E; "dm" ~> E; "tk" ~> E;
    "distro" ~> E; "init" ~> E ].

(** The body of the loop of [_parse_system_section]. *)
Definition system_item (result : entries) (item : value) : res entries :=
  cleaned <- clean_item item ;;
  let result := copy cleaned "Host" result "host" in
  let result := copy cleaned "Kernel" result "kernel" in
  let result := copy cleaned "arch" result "kernel_arch" in
  let result := copy_str cleaned "bits" result "kernel_bits" in
  let result := copy cleaned "compiler" result "compiler" in
  let result :=
    if dhas cleaned "Desktop" then
      let result := copy cleaned "Desktop" result "desktop" in
      copy cleaned "v" result "desktop_version"
    else result in
  let result := copy cleaned "wm" result "wm" in
  let result := copy cleaned "dm" result "dm" in
  let result := copy cleaned "tk" result "tk" in
  let result := copy cleaned "Distro" result "distro" in
  Ok (copy cleaned "Init" result "init").

Definition opt_entry (k : string) (o : option string) : entries :=
  match o with
  | Some s => [ k ~> VStr s ]
  | None => []
  end.

(** [InxiParser._collect_extra_system_info] *)
Definition collect_extra_system_info (h : host) (n : nat) : entries :=
  let i := extra_info h n in
  (opt_entry "uptime" (uptime i) ++ opt_entry "hostname" (hostname i)
     ++ [ "shell" ~> VStr (shell i) ] ++ opt_entry "install_date" (install_date i))%list.

(** [InxiParser._parse_system_section] *)
Definition parse_system_section (h : host) (n : nat) (items : value) : res value :=
  its <- py_iter items ;;
  result <- foldM system_item system_default its ;;
  Ok (VDict Local (dupdate result (collect_extra_system_info h n))).

(** ** Sorting *)

(** [a < b] on keys: text with text, numbers with numbers. *)
Definition key_lt (a b : key) : res bool :=
  match a, b with
  | KStr x, KStr y => Ok (String.ltb x y)
  | KInt x, KInt y => Ok (x <? y)%Z
  | KInt x, KFloat y => Ok (Qle_bool (inject_Z x) y && negb (Qeq_bool (inject_Z x) y))
  | KFloat x, KInt y => Ok (Qle_bool x (inject_Z y) && negb (Qeq_bool x (inject_Z y)))
  | KFloat x, KFloat y => Ok (Qle_bool x y && negb (Qeq_bool x y))
  | _, _ => Raise TypeError
  end.

Fixpoint insertM {A : Type} (lt : A -> A -> res bool) (x : A) (l : list A)
  : res (list A) :=
  match l with
  | [] => Ok [x]
  | y :: l' =>
      b <- lt x y ;;
      if b then Ok (x :: l)
      else l'' <- insertM lt x l' ;; Ok (y :: l'')
  end.

(** A stable sort that compares with [<] only: the result of [sorted] and
    [list.sort], which raise when two elements cannot be compared. *)
Definition sortM {A : Type} (lt : A -> A -> res bool) (l : list A) : res (list A) :=
  foldM (fun acc x => insertM lt x acc) [] l.

(** ** The Machine parser *)

Definition machine_default : entries :=
  [ "type" ~> E; "system" ~> E; "product" ~> E; "mobo" ~> E; "mobo_model" ~> E;
    "mobo_version" ~> E; "firmware_type" ~> E; "firmware_vendor" ~> E;
    "firmware_version" ~> E; "firmware_date" ~> E ].

(** The flags of the inner loop: [found_mobo], [found_firmware],
    [mobo_v_set]. *)
Record machine_flags : Type := {
  found_mobo : bool;
  found_firmware : bool;
  mobo_v_set : bool
}.

(** Lines 1029-1058: one key of the sorted keys of an item. *)
Definition machine_key (item : entries) (st : entries * machine_flags) (k : key)
  : res (entries * machine_flags) :=
  let (result, fl) := st in
  value <- getitem item k ;;
  if is_absent value then Ok st
  else
    ck <- clean_key_of k ;;
    let named (s : string) := key_eqb ck (KStr s) in
    if named "Type" then Ok (dset result "type" value, fl)
    else if named "System" then Ok (dset result "system" value, fl)
    else if named "product" then Ok (dset result "product" value, fl)
    else if named "Mobo" then
      Ok (dset result "mobo" value,
          {| found_mobo := true; found_firmware := found_firmware fl;
             mobo_v_set := mobo_v_set fl |})
    else if named "model" && found_mobo fl then Ok (dset result "mobo_model" value, fl)
    else if named "v" && found_mobo fl && negb (found_firmware fl) && negb (mobo_v_set fl) then
      Ok (dset result "mobo_version" value,
          {| found_mobo := found_mobo fl; found_firmware := found_firmware fl;
             mobo_v_set := true |})
    else if named "Firmware" then
      Ok (dset result "firmware_type" value,
          {| found_mobo := found_mobo fl; found_firmware := true;
             mobo_v_set := mobo_v_set fl |})
    else if named "vendor" && found_firmware fl then Ok (dset result "firmware_vendor" value, fl)
    else if named "v" && found_firmware fl then Ok (dset result "firmware_version" value, fl)
    else if named "date" then Ok (dset result "firmware_date" value, fl)
    else Ok st.

(** The body of the loop of [_parse_machine_section]. *)
Definition machine_item (result : entries) (item : value) : res entries :=
  kvs <- py_items item ;;
  sorted_keys <- sortM key_lt (List.map fst kvs) ;;
  st <- foldM (machine_key kvs)
          (result, {| found_mobo := false; found_firmware := false; mobo_v_set := false |})
          sorted_keys ;;
  Ok (fst st).

(** [InxiParser._parse_machine_section] *)
Definition parse_machine_section (items : value) : res value :=
  its <- py_iter items ;;
  result <- foldM machine_item machine_default its ;;
  Ok (VDict Local result).

(** ** The Battery parser *)

(** Lines 1079-1084 *)
Definition battery_charge (cleaned : entries) : res value :=
  match dfind cleaned (KStr "charge") with
  | Some c =>
      match search_decimal (py_str c) with
      | Some run => q <- float_of_numeral run ;; Ok (VFloat q)
      | None => Ok (VInt 0)
      end
  | None => Ok (VInt 0)
  end.

(** Lines 1086-1092 *)
Definition battery_volts (cleaned : entries) : value :=
  match dfind cleaned (KStr "volts") with
  | Some v => VStr (if is_number v then py_str v ++ " V" else py_str v)
  | None => E
  end.

(** The body of the loop of [_parse_battery_section]. *)
Definition battery_item (result : entries) (item : value) : res entries :=
  cleaned <- clean_item item ;;
  if dhas cleaned "ID" || dhas cleaned "charge" then
    let result := dset result "present" (VBool true) in
    charge <- battery_charge cleaned ;;
    append_in result "batteries"
      (VDict Local
         [ "id" ~> gets cleaned "ID"; "charge" ~> charge;
           "condition" ~> gets cleaned "condition"; "volts" ~> battery_volts cleaned;
           "volts_min" ~> gets cleaned "min"; "model" ~> gets cleaned "model";
           "type" ~> gets cleaned "type"; "serial" ~> gets cleaned "serial";
           "charging" ~> gets cleaned "charging"; "status" ~> gets cleaned "status";
           "cycles" ~> gets cleaned "cycles" ])
  else Ok result.

(** [first[k]] *)
Definition py_getitem (o : value) (k : key) : res value :=
  match o with
  | VDict _ kvs => getitem kvs k
  | _ => Raise TypeError
  end.

(** Lines 1109-1128: the first battery, flattened. *)
Definition battery_flatten (result : entries) : res entries :=
  batteries <- getitem result "batteries" ;;
  match batteries with
  | VList _ (first :: _) =>
      charge <- py_getitem first "charge" ;;
      status <- py_getitem first "status" ;;
      condition <- py_getitem first "condition" ;;
      model <- py_getitem first "model" ;;
      volts <- py_getitem first "volts" ;;
      serial <- py_getitem first "serial" ;;
      type <- py_getitem first "type" ;;
      cycles <- py_getitem first "cycles" ;;
      Ok (dset (dset (dset (dset (dset (dset (dset (dset result
           "charge" charge) "status" status) "condition" condition) "model" model)
           "volts" volts) "serial" serial) "type" type) "cycles" cycles)
  | _ =>
      Ok (dset (dset (dset (dset (dset (dset (dset (dset result
           "charge" (VInt 0)) "status" E) "condition" E) "model" E)
           "volts" E) "serial" E) "type" E) "cycles" E)
  end.

(** [InxiParser._parse_battery_section] *)
Definition parse_battery_section (items : value) : res value :=
  its <- py_iter items ;;
  result <- foldM battery_item
              [ "present" ~> VBool false; "batteries" ~> VList Local [] ] its ;;
  result <- battery_flatten result ;;
  Ok (VDict Local result).

(** ** The Sensors parser *)

(** [result["temps"].append({"name": name, "temp": temp})] *)
Definition add_temp (result : entries) (name : string) (temp : value) : res entries :=
  append_in result "temps" (VDict Local [ "name" ~> VStr name; "temp" ~> temp ]).

(** Lines 1147-1154: the [cpu] reading. *)
Definition sensors_cpu (result cleaned : entries) : res entries :=
  match dfind cleaned (KStr "cpu") with
  | Some temp_val =>
      if is_number temp_val then add_temp result "CPU" temp_val
      else match temp_val with
           | VStr s =>
               match search_numeral s with
               | Some run =>
                   q <- float_of_numeral run ;;
                   add_temp result "CPU" (VFloat q)
               | None => Ok result
               end
           | _ => Ok result
           end
  | None => Ok result
  end.

(** Lines 1156-1164: the [mobo] and [gpu] readings. *)
Definition sensors_scalar (k name : string) (result cleaned : entries) : res entries :=
  match dfind cleaned (KStr k) with
  | Some temp_val =>
      if is_number temp_val then add_temp result name temp_val else Ok result
  | None => Ok result
  end.

(** The body of the loop of [_parse_sensors_section]. *)
Definition sensors_item (result : entries) (item : value) : res entries :=
  cleaned <- clean_item item ;;
  result <- sensors_cpu result cleaned ;;
  result <- sensors_scalar "mobo" "Motherboard" result cleaned ;;
  sensors_scalar "gpu" "GPU" result cleaned.

(** [InxiParser._parse_sensors_section] *)
Definition parse_sensors_section (h : host) (n : nat) (items : value) : res value :=
  its <- py_iter items ;;
  result <- foldM sensors_item
              [ "temps" ~> VList Local []; "fans" ~> VList Local [];
                "sensors_cmd" ~> E ] its ;;
  Ok (VDict Local
        (match sensors_output h n with
         | Some out => dset result "sensors_cmd" (VStr out)
         | None => result
         end)).

(** ** The Info parser *)

(** The body of the loop of [_parse_info_section]. *)
Definition info_item (result : entries) (item : value) : res entries :=
  cleaned <- clean_item item ;;
  let result :=
    if dhas cleaned "total" && dhas cleaned "available" then
      let result := dset result "memory_total" (gets cleaned "total") in
      let result := dset result "memory_available" (gets cleaned "available") in
      dset result "memory_used" (gets cleaned "used")
    else result in
  let result :=
    if dhas cleaned "Processes" then
      let result := dset result "processes" (VStr (py_str (gets cleaned "Processes"))) in
      let result := dset result "uptime" (gets cleaned "uptime") in
      let result := dset result "power_states" (gets cleaned "states") in
      let result := dset result "suspend_mode" (gets cleaned "suspend") in
      let result := dset result "hibernate_mode" (gets cleaned "hibernate") in
      let result := dset result "hibernate_image" (gets cleaned "image") in
      if dhas cleaned "Init" then
        let result := dset result "init" (gets cleaned "Init") in
        let result := dset result "init_version" (gets cleaned "v") in
        dset result "init_services" (gets cleaned "services")
      else result
    else result in
  let result :=
    if dhas cleaned "Packages" then
      let result := dset result "packages" (VStr (py_str (gets cleaned "Packages"))) in
      let result := dset result "shell" (gets cleaned "Shell") in
      let result := dset result "shell_version" (gets cleaned "v") in
      let result := dset result "inxi_version" (gets cleaned "inxi") in
      let result := dset result "gcc_version" (gets cleaned "gcc") in
      dset result "clang_version" (gets cleaned "clang")
    else result in
  Ok (if dhas cleaned "Repos"
      then dset result "repos" (VStr (py_str (gets cleaned "Repos")))
      else result).

(** [InxiParser._parse_info_section]: the entries of the returned dict. *)
Definition parse_info_section (items : value) : res entries :=
  its <- py_iter items ;;
  foldM info_item [] its.

(** ** The Bluetooth parser *)

(** The body of the loop of [_parse_bluetooth_section]. *)
Definition bluetooth_item (result : entries) (item : value) : res entries :=
  cleaned <- clean_item item ;;
  if dhas cleaned "Device" then
    append_in result "devices"
      (VDict Local
         [ "name" ~> gets cleaned "Device"; "vendor" ~> gets cleaned "vendor";
           "driver" ~> gets cleaned "driver"; "bus_id" ~> gets cleaned "bus-ID";
           "chip_id" ~> gets cleaned "chip-ID"; "class_id" ~> gets cleaned "class-ID";
           "state" ~> gets cleaned "state"; "bt_version" ~> gets cleaned "bt-v" ])
  else Ok result.

(** [InxiParser._parse_bluetooth_section] *)
Definition parse_bluetooth_section (items : value) : res value :=
  its <- py_iter items ;;
  result <- foldM bluetooth_item [ "devices" ~> VList Local [] ] its ;;
  Ok (VDict Local result).

(** ** The Processes parser *)

Inductive top_section : Type := NoTop | CpuTop | MemoryTop.

(** The body of the loop of [_parse_processes_section]. *)
Definition processes_item (st : entries * top_section) (item : value)
  : res (entries * top_section) :=
  let (result, current_section) := st in
  cleaned <- clean_item item ;;
  if dhas cleaned "CPU top" then Ok (result, CpuTop)
  else if dhas cleaned "Memory top" then Ok (result, MemoryTop)
  else if dhas cleaned "command" then
    let process :=
      VDict Local [ "command" ~> gets cleaned "command"; "pid" ~> gets cleaned "pid";
                    "cpu" ~> gets cleaned "cpu"; "mem" ~> gets cleaned "mem" ] in
    match current_section with
    | CpuTop => result <- append_in result "cpu_top" process ;; Ok (result, current_section)
    | MemoryTop => result <- append_in result "memory_top" process ;; Ok (result, current_section)
    | NoTop => Ok st
    end
  else Ok st.

(** [InxiParser._parse_processes_section] *)
Definition parse_processes_section (items : value) : res value :=
  its <- py_iter items ;;
  st <- foldM processes_item
          ([ "cpu_top" ~> VList Local []; "memory_top" ~> VList Local [] ], NoTop) its ;;
  Ok (VDict Local (fst st)).

(** ** The Repos parser *)

(** Lines 1307-1309: [for key in cleaned: if "repo" in key.lower() or]
    ["Active" in key: repo_name = cleaned[key]] *)
Definition repos_name (cleaned : entries) (repo_name : value) : res value :=
  foldM (fun repo_name kv =>
           match fst kv with
           | KStr k =>
               Ok (if Str.contains "repo" (Str.lower k) || Str.contains "Active" k
                   then dget cleaned (KStr k) VNone else repo_name)
           | KNone | KInt _ | KFloat _ => Raise AttributeError
           end)
        repo_name cleaned.

(** Lines 1289-1309: an item that is a dict. *)
Definition repos_dict (st : entries * value) (item : value) : res (entries * value) :=
  let (result, repo_name) := st in
  cleaned <- clean_item item ;;
  result <- (if dhas cleaned "Packages"
             then setitem_in result "packages" "total"
                    (VStr (py_str (gets cleaned "Packages")))
             else Ok result) ;;
  result <- (if dhas cleaned "pm" then
               pm_name <- hash_key (gets cleaned "pm") ;;
               setitem_in result "packages" pm_name (dget cleaned "pkgs" (VInt 0))
             else Ok result) ;;
  repo_name <- repos_name cleaned repo_name ;;
  Ok (result, repo_name).

(** Lines 1310-1314: an item that is a list of URLs. *)
Definition repos_urls (st : entries * value) (urls : list value) : res (entries * value) :=
  let (result, repo_name) := st in
  result <- foldM (fun result url =>
                     if truthy url && is_str url
                     then append_in result "repos"
                            (VDict Local [ "name" ~> repo_name; "url" ~> url ])
                     else Ok result)
                  result urls ;;
  Ok (result, repo_name).

(** The body of the loop of [_parse_repos_section]. *)
Definition repos_item (st : entries * value) (item : value) : res (entries * value) :=
  match item with
  | VDict _ _ => repos_dict st item
  | VList _ urls => repos_urls st urls
  | _ => Ok st
  end.

(** [InxiParser._parse_repos_section] *)
Definition parse_repos_section (items : value) : res value :=
  let result := [ "packages" ~> VDict Local []; "repos" ~> VList Local [] ] in
  match items with
  | VList _ its =>
      st <- foldM repos_item (result, E) its ;;
      Ok (VDict Local (fst st))
  | _ => Ok (VDict Local result)
  end.

(** ** The USB parser *)

(** The body of the loop of [_parse_usb_section]. *)
Definition usb_item (result : entries) (item : value) : res entries :=
  cleaned <- clean_item item ;;
  if dhas cleaned "Hub" then
    append_in result "hubs"
      (VDict Local
         [ "name" ~> gets cleaned "Hub"; "info" ~> gets cleaned "info";
           "ports" ~> gets cleaned "ports"; "rev" ~> gets cleaned "rev";
           "speed" ~> gets cleaned "speed"; "lanes" ~> gets cleaned "lanes";
           "mode" ~> gets cleaned "mode"; "chip_id" ~> gets cleaned "chip-ID";
           "class_id" ~> gets cleaned "class-ID" ])
  else if dhas cleaned "Device" then
    append_in result "devices"
      (VDict Local
         [ "name" ~> gets cleaned "Device"; "info" ~> gets cleaned "info";
           "type" ~> gets cleaned "type"; "driver" ~> gets cleaned "driver";
           "interfaces" ~> gets cleaned "interfaces"; "rev" ~> gets cleaned "rev";
           "speed" ~> gets cleaned "speed"; "lanes" ~> gets cleaned "lanes";
           "mode" ~> gets cleaned "mode"; "power" ~> gets cleaned "power";
           "chip_id" ~> gets cleaned "chip-ID"; "class_id" ~> gets cleaned "class-ID";
           "serial" ~> gets cleaned "serial" ])
  else Ok result.

(** [InxiParser._parse_usb_section] *)
Definition parse_usb_section (items : value) : res value :=
  its <- py_iter items ;;
  result <- foldM usb_item [ "devices" ~> VList Local []; "hubs" ~> VList Local [] ] its ;;
  Ok (VDict Local result).

(** ** The cross-section synthesizer *)

(** [k in seen_bus_ids] *)
Definition seen_has (seen : list key) (k : key) : bool := existsb (key_eqb k) seen.

(** The dict appended for an accepted device (lines 144-155, 165-176,
    186-197). *)
Definition pci_entry (device bus_id : value) (class_default category : string)
  : res value :=
  name <- py_get device "name" E ;;
  vendor <- py_get device "vendor" E ;;
  driver <- py_get device "driver" E ;;
  chip_id <- py_get device "chip_id" E ;;
  class_id <- py_get device "class_id" (VStr class_default) ;;
  pcie_gen <- py_get device "pcie_gen" E ;;
  pcie_speed <- py_get device "pcie_speed" E ;;
  pcie_lanes <- py_get device "pcie_lanes" E ;;
  Ok (VDict Local
        [ "name" ~> name; "vendor" ~> vendor; "driver" ~> driver;
          "bus_id" ~> bus_id; "chip_id" ~> chip_id; "class_id" ~> class_id;
          "category" ~> VStr category; "pcie_gen" ~> pcie_gen;
          "pcie_speed" ~> pcie_speed; "pcie_lanes" ~> pcie_lanes ]).

(** The loop state: the list [devices] and the set [seen_bus_ids]. *)
Definition pci_state : Type := list value * list key.

(** [if bus_id not in seen_bus_ids: seen_bus_ids.add(bus_id);]
    [devices.append({...})] *)
Definition pci_accept (st : pci_state) (device bus_id : value)
  (class_default category : string) : res pci_state :=
  let (devices, seen) := st in
  k <- hash_key bus_id ;;
  if negb (seen_has seen k) then
    e <- pci_entry device bus_id class_default category ;;
    Ok ((devices ++ [e])%list, k :: seen)
  else Ok st.

(** Lines 140-155: a device of the GPU record. *)
Definition pci_gpu (st : pci_state) (device : value) : res pci_state :=
  bus_id <- py_get device "bus_id" E ;;
  if truthy bus_id then pci_accept st device bus_id "0300" "Graphics"
  else Ok st.

(** Lines 159-176 and 180-197: a device of the Audio or Network record;
    only bus addresses with a [:] and no [-] are PCI ones. *)
Definition pci_filtered (class_default category : string) (st : pci_state)
  (device : value) : res pci_state :=
  bus_id <- py_get device "bus_id" E ;;
  if truthy bus_id then
    colon <- py_in_str ":" bus_id ;;
    if colon then
      dash <- py_in_str "-" bus_id ;;
      if negb dash then pci_accept st device bus_id class_default category
      else Ok st
    else Ok st
  else Ok st.

(** [parsed_data.get(category, {}).get("devices", [])] *)
Definition pci_source (parsed_data : entries) (category : string) : res value :=
  py_get (dget parsed_data (KStr category) (VDict Local [])) "devices" (VList Local []).

(** The sort key [lambda d: d.get("bus_id", "")] and its order. *)
Definition bus_lt (a b : value) : res bool :=
  x <- py_get a "bus_id" E ;;
  y <- py_get b "bus_id" E ;;
  kx <- hash_key x ;;
  ky <- hash_key y ;;
  key_lt kx ky.

(** Lines 135-197: the three scans, before the sort. *)
Definition pci_scan (parsed_data : entries) : res pci_state :=
  gpu_devices <- pci_source parsed_data "gpu" ;;
  gpu_devices <- py_iter gpu_devices ;;
  st <- foldM pci_gpu ([], []) gpu_devices ;;
  audio_devices <- pci_source parsed_data "audio" ;;
  audio_devices <- py_iter audio_devices ;;
  st <- foldM (pci_filtered "0403" "Audio") st audio_devices ;;
  network_devices <- pci_source parsed_data "network" ;;
  network_devices <- py_iter network_devices ;;
  foldM (pci_filtered "0200" "Network") st network_devices.

(** [InxiParser._extract_pci_devices] *)
Definition extract_pci_devices (parsed_data : entries) : res value :=
  st <- pci_scan parsed_data ;;
  devices <- sortM bus_lt (fst st) ;;
  Ok (VDict Local [ "devices" ~> VList Local devices;
                    "count" ~> VInt (Z.of_nat (List.length devices)) ]).

(** ** The orchestrator *)

(** The pre-seeded result of [parse_full]. *)
Definition seed : entries :=
  [ "cpu" ~> VDict Local []; "gpu" ~> VDict Local []; "memory" ~> VDict Local [];
    "audio" ~> VDict Local []; "network" ~> VDict Local []; "disk" ~> VDict Local [];
    "machine" ~> VDict Local []; "system" ~> VDict Local []; "battery" ~> VDict Local [];
    "sensors" ~> VDict Local []; "bluetooth" ~> VDict Local [] ].

(** [result[k] = parser(value)] *)
Definition store (result : entries) (k : string) (r : res value) : res entries :=
  v <- r ;; Ok (dset result (KStr k) v).

(** [d[k].update(e)] *)
Definition update_in (d : entries) (k : key) (e : entries) : res entries :=
  o <- getitem d k ;;
  o' <- py_update o e ;;
  Ok (dset d k o').

(** Lines 81-115: the dispatch on the cleaned section name.  [n] counts the
    sections seen so far. *)
Definition dispatch (h : host) (data : value) (n : nat) (result : entries)
  (name : string) (value : value) : res entries :=
  if Str.contains "CPU" name then store result "cpu" (parse_cpu_section value)
  else if Str.contains "Graphics" name then store result "gpu" (parse_gpu_section value)
  else if Str.contains "Memory" name then store result "memory" (parse_memory_section value)
  else if Str.contains "Audio" name then store result "audio" (parse_audio_section value)
  else if Str.contains "Network" name then
    store result "network" (parse_network_section h n value)
  else if Str.contains "Drives" name then store result "disk" (parse_disk_section value data)
  else if Str.contains "System" name then
    store result "system" (parse_system_section h n value)
  else if Str.contains "Machine" name then store result "machine" (parse_machine_section value)
  else if Str.contains "Battery" name then store result "battery" (parse_battery_section value)
  else if Str.contains "Sensors" name then
    store result "sensors" (parse_sensors_section h n value)
  else if Str.contains "Info" name then
    info_data <- parse_info_section value ;;
    let result :=
      if negb (dhas result "system") then dset result "system" (VDict Local []) else result in
    update_in result "system" info_data
  else if Str.contains "Processes" name then
    store result "processes" (parse_processes_section value)
  else if Str.contains "Repos" name then store result "repos" (parse_repos_section value)
  else if Str.contains "USB" name then store result "usb_inxi" (parse_usb_section value)
  else if Str.contains "Bluetooth" name then
    store result "bluetooth" (parse_bluetooth_section value)
  else Ok result.

(** The body of [for key, value in section.items()]. *)
Definition parse_entry (h : host) (data : value) (st : entries * nat) (kv : key * value)
  : res (entries * nat) :=
  let (result, n) := st in
  section_name <- clean_key_of (fst kv) ;;
  match section_name with
  | KStr name =>
      result <- dispatch h data n result name (snd kv) ;;
      Ok (result, S n)
  | KNone | KInt _ | KFloat _ => Raise TypeError
  end.

(** The body of [for section in data]. *)
Definition parse_section (h : host) (data : value) (st : entries * nat) (section : value)
  : res (entries * nat) :=
  kvs <- py_items section ;;
  foldM (parse_entry h data) st kvs.

(** [InxiParser.parse_full] *)
Definition parse_full (h : host) (data : value) : res value :=
  let result := seed in
  if negb (truthy data) || negb (is_list data) then Ok (VDict Local result)
  else
    sections <- py_iter data ;;
    st <- foldM (parse_section h data) (result, O) sections ;;
    let result := fst st in
    pci <- extract_pci_devices result ;;
    Ok (VDict Local (dset result "pci_inxi" pci)).

(** A machine on which every external query fails. *)
Definition silent_host : host :=
  {| ip_table := fun _ _ => None;
     routing := fun _ => ("", [], "");
     extra_info := fun _ => {| uptime := None; hostname := None; shell := "";
                               install_date := None |};
     sensors_output := fun _ => None |}.

(** A dict and a list of the input document. *)
Definition obj (kvs : list (key * value)) : value := VDict Caller kvs.
Definition arr (xs : list value) : value := VList Caller xs.

(** ** Vocabulary of the statements *)

(** The eleven categories the orchestrator seeds. *)
Definition category_keys : list string :=
  [ "cpu"; "gpu"; "memory"; "audio"; "network"; "disk"; "machine"; "system";
    "battery"; "sensors"; "bluetooth" ].

(** Every key of [ks] is present in [d] and holds a mapping. *)
Definition all_dicts (ks : list string) (d : entries) : Prop :=
  Forall (fun k => exists o e, dfind d (KStr k) = Some (VDict o e)) ks.

(** [r] is a mapping that holds a mapping under each of the eleven
    category keys. *)
Definition schema_complete (r : value) : Prop :=
  exists o kvs, r = VDict o kvs /\ all_dicts category_keys kvs.

(** [m], when it returns, returns a dict of its own making. *)
Definition returns_dict (m : res value) : Prop :=
  forall r, m = Ok r -> exists d, r = VDict Local d.

(** The two-section document of the specification's end-to-end scenario. *)
Definition scenario : value :=
  arr [ obj [ "000#1#1#CPU" ~>
                arr [ obj [ "001#1#1#model" ~> VStr "Test CPU";
                            "002#1#1#cores" ~> VInt 4;
                            "003#1#1#threads" ~> VInt 8 ] ] ];
        obj [ "010#1#1#Graphics" ~>
                arr [ obj [ "011#1#1#Device" ~> VStr "Test GPU";
                            "012#1#1#vendor" ~> VStr "Test Vendor";
                            "013#1#1#bus-ID" ~> VStr "01:00.0" ] ] ] ].

(** The bus address of a device record, as the set [seen_bus_ids] keys it. *)
Definition bus_key (d : value) : res key :=
  b <- py_get d "bus_id" E ;; hash_key b.

(** The device [d] sits at the bus address [k]. *)
Definition has_bus (k : key) (d : value) : bool :=
  match bus_key d with
  | Ok k' => key_eqb k' k
  | Raise _ => false
  end.

(** The unified entry [e] was made from a device of the list [gpu_devices]. *)
Definition gpu_sourced (gpu_devices : list value) (e : value) : Prop :=
  exists g b, In g gpu_devices /\ py_get g "bus_id" E = Ok b
              /\ pci_entry g b "0300" "Graphics" = Ok e.

(** A parsed model in which the GPU and its HDMI audio function report the
    same bus address, and one network device hangs off USB. *)
Definition shared_bus_model : entries :=
  [ "gpu" ~> VDict Local
      [ "devices" ~> VList Local
          [ VDict Local [ "name" ~> VStr "Navi 23"; "bus_id" ~> VStr "03:00.0" ] ] ];
    "audio" ~> VDict Local
      [ "devices" ~> VList Local
          [ VDict Local [ "name" ~> VStr "Navi HDMI Audio"; "bus_id" ~> VStr "03:00.0" ];
            VDict Local [ "name" ~> VStr "Starship Audio"; "bus_id" ~> VStr "00:1f.3" ] ] ];
    "network" ~> VDict Local
      [ "devices" ~> VList Local
          [ VDict Local [ "name" ~> VStr "RTL8111"; "bus_id" ~> VStr "02:00.0" ];
            VDict Local [ "name" ~> VStr "USB LAN"; "bus_id" ~> VStr "1-3:1.0" ] ] ] ].

(** The bus addresses of the entries of [devices] are pairwise distinct. *)
Definition distinct_bus_ids (devices : list value) : Prop :=
  forall i j di dj,
    i <> j -> nth_error devices i = Some di -> nth_error devices j = Some dj ->
    exists ki kj, bus_key di = Ok ki /\ bus_key dj = Ok kj /\ key_eqb ki kj = false.

(** For every GPU device with a non-empty bus address, [devices] holds one
    entry at that address, and it is the one made from a GPU device. *)
Definition gpu_wins (parsed : entries) (devices : list value) : Prop :=
  forall gpu_list gpu_devices g b k,
    pci_source parsed "gpu" = Ok gpu_list -> py_iter gpu_list = Ok gpu_devices ->
    In g gpu_devices -> py_get g "bus_id" E = Ok b -> truthy b = true ->
    hash_key b = Ok k ->
    exists e, In e devices /\ has_bus k e = true /\ gpu_sourced gpu_devices e
              /\ forall e', In e' devices -> has_bus k e' = true -> e' = e.

(** The cleaned form of an item (empty when the cleaning loop raises). *)
Definition cleaned_of (item : value) : entries :=
  match clean_item item with
  | Ok cleaned => cleaned
  | Raise _ => []
  end.

(** [cleaned.get(k, "").lower()] (empty when the field is no text). *)
Definition lowered (cleaned : entries) (k : string) : string :=
  match py_lower (gets cleaned k) with
  | Ok s => s
  | Raise _ => ""
  end.

(** The item matches the webcam keywords and not the GPU keywords. *)
Definition webcam_only (cleaned : entries) : bool :=
  is_webcam (lowered cleaned "Device") (lowered cleaned "driver")
  && negb (is_gpu (lowered cleaned "Device") (lowered cleaned "driver")).

(** The cleaned items of a section that carry the key [k]. *)
Definition carrying (k : string) (its : list value) : list entries :=
  filter (fun cleaned => dhas cleaned (KStr k)) (List.map cleaned_of its).

Definition integrated_webcam : value :=
  obj [ "011#1#1#Device" ~> VStr "Integrated Webcam"; "012#1#1#driver" ~> VStr "uvcvideo" ].

Definition rtx_3080 : value :=
  obj [ "011#1#1#Device" ~> VStr "NVIDIA GeForce RTX 3080" ].

(** The item has a field [k] that [int] accepts. *)
Definition reports_int (k : string) (cleaned : entries) : bool :=
  match dfind cleaned (KStr k) with
  | Some v => match py_int v with Ok _ => true | Raise _ => false end
  | None => false
  end.

(** The [Info] text of the item yields a core count. *)
Definition mines_cores (cleaned : entries) : bool :=
  let low := lowered cleaned "Info" in
  truthy (gets cleaned "Info")
  && (Str.contains "quad core" low || Str.contains "octa core" low
      || Str.contains "dual core" low || Str.contains "hexa core" low
      || match search_core low with Some _ => true | None => false end).

(** [t // 2 or t] *)
Definition half_or_all (t : Z) : Z := if (t / 2 =? 0)%Z then t else (t / 2)%Z.

(** A CPU section that only lists four per-thread speeds. *)
Definition four_speeds : value :=
  arr [ obj [ "001#1#1#0" ~> VInt 2400; "002#1#1#1" ~> VInt 2400;
              "003#1#1#2" ~> VInt 2400; "004#1#1#3" ~> VInt 2400 ] ].

(** The RAM summary item as the parser accepts it: a [total] field, no
    [Device] key, and a total written in GiB or GB. *)
Definition ram_summary (cleaned : entries) : bool :=
  dhas cleaned "total" && negb (dhas cleaned "Device")
  && (Str.contains "GiB" (py_str (gets cleaned "total"))
      || Str.contains "GB" (py_str (gets cleaned "total"))).

(** A populated RAM module: [Device] and a [size] that is truthy and does
    not read "No Module". *)
Definition ram_module (cleaned : entries) : bool :=
  dhas cleaned "Device" && dhas cleaned "size"
  && truthy (gets cleaned "size")
  && negb (Str.contains "No Module" (py_str (gets cleaned "size"))).

(** The [total] of the record after the items [its]. *)
Definition ram_total (its : list value) : value :=
  match find ram_summary (List.map cleaned_of its) with
  | Some cleaned => VStr (py_str (gets cleaned "total"))
  | None => E
  end.

(** The [modules] of the record after the items [its]. *)
Definition ram_modules (its : list value) : list value :=
  List.map (fun cleaned => module_entry cleaned (gets cleaned "size"))
           (filter ram_module (List.map cleaned_of its)).

(** A summary item that reports its total in MiB. *)
Definition mib_summary : value :=
  arr [ obj [ "001#1#1#total" ~> VStr "512 MiB"; "002#1#1#used" ~> VStr "100 MiB" ] ].

(** A Memory section with a summary and two slots, one of them empty. *)
Definition two_slots : value :=
  arr [ obj [ "001#1#1#total" ~> VStr "16 GiB"; "002#1#1#used" ~> VStr "8 GiB" ];
        obj [ "003#1#1#total" ~> VStr "32 GiB" ];
        obj [ "004#1#1#Device" ~> VStr "DIMM 0"; "005#1#1#size" ~> VStr "16 GiB" ];
        obj [ "006#1#1#Device" ~> VStr "DIMM 1"; "007#1#1#size" ~> VStr "No Module Installed" ] ].

(** ** Well-formed documents *)

Definition str_keys (kvs : entries) : bool :=
  forallb (fun kv => match fst kv with KStr _ => true | _ => false end) kvs.

(** An item: a mapping whose keys are strings. *)
Definition is_item (v : value) : bool :=
  match v with
  | VDict _ kvs => str_keys kvs
  | _ => false
  end.

(** The field [k] is text, or absent. *)
Definition text_field (cleaned : entries) (k : string) : bool :=
  match dfind cleaned (KStr k) with
  | Some v => is_str v
  | None => true
  end.

(** The fields on which the parsers call string methods. *)
Definition text_fields : list string :=
  [ "Info"; "Device"; "driver"; "type"; "bus-ID"; "IF"; "IF-ID" ].

(** The percentage written in the [used] field, if any, is a number. *)
Definition used_ok (cleaned : entries) : bool :=
  match percent_of (py_str (gets cleaned "used")) with
  | Ok _ => true
  | Raise _ => false
  end.

(** The numeral written in a textual [cpu] temperature, if any, is a number. *)
Definition cpu_temp_ok (cleaned : entries) : bool :=
  match dfind cleaned (KStr "cpu") with
  | Some (VStr s) =>
      match search_numeral s with
      | Some run => match float_of_numeral run with Ok _ => true | Raise _ => false end
      | None => true
      end
  | _ => true
  end.

(** The package manager name [pm], if any, is hashable. *)
Definition pm_ok (cleaned : entries) : bool :=
  match hash_key (gets cleaned "pm") with
  | Ok _ => true
  | Raise _ => false
  end.

(** A well-formed item. *)
Definition wf_item (v : value) : bool :=
  is_item v
  && forallb (text_field (cleaned_of v)) text_fields
  && used_ok (cleaned_of v) && cpu_temp_ok (cleaned_of v) && pm_ok (cleaned_of v).

(** The section names whose value is iterated as a list of items. *)
Definition item_sections : list string :=
  [ "CPU"; "Graphics"; "Memory"; "Audio"; "Network"; "Drives"; "System";
    "Machine"; "Battery"; "Sensors"; "Info"; "Processes"; "USB"; "Bluetooth";
    "Partition"; "Swap" ].

Definition iterated (name : string) : bool := any_in item_sections name.

(** A well-formed section value: a list of well-formed items; under a
    name that is not iterated (a Repos section, an unknown section) any
    value, whose elements are well-formed where they are mappings. *)
Definition wf_section (name : string) (v : value) : bool :=
  match v with
  | VList _ its =>
      forallb (fun it => if is_dict it then wf_item it else negb (iterated name)) its
  | _ => negb (iterated name)
  end.

Definition wf_entry (kv : key * value) : bool :=
  match fst kv with
  | KStr k => wf_section (clean_key k) (snd kv)
  | _ => false
  end.

(** A well-formed document: a list of mappings from section names to
    well-formed section values. *)
Definition wf_doc (data : value) : bool :=
  match data with
  | VList _ sections =>
      forallb (fun s => match s with
                        | VDict _ kvs => forallb wf_entry kvs
                        | _ => false
                        end) sections
  | _ => false
  end.

(** Text on which the embedding is exact: every character is ASCII, so that
    the digit tests, the case mappings and the patterns of the source read
    it as they are modelled here. *)
Definition ascii_only (s : string) : bool :=
  Str.all (fun c => (nat_of_ascii c <? 128)%nat) s.

(** The number of digits up to which Python converts between [int] and
    [str] ([sys.int_info.default_max_str_digits]). *)
Definition max_str_digits : nat := 4300.

(** ASCII text no longer than [max_str_digits]: [int] raises on none of
    its runs of digits for their length. *)
Definition plain_text (s : string) : bool :=
  ascii_only s && (String.length s <=? max_str_digits)%nat.

(** A plain field value: [None], a boolean, an integer that [str] can
    print, a float, plain text or the empty list.  Each is hashable or
    absent, and [str] raises on none. *)
Definition plain_value (v : value) : bool :=
  match v with
  | VNone | VBool _ | VFloat _ => true
  | VInt z => (String.length (Z_str (Z.abs z)) <=? max_str_digits)%nat
  | VStr s => plain_text s
  | VList _ xs => match xs with [] => true | _ => false end
  | VDict _ _ => false
  end.

(** A plain item: a mapping from plain text to plain values. *)
Definition plain_item (it : value) : bool :=
  match it with
  | VDict _ kvs =>
      forallb (fun kv => match fst kv with
                         | KStr k => plain_text k
                         | _ => false
                         end && plain_value (snd kv)) kvs
  | _ => false
  end.

(** The mappings of a section value are plain items. *)
Definition plain_section (v : value) : bool :=
  match v with
  | VList _ its => forallb (fun it => if is_dict it then plain_item it else true) its
  | _ => true
  end.

(** A plain document: a well-formed document whose items are plain. *)
Definition plain_doc (data : value) : bool :=
  wf_doc data
  && match data with
     | VList _ sections =>
         forallb (fun s => match s with
                           | VDict _ kvs => forallb (fun kv => plain_section (snd kv)) kvs
                           | _ => false
                           end) sections
     | _ => false
     end.

(** The record of a device has a textual bus address. *)
Definition text_bus (e : value) : Prop :=
  exists o kvs s, e = VDict o kvs /\ dget kvs "bus_id" E = VStr s.

(** Every key of [ks] is present in [d] with a value that satisfies [p]. *)
Definition holds (p : value -> Prop) (ks : list string) (d : entries) : Prop :=
  Forall (fun k => exists v, dfind d (KStr k) = Some v /\ p v) ks.

(** A list made by the running call, whose elements satisfy [q]. *)
Definition local_list (q : value -> Prop) (v : value) : Prop :=
  exists xs, v = VList Local xs /\ Forall q xs.

(** A dict made by the running call. *)
Definition local_dict (v : value) : Prop := exists kvs, v = VDict Local kvs.

(** [m] never writes to an object of the caller; its result, if any,
    satisfies [Q]; and it does return whenever [W] holds. *)
Definition spec {A : Type} (W : Prop) (m : res A) (Q : A -> Prop) : Prop :=
  match m with
  | Ok a => Q a
  | Raise e => e <> Clobber /\ ~ W
  end.

(** Under [W], [items] is a list of well-formed items. *)
Definition item_list (W : Prop) (items : value) : Prop :=
  W -> exists o its, items = VList o its /\ Forall (fun it => wf_item it = true) its.

(** The record of a section that lists devices: a dict of the running call
    whose [devices] are a list of the running call, each a dict with, under
    [W], a textual bus address. *)
Definition device_record (W : Prop) (r : value) : Prop :=
  exists kvs, r = VDict Local kvs
              /\ holds (local_list (fun e => local_dict e /\ (W -> text_bus e)))
                       [ "devices" ] kvs.

(** An [int]. *)
Definition is_int (v : value) : Prop := exists z, v = VInt z.

(** A [str]. *)
Definition is_text (v : value) : Prop := exists s, v = VStr s.

(** The keys [_parse_battery_section] reads back from the first battery. *)
Definition battery_keys : list string :=
  [ "charge"; "status"; "condition"; "model"; "volts"; "serial"; "type"; "cycles" ].

(** A battery record: a dict with the keys that are read back. *)
Definition battery_record (e : value) : Prop :=
  exists o kvs, e = VDict o kvs
                /\ forallb (fun k => dhas kvs (KStr k)) battery_keys = true.

Definition is_kstr (k : key) : bool :=
  match k with KStr _ => true | _ => false end.

(** A well-formed section mapping. *)
Definition wf_sec (s : value) : bool :=
  match s with
  | VDict _ kvs => forallb wf_entry kvs
  | _ => false
  end.

(** A category record whose [devices], if any, are device records. *)
Definition devices_holder (W : Prop) (v : value) : Prop :=
  exists o kvs o' xs,
    v = VDict o kvs
    /\ dget kvs "devices" (VList Local []) = VList o' xs
    /\ Forall (fun e => local_dict e /\ (W -> text_bus e)) xs.

(** The invariant of the loop of [parse_full]: [system] is a dict of the
    running call, and the three records the synthesizer reads hold device
    records. *)
Definition full_inv (W : Prop) (result : entries) : Prop :=
  holds local_dict [ "system" ] result
  /\ holds (devices_holder W) [ "gpu"; "audio"; "network" ] result.

(** No run of [m] ended on a write to an object of the caller. *)
Definition input_untouched {A : Type} (m : res A) : Prop :=
  match m with
  | Raise Clobber => False
  | _ => True
  end.

(** An item that carries no field: a mapping whose keys are strings and
    whose values are all absent ([None], [""], [[]]). *)
Definition blank_item (it : value) : bool :=
  match it with
  | VDict _ kvs => forallb (fun kv => is_kstr (fst kv) && is_absent (snd kv)) kvs
  | _ => false
  end.

(** A CPU section whose one item spells its keys but reports nothing. *)
Definition hollow_cpu : value :=
  arr [ obj [ "001#1#1#model" ~> VStr ""; "002#1#1#cores" ~> VNone;
              "003#1#1#Info" ~> arr [] ] ].

(** The records of the eleven seeded categories for the section [items],
    as the per-category parsers build them. *)
Definition category_records (h : host) (n : nat) (data items : value) : list (res value) :=
  [ parse_cpu_section items; parse_gpu_section items; parse_memory_section items;
    parse_audio_section items; parse_network_section h n items;
    parse_disk_section items data; parse_system_section h n items;
    parse_machine_section items; parse_battery_section items;
    parse_sensors_section h n items; parse_bluetooth_section items ].

(** A percentage as the parsers leave it: the default [0], or a float that
    is not negative. *)
Definition percent_value (v : value) : Prop :=
  v = VInt 0 \/ exists q, v = VFloat q /\ (0 <= q)%Q.

(** The record [e] holds a percentage under [k]. *)
Definition entry_percent (k : string) (e : value) : Prop :=
  exists o kvs v, e = VDict o kvs /\ dfind kvs (KStr k) = Some v /\ percent_value v.

(** [v] is the default [0] whenever the ASCII text [u] holds nothing that
    the pattern [found] matches. *)
Definition default_without (found : string -> option string) (u : string) (v : value) : Prop :=
  ascii_only u = true -> found u = None -> v = VInt 0.

(** A partition or swap entry: its [used_percent] is a percentage, the
    default when its own [used] text holds no ["(number%)"]. *)
Definition used_entry (e : value) : Prop :=
  exists o kvs u v,
    e = VDict o kvs
    /\ dfind kvs "used" = Some (VStr u) /\ dfind kvs "used_percent" = Some v
    /\ percent_value v /\ default_without search_percent u v.

(** The percentages of a Disk record. *)
Definition disk_percents (result : entries) : Prop :=
  holds percent_value [ "used_percent" ] result
  /\ holds (local_list used_entry) [ "partitions"; "swap" ] result.

(** The number that [float] reads off the first run of digits and dots of
    [s], if there is a run and it is a number. *)
Definition numeral_of (s : string) : option Q :=
  match search_numeral s with
  | Some run => match float_of_numeral run with
                | Ok q => Some q
                | Raise _ => None
                end
  | None => None
  end.

(** The [total] and [used] texts give no ratio: one of them holds no
    number, or the total is not positive. *)
Definition no_ratio (t u : string) : Prop :=
  numeral_of t = None \/ numeral_of u = None
  \/ exists q, numeral_of t = Some q /\ (q <= 0)%Q.

(** The percentage of a Memory record: [total] and [used] are text;
    [used_percent] is a percentage (for a total of at most 300 characters:
    a longer one can read as infinity, and the ratio of two infinities is
    not a number), the default when the ASCII texts give no ratio. *)
Definition memory_reading (result : entries) : Prop :=
  exists t u v,
    dfind result "total" = Some (VStr t) /\ dfind result "used" = Some (VStr u)
    /\ dfind result "used_percent" = Some v
    /\ ((String.length t <= 300)%nat -> percent_value v)
    /\ (ascii_only t = true -> ascii_only u = true -> no_ratio t u -> v = VInt 0).

(** A Drives section that reports more than the whole. *)
Definition overfull_drives : value :=
  arr [ obj [ "001#1#1#Local Storage" ~> VStr "";
              "002#1#1#total" ~> VStr "1.82 TiB";
              "003#1#1#used" ~> VStr "4.56 TiB (250.5%)" ] ].

(** A Memory section that reports more in use than there is. *)
Definition overfull_memory : value :=
  arr [ obj [ "001#1#1#total" ~> VStr "8 GiB"; "002#1#1#used" ~> VStr "16 GiB" ] ].

(** A Battery section whose charge reads in Wh first. *)
Definition large_battery : value :=
  arr [ obj [ "001#1#1#ID" ~> VStr "BAT0";
              "002#1#1#charge" ~> VStr "150.5 Wh (99.0%)" ] ].

(** A report of those three sections. *)
Definition overfull_report : value :=
  arr [ obj [ "000#1#1#Drives" ~> overfull_drives ];
        obj [ "000#1#1#Memory" ~> overfull_memory ];
        obj [ "000#1#1#Battery" ~> large_battery ] ].

(** A report whose Drives summary writes no number between the brackets. *)
Definition garbled_report : value :=
  arr [ obj [ "000#1#1#Drives"
              ~> arr [ obj [ "001#1#1#total" ~> VStr "1 TiB";
                             "002#1#1#used" ~> VStr "x (1.2.3%)" ] ] ] ].

(** A Memory section whose total is no numeral. *)
Definition garbled_memory : value :=
  arr [ obj [ "001#1#1#total" ~> VStr "1.2.3 GiB"; "002#1#1#used" ~> VStr "8 GiB" ] ].

(** A Battery section. *)
Definition one_battery : value :=
  arr [ obj [ "001#1#1#ID" ~> VStr "BAT0"; "002#1#1#charge" ~> VStr "41.3 Wh (87.5%)" ] ].

(** The fields of a battery item whose charge names no number. *)
Definition unread_charge : entries := [ "ID" ~> VStr "BAT1"; "charge" ~> VStr "n/a" ].

(** A Disk report with a partition and a swap area that give no percentage. *)
Definition unread_partitions : value :=
  arr [ obj [ "000#1#1#Partition"
              ~> arr [ obj [ "001#1#1#ID" ~> VStr "/"; "002#1#1#used" ~> VStr "12 GiB" ] ];
              "001#1#1#Swap"
              ~> arr [ obj [ "001#1#1#ID" ~> VStr "swap-1";
                             "002#1#1#used" ~> VStr "1 GiB (25.0%)" ] ] ] ].

(** ** Invariants of the parsers

    What holds of the running record between two items of a section. *)

(** The state of the scans: every entry has a bus address that was seen, no
    address has two entries, and every address seen has an entry. *)
Record pci_inv (st : pci_state) : Prop := {
  inv_seen : forall d, In d (fst st) ->
             exists k, bus_key d = Ok k /\ seen_has (snd st) k = true;
  inv_once : forall k, (List.length (filter (has_bus k) (fst st)) <= 1)%nat;
  inv_entry : forall k, seen_has (snd st) k = true ->
              exists d, In d (fst st) /\ has_bus k d = true
}.

(** The state after the scan of the GPU devices [gs]. *)
Record gpu_stage (gs : list value) (st : pci_state) : Prop := {
  stage_inv : pci_inv st;
  stage_sourced : forall e, In e (fst st) -> gpu_sourced gs e;
  stage_seen : forall g b k, In g gs -> py_get g "bus_id" E = Ok b ->
               truthy b = true -> hash_key b = Ok k -> seen_has (snd st) k = true
}.

(** The state during the scans of the Audio and Network devices, after the
    GPU scan ended in [(gdevs, gseen)]. *)
Record later_stage (gdevs : list value) (gseen : list key) (st : pci_state) : Prop := {
  later_inv : pci_inv st;
  later_split : exists extra,
      fst st = (gdevs ++ extra)%list
      /\ forall e k, In e extra -> has_bus k e = true -> seen_has gseen k = false;
  later_seen : forall k, seen_has gseen k = true -> seen_has (snd st) k = true
}.

(** The lists [webcams] and [devices] after the items [its]. *)
Definition gpu_lists (its : list value) (result : entries) : Prop :=
  dfind result "webcams"
  = Some (VList Local (List.map webcam_entry (filter webcam_only (carrying "Device" its))))
  /\ dfind result "devices"
     = Some (VList Local
               (List.map gpu_entry
                  (filter (fun c => negb (webcam_only c)) (carrying "Device" its)))).

(** The record after the items [its], before [used_percent] is computed. *)
Definition memory_lists (its : list value) (result : entries) : Prop :=
  dfind result "total" = Some (ram_total its)
  /\ dfind result "modules" = Some (VList Local (ram_modules its)).

(** The GPU record: its devices are dicts of the running call with, under
    [W], a textual bus address; its other lists belong to the running call. *)
Definition gpu_inv (W : Prop) (result : entries) : Prop :=
  holds (local_list (fun e => local_dict e /\ (W -> text_bus e))) [ "devices" ] result
  /\ holds (local_list (fun _ => True)) [ "webcams"; "monitors" ] result.

(** The CPU record: its containers belong to the running call and its
    counts are integers. *)
Definition cpu_inv (result : entries) : Prop :=
  holds local_dict [ "core_speeds" ] result
  /\ holds (local_list (fun _ => True)) [ "vulnerabilities" ] result
  /\ holds is_int [ "threads"; "cores" ] result.

(** The Memory record: [modules] belongs to the running call, and [total]
    and [used] are text. *)
Definition memory_inv (result : entries) : Prop :=
  holds (local_list (fun _ => True)) [ "modules" ] result
  /\ holds is_text [ "total"; "used" ] result.

(** The lists under [ks] belong to the running call. *)
Definition lists_inv (ks : list string) (result : entries) : Prop :=
  holds (local_list (fun _ => True)) ks result.

(** The lists of the Disk record. *)
Definition disk_lists : list string := [ "drives"; "partitions"; "swap" ].

(** A device entry of the running call with, under [W], a textual bus address. *)
Definition device_ok (W : Prop) (e : value) : Prop := local_dict e /\ (W -> text_bus e).

(** The Network record and the device being assembled. *)
Definition net_inv (W : Prop) (st : net_state) : Prop :=
  holds (local_list (device_ok W)) [ "devices" ] (fst st)
  /\ holds (local_list local_dict) [ "virtual_devices" ] (fst st)
  /\ (forall dev, snd st = Some dev -> W -> text_bus (VDict Local dev)).

(** [q] survives the assignment of an address. *)
Definition ip_stable (q : value -> Prop) : Prop :=
  forall kvs (k : string) v,
    k = "ip" \/ k = "ipv6" -> q (VDict Local kvs) -> q (VDict Local (dset kvs k v)).

(** The Repos record: [packages] and [repos] belong to the running call. *)
Definition repos_inv (result : entries) : Prop :=
  holds local_dict [ "packages" ] result
  /\ holds (local_list (fun _ => True)) [ "repos" ] result.

(** * Further properties of the parser: vocabulary *)

(** ** The cleaning loop *)

(** An entry as the cleaning loop leaves it: a value that is not absent,
    under a textual key without [#]. *)
Definition clean_entry (kv : key * value) : Prop :=
  is_absent (snd kv) = false
  /\ exists s, fst kv = KStr s /\ Str.contains "#" s = false.

(** No key occurs twice. *)
Fixpoint keys_once (d : entries) : bool :=
  match d with
  | [] => true
  | (k, _) :: d' => negb (dhas d' k) && keys_once d'
  end.

(** A field as inxi prints it: ordering metadata, the name, the value. *)
Definition field : Type := string * string * value.

Definition field_name (f : field) : string := snd (fst f).

(** The key inxi writes for a field: ["NNN#N#N#name"]. *)
Definition numbered (f : field) : key * value :=
  (KStr (fst (fst f) ++ "#" ++ field_name f), snd f).

(** The entry the field stands for. *)
Definition plain (f : field) : key * value := (KStr (field_name f), snd f).

(** A field that reports something under a name without [#]. *)
Definition reported (f : field) : bool :=
  negb (Str.contains "#" (field_name f)) && negb (is_absent (snd f)).

Definition cpu_fields : list field :=
  [ ("001#1#1", "model", VStr "Test CPU"); ("002#1#1", "cores", VInt 4);
    ("003#1#2", "L2", VStr "4 MiB") ].

(** ** Sections the orchestrator does not know *)

(** The words the dispatch looks for in a section name. *)
Definition section_words : list string :=
  [ "CPU"; "Graphics"; "Memory"; "Audio"; "Network"; "Drives"; "System";
    "Machine"; "Battery"; "Sensors"; "Info"; "Processes"; "Repos"; "USB";
    "Bluetooth" ].

(** A mapping all of whose section names are text and contain none of the
    words. *)
Definition unknown_section (s : value) : bool :=
  match s with
  | VDict _ kvs =>
      forallb (fun kv => match fst kv with
                         | KStr k => negb (any_in section_words (clean_key k))
                         | _ => false
                         end) kvs
  | _ => false
  end.

(** What [parse_full] returns when no section fed a category. *)
Definition bare_model : entries :=
  dset seed "pci_inxi"
       (VDict Local [ "devices" ~> VList Local []; "count" ~> VInt 0 ]).

(** A Partition section and a section of another tool, without a Drives
    section. *)
Definition stray_sections : list value :=
  [ obj [ "000#1#0#Partition" ~>
            arr [ obj [ "001#1#1#ID" ~> VStr "/"; "002#1#1#used" ~> VStr "9 GiB (41.1%)" ] ] ];
    obj [ "100#1#0#Weather" ~> VStr "sunny" ] ].

(** ** The system record *)

(** The keys [_collect_extra_system_info] can add. *)
Definition extra_keys : list string := [ "uptime"; "hostname"; "shell"; "install_date" ].

(** The keys of the record [_parse_system_section] returns. *)
Definition system_keys : list string :=
  (List.map (fun kv => match fst kv with KStr s => s | _ => "" end) system_default
     ++ extra_keys)%list.

(** The words the dispatch tests before ["System"]. *)
Definition before_system : list string :=
  [ "CPU"; "Graphics"; "Memory"; "Audio"; "Network"; "Drives" ].

(** An Info section followed by a System section. *)
Definition info_then_system : list value :=
  [ obj [ "000#1#0#Info" ~>
            arr [ obj [ "001#1#1#Processes" ~> VInt 312; "002#1#1#uptime" ~> VStr "2h" ] ] ];
    obj [ "100#1#0#System" ~>
            arr [ obj [ "101#1#1#Host" ~> VStr "box"; "102#1#1#Kernel" ~> VStr "6.9" ] ] ] ].

(** ** The unified PCI list *)

(** The keys of an entry of the unified list, in order. *)
Definition pci_keys : list key :=
  [ KStr "name"; KStr "vendor"; KStr "driver"; KStr "bus_id"; KStr "chip_id";
    KStr "class_id"; KStr "category"; KStr "pcie_gen"; KStr "pcie_speed";
    KStr "pcie_lanes" ].

Definition pci_categories : list string := [ "Graphics"; "Audio"; "Network" ].

(** An entry of the unified list: the ten keys, a bus address that is not
    empty, one of the three categories, and, outside Graphics, a bus address
    with a [:] and without a [-]. *)
Definition pci_entry_ok (e : value) : Prop :=
  exists kvs bus cat,
    e = VDict Local kvs
    /\ List.map fst kvs = pci_keys
    /\ dfind kvs "bus_id" = Some bus /\ truthy bus = true
    /\ dfind kvs "category" = Some (VStr cat) /\ In cat pci_categories
    /\ (cat <> "Graphics" ->
        py_in_str ":" bus = Ok true /\ py_in_str "-" bus = Ok false).

(** [a] does not sort after [b]: the comparison [b < a] of the sort keys
    is made and fails. *)
Definition bus_not_after (a b : value) : Prop := bus_lt b a = Ok false.

(** Every element stands in [le] to every later one. *)
Fixpoint sorted_by {A : Type} (le : A -> A -> Prop) (l : list A) : Prop :=
  match l with
  | [] => True
  | a :: l' => Forall (le a) l' /\ sorted_by le l'
  end.

(** [q < r] as [key_lt] computes it on floats. *)
Definition Qltb (q r : Q) : bool := Qle_bool q r && negb (Qeq_bool q r).

(** The number a numeric key denotes. *)
Definition key_num (k : key) : option Q :=
  match k with
  | KInt z => Some (inject_Z z)
  | KFloat q => Some q
  | _ => None
  end.

(** ** Audio and network devices *)

Definition usb_attributes : list string := [ "usb_speed"; "usb_rev" ].
Definition pcie_attributes : list string := [ "pcie_gen"; "pcie_speed"; "pcie_lanes" ].

(** A hardware device entry: a type that is not empty, and exactly one of
    the two families of bus attributes, the USB one when the type is
    ["USB"] and the PCIe one otherwise. *)
Definition bus_family (e : value) : Prop :=
  exists kvs t,
    e = VDict Local kvs
    /\ dfind kvs "type" = Some (VStr t) /\ t <> ""
    /\ forallb (fun k : string => Bool.eqb (dhas kvs k) (String.eqb t "USB"))
               usb_attributes = true
    /\ forallb (fun k : string => Bool.eqb (dhas kvs k) (negb (String.eqb t "USB")))
               pcie_attributes = true.

(** The entry [e] is named after the [Device] field of the cleaned item. *)
Definition named_after (e : value) (cleaned : entries) : Prop :=
  py_get e "name" E = Ok (gets cleaned "Device").

(** The type of the entry [e] follows the [type] field of the cleaned item:
    ["PCI"] when the item has none, the text in upper case otherwise
    (stated for ASCII text). *)
Definition typed_after (e : value) (cleaned : entries) : Prop :=
  forall t, gets cleaned "type" = VStr t -> ascii_only t = true ->
            py_get e "type" E = Ok (VStr (if String.eqb t "" then "PCI" else Str.upper t)).

(** The entry [e] is made from the device item [cleaned]: one family of bus
    attributes, the item's name, the item's type. *)
Definition from_device (cleaned : entries) (e : value) : Prop :=
  bus_family e /\ named_after e cleaned /\ typed_after e cleaned.

(** An Audio section with a PCI card and a USB headset. *)
Definition two_cards : value :=
  arr [ obj [ "001#1#1#Device" ~> VStr "HDA Intel"; "002#1#1#bus-ID" ~> VStr "00:1f.3";
              "003#1#1#speed" ~> VStr "8 GT/s" ];
        obj [ "004#1#1#API" ~> VStr "ALSA" ];
        obj [ "005#1#1#Device" ~> VStr "Headset"; "006#1#1#type" ~> VStr "usb";
              "007#1#1#bus-ID" ~> VStr "1-3:2" ] ].

(** ** Addresses *)

(** What [_add_ip_addresses] may do to a device: nothing, or write [ip] and
    [ipv6] into a dict of the running call, keeping every other field and
    every address that was already there. *)
Definition ip_filled (e e' : value) : Prop :=
  e' = e
  \/ exists kvs kvs',
      e = VDict Local kvs /\ e' = VDict Local kvs'
      /\ (forall k, key_eqb "ip" k = false -> key_eqb "ipv6" k = false ->
                    dfind kvs' k = dfind kvs k)
      /\ (truthy (dget kvs "ip" VNone) = true -> dfind kvs' "ip" = dfind kvs "ip")
      /\ (truthy (dget kvs "ipv6" VNone) = true -> dfind kvs' "ipv6" = dfind kvs "ipv6").

(** The table [ip -j addr] gives for one wired interface. *)
Definition eth0_table : list (key * (value * value)) :=
  [ (KStr "eth0", (VStr "10.0.0.2", VStr "fe80::1")) ].

(** Two devices: one whose address inxi reported, one without. *)
Definition two_interfaces : list value :=
  [ VDict Local [ "IF" ~> VStr "eth0"; "ip" ~> VStr "192.168.1.9"; "ipv6" ~> E ];
    VDict Local [ "name" ~> VStr "wlan0"; "ip" ~> E ] ].

(** ** The Network record *)

(** The entry describes a hardware device: it has a [type]. *)
Definition hardware (e : value) : bool :=
  match e with
  | VDict _ kvs => dhas kvs "type"
  | _ => false
  end.

(** The device under construction, if any, counts for one. *)
Definition pending (current_device : option entries) : nat :=
  match current_device with
  | Some _ => 1
  | None => 0
  end.

(** An entry made from an interface item alone: named after the interface,
    without a [type]. *)
Definition bare_interface (virtual : bool) (e : value) : Prop :=
  exists kvs s,
    e = VDict Local kvs
    /\ dfind kvs "IF" = Some (VStr s) /\ dfind kvs "name" = Some (VStr s)
    /\ any_in virtual_keywords (Str.lower s) = virtual
    /\ hardware e = false.

(** An entry of [devices]: a hardware device, or an interface that is not
    virtual. *)
Definition listed_device (e : value) : Prop := bus_family e \/ bare_interface false e.

(** The name an interface item gives:
    [cleaned.get("IF", cleaned.get("IF-ID", ""))]. *)
Definition link_name (cleaned : entries) : value := dget cleaned "IF" (gets cleaned "IF-ID").

(** That name as text (empty when it is no text). *)
Definition link_text (cleaned : entries) : string :=
  match link_name cleaned with
  | VStr s => s
  | _ => ""
  end.

(** The interface item names a virtual interface. *)
Definition names_virtual (cleaned : entries) : bool :=
  any_in virtual_keywords (Str.lower (link_text cleaned)).

(** How the loop of the Network parser groups the cleaned items: a device
    item alone, a device item with the interface item that comes next, an
    interface item that follows no device item. *)
Inductive link : Type :=
| Alone (device : entries)
| Joined (device interface : entries)
| Loose (interface : entries).

(** One more cleaned item: the links closed so far, and the device item
    that still waits for its interface. *)
Definition link_step (st : list link * option entries) (cleaned : entries)
  : list link * option entries :=
  if dhas cleaned "Device" then
    (match snd st with
     | Some d => (fst st ++ [ Alone d ])%list
     | None => fst st
     end, Some cleaned)
  else if dhas cleaned "IF" || dhas cleaned "IF-ID" then
    ((fst st ++ [ match snd st with
                  | Some d => Joined d cleaned
                  | None => Loose cleaned
                  end ])%list, None)
  else st.

(** The links of a list of cleaned items, in the items' order. *)
Definition links_of (cs : list entries) : list link :=
  let st := fold_left link_step cs ([], None) in
  match snd st with
  | Some d => (fst st ++ [ Alone d ])%list
  | None => fst st
  end.

(** The link is listed under [virtual_devices]: a loose interface with a
    virtual name. *)
Definition goes_virtual (l : link) : bool :=
  match l with
  | Loose i => names_virtual i
  | _ => false
  end.

(** The fields an interface item writes whatever they hold, and the
    addresses, which [_add_ip_addresses] may fill where the item gives
    none. *)
Definition copied_fields : list string := [ "state"; "mac"; "speed"; "duplex" ].
Definition address_fields : list string := [ "ip"; "ipv6" ].

(** The entry [e] carries the interface item [i]: its name under [IF], its
    [state], [mac], [speed] and [duplex] (empty where the item has none),
    and its addresses where it gives them. *)
Definition from_interface (i : entries) (e : value) : Prop :=
  exists kvs,
    e = VDict Local kvs
    /\ dfind kvs "IF" = Some (link_name i)
    /\ Forall (fun k : string => dfind kvs k = Some (gets i k)) copied_fields
    /\ Forall (fun k : string => truthy (gets i k) = true -> dfind kvs k = Some (gets i k))
               address_fields.

(** The entry [e] has no interface. *)
Definition unlinked (e : value) : Prop :=
  exists kvs, e = VDict Local kvs /\ dhas kvs "IF" = false.

(** The entry [e] is the entry of the link [l]: a device item gives the
    name, the type and the bus attributes; the interface item merged into
    it gives the interface fields; a loose interface is named after
    itself and has no [type]. *)
Definition link_entry (l : link) (e : value) : Prop :=
  match l with
  | Alone d => from_device d e /\ unlinked e
  | Joined d i => from_device d e /\ from_interface i e
  | Loose i =>
      from_interface i e /\ py_get e "name" E = Ok (link_name i) /\ hardware e = false
  end.

(** The links closed after the items [pre], the entries listed for them,
    and the device that waits. *)
Definition links_inv (pre : list value) (st : net_state) : Prop :=
  let ls := fold_left link_step (List.map cleaned_of pre) ([], None) in
  exists ds vs,
    dfind (fst st) "devices" = Some (VList Local ds)
    /\ dfind (fst st) "virtual_devices" = Some (VList Local vs)
    /\ Forall2 link_entry (filter (fun l => negb (goes_virtual l)) (fst ls)) ds
    /\ Forall2 link_entry (filter goes_virtual (fst ls)) vs
    /\ match snd ls, snd st with
       | Some d, Some dev => from_device d (VDict Local dev) /\ dhas dev "IF" = false
       | None, None => True
       | _, _ => False
       end.

(** The interface names of the items are ASCII text. *)
Definition ascii_links (its : list value) : Prop :=
  Forall (fun it => ascii_only (link_text (cleaned_of it)) = true) its.

(** A Network section: a card with its interface, a container bridge, and a
    card whose interface is not reported. *)
Definition three_links : value :=
  arr [ obj [ "001#1#1#Device" ~> VStr "RTL8111"; "002#1#1#bus-ID" ~> VStr "02:00.0" ];
        obj [ "003#1#1#IF" ~> VStr "enp2s0"; "004#1#1#state" ~> VStr "up" ];
        obj [ "005#1#1#IF-ID" ~> VStr "docker0"; "006#1#1#state" ~> VStr "down" ];
        obj [ "007#1#1#Device" ~> VStr "AX200"; "008#1#1#type" ~> VStr "" ] ].

(** ** The Disk record *)

(** A cleaned item the Drives loop lists as a drive: not the storage
    summary, and with a model and a size. *)
Definition drive_item (cleaned : entries) : bool :=
  negb (dhas cleaned "Local Storage" || dhas cleaned "total")
  && (dhas cleaned "model" && dhas cleaned "size").

Definition drive_types : list string := [ "HDD"; "SSD"; "NVMe" ].

(** A drive entry with one of the three drive types. *)
Definition drive_typed (e : value) : Prop :=
  exists kvs t, e = VDict Local kvs /\ dfind kvs "type" = Some (VStr t) /\ In t drive_types.

(** The drives the Drives section [its] lists. *)
Definition drives_of (its : list value) : list value :=
  List.map drive_entry (filter drive_item (List.map cleaned_of its)).

(** The keys of the Disk record written from the Drives items, and those
    written from the Partition and Swap sections of the document. *)
Definition drive_side : list string := [ "drives"; "total_size"; "used"; "used_percent" ].
Definition partition_side : list string := [ "partitions"; "swap"; "swap_kernel" ].

(** The two records agree on the keys [ks]. *)
Definition agree_on (ks : list string) (a b : entries) : Prop :=
  forall k : string, In k ks -> dfind a k = dfind b k.

(** A Drives section: the summary, which also names a model, and two drives. *)
Definition three_drive_items : value :=
  arr [ obj [ "001#1#1#Local Storage" ~> VStr ""; "002#1#1#total" ~> VStr "1.8 TiB";
              "003#1#1#used" ~> VStr "700 GiB (38.0%)"; "004#1#1#model" ~> VStr "none";
              "005#1#1#size" ~> VStr "0" ];
        obj [ "006#1#1#ID" ~> VStr "/dev/nvme0n1"; "007#1#1#model" ~> VStr "970 EVO";
              "008#1#1#size" ~> VStr "931 GiB"; "009#1#1#tech" ~> VStr "SSD" ];
        obj [ "010#1#1#ID" ~> VStr "/dev/sda"; "011#1#1#model" ~> VStr "WD10";
              "012#1#1#size" ~> VStr "931 GiB" ] ].

(** A document with a Partition section. *)
Definition one_partition : value :=
  arr [ obj [ "000#1#0#Partition" ~>
                arr [ obj [ "001#1#1#ID" ~> VStr "/"; "002#1#1#used" ~> VStr "9 GiB (41.1%)" ] ] ] ].

(** * Properties *)

(** ** Sanity checks of the text primitives *)

Example search_percent_ex : search_percent "1.12 TiB (41.1%)" = Some "41.1".
Proof. reflexivity. Qed.
Example search_core_ex : search_core "2x 6-core amd" = Some "6".
Proof. reflexivity. Qed.
Example float_ex : float_of_numeral "41.1" = Ok (411 # 10).
Proof. reflexivity. Qed.
Example float_ex2 : float_of_numeral "1.2.3" = Raise ValueError.
Proof. reflexivity. Qed.
Example float_ex3 : float_of_numeral "5." = Ok (5 # 1).
Proof. reflexivity. Qed.
Example repr_ex : py_str (VList Local [VInt 1; VStr "a"; VFloat (5 # 10)]) = "[1, 'a', 0.5]".
Proof. reflexivity. Qed.
Example int_ex : int_of_string " -1_000 " = Some (-1000)%Z.
Proof. reflexivity. Qed.
Example round_ex : round1 (Qmake 1 3 * 100) = (333 # 10).
Proof. reflexivity. Qed.

Example parse_full_scenario :
  exists cpu gpu pci,
    parse_full silent_host
      (arr [ obj [ "000#1#1#CPU" ~>
                     arr [ obj [ "001#1#1#model" ~> VStr "Test CPU";
                                 "002#1#1#cores" ~> VInt 4;
                                 "003#1#1#threads" ~> VInt 8 ] ] ];
             obj [ "010#1#1#Graphics" ~>
                     arr [ obj [ "011#1#1#Device" ~> VStr "Test GPU";
                                 "012#1#1#vendor" ~> VStr "Test Vendor";
                                 "013#1#1#bus-ID" ~> VStr "01:00.0" ] ] ] ])
    = Ok (VDict Local
            ([ "cpu" ~> VDict Local cpu; "gpu" ~> VDict Local gpu ]
               ++ skipn 2 seed ++ [ "pci_inxi" ~> VDict Local pci ])%list)
    /\ dfind cpu "model" = Some (VStr "Test CPU")
    /\ dfind cpu "cores" = Some (VInt 4)
    /\ (exists d kvs rest, dfind gpu "devices" = Some (VList Local (VDict Local d :: rest))
                           /\ dfind d "name" = Some (VStr "Test GPU")
                           /\ dfind pci "devices" = Some (VList Local [VDict Local kvs])
                           /\ dfind kvs "bus_id" = Some (VStr "01:00.0")).
Proof.
  do 3 eexists. split; [ vm_compute; reflexivity | ].
  repeat split; try reflexivity.
  do 3 eexists. repeat split; reflexivity.
Qed.

(** ** Generic facts: the error monad *)

Lemma bind_ok {A B : Type} (m : res A) (f : A -> res B) (b : B) :
  bind m f = Ok b -> exists a, m = Ok a /\ f a = Ok b.
Proof.
  destruct m as [a | e]; simpl; intros H; [ exists a; auto | discriminate ].
Qed.

Ltac inv_bind H :=
  let a := fresh "a" in
  let Ha := fresh "Ha" in
  apply bind_ok in H; destruct H as (a & Ha & H).

(** ** Generic facts: keys and dictionaries *)

Lemma key_eqb_refl (k : key) : key_eqb k k = true.
Proof.
  destruct k; simpl; auto using Z.eqb_refl, String.eqb_refl.
  apply Qeq_bool_iff. reflexivity.
Qed.

Lemma key_eqb_sym (a b : key) : key_eqb a b = key_eqb b a.
Proof.
  destruct a, b; simpl; auto using Z.eqb_sym, String.eqb_sym.
  apply eq_true_iff_eq. rewrite !Qeq_bool_iff. split; intros H; symmetry; exact H.
Qed.

Lemma key_eqb_trans (a b c : key) :
  key_eqb a b = true -> key_eqb b c = true -> key_eqb a c = true.
Proof.
  destruct a, b, c; simpl; try discriminate; auto.
  - rewrite !Z.eqb_eq. congruence.
  - rewrite !Qeq_bool_iff. intros H1 H2. rewrite H1. exact H2.
  - rewrite !String.eqb_eq. congruence.
Qed.

Lemma key_eqb_str (a b : string) : key_eqb (KStr a) (KStr b) = true -> a = b.
Proof. apply String.eqb_eq. Qed.

Lemma key_neq_transfer (e k k' : key) :
  key_eqb e k = true -> key_eqb k k' = false -> key_eqb e k' = false.
Proof.
  intros H1 H2. destruct (key_eqb e k') eqn:E; auto.
  rewrite <- H2. symmetry. apply key_eqb_trans with e; auto.
  rewrite key_eqb_sym. exact H1.
Qed.

Lemma dfind_dset_same (d : entries) (k : key) (v : value) :
  dfind (dset d k v) k = Some v.
Proof.
  induction d as [| [e w] d IH]; simpl.
  - rewrite key_eqb_refl. reflexivity.
  - destruct (key_eqb e k) eqn:E; simpl; rewrite E; auto.
Qed.

Lemma dfind_dset_other (d : entries) (k k' : key) (v : value) :
  key_eqb k k' = false -> dfind (dset d k v) k' = dfind d k'.
Proof.
  intros N. induction d as [| [e w] d IH]; simpl.
  - rewrite N. reflexivity.
  - destruct (key_eqb e k) eqn:E; simpl.
    + rewrite (key_neq_transfer _ _ _ E N). reflexivity.
    + destruct (key_eqb e k'); auto.
Qed.

Lemma dhas_dfind (d : entries) (k : key) :
  dhas d k = match dfind d k with Some _ => true | None => false end.
Proof.
  induction d as [| [e w] d IH]; simpl; auto.
  destruct (key_eqb e k); simpl; auto.
Qed.

Lemma dhas_dset_other (d : entries) (k k' : key) (v : value) :
  key_eqb k k' = false -> dhas (dset d k v) k' = dhas d k'.
Proof.
  intros N. rewrite !dhas_dfind, dfind_dset_other; auto.
Qed.

Lemma dhas_dset_same (d : entries) (k : key) (v : value) : dhas (dset d k v) k = true.
Proof. rewrite dhas_dfind, dfind_dset_same. reflexivity. Qed.

(** Lookups through updates at literal keys. *)
Ltac dict_simpl :=
  repeat first [ rewrite dfind_dset_same
               | rewrite dfind_dset_other by reflexivity ].

Lemma dfind_copy_other (cleaned result : entries) (src dst : string) (k : key) :
  key_eqb (KStr dst) k = false ->
  dfind (copy cleaned src result dst) k = dfind result k.
Proof.
  intros N. unfold copy. destruct (dfind cleaned src); auto using dfind_dset_other.
Qed.

Lemma dfind_copy_str_other (cleaned result : entries) (src dst : string) (k : key) :
  key_eqb (KStr dst) k = false ->
  dfind (copy_str cleaned src result dst) k = dfind result k.
Proof.
  intros N. unfold copy_str. destruct (dfind cleaned src); auto using dfind_dset_other.
Qed.

(** ** The key normalizer *)

Lemma contains_char (c : ascii) (s : string) :
  Str.contains (String c EmptyString) s = Str.mem c s.
Proof.
  induction s as [| d s IH]; simpl; auto.
  rewrite IH. destruct (ascii_dec c d) as [-> | N].
  - rewrite Ascii.eqb_refl. destruct s; reflexivity.
  - assert (Ascii.eqb d c = false) as -> by (apply Ascii.eqb_neq; congruence).
    reflexivity.
Qed.

Lemma split_nonempty (sep : ascii) (s : string) : Str.split sep s <> [].
Proof.
  destruct s as [| c s]; simpl; [ discriminate | ].
  destruct (Ascii.eqb c sep); [ discriminate | ].
  destruct (Str.split sep s); discriminate.
Qed.

Lemma split_no_sep (sep : ascii) (s : string) :
  Str.mem sep s = false -> Str.split sep s = [s].
Proof.
  induction s as [| c s IH]; simpl; auto.
  destruct (Ascii.eqb c sep); simpl; [ discriminate | ].
  intros H. rewrite (IH H). reflexivity.
Qed.

Lemma split_single (sep : ascii) (s f : string) :
  Str.split sep s = [f] -> Str.mem sep s = false.
Proof.
  revert f. induction s as [| c s IH]; simpl; auto; intros f.
  destruct (Ascii.eqb c sep); simpl.
  - intros H. inversion H as [[H1 H2]]. destruct (split_nonempty _ _ H2).
  - destruct (Str.split sep s) as [| g gs] eqn:E; intros H.
    + destruct (split_nonempty _ _ E).
    + inversion H; subst. apply (IH g). reflexivity.
Qed.

Lemma last_cons_nonempty {A : Type} (x : A) (l : list A) (d : A) :
  l <> [] -> last (x :: l) d = last l d.
Proof. destruct l; [ congruence | reflexivity ]. Qed.

Lemma split_last_clean (sep : ascii) (s : string) :
  Str.mem sep (last (Str.split sep s) EmptyString) = false.
Proof.
  induction s as [| c s IH]; [ reflexivity | ].
  cbn [Str.split]. destruct (Ascii.eqb c sep) eqn:E.
  - rewrite last_cons_nonempty by apply split_nonempty. exact IH.
  - destruct (Str.split sep s) as [| f [| g gs]] eqn:S.
    + destruct (split_nonempty _ _ S).
    + simpl in *. rewrite E. exact IH.
    + exact IH.
Qed.

Lemma split_last_suffix (sep : ascii) (s : string) :
  Str.mem sep s = true ->
  exists pre, s = pre ++ String sep (last (Str.split sep s) EmptyString).
Proof.
  induction s as [| c s IH]; [ discriminate | ].
  cbn [Str.split Str.mem]. destruct (Ascii.eqb c sep) eqn:E.
  - intros _. apply Ascii.eqb_eq in E. subst c.
    rewrite last_cons_nonempty by apply split_nonempty.
    destruct (Str.mem sep s) eqn:M.
    + destruct (IH eq_refl) as [pre Hpre].
      exists (String sep pre). simpl. rewrite <- Hpre. reflexivity.
    + rewrite (split_no_sep _ _ M). exists EmptyString. reflexivity.
  - intros M. simpl in M. destruct (IH M) as [pre Hpre].
    destruct (Str.split sep s) as [| f [| g gs]] eqn:S.
    + destruct (split_nonempty _ _ S).
    + rewrite (split_single _ _ _ S) in M. discriminate.
    + exists (String c pre). simpl. simpl in Hpre. rewrite <- Hpre. reflexivity.
Qed.

Lemma clean_key_no_sep (x : string) : Str.mem "#" (clean_key x) = false.
Proof.
  unfold clean_key. rewrite contains_char.
  destruct (Str.mem "#" x) eqn:M; [ apply split_last_clean | exact M ].
Qed.

(** C9.  The key normalizer is idempotent; on a key that contains [#] it
    returns what follows the last [#], a text with no [#] in it; any other
    key is returned unchanged; and it maps ["000#1#1#Info"] and ["Info"] to
    ["Info"]. *)
Theorem clean_key_idempotent :
  forall x : string,
    clean_key (clean_key x) = clean_key x
    /\ (Str.contains "#" x = true ->
        Str.contains "#" (clean_key x) = false
        /\ exists before, x = before ++ "#" ++ clean_key x)
    /\ (Str.contains "#" x = false -> clean_key x = x)
    /\ clean_key "000#1#1#Info" = "Info"
    /\ clean_key "Info" = "Info".
Proof.
  intros x. repeat split; try reflexivity.
  - unfold clean_key at 1. rewrite contains_char, clean_key_no_sep. reflexivity.
  - rewrite contains_char. apply clean_key_no_sep.
  - rewrite contains_char in H. unfold clean_key. rewrite contains_char, H.
    apply split_last_suffix. exact H.
  - intros H. unfold clean_key. rewrite H. reflexivity.
Qed.

Lemma clean_key_idempotent_witness :
  Str.contains "#" "012#1#2#bus-ID" = true
  /\ clean_key "012#1#2#bus-ID" = "bus-ID"
  /\ Str.contains "#" (clean_key "012#1#2#bus-ID") = false.
Proof.
  split; [ reflexivity | ].
  split; [ reflexivity | ].
  exact (proj1 (proj1 (proj2 (clean_key_idempotent "012#1#2#bus-ID")) eq_refl)).
Defined.

(** ** Every section parser returns a dict *)

Lemma returns_dict_bind {A : Type} (m : res A) (f : A -> res value) :
  (forall a, returns_dict (f a)) -> returns_dict (bind m f).
Proof.
  intros Hf r H. inv_bind H. exact (Hf _ _ H).
Qed.

Lemma returns_dict_ok (d : entries) : returns_dict (Ok (VDict Local d)).
Proof. intros r H. inversion H. eauto. Qed.

Ltac returns_dict :=
  repeat first
    [ apply returns_dict_ok
    | apply returns_dict_bind; intros
    | match goal with
      | |- returns_dict (let (_, _) := ?p in _) => destruct p
      | |- returns_dict (match ?v with _ => _ end) => destruct v
      end ].

Lemma parse_cpu_section_dict items : returns_dict (parse_cpu_section items).
Proof. unfold parse_cpu_section. returns_dict. Qed.

Lemma parse_gpu_section_dict items : returns_dict (parse_gpu_section items).
Proof. unfold parse_gpu_section. returns_dict. Qed.

Lemma parse_memory_section_dict items : returns_dict (parse_memory_section items).
Proof. unfold parse_memory_section. returns_dict. Qed.

Lemma parse_audio_section_dict items : returns_dict (parse_audio_section items).
Proof. unfold parse_audio_section. returns_dict. Qed.

Lemma parse_network_section_dict h n items :
  returns_dict (parse_network_section h n items).
Proof. unfold parse_network_section. returns_dict. Qed.

Lemma parse_disk_section_dict items data : returns_dict (parse_disk_section items data).
Proof. unfold parse_disk_section. returns_dict. Qed.

Lemma parse_system_section_dict h n items :
  returns_dict (parse_system_section h n items).
Proof. unfold parse_system_section. returns_dict. Qed.

Lemma parse_machine_section_dict items : returns_dict (parse_machine_section items).
Proof. unfold parse_machine_section. returns_dict. Qed.

Lemma parse_battery_section_dict items : returns_dict (parse_battery_section items).
Proof. unfold parse_battery_section. returns_dict. Qed.

Lemma parse_sensors_section_dict h n items :
  returns_dict (parse_sensors_section h n items).
Proof. unfold parse_sensors_section. returns_dict. Qed.

Lemma parse_bluetooth_section_dict items : returns_dict (parse_bluetooth_section items).
Proof. unfold parse_bluetooth_section. returns_dict. Qed.

Lemma parse_processes_section_dict items : returns_dict (parse_processes_section items).
Proof. unfold parse_processes_section. returns_dict. Qed.

Lemma parse_repos_section_dict items : returns_dict (parse_repos_section items).
Proof. unfold parse_repos_section. returns_dict. Qed.

Lemma parse_usb_section_dict items : returns_dict (parse_usb_section items).
Proof. unfold parse_usb_section. returns_dict. Qed.

Lemma extract_pci_devices_dict parsed : returns_dict (extract_pci_devices parsed).
Proof. unfold extract_pci_devices. returns_dict. Qed.

(** ** Schema completeness *)

Lemma all_dicts_dset (ks : list string) (d : entries) (k : key) (o : owner) (e : entries) :
  all_dicts ks d -> all_dicts ks (dset d k (VDict o e)).
Proof.
  unfold all_dicts. intros H. eapply Forall_impl; [ | exact H ].
  intros c (o' & e' & Hc). cbv beta.
  destruct (key_eqb k (KStr c)) eqn:K.
  - exists o, e. destruct k; try discriminate.
    apply key_eqb_str in K. subst. apply dfind_dset_same.
  - exists o', e'. rewrite dfind_dset_other; auto.
Qed.

Lemma all_dicts_seed : all_dicts category_keys seed.
Proof.
  unfold all_dicts, category_keys.
  repeat (constructor; [ do 2 eexists; reflexivity | ]). constructor.
Qed.

Lemma store_all_dicts ks result k m result' :
  returns_dict m -> all_dicts ks result ->
  store result k m = Ok result' -> all_dicts ks result'.
Proof.
  intros Hm Hr H. unfold store in H. inv_bind H. inversion H; subst.
  destruct (Hm _ eq_refl) as [d ->]. apply all_dicts_dset, Hr.
Qed.

Lemma update_in_all_dicts ks result k e result' :
  all_dicts ks result -> update_in result k e = Ok result' -> all_dicts ks result'.
Proof.
  intros Hr H. unfold update_in in H. inv_bind H. inv_bind H. inversion H; subst.
  destruct a as [| | | | | |[|] kvs]; simpl in Ha0; try discriminate.
  inversion Ha0; subst. apply all_dicts_dset, Hr.
Qed.

Lemma dispatch_all_dicts ks h data n result name v result' :
  all_dicts ks result ->
  dispatch h data n result name v = Ok result' -> all_dicts ks result'.
Proof.
  intros Hr H. unfold dispatch in H.
  repeat match type of H with
         | (if ?c then _ else _) = _ => destruct c
         end;
    try (eapply store_all_dicts; [ | exact Hr | exact H ];
         auto using parse_cpu_section_dict, parse_gpu_section_dict,
           parse_memory_section_dict, parse_audio_section_dict,
           parse_network_section_dict, parse_disk_section_dict,
           parse_system_section_dict, parse_machine_section_dict,
           parse_battery_section_dict, parse_sensors_section_dict,
           parse_bluetooth_section_dict, parse_processes_section_dict,
           parse_repos_section_dict, parse_usb_section_dict).
  - inv_bind H. eapply update_in_all_dicts; [ | exact H ].
    destruct (negb (dhas result "system")); auto using all_dicts_dset.
  - inversion H; subst. exact Hr.
Qed.

Lemma foldM_invariant {A B : Type} (f : A -> B -> res A) (I : A -> Prop) (xs : list B) :
  (forall a x a', I a -> f a x = Ok a' -> I a') ->
  forall a a', I a -> foldM f a xs = Ok a' -> I a'.
Proof.
  intros Hf. induction xs as [| x xs IH]; simpl; intros a a' Ha H.
  - inversion H; subst. exact Ha.
  - inv_bind H. eauto.
Qed.

Lemma parse_section_all_dicts ks h data st section st' :
  all_dicts ks (fst st) ->
  parse_section h data st section = Ok st' -> all_dicts ks (fst st').
Proof.
  intros Hr H. unfold parse_section in H. inv_bind H.
  revert H. apply foldM_invariant with (I := fun s => all_dicts ks (fst s)); auto.
  clear. intros [result n] kv st' Hr H. unfold parse_entry in H.
  inv_bind H. destruct a; try discriminate. inv_bind H. inversion H; subst.
  simpl in *. eapply dispatch_all_dicts; eauto.
Qed.

(** What [parse_full] returns on a non-empty list: the loop's result with
    [pci_inxi] added. *)
Lemma parse_full_list h data r :
  truthy data = true -> is_list data = true ->
  parse_full h data = Ok r ->
  exists result pci,
    r = VDict Local (dset result "pci_inxi" (VDict Local pci))
    /\ all_dicts category_keys result
    /\ extract_pci_devices result = Ok (VDict Local pci).
Proof.
  intros T L H. unfold parse_full in H. rewrite T, L in H. simpl in H.
  inv_bind H. inv_bind H. inv_bind H. inversion H; subst.
  destruct (extract_pci_devices_dict _ _ Ha1) as [pci ->].
  exists (fst a0), pci. split; [ reflexivity | ]. split; [ | exact Ha1 ].
  revert Ha0.
  apply foldM_invariant with (I := fun s => all_dicts category_keys (fst s)).
  - intros; eapply parse_section_all_dicts; eauto.
  - apply all_dicts_seed.
Qed.

(** What [parse_full] returns on anything else: the seeded mapping. *)
Lemma parse_full_seed h data :
  truthy data = false \/ is_list data = false ->
  parse_full h data = Ok (VDict Local seed).
Proof.
  intros [H | H]; unfold parse_full; rewrite H; simpl; auto.
  destruct (negb (truthy data)); reflexivity.
Qed.

Lemma parse_full_complete h data r : parse_full h data = Ok r -> schema_complete r.
Proof.
  intros H.
  assert (Hseed : schema_complete (VDict Local seed)).
  { exists Local, seed. split; [ reflexivity | apply all_dicts_seed ]. }
  destruct (truthy data) eqn:T; [ destruct (is_list data) eqn:L | ].
  - destruct (parse_full_list _ _ _ T L H) as (result & pci & -> & Hr & _).
    exists Local. eexists. split; [ reflexivity | ]. apply all_dicts_dset, Hr.
  - rewrite parse_full_seed in H by auto. inversion H; subst. exact Hseed.
  - rewrite parse_full_seed in H by auto. inversion H; subst. exact Hseed.
Qed.

(** C1.  Whatever the input, the mapping [parse_full] returns holds a
    mapping under each of the eleven category keys; and on [None], on the
    empty list and on any value that is no list it does return, with the
    seeded mapping. *)
Theorem parse_full_schema_complete :
  forall (h : host) (data : value),
    (forall r, parse_full h data = Ok r -> schema_complete r)
    /\ (truthy data = false \/ is_list data = false ->
        parse_full h data = Ok (VDict Local seed)
        /\ schema_complete (VDict Local seed))
    /\ parse_full h VNone = Ok (VDict Local seed)
    /\ parse_full h (arr []) = Ok (VDict Local seed).
Proof.
  intros h data.
  split; [ exact (parse_full_complete h data) | ].
  split; [ | split; reflexivity ].
  intros H. split; [ apply parse_full_seed, H | ].
  exists Local, seed. split; [ reflexivity | apply all_dicts_seed ].
Qed.

Lemma parse_full_schema_complete_witness :
  exists r, parse_full silent_host scenario = Ok r /\ schema_complete r.
Proof.
  eexists. split; [ vm_compute; reflexivity | ].
  apply (proj1 (parse_full_schema_complete silent_host scenario)).
  vm_compute. reflexivity.
Defined.

(** ** The synthesized [pci_inxi] key *)

(** C2, as the specification states it, fails on the empty list: the guard of
    line 74 returns the seeded mapping before [pci_inxi] is added. *)
Lemma parse_full_empty_list_lacks_pci_inxi :
  parse_full silent_host (arr []) = Ok (VDict Local seed)
  /\ dhas seed "pci_inxi" = false.
Proof. split; reflexivity. Qed.

Lemma extract_pci_devices_shape parsed pci :
  extract_pci_devices parsed = Ok (VDict Local pci) ->
  exists devices,
    pci = [ "devices" ~> VList Local devices;
            "count" ~> VInt (Z.of_nat (List.length devices)) ].
Proof.
  unfold extract_pci_devices. intros H. inv_bind H. inv_bind H.
  inversion H; subst. eauto.
Qed.

(** C2, amended.  On every non-empty list on which [parse_full] returns, the
    returned mapping holds, besides the eleven categories, the key
    [pci_inxi] with a mapping made of the list [devices] and of [count], the
    length of that list. *)
Theorem parse_full_pci_inxi :
  forall (h : host) (data r : value),
    truthy data = true -> is_list data = true ->
    parse_full h data = Ok r ->
    exists kvs pci devices,
      r = VDict Local kvs
      /\ all_dicts category_keys kvs
      /\ dfind kvs "pci_inxi" = Some (VDict Local pci)
      /\ dfind pci "devices" = Some (VList Local devices)
      /\ dfind pci "count" = Some (VInt (Z.of_nat (List.length devices))).
Proof.
  intros h data r T L H.
  destruct (parse_full_list _ _ _ T L H) as (result & pci & -> & Hr & Hp).
  destruct (extract_pci_devices_shape _ _ Hp) as [devices ->].
  do 3 eexists. split; [ reflexivity | ].
  split; [ apply all_dicts_dset, Hr | ].
  split; [ apply dfind_dset_same | ]. split; reflexivity.
Qed.

Lemma parse_full_pci_inxi_witness :
  truthy scenario = true /\ is_list scenario = true
  /\ exists r, parse_full silent_host scenario = Ok r
     /\ exists kvs pci devices,
         r = VDict Local kvs
         /\ all_dicts category_keys kvs
         /\ dfind kvs "pci_inxi" = Some (VDict Local pci)
         /\ dfind pci "devices" = Some (VList Local devices)
         /\ dfind pci "count" = Some (VInt (Z.of_nat (List.length devices))).
Proof.
  split; [ reflexivity | ]. split; [ reflexivity | ].
  eexists. split; [ vm_compute; reflexivity | ].
  apply (parse_full_pci_inxi silent_host scenario); vm_compute; reflexivity.
Defined.

(** ** The cross-section synthesizer: one entry per bus address *)

Lemma insertM_perm {A : Type} (lt : A -> A -> res bool) (x : A) (l l' : list A) :
  insertM lt x l = Ok l' -> Permutation (x :: l) l'.
Proof.
  revert l'. induction l as [| y l IH]; simpl; intros l' H.
  - inversion H; subst. apply Permutation_refl.
  - inv_bind H. destruct a.
    + inversion H; subst. apply Permutation_refl.
    + inv_bind H. inversion H; subst.
      eapply perm_trans; [ apply perm_swap | ]. apply perm_skip. auto.
Qed.

Lemma sortM_perm_acc {A : Type} (lt : A -> A -> res bool) (l acc l' : list A) :
  foldM (fun acc x => insertM lt x acc) acc l = Ok l' ->
  Permutation (l ++ acc)%list l'.
Proof.
  revert acc l'. induction l as [| x l IH]; simpl; intros acc l' H.
  - inversion H; subst. apply Permutation_refl.
  - inv_bind H. apply insertM_perm in Ha. apply IH in H.
    eapply perm_trans; [ | exact H ].
    eapply perm_trans; [ apply Permutation_middle | ].
    apply Permutation_app_head. exact Ha.
Qed.

Lemma sortM_perm {A : Type} (lt : A -> A -> res bool) (l l' : list A) :
  sortM lt l = Ok l' -> Permutation l l'.
Proof.
  intros H. apply sortM_perm_acc in H. rewrite app_nil_r in H. exact H.
Qed.

Lemma filter_length_perm {A : Type} (p : A -> bool) (l l' : list A) :
  Permutation l l' -> List.length (filter p l) = List.length (filter p l').
Proof.
  induction 1; simpl; auto.
  - destruct (p x); simpl; auto.
  - destruct (p x), (p y); simpl; auto.
  - congruence.
Qed.

Lemma filter_single {A : Type} (p : A -> bool) (l : list A) (a b : A) :
  (List.length (filter p l) <= 1)%nat ->
  In a l -> In b l -> p a = true -> p b = true -> a = b.
Proof.
  intros L Ha Hb Pa Pb.
  assert (Ia : In a (filter p l)) by (apply filter_In; auto).
  assert (Ib : In b (filter p l)) by (apply filter_In; auto).
  destruct (filter p l) as [| x [| y r]]; simpl in *; try lia; try tauto.
  destruct Ia as [<- | []], Ib as [<- | []]. reflexivity.
Qed.

Lemma filter_two {A : Type} (p : A -> bool) (l : list A) (i j : nat) (a b : A) :
  i <> j -> nth_error l i = Some a -> nth_error l j = Some b ->
  p a = true -> p b = true -> (2 <= List.length (filter p l))%nat.
Proof.
  revert i j. induction l as [| x l IH]; intros i j N Ha Hb Pa Pb.
  - destruct i; discriminate.
  - destruct i as [| i], j as [| j]; simpl in *; try congruence.
    + inversion Ha; subst. rewrite Pa. simpl.
      assert (In b (filter p l)) by (apply filter_In; eauto using nth_error_In).
      destruct (filter p l); simpl in *; [ tauto | lia ].
    + inversion Hb; subst. rewrite Pb. simpl.
      assert (In a (filter p l)) by (apply filter_In; eauto using nth_error_In).
      destruct (filter p l); simpl in *; [ tauto | lia ].
    + assert (2 <= List.length (filter p l))%nat by (apply (IH i j); auto).
      destruct (p x); simpl; lia.
Qed.

Lemma seen_has_equiv (seen : list key) (k k' : key) :
  key_eqb k k' = true -> seen_has seen k = seen_has seen k'.
Proof.
  intros K. unfold seen_has. induction seen as [| s seen IH]; simpl; auto.
  rewrite IH. f_equal.
  destruct (key_eqb k s) eqn:A, (key_eqb k' s) eqn:B; auto.
  - rewrite <- B. symmetry. apply key_eqb_trans with k; auto.
    rewrite key_eqb_sym. exact K.
  - rewrite <- A. apply key_eqb_trans with k'; auto.
Qed.

Lemma has_bus_key (k : key) (d : value) :
  has_bus k d = true -> exists k', bus_key d = Ok k' /\ key_eqb k' k = true.
Proof.
  unfold has_bus. destruct (bus_key d) as [k' |]; [ eauto | discriminate ].
Qed.

Lemma pci_entry_bus (device bus_id : value) (c cat : string) (e : value) (k : key) :
  pci_entry device bus_id c cat = Ok e -> hash_key bus_id = Ok k ->
  bus_key e = Ok k.
Proof.
  unfold pci_entry. intros H Hk. repeat inv_bind H. inversion H; subst.
  unfold bus_key. simpl. exact Hk.
Qed.

Lemma pci_inv_init : pci_inv ([], []).
Proof.
  constructor; simpl; intros; try tauto; try lia; discriminate.
Qed.

Lemma seen_has_cons (seen : list key) (k k' : key) :
  seen_has (k :: seen) k' = key_eqb k' k || seen_has seen k'.
Proof. reflexivity. Qed.

(** What [pci_accept] does to the state: nothing, or one new entry at an
    address not seen before. *)
Lemma pci_accept_cases st device bus_id c cat st' :
  pci_accept st device bus_id c cat = Ok st' ->
  (st' = st /\ exists k, hash_key bus_id = Ok k /\ seen_has (snd st) k = true)
  \/ exists k e, hash_key bus_id = Ok k /\ seen_has (snd st) k = false
                 /\ pci_entry device bus_id c cat = Ok e
                 /\ st' = ((fst st ++ [e])%list, k :: snd st).
Proof.
  destruct st as [devices seen]. unfold pci_accept. intros H. inv_bind H.
  destruct (seen_has seen a) eqn:S; simpl in H.
  - inversion H. left. eauto.
  - inv_bind H. inversion H; subst. right. exists a, a0. auto.
Qed.

Lemma pci_inv_extend st k e :
  pci_inv st -> seen_has (snd st) k = false -> bus_key e = Ok k ->
  pci_inv ((fst st ++ [e])%list, k :: snd st).
Proof.
  intros [I1 I2 I3] S B. constructor; cbn [fst snd].
  - intros d Hd. apply in_app_or in Hd. destruct Hd as [Hd | [<- | []]].
    + destruct (I1 d Hd) as (kd & Hk & Hs). exists kd. split; auto.
      rewrite seen_has_cons, Hs. apply orb_true_r.
    + exists k. split; auto. rewrite seen_has_cons, key_eqb_refl. reflexivity.
  - intros k2. rewrite filter_app, length_app. simpl.
    unfold has_bus at 2. rewrite B.
    destruct (key_eqb k k2) eqn:K; simpl; [ | specialize (I2 k2); lia ].
    destruct (filter (has_bus k2) (fst st)) as [| d r] eqn:F; simpl; [ lia | ].
    exfalso.
    assert (Hd : In d (filter (has_bus k2) (fst st))) by (rewrite F; left; auto).
    apply filter_In in Hd. destruct Hd as [Hd Hb].
    destruct (I1 d Hd) as (kd & Hkd & Hs).
    apply has_bus_key in Hb. destruct Hb as (kd' & Hkd' & E2).
    rewrite Hkd in Hkd'. inversion Hkd'; subst kd'.
    rewrite (seen_has_equiv _ kd k) in Hs; [ congruence | ].
    apply key_eqb_trans with k2; auto. rewrite key_eqb_sym. exact K.
  - intros k2. rewrite seen_has_cons. intros H.
    destruct (key_eqb k2 k) eqn:K.
    + exists e. split; [ apply in_or_app; right; left; auto | ].
      unfold has_bus. rewrite B, key_eqb_sym. exact K.
    + simpl in H. destruct (I3 k2 H) as (d & Hd & Hb).
      exists d. split; auto. apply in_or_app. auto.
Qed.

Lemma pci_accept_inv st device bus_id c cat st' :
  pci_inv st -> pci_accept st device bus_id c cat = Ok st' -> pci_inv st'.
Proof.
  intros I H. apply pci_accept_cases in H.
  destruct H as [[-> _] | (k & e & Hk & S & He & ->)]; auto.
  apply pci_inv_extend; auto. eapply pci_entry_bus; eauto.
Qed.

Lemma pci_gpu_inv st device st' :
  pci_inv st -> pci_gpu st device = Ok st' -> pci_inv st'.
Proof.
  intros I H. unfold pci_gpu in H. inv_bind H.
  destruct (truthy a); [ eapply pci_accept_inv; eauto | inversion H; subst; auto ].
Qed.

Lemma pci_filtered_cases c cat st device st' :
  pci_filtered c cat st device = Ok st' ->
  st' = st \/ exists b, pci_accept st device b c cat = Ok st'.
Proof.
  unfold pci_filtered. intros H. inv_bind H.
  destruct (truthy a); [ | inversion H; auto ].
  inv_bind H. destruct a0; [ | inversion H; auto ].
  inv_bind H. destruct a0; simpl in H; [ inversion H; auto | eauto ].
Qed.

Lemma pci_filtered_inv c cat st device st' :
  pci_inv st -> pci_filtered c cat st device = Ok st' -> pci_inv st'.
Proof.
  intros I H. apply pci_filtered_cases in H.
  destruct H as [-> | [b H]]; eauto using pci_accept_inv.
Qed.

Lemma foldM_prefix {A B : Type} (f : A -> B -> res A) (I : list B -> A -> Prop)
  (xs : list B) :
  (forall pre x a a', I pre a -> f a x = Ok a' -> I (pre ++ [x])%list a') ->
  forall pre a a', I pre a -> foldM f a xs = Ok a' -> I (pre ++ xs)%list a'.
Proof.
  intros Hf. induction xs as [| x xs IH]; simpl; intros pre a a' Ha H.
  - inversion H; subst. rewrite app_nil_r. exact Ha.
  - inv_bind H. change (x :: xs) with ([x] ++ xs)%list. rewrite app_assoc.
    eapply IH; eauto.
Qed.

Lemma gpu_sourced_mono (l l' : list value) (e : value) :
  (forall g, In g l -> In g l') -> gpu_sourced l e -> gpu_sourced l' e.
Proof.
  intros S (g & b & Hg & Hb & He). exists g, b. auto.
Qed.

Lemma gpu_stage_step pre g st st' :
  gpu_stage pre st -> pci_gpu st g = Ok st' -> gpu_stage (pre ++ [g])%list st'.
Proof.
  intros [I S N] H.
  assert (I' : pci_inv st') by (eapply pci_gpu_inv; eauto).
  unfold pci_gpu in H. inv_bind H. rename a into b.
  assert (Hmono : forall x, In x pre -> In x (pre ++ [g])%list)
    by (intros; apply in_or_app; auto).
  destruct (truthy b) eqn:T.
  - apply pci_accept_cases in H.
    destruct H as [[-> (k & Hk & Hs)] | (k & e & Hk & Hs & He & ->)].
    + constructor; auto.
      * intros e He. eapply gpu_sourced_mono; eauto.
      * intros g' b' k' Hg Hb' T' Hk'. apply in_app_or in Hg.
        destruct Hg as [Hg | [<- | []]]; [ eauto | ].
        rewrite Ha in Hb'. inversion Hb'; subst b'. congruence.
    + constructor; auto.
      * cbn [fst]. intros e' He'. apply in_app_or in He'.
        destruct He' as [He' | [<- | []]].
        -- eapply gpu_sourced_mono; eauto.
        -- exists g, b. split; [ apply in_or_app; right; left; auto | auto ].
      * cbn [snd]. intros g' b' k' Hg Hb' T' Hk'. rewrite seen_has_cons.
        apply in_app_or in Hg. destruct Hg as [Hg | [<- | []]].
        -- rewrite (N _ _ _ Hg Hb' T' Hk'). apply orb_true_r.
        -- rewrite Ha in Hb'. inversion Hb'; subst b'.
           rewrite Hk in Hk'. inversion Hk'; subst k'.
           rewrite key_eqb_refl. reflexivity.
  - inversion H; subst st'. constructor; auto.
    + intros e He. eapply gpu_sourced_mono; eauto.
    + intros g' b' k' Hg Hb' T' Hk'. apply in_app_or in Hg.
      destruct Hg as [Hg | [<- | []]]; [ eauto | ].
      rewrite Ha in Hb'. inversion Hb'; subst b'. congruence.
Qed.

Lemma later_stage_init st : pci_inv st -> later_stage (fst st) (snd st) st.
Proof.
  intros I. constructor; auto.
  exists []. rewrite app_nil_r. split; auto. intros e k [].
Qed.

Lemma later_stage_step gdevs gseen c cat st device st' :
  later_stage gdevs gseen st -> pci_filtered c cat st device = Ok st' ->
  later_stage gdevs gseen st'.
Proof.
  intros [I (extra & Hx & Hn) S] H.
  assert (I' : pci_inv st') by (eapply pci_filtered_inv; eauto).
  apply pci_filtered_cases in H. destruct H as [-> | [b H]].
  { constructor; eauto. }
  apply pci_accept_cases in H.
  destruct H as [[-> _] | (k & e & Hk & Hs & He & ->)].
  { constructor; eauto. }
  assert (Be : bus_key e = Ok k) by (eapply pci_entry_bus; eauto).
  constructor; auto; cbn [fst snd].
  - exists (extra ++ [e])%list. rewrite Hx, app_assoc. split; auto.
    intros e' k' He' Hb. apply in_app_or in He'.
    destruct He' as [He' | [<- | []]]; [ eauto | ].
    apply has_bus_key in Hb. destruct Hb as (k2 & Hk2 & K).
    rewrite Be in Hk2. inversion Hk2; subst k2.
    destruct (seen_has gseen k') eqn:Q; auto.
    rewrite <- (seen_has_equiv _ k k' K) in Q.
    rewrite (S _ Q) in Hs. discriminate.
  - intros k' Q. rewrite seen_has_cons, (S _ Q). apply orb_true_r.
Qed.

Lemma later_stage_fold gdevs gseen c cat devices st st' :
  later_stage gdevs gseen st -> foldM (pci_filtered c cat) st devices = Ok st' ->
  later_stage gdevs gseen st'.
Proof.
  intros L H. revert H.
  apply foldM_invariant with (I := later_stage gdevs gseen); auto.
  intros; eapply later_stage_step; eauto.
Qed.

(** The outcome of the three scans. *)
Lemma pci_scan_spec parsed st :
  pci_scan parsed = Ok st ->
  pci_inv st
  /\ forall gpu_list gpu_devices g b k,
      pci_source parsed "gpu" = Ok gpu_list -> py_iter gpu_list = Ok gpu_devices ->
      In g gpu_devices -> py_get g "bus_id" E = Ok b -> truthy b = true ->
      hash_key b = Ok k ->
      exists e, In e (fst st) /\ has_bus k e = true /\ gpu_sourced gpu_devices e.
Proof.
  unfold pci_scan. intros H. do 3 inv_bind H. rename a1 into sg.
  do 2 inv_bind H. inv_bind H. rename a3 into sa. do 2 inv_bind H.
  assert (G : gpu_stage a0 sg).
  { change a0 with ([] ++ a0)%list.
    eapply foldM_prefix with (I := gpu_stage); [ | | exact Ha1 ].
    - intros; eapply gpu_stage_step; eauto.
    - constructor; simpl; [ apply pci_inv_init | tauto | tauto ]. }
  destruct G as [Ig Gs Gn].
  assert (L : later_stage (fst sg) (snd sg) st).
  { eapply later_stage_fold; [ | exact H ].
    eapply later_stage_fold; [ | exact Ha4 ].
    apply later_stage_init, Ig. }
  destruct L as [I (extra & Hx & _) _]. split; auto.
  intros gl gd g b k Hs Hi Hg Hb T Hk.
  rewrite Ha in Hs. inversion Hs; subst gl.
  rewrite Ha0 in Hi. inversion Hi; subst gd.
  destruct (inv_entry _ Ig k (Gn _ _ _ Hg Hb T Hk)) as (e & He & Hbus).
  exists e. split; [ rewrite Hx; apply in_or_app; auto | auto ].
Qed.

(** C3.  In the list the cross-section synthesizer returns, the bus addresses
    are pairwise distinct; and a non-empty bus address of a GPU device has
    exactly one entry, the one made from the GPU record, whatever the Audio
    and Network records hold at that address. *)
Theorem pci_bus_ids_unique :
  forall (parsed : entries) (r : value),
    extract_pci_devices parsed = Ok r ->
    exists devices,
      r = VDict Local [ "devices" ~> VList Local devices;
                        "count" ~> VInt (Z.of_nat (List.length devices)) ]
      /\ distinct_bus_ids devices
      /\ gpu_wins parsed devices.
Proof.
  intros parsed r H. unfold extract_pci_devices in H.
  inv_bind H. rename a into st. inv_bind H. rename a into devices.
  inversion H; subst r. clear H. exists devices. split; [ reflexivity | ].
  apply sortM_perm in Ha0. destruct (pci_scan_spec _ _ Ha) as [I G].
  assert (Once : forall k, (List.length (filter (has_bus k) devices) <= 1)%nat).
  { intros k. rewrite <- (filter_length_perm _ _ _ Ha0). apply (inv_once _ I). }
  split.
  - intros i j di dj N Hi Hj.
    assert (Ii : In di (fst st))
      by (eapply Permutation_in; [ apply Permutation_sym; eauto | eauto using nth_error_In ]).
    assert (Ij : In dj (fst st))
      by (eapply Permutation_in; [ apply Permutation_sym; eauto | eauto using nth_error_In ]).
    destruct (inv_seen _ I _ Ii) as (ki & Hki & _).
    destruct (inv_seen _ I _ Ij) as (kj & Hkj & _).
    exists ki, kj. split; auto. split; auto.
    destruct (key_eqb ki kj) eqn:K; auto. exfalso.
    assert (2 <= List.length (filter (has_bus ki) devices))%nat.
    { apply (filter_two _ _ i j di dj); auto; unfold has_bus.
      - rewrite Hki. apply key_eqb_refl.
      - rewrite Hkj, key_eqb_sym. exact K. }
    specialize (Once ki). lia.
  - intros gl gd g b k Hs Hi Hg Hb T Hk.
    destruct (G _ _ _ _ _ Hs Hi Hg Hb T Hk) as (e & He & Hbus & Hsrc).
    exists e. split; [ eapply Permutation_in; eauto | ].
    split; auto. split; auto.
    intros e' He' Hb'. apply (filter_single (has_bus k) devices); auto.
    eapply Permutation_in; eauto.
Qed.

Lemma pci_bus_ids_unique_witness :
  exists r,
    extract_pci_devices shared_bus_model = Ok r
    /\ exists devices,
        r = VDict Local [ "devices" ~> VList Local devices;
                          "count" ~> VInt (Z.of_nat (List.length devices)) ]
        /\ distinct_bus_ids devices
        /\ gpu_wins shared_bus_model devices.
Proof.
  eexists. split; [ vm_compute; reflexivity | ].
  apply (pci_bus_ids_unique shared_bus_model). vm_compute. reflexivity.
Defined.

Example shared_bus_result :
  exists gpu audio net,
    extract_pci_devices shared_bus_model
    = Ok (VDict Local [ "devices" ~> VList Local [ VDict Local audio;
                                                   VDict Local net;
                                                   VDict Local gpu ];
                        "count" ~> VInt 3 ])
    /\ dfind gpu "bus_id" = Some (VStr "03:00.0")
    /\ dfind gpu "category" = Some (VStr "Graphics")
    /\ dfind gpu "name" = Some (VStr "Navi 23")
    /\ dfind audio "bus_id" = Some (VStr "00:1f.3")
    /\ dfind net "bus_id" = Some (VStr "02:00.0").
Proof.
  do 3 eexists. split; [ vm_compute; reflexivity | repeat split; reflexivity ].
Qed.

(** ** Writes through the result dictionary *)

Lemma append_in_inv d k x d' :
  append_in d k x = Ok d' ->
  exists xs, dfind d k = Some (VList Local xs)
             /\ d' = dset d k (VList Local (xs ++ [x])%list).
Proof.
  unfold append_in, getitem. intros H. inv_bind H. inv_bind H. inversion H; subst.
  destruct (dfind d k) as [v |]; [ | discriminate ]. inversion Ha; subst.
  destruct a as [| | | | | [|] xs |]; try discriminate.
  inversion Ha0; subst. eauto.
Qed.

Lemma setitem_in_inv d k k2 v d' :
  setitem_in d k k2 v = Ok d' ->
  exists kvs, dfind d k = Some (VDict Local kvs)
              /\ d' = dset d k (VDict Local (dset kvs k2 v)).
Proof.
  unfold setitem_in, getitem. intros H. inv_bind H. inv_bind H. inversion H; subst.
  destruct (dfind d k) as [w |]; [ | discriminate ]. inversion Ha; subst.
  destruct a as [| | | | | [|] xs | [|] kvs]; try discriminate.
  inversion Ha0; subst. eauto.
Qed.

Lemma append_in2_inv d k k2 x d' :
  append_in2 d k k2 x = Ok d' ->
  exists o kvs xs, dfind d k = Some (VDict o kvs)
                   /\ dfind kvs k2 = Some (VList Local xs)
                   /\ d' = dset d k (VDict o (dset kvs k2 (VList Local (xs ++ [x])%list))).
Proof.
  unfold append_in2, getitem. intros H. inv_bind H.
  destruct (dfind d k) as [w |]; [ | discriminate ]. inversion Ha; subst.
  destruct a; try discriminate. inv_bind H. inversion H; subst.
  apply append_in_inv in Ha0. destruct Ha0 as (xs & F & ->). eauto 6.
Qed.

Lemma append_in_other d k x d' k' :
  append_in d k x = Ok d' -> key_eqb k k' = false -> dfind d' k' = dfind d k'.
Proof.
  intros H N. apply append_in_inv in H. destruct H as (xs & _ & ->).
  apply dfind_dset_other, N.
Qed.

Lemma append_in2_other d k k2 x d' k' :
  append_in2 d k k2 x = Ok d' -> key_eqb k k' = false -> dfind d' k' = dfind d k'.
Proof.
  intros H N. apply append_in2_inv in H. destruct H as (o & kvs & xs & _ & _ & ->).
  apply dfind_dset_other, N.
Qed.

Lemma setitem_in_other d k k2 v d' k' :
  setitem_in d k k2 v = Ok d' -> key_eqb k k' = false -> dfind d' k' = dfind d k'.
Proof.
  intros H N. apply setitem_in_inv in H. destruct H as (kvs & _ & ->).
  apply dfind_dset_other, N.
Qed.

Lemma cleaned_of_ok item cleaned : clean_item item = Ok cleaned -> cleaned_of item = cleaned.
Proof. unfold cleaned_of. intros ->. reflexivity. Qed.

Lemma lowered_ok cleaned k s : py_lower (gets cleaned k) = Ok s -> lowered cleaned k = s.
Proof. unfold lowered. intros ->. reflexivity. Qed.

Lemma carrying_snoc k pre x :
  carrying k (pre ++ [x]) =
  (carrying k pre ++ (if dhas (cleaned_of x) (KStr k) then [cleaned_of x] else []))%list.
Proof.
  unfold carrying. rewrite map_app, filter_app. simpl.
  destruct (dhas (cleaned_of x) k); reflexivity.
Qed.

(** ** The GPU parser: webcam or GPU *)

Lemma gpu_item_lists pre x result result' :
  gpu_lists pre result -> gpu_item result x = Ok result' ->
  gpu_lists (pre ++ [x]) result'.
Proof.
  intros [W D] H. unfold gpu_item in H. inv_bind H. rename a into cleaned.
  unfold gpu_lists. rewrite carrying_snoc, (cleaned_of_ok _ _ Ha).
  destruct (dhas cleaned "Device") eqn:Dev.
  - rewrite !filter_app, !map_app. simpl.
    unfold gpu_device in H. inv_bind H. inv_bind H.
    unfold webcam_only at 2 4.
    rewrite (lowered_ok _ _ _ Ha0), (lowered_ok _ _ _ Ha1).
    destruct (is_webcam a a0 && negb (is_gpu a a0)) eqn:C; simpl.
    + apply append_in_inv in H. destruct H as (xs & F & ->).
      rewrite W in F. inversion F; subst xs.
      rewrite dfind_dset_same, dfind_dset_other by reflexivity.
      rewrite app_nil_r. auto.
    + assert (negb (is_webcam a a0) || is_gpu a a0 = true) as N.
      { destruct (is_webcam a a0), (is_gpu a a0); simpl in *; auto; discriminate. }
      rewrite N in H.
      apply append_in_inv in H. destruct H as (xs & F & ->).
      rewrite D in F. inversion F; subst xs.
      rewrite dfind_dset_same, dfind_dset_other by reflexivity.
      rewrite app_nil_r. auto.
  - rewrite !app_nil_r.
    assert (dfind result' "webcams" = dfind result "webcams"
            /\ dfind result' "devices" = dfind result "devices") as [-> ->]; auto.
    repeat match type of H with
           | (if ?c then _ else _) = _ => destruct c
           end;
      try (inversion H; subst; split; rewrite ?dfind_dset_other by reflexivity; reflexivity);
      try (split; eapply append_in_other; eauto; reflexivity).
    split; eapply eq_trans;
      try (eapply append_in2_other; [ exact H | reflexivity ]);
      apply dfind_dset_other; reflexivity.
Qed.

(** C6.  In a Graphics section, the items that carry [Device] and match the
    webcam keywords without matching the GPU keywords are the entries of
    [webcams], in order; every other item that carries [Device] is an entry
    of [devices], an item that matches both lists included.  An "Integrated
    Webcam" driven by [uvcvideo] is a webcam; an "NVIDIA GeForce RTX 3080"
    is a GPU. *)
Theorem gpu_webcam_disambiguation :
  (forall (items : value) (its : list value) (r : value),
      py_iter items = Ok its ->
      parse_gpu_section items = Ok r ->
      exists kvs,
        r = VDict Local kvs
        /\ dfind kvs "webcams"
           = Some (VList Local
                     (List.map webcam_entry (filter webcam_only (carrying "Device" its))))
        /\ dfind kvs "devices"
           = Some (VList Local
                     (List.map gpu_entry
                        (filter (fun c => negb (webcam_only c)) (carrying "Device" its)))))
  /\ (forall c, webcam_only c = true <->
                is_webcam (lowered c "Device") (lowered c "driver") = true
                /\ is_gpu (lowered c "Device") (lowered c "driver") = false)
  /\ (exists kvs,
        parse_gpu_section (arr [ integrated_webcam; rtx_3080 ]) = Ok (VDict Local kvs)
        /\ dfind kvs "webcams"
           = Some (VList Local [ webcam_entry (cleaned_of integrated_webcam) ])
        /\ dfind kvs "devices"
           = Some (VList Local [ gpu_entry (cleaned_of rtx_3080) ])).
Proof.
  split; [ | split ].
  - intros items its r Hi H. unfold parse_gpu_section in H. rewrite Hi in H.
    simpl in H. inv_bind H. inversion H; subst r. exists a. split; auto.
    change its with ([] ++ its)%list.
    eapply foldM_prefix with (I := gpu_lists); [ | | exact Ha ].
    + intros; eapply gpu_item_lists; eauto.
    + split; reflexivity.
  - intros c. unfold webcam_only. rewrite andb_true_iff, negb_true_iff. tauto.
  - eexists. split; [ vm_compute; reflexivity | split; reflexivity ].
Qed.

Lemma gpu_webcam_disambiguation_witness :
  exists r,
    py_iter (arr [ rtx_3080; integrated_webcam ]) = Ok [ rtx_3080; integrated_webcam ]
    /\ parse_gpu_section (arr [ rtx_3080; integrated_webcam ]) = Ok r
    /\ exists kvs,
        r = VDict Local kvs
        /\ dfind kvs "webcams"
           = Some (VList Local
                     (List.map webcam_entry
                        (filter webcam_only
                           (carrying "Device" [ rtx_3080; integrated_webcam ]))))
        /\ dfind kvs "devices"
           = Some (VList Local
                     (List.map gpu_entry
                        (filter (fun c => negb (webcam_only c))
                           (carrying "Device" [ rtx_3080; integrated_webcam ])))).
Proof.
  eexists. split; [ reflexivity | ]. split; [ vm_compute; reflexivity | ].
  apply (proj1 gpu_webcam_disambiguation (arr [ rtx_3080; integrated_webcam ]));
    vm_compute; reflexivity.
Defined.

(** ** The CPU parser: the thread and core fallbacks *)

Lemma foldM_invariant_in {A B : Type} (f : A -> B -> res A) (I : A -> Prop) (xs : list B) :
  (forall a x a', In x xs -> I a -> f a x = Ok a' -> I a') ->
  forall a a', I a -> foldM f a xs = Ok a' -> I a'.
Proof.
  induction xs as [| x xs IH]; simpl; intros Hf a a' Ha H.
  - inversion H; subst. exact Ha.
  - inv_bind H. eapply IH; [ | | exact H ]; eauto.
Qed.

Lemma cpu_info_cores_other result cleaned result' k :
  cpu_info_cores result cleaned = Ok result' ->
  key_eqb "cores" k = false -> dfind result' k = dfind result k.
Proof.
  unfold cpu_info_cores. intros H N.
  destruct (truthy (gets cleaned "Info")); [ | inversion H; auto ].
  inv_bind H. inversion H; subst. clear H.
  destruct (search_core a); rewrite ?dfind_dset_other by exact N;
    repeat match goal with
           | |- context [if ?c then _ else _] => destruct c
           end; rewrite ?dfind_dset_other by exact N; reflexivity.
Qed.

Lemma cpu_info_cores_none result cleaned result' :
  cpu_info_cores result cleaned = Ok result' ->
  mines_cores cleaned = false -> result' = result.
Proof.
  unfold cpu_info_cores, mines_cores. intros H M.
  destruct (truthy (gets cleaned "Info")); [ | inversion H; auto ].
  inv_bind H. rewrite (lowered_ok _ _ _ Ha) in M. simpl in M.
  apply orb_false_elim in M. destruct M as [M M5].
  apply orb_false_elim in M. destruct M as [M M4].
  apply orb_false_elim in M. destruct M as [M M3].
  apply orb_false_elim in M. destruct M as [M1 M2].
  rewrite M1, M2, M3, M4 in H. destruct (search_core a); [ discriminate | ].
  inversion H. reflexivity.
Qed.

Lemma cpu_topology_other k0 result cleaned result' k :
  cpu_topology k0 result cleaned = Ok result' ->
  key_eqb (KStr k0) k = false -> dfind result' k = dfind result k.
Proof.
  unfold cpu_topology. intros H N.
  destruct (dfind cleaned k0); [ | inversion H; auto ].
  destruct (py_int v) as [z | []]; inversion H; subst; auto using dfind_dset_other.
Qed.

Lemma cpu_topology_none k0 result cleaned result' :
  cpu_topology k0 result cleaned = Ok result' ->
  reports_int k0 cleaned = false -> result' = result.
Proof.
  unfold cpu_topology, reports_int. intros H N.
  destruct (dfind cleaned k0); [ | inversion H; auto ].
  destruct (py_int v) as [z | []]; try discriminate; inversion H; auto.
Qed.

Lemma cpu_core_speeds_other result cleaned result' k :
  cpu_core_speeds result cleaned = Ok result' ->
  key_eqb "core_speeds" k = false -> dfind result' k = dfind result k.
Proof.
  unfold cpu_core_speeds. intros H N. revert H.
  apply foldM_invariant with (I := fun r => dfind r k = dfind result k); auto.
  intros r kv r' Hr H. destruct (fst kv); try discriminate.
  destruct (Str.isdigit s); [ | inversion H; subst; auto ].
  rewrite <- Hr. eapply setitem_in_other; eauto.
Qed.

Lemma cpu_core_speeds_dict result cleaned result' :
  cpu_core_speeds result cleaned = Ok result' ->
  (exists s, dfind result "core_speeds" = Some (VDict Local s)) ->
  exists s, dfind result' "core_speeds" = Some (VDict Local s).
Proof.
  unfold cpu_core_speeds. intros H I. revert H.
  apply foldM_invariant
    with (I := fun r => exists s, dfind r "core_speeds" = Some (VDict Local s)); auto.
  intros r kv r' Hr H. destruct (fst kv); try discriminate.
  destruct (Str.isdigit s); [ | inversion H; subst; auto ].
  apply setitem_in_inv in H. destruct H as (kvs & _ & ->).
  rewrite dfind_dset_same. eauto.
Qed.

Lemma cpu_minmax_other result cleaned k :
  key_eqb "speed_min" k = false -> key_eqb "speed_max" k = false ->
  dfind (cpu_minmax result cleaned) k = dfind result k.
Proof.
  intros N1 N2. unfold cpu_minmax.
  destruct (dfind cleaned "min/max"); auto.
  destruct (Str.split "/" (py_str v)) as [| a [| b [| c l]]]; auto.
  destruct (int_of_string a); auto.
  destruct (int_of_string b); rewrite ?dfind_dset_other by assumption; auto.
Qed.

(** An item that reports no [threads] leaves [threads] alone, and one that
    neither reports nor mines [cores] leaves [cores] alone. *)
Lemma cpu_item_frame result item result' (k : string) :
  cpu_item result item = Ok result' ->
  (k = "threads" /\ reports_int "threads" (cleaned_of item) = false)
  \/ (k = "cores" /\ reports_int "cores" (cleaned_of item) = false
                  /\ mines_cores (cleaned_of item) = false) ->
  dfind result' k = dfind result k.
Proof.
  intros H K. unfold cpu_item in H.
  inv_bind H. rename a into cleaned. rewrite (cleaned_of_ok _ _ Ha) in *.
  do 4 inv_bind H.
  assert (N : forall s : string,
             s <> "threads" -> s <> "cores" -> key_eqb (KStr s) k = false).
  { intros s N1 N2. destruct K as [[-> _] | [-> _]]; simpl;
      apply String.eqb_neq; assumption. }
  assert (F1 : dfind a k = dfind result k).
  { destruct K as [[-> _] | (-> & _ & M)].
    - rewrite (cpu_info_cores_other _ _ _ _ Ha0) by reflexivity.
      rewrite !dfind_copy_other by reflexivity. reflexivity.
    - rewrite (cpu_info_cores_none _ _ _ Ha0 M).
      rewrite !dfind_copy_other by reflexivity. reflexivity. }
  assert (F2 : dfind a0 k = dfind a k).
  { destruct K as [[-> _] | (-> & R & _)].
    - eapply cpu_topology_other; [ exact Ha1 | reflexivity ].
    - rewrite (cpu_topology_none _ _ _ _ Ha1 R). reflexivity. }
  assert (F3 : dfind a1 k = dfind a0 k).
  { destruct K as [[-> R] | (-> & _ & _)].
    - rewrite (cpu_topology_none _ _ _ _ Ha2 R). reflexivity.
    - eapply cpu_topology_other; [ exact Ha2 | reflexivity ]. }
  assert (F4 : dfind a2 k = dfind a1 k).
  { eapply cpu_core_speeds_other; [ exact Ha3 | ]. apply N; discriminate. }
  rewrite <- F1, <- F2, <- F3, <- F4. clear F1 F2 F3 F4 Ha0 Ha1 Ha2 Ha3.
  match type of H with
  | match ?o with _ => _ end = _ => destruct o as [ty |]
  end.
  - rewrite (append_in_other _ _ _ _ k H) by (apply N; discriminate).
    destruct (dhas cleaned "Flags");
      rewrite !dfind_copy_other by (apply N; discriminate);
      rewrite cpu_minmax_other by (apply N; discriminate);
      rewrite !dfind_copy_other by (apply N; discriminate); reflexivity.
  - inversion H; subst result'.
    destruct (dhas cleaned "Flags");
      rewrite !dfind_copy_other by (apply N; discriminate);
      rewrite cpu_minmax_other by (apply N; discriminate);
      rewrite !dfind_copy_other by (apply N; discriminate); reflexivity.
Qed.

Lemma cpu_item_speeds result item result' :
  cpu_item result item = Ok result' ->
  (exists s, dfind result "core_speeds" = Some (VDict Local s)) ->
  exists s, dfind result' "core_speeds" = Some (VDict Local s).
Proof.
  intros H I. unfold cpu_item in H.
  inv_bind H. rename a into cleaned. do 4 inv_bind H.
  assert (I2 : exists s, dfind a2 "core_speeds" = Some (VDict Local s)).
  { eapply cpu_core_speeds_dict; [ exact Ha3 | ].
    rewrite (cpu_topology_other _ _ _ _ _ Ha2) by reflexivity.
    rewrite (cpu_topology_other _ _ _ _ _ Ha1) by reflexivity.
    rewrite (cpu_info_cores_other _ _ _ _ Ha0) by reflexivity.
    rewrite !dfind_copy_other by reflexivity. exact I. }
  clear Ha0 Ha1 Ha2 Ha3 I.
  match type of H with
  | match ?o with _ => _ end = _ => destruct o as [ty |]
  end.
  - rewrite (append_in_other _ _ _ _ "core_speeds" H) by reflexivity.
    destruct (dhas cleaned "Flags");
      rewrite !dfind_copy_other by reflexivity;
      rewrite cpu_minmax_other by reflexivity;
      rewrite !dfind_copy_other by reflexivity; exact I2.
  - inversion H; subst result'.
    destruct (dhas cleaned "Flags");
      rewrite !dfind_copy_other by reflexivity;
      rewrite cpu_minmax_other by reflexivity;
      rewrite !dfind_copy_other by reflexivity; exact I2.
Qed.

Lemma cpu_fallback_spec result result' speeds :
  cpu_fallback result = Ok result' ->
  dfind result "threads" = Some (VInt 0) ->
  dfind result "core_speeds" = Some (VDict Local speeds) ->
  let t := Z.of_nat (List.length speeds) in
  dfind result' "threads" = Some (VInt t)
  /\ dfind result' "core_speeds" = Some (VDict Local speeds)
  /\ (dfind result "cores" = Some (VInt 0) ->
      dfind result' "cores" = Some (VInt (half_or_all t))).
Proof.
  intros H T S t. unfold cpu_fallback, getitem in H. rewrite T in H. simpl in H.
  rewrite S in H. simpl in H. rewrite dfind_dset_same in H. simpl in H.
  rewrite dfind_dset_other in H by reflexivity. fold t in H.
  destruct (dfind result "cores") as [cores |] eqn:C; [ | discriminate ]. simpl in H.
  destruct ((0 <? t)%Z && eq_int cores 0) eqn:B.
  - inversion H; subst result'. repeat split; intros; dict_simpl; auto.
  - inversion H; subst result'. repeat split; intros; dict_simpl; auto.
    rewrite C in *. inversion H0; subst cores. simpl in B.
    rewrite andb_true_r in B. apply Z.ltb_ge in B.
    assert (t = 0)%Z as -> by (unfold t in *; lia). reflexivity.
Qed.

(** C7.  When no item of a CPU section reports a [threads] field that [int]
    accepts, the returned [threads] is the number of entries of
    [core_speeds]; when moreover no item reports such a [cores] field or
    yields a core count from its [Info] text, the returned [cores] is
    [threads // 2], or [threads] when that is zero.  Four speed entries and
    nothing else give four threads and two cores. *)
Theorem cpu_thread_core_fallback :
  (forall (items : value) (its : list value) (r : value),
      py_iter items = Ok its ->
      parse_cpu_section items = Ok r ->
      (forall it, In it its -> reports_int "threads" (cleaned_of it) = false) ->
      exists kvs speeds,
        r = VDict Local kvs
        /\ dfind kvs "core_speeds" = Some (VDict Local speeds)
        /\ dfind kvs "threads" = Some (VInt (Z.of_nat (List.length speeds)))
        /\ ((forall it, In it its ->
                        reports_int "cores" (cleaned_of it) = false
                        /\ mines_cores (cleaned_of it) = false) ->
            dfind kvs "cores"
            = Some (VInt (half_or_all (Z.of_nat (List.length speeds))))))
  /\ (exists kvs speeds,
        parse_cpu_section four_speeds = Ok (VDict Local kvs)
        /\ dfind kvs "core_speeds" = Some (VDict Local speeds)
        /\ List.length speeds = 4%nat
        /\ dfind kvs "threads" = Some (VInt 4)
        /\ dfind kvs "cores" = Some (VInt 2)).
Proof.
  split.
  - intros items its r Hi H Ht. unfold parse_cpu_section in H. rewrite Hi in H.
    simpl in H. do 2 inv_bind H. inversion H; subst r. clear H.
    rename a into result, a0 into final.
    assert (T : dfind result "threads" = Some (VInt 0)).
    { revert Ha. apply foldM_invariant_in
        with (I := fun r => dfind r "threads" = Some (VInt 0)); [ | reflexivity ].
      intros a x a' Hx Hthreads Hstep. rewrite <- Hthreads.
      eapply cpu_item_frame; [ exact Hstep | left; auto ]. }
    assert (S : exists s, dfind result "core_speeds" = Some (VDict Local s)).
    { revert Ha. apply foldM_invariant
        with (I := fun r => exists s, dfind r "core_speeds" = Some (VDict Local s)).
      - intros; eapply cpu_item_speeds; eauto.
      - eexists; reflexivity. }
    destruct S as [speeds S].
    destruct (cpu_fallback_spec _ _ _ Ha0 T S) as (F1 & F2 & F3).
    exists final, speeds. repeat split; auto.
    intros Hc. apply F3. revert Ha.
    apply foldM_invariant_in
      with (I := fun r => dfind r "cores" = Some (VInt 0)); [ | reflexivity ].
    intros a x a' Hx Hcores Hstep. rewrite <- Hcores.
    eapply cpu_item_frame; [ exact Hstep | right ]. destruct (Hc x Hx). auto.
  - do 2 eexists. split; [ vm_compute; reflexivity | repeat split; reflexivity ].
Qed.

Lemma cpu_thread_core_fallback_witness :
  exists r,
    parse_cpu_section four_speeds = Ok r
    /\ exists kvs speeds,
        r = VDict Local kvs
        /\ dfind kvs "core_speeds" = Some (VDict Local speeds)
        /\ dfind kvs "threads" = Some (VInt (Z.of_nat (List.length speeds)))
        /\ dfind kvs "cores"
           = Some (VInt (half_or_all (Z.of_nat (List.length speeds)))).
Proof.
  eexists. split; [ vm_compute; reflexivity | ].
  destruct (proj1 cpu_thread_core_fallback four_speeds
              [ obj [ "001#1#1#0" ~> VInt 2400; "002#1#1#1" ~> VInt 2400;
                      "003#1#1#2" ~> VInt 2400; "004#1#1#3" ~> VInt 2400 ] ]
              _ eq_refl eq_refl) as (kvs & speeds & E & S & T & C).
  - intros it [<- | []]. reflexivity.
  - exists kvs, speeds. repeat split; auto. apply C.
    intros it [<- | []]. split; reflexivity.
Defined.

(** ** The Memory parser: the summary item and the modules *)

(** C8, as the specification states it, fails on a summary that reports its
    total in MiB: the item carries [total] and no [Device], and the record's
    [total] stays empty. *)
Lemma memory_total_needs_gib :
  exists cleaned kvs,
    clean_item (obj [ "001#1#1#total" ~> VStr "512 MiB"; "002#1#1#used" ~> VStr "100 MiB" ])
    = Ok cleaned
    /\ dhas cleaned "total" = true /\ dhas cleaned "Device" = false
    /\ parse_memory_section mib_summary = Ok (VDict Local kvs)
    /\ dfind kvs "total" = Some (VStr "").
Proof.
  do 2 eexists. split; [ vm_compute; reflexivity | ].
  split; [ reflexivity | ]. split; [ reflexivity | ].
  split; [ vm_compute; reflexivity | reflexivity ].
Qed.

Lemma contains_nonempty (needle s : string) :
  needle <> "" -> Str.contains needle s = true -> s <> "".
Proof.
  intros N H ->. destruct needle; [ congruence | discriminate ].
Qed.

Lemma find_snoc {A : Type} (p : A -> bool) (l : list A) (x : A) :
  find p (l ++ [x]) =
  match find p l with
  | Some y => Some y
  | None => if p x then Some x else None
  end.
Proof.
  induction l as [| y l IH]; simpl; [ destruct (p x); reflexivity | ].
  destruct (p y); auto.
Qed.

Lemma find_true {A : Type} (p : A -> bool) (l : list A) (x : A) :
  find p l = Some x -> p x = true.
Proof. intros H. apply find_some in H. tauto. Qed.

Lemma memory_first_other k0 result cleaned k :
  key_eqb (KStr k0) k = false -> dfind (memory_first k0 result cleaned) k = dfind result k.
Proof.
  intros N. unfold memory_first. destruct (dfind cleaned k0); auto.
  destruct (negb (truthy (dget result k0 VNone))); auto using dfind_dset_other.
Qed.

Lemma memory_total_other result cleaned k :
  key_eqb "total" k = false -> dfind (memory_total result cleaned) k = dfind result k.
Proof.
  intros N. unfold memory_total.
  repeat match goal with
         | |- context [if ?c then _ else _] => destruct c
         end; auto using dfind_dset_other.
Qed.

Lemma ram_total_snoc pre x :
  ram_total (pre ++ [x]) =
  match find ram_summary (List.map cleaned_of pre) with
  | Some cleaned => VStr (py_str (gets cleaned "total"))
  | None => if ram_summary (cleaned_of x)
            then VStr (py_str (gets (cleaned_of x) "total")) else E
  end.
Proof.
  unfold ram_total. rewrite map_app. simpl. rewrite find_snoc.
  destruct (find ram_summary (List.map cleaned_of pre)); auto.
  destruct (ram_summary (cleaned_of x)); auto.
Qed.

Lemma ram_summary_text cleaned :
  ram_summary cleaned = true -> truthy (VStr (py_str (gets cleaned "total"))) = true.
Proof.
  unfold ram_summary. rewrite !andb_true_iff, orb_true_iff. intros [_ [H | H]]; simpl;
    apply negb_true_iff, String.eqb_neq; eapply contains_nonempty; eauto; discriminate.
Qed.

Lemma memory_total_spec pre x result :
  dfind result "total" = Some (ram_total pre) ->
  dfind (memory_total result (cleaned_of x)) "total" = Some (ram_total (pre ++ [x])).
Proof.
  intros T. rewrite ram_total_snoc. unfold ram_total in T. unfold memory_total, dget.
  rewrite T.
  destruct (find ram_summary (List.map cleaned_of pre)) as [c |] eqn:F.
  - rewrite (ram_summary_text _ (find_true _ _ _ F)). simpl.
    repeat match goal with
           | |- context [if ?c then _ else _] => destruct c
           end; auto.
  - simpl. unfold ram_summary.
    destruct (dhas (cleaned_of x) "total" && negb (dhas (cleaned_of x) "Device")); simpl; auto.
    destruct (Str.contains "GiB" (py_str (gets (cleaned_of x) "total"))
              || Str.contains "GB" (py_str (gets (cleaned_of x) "total"))); auto.
    apply dfind_dset_same.
Qed.

Lemma memory_item_lists pre x result result' :
  memory_lists pre result -> memory_item result x = Ok result' ->
  memory_lists (pre ++ [x]) result'.
Proof.
  intros [T M] H. unfold memory_item in H. inv_bind H. rename a into cleaned.
  pose proof (cleaned_of_ok _ _ Ha) as C.
  unfold memory_module in H.
  assert (Hmod : ram_modules (pre ++ [x])
                 = (ram_modules pre
                      ++ (if ram_module cleaned
                          then [module_entry cleaned (gets cleaned "size")] else []))%list).
  { unfold ram_modules. rewrite map_app, filter_app, map_app. simpl. rewrite C.
    destruct (ram_module cleaned); reflexivity. }
  assert (T' : forall r, dfind r "total" = dfind (memory_total result cleaned) "total" ->
                         dfind r "total" = Some (ram_total (pre ++ [x]))).
  { intros r ->. rewrite <- C. apply memory_total_spec, T. }
  unfold memory_lists. rewrite Hmod. unfold ram_module.
  destruct (dhas cleaned "Device" && dhas cleaned "size"); simpl.
  - destruct (truthy (gets cleaned "size")
              && negb (Str.contains "No Module" (py_str (gets cleaned "size")))); simpl.
    + apply append_in_inv in H. destruct H as (xs & F & ->).
      rewrite !dfind_copy_str_other, !memory_first_other, memory_total_other in F
        by reflexivity.
      rewrite M in F. inversion F; subst xs. split; [ apply T' | ]; dict_simpl; auto.
      rewrite !dfind_copy_str_other, !memory_first_other by reflexivity. reflexivity.
    + inversion H; subst result'. rewrite app_nil_r. split; [ apply T' | ].
      * rewrite !dfind_copy_str_other, !memory_first_other by reflexivity. reflexivity.
      * rewrite !dfind_copy_str_other, !memory_first_other, memory_total_other
          by reflexivity. exact M.
  - inversion H; subst result'. rewrite app_nil_r. split; [ apply T' | ].
    + rewrite !dfind_copy_str_other, !memory_first_other by reflexivity. reflexivity.
    + rewrite !dfind_copy_str_other, !memory_first_other, memory_total_other
        by reflexivity. exact M.
Qed.

Lemma memory_percent_other result result' k :
  memory_percent result = Ok result' ->
  key_eqb "used_percent" k = false -> dfind result' k = dfind result k.
Proof.
  unfold memory_percent. intros H N. do 2 inv_bind H.
  destruct (truthy a && truthy a0); [ | inversion H; auto ].
  destruct (memory_ratio result a a0) as [r |] eqn:R.
  - inversion H; subst r. unfold memory_ratio in R. do 2 inv_bind R.
    destruct a1; [ | inversion R; auto ]. destruct a2; [ | inversion R; auto ].
    do 2 inv_bind R. destruct (0 <? Qnum a1)%Z; inversion R; auto using dfind_dset_other.
  - destruct e; inversion H; auto.
Qed.

(** C8, amended.  The record's [total] is the total text of the first item
    that carries [total], carries no [Device] and writes its total in GiB or
    GB (and stays empty when there is none); the entries of [modules] are,
    in order, the items that carry [Device] and a [size] that is truthy and
    does not read "No Module". *)
Theorem memory_summary_and_modules :
  forall (items : value) (its : list value) (r : value),
    py_iter items = Ok its ->
    parse_memory_section items = Ok r ->
    exists kvs,
      r = VDict Local kvs
      /\ dfind kvs "total" = Some (ram_total its)
      /\ dfind kvs "modules" = Some (VList Local (ram_modules its)).
Proof.
  intros items its r Hi H. unfold parse_memory_section in H. rewrite Hi in H.
  simpl in H. do 2 inv_bind H. inversion H; subst r. clear H.
  exists a0. split; auto.
  assert (L : memory_lists its a).
  { change its with ([] ++ its)%list.
    eapply foldM_prefix with (I := memory_lists); [ | | exact Ha ].
    - intros; eapply memory_item_lists; eauto.
    - split; reflexivity. }
  destruct L as [T M].
  rewrite !(memory_percent_other _ _ _ Ha0) by reflexivity. auto.
Qed.

Lemma memory_summary_and_modules_witness :
  exists r d0 rest,
    py_iter two_slots = Ok (d0 :: rest)
    /\ parse_memory_section two_slots = Ok r
    /\ ram_total (d0 :: rest) = VStr "16 GiB"
    /\ List.length (ram_modules (d0 :: rest)) = 1%nat
    /\ exists kvs,
        r = VDict Local kvs
        /\ dfind kvs "total" = Some (ram_total (d0 :: rest))
        /\ dfind kvs "modules" = Some (VList Local (ram_modules (d0 :: rest))).
Proof.
  do 3 eexists. split; [ reflexivity | ]. split; [ vm_compute; reflexivity | ].
  split; [ reflexivity | ]. split; [ reflexivity | ].
  apply (memory_summary_and_modules two_slots); vm_compute; reflexivity.
Defined.

(** ** Never a write to the caller's objects, and a result on well-formed
    input: the rules *)

Lemma spec_ok {A : Type} (W : Prop) (a : A) (Q : A -> Prop) : Q a -> spec W (Ok a) Q.
Proof. exact (fun H => H). Qed.

Lemma spec_raise {A : Type} (W : Prop) (e : exn) (Q : A -> Prop) :
  e <> Clobber -> ~ W -> spec W (@Raise A e) Q.
Proof. simpl. auto. Qed.

Lemma spec_bind {A B : Type} (W : Prop) (m : res A) (f : A -> res B)
  (P : A -> Prop) (Q : B -> Prop) :
  spec W m P -> (forall a, P a -> spec W (f a) Q) -> spec W (bind m f) Q.
Proof.
  destruct m as [a | e]; simpl; intros Hm Hf; [ apply Hf, Hm | exact Hm ].
Qed.

Lemma spec_weaken {A : Type} (W : Prop) (m : res A) (P Q : A -> Prop) :
  spec W m P -> (forall a, P a -> Q a) -> spec W m Q.
Proof. destruct m as [a | e]; simpl; auto. Qed.

Lemma spec_foldM {A B : Type} (W : Prop) (f : A -> B -> res A) (I : A -> Prop)
  (xs : list B) :
  (forall a x, In x xs -> I a -> spec W (f a x) I) ->
  forall a, I a -> spec W (foldM f a xs) I.
Proof.
  induction xs as [| x xs IH]; simpl; intros Hf a Ha.
  - exact Ha.
  - eapply spec_bind; [ apply Hf; auto | intros; apply IH; auto ].
Qed.

Lemma spec_total {A : Type} (m : res A) (Q : A -> Prop) :
  spec True m Q -> exists a, m = Ok a /\ Q a.
Proof.
  destruct m as [a | e]; simpl; [ eauto | intros [_ H]; destruct (H I) ].
Qed.

Lemma spec_never_clobbers {A : Type} (W : Prop) (m : res A) (Q : A -> Prop) (e : exn) :
  spec W m Q -> m = Raise e -> e <> Clobber.
Proof. intros H ->. apply H. Qed.

Lemma spec_result {A : Type} (W : Prop) (m : res A) (Q : A -> Prop) (a : A) :
  spec W m Q -> m = Ok a -> Q a.
Proof. intros H ->. exact H. Qed.

(** ** Invariants of the result dictionaries *)

Lemma holds_dset_in p ks d k v :
  holds p ks d -> p v -> holds p ks (dset d k v).
Proof.
  unfold holds. intros H Hv. eapply Forall_impl; [ | exact H ].
  intros c (w & Hc & Hw). cbv beta.
  destruct (key_eqb k (KStr c)) eqn:K.
  - exists v. destruct k; try discriminate.
    apply key_eqb_str in K. subst. split; [ apply dfind_dset_same | exact Hv ].
  - exists w. rewrite dfind_dset_other; auto.
Qed.

Lemma holds_dset_out p ks d k v :
  forallb (fun c => negb (key_eqb k (KStr c))) ks = true ->
  holds p ks d -> holds p ks (dset d k v).
Proof.
  unfold holds. intros N H. rewrite forallb_forall in N.
  rewrite Forall_forall in *. intros c Hc. destruct (H c Hc) as (w & Hw & Pw).
  exists w. split; auto. rewrite dfind_dset_other; auto.
  apply negb_true_iff, N, Hc.
Qed.

Lemma holds_find p ks d (k : string) :
  holds p ks d -> In k ks -> exists v, dfind d k = Some v /\ p v.
Proof. unfold holds. rewrite Forall_forall. auto. Qed.

Lemma holds_copy_out p ks cleaned src d dst :
  forallb (fun c => negb (key_eqb (KStr dst) (KStr c))) ks = true ->
  holds p ks d -> holds p ks (copy cleaned src d dst).
Proof.
  intros N H. unfold copy. destruct (dfind cleaned src); auto using holds_dset_out.
Qed.

Lemma holds_copy_str_out p ks cleaned src d dst :
  forallb (fun c => negb (key_eqb (KStr dst) (KStr c))) ks = true ->
  holds p ks d -> holds p ks (copy_str cleaned src d dst).
Proof.
  intros N H. unfold copy_str. destruct (dfind cleaned src); auto using holds_dset_out.
Qed.

Lemma local_list_snoc (q : value -> Prop) xs x :
  Forall q xs -> q x -> local_list q (VList Local (xs ++ [x])%list).
Proof.
  intros H Hx. exists (xs ++ [x])%list. split; auto.
  apply Forall_app. auto.
Qed.

Lemma local_list_nil (q : value -> Prop) : local_list q (VList Local []).
Proof. exists []. auto. Qed.

(** [d[k].append(x)] on a list of the running call. *)
Lemma spec_append_in W (q : value -> Prop) ks d (k : string) x (Q : entries -> Prop) :
  holds (local_list q) ks d -> In k ks ->
  (forall xs, dfind d k = Some (VList Local xs) -> Forall q xs ->
              Q (dset d k (VList Local (xs ++ [x])%list))) ->
  spec W (append_in d k x) Q.
Proof.
  intros H Hk HQ. destruct (holds_find _ _ _ _ H Hk) as (v & F & xs & -> & Hq).
  unfold append_in, getitem. rewrite F. simpl. apply HQ; auto.
Qed.

(** Side conditions on literal keys are settled by evaluation. *)
Ltac holds_step :=
  first
    [ assumption
    | apply holds_dset_out; [ reflexivity | ]
    | apply holds_copy_out; [ reflexivity | ]
    | apply holds_copy_str_out; [ reflexivity | ] ].

Ltac holds_solve := repeat holds_step.

(** ** Cleaning an item *)

Lemma str_keys_dset d (k : string) v : str_keys d = true -> str_keys (dset d k v) = true.
Proof.
  induction d as [| [e w] d IH]; simpl; auto.
  intros H. apply andb_true_iff in H. destruct H as [H1 H2].
  destruct (key_eqb e k); simpl; rewrite H1; auto.
Qed.

Lemma clean_item_spec W item :
  (W -> is_item item = true) ->
  spec W (clean_item item) (fun c => c = cleaned_of item /\ str_keys c = true).
Proof.
  intros Hw. unfold cleaned_of.
  destruct (clean_item item) as [c | e] eqn:C; simpl.
  - split; auto. unfold clean_item in C. inv_bind C. revert C.
    apply foldM_invariant with (I := fun c => str_keys c = true); auto.
    intros c0 kv c1 Hc H. inv_bind H. inversion H; subst.
    destruct (fst kv); try discriminate. inversion Ha0; subst.
    destruct (is_absent (snd kv)); auto using str_keys_dset.
  - unfold clean_item in C. destruct item; simpl in *;
      try (inversion C; subst; split; [ discriminate | intros HW; specialize (Hw HW); discriminate ]).
    assert (G : forall acc, foldM (fun cleaned kv =>
                   ck <- clean_key_of (fst kv) ;;
                   Ok (if is_absent (snd kv) then cleaned else dset cleaned ck (snd kv)))
                 acc kvs = Raise e -> e <> Clobber /\ (str_keys kvs = true -> False)).
    { clear. induction kvs as [| [k v] kvs IH]; simpl; intros acc H; [ discriminate | ].
      destruct k; simpl in H;
        try (inversion H; subst; split; [ discriminate | discriminate ]).
      destruct (IH _ H) as [H1 H2]. split; auto. }
    destruct (G _ C) as [G1 G2]. split; auto.
Qed.

Lemma text_field_gets cleaned k :
  text_field cleaned k = true -> is_str (gets cleaned k) = true.
Proof.
  unfold text_field, gets, dget. destruct (dfind cleaned k); auto.
Qed.

Lemma wf_item_text v k :
  wf_item v = true -> In k text_fields -> is_str (gets (cleaned_of v) k) = true.
Proof.
  unfold wf_item. rewrite !andb_true_iff, forallb_forall.
  intros ((((_ & H) & _) & _) & _) Hk. apply text_field_gets, H, Hk.
Qed.

Lemma wf_item_is_item v : wf_item v = true -> is_item v = true.
Proof. unfold wf_item. rewrite !andb_true_iff. tauto. Qed.

Lemma spec_py_lower W v :
  (W -> is_str v = true) -> spec W (py_lower v) (fun _ => True).
Proof.
  intros H. destruct v; simpl; auto;
    (split; [ discriminate | intros HW; specialize (H HW); discriminate ]).
Qed.

Lemma spec_py_upper W v :
  (W -> is_str v = true) -> spec W (py_upper v) (fun _ => True).
Proof.
  intros H. destruct v; simpl; auto;
    (split; [ discriminate | intros HW; specialize (H HW); discriminate ]).
Qed.

Lemma spec_py_iter_list W o xs (Q : list value -> Prop) :
  Q xs -> spec W (py_iter (VList o xs)) Q.
Proof. exact (fun H => H). Qed.

Lemma spec_py_iter W items :
  item_list W items ->
  spec W (py_iter items) (fun its => W -> Forall (fun it => wf_item it = true) its).
Proof.
  intros H. destruct items; simpl;
    try (split; [ discriminate | intros HW; destruct (H HW) as (o' & its & E' & _); discriminate ]);
    intros HW; destruct (H HW) as (o' & its & E' & F); inversion E'; subst; auto.
Qed.

(** The loop over the items of a section. *)
Lemma spec_items {A : Type} W (f : A -> value -> res A) (I : A -> Prop) its a :
  (W -> Forall (fun it => wf_item it = true) its) ->
  (forall a x, (W -> wf_item x = true) -> I a -> spec W (f a x) I) ->
  I a -> spec W (foldM f a its) I.
Proof.
  intros Hw Hf Ha. apply spec_foldM; auto.
  intros a0 x Hx Ia. apply Hf; auto.
  intros HW. specialize (Hw HW). rewrite Forall_forall in Hw. auto.
Qed.

Ltac spec_clean Hw c :=
  eapply spec_bind;
  [ apply clean_item_spec; intros HW; apply wf_item_is_item, Hw, HW
  | intros c [-> _] ].

(** The same, keeping the fact that the cleaned keys are strings. *)
Ltac spec_clean_keys Hw c Hk :=
  eapply spec_bind;
  [ apply clean_item_spec; intros HW; apply wf_item_is_item, Hw, HW
  | intros c [-> Hk] ].

(** ** The GPU parser *)

Lemma is_str_inv v : is_str v = true -> exists s, v = VStr s.
Proof. destruct v; try discriminate. eauto. Qed.

Lemma gpu_entry_bus W item :
  (W -> wf_item item = true) ->
  local_dict (gpu_entry (cleaned_of item)) /\ (W -> text_bus (gpu_entry (cleaned_of item))).
Proof.
  intros Hw. split; [ eexists; reflexivity | ]. intros HW.
  destruct (is_str_inv _ (wf_item_text _ "bus-ID" (Hw HW) ltac:(simpl; tauto))) as [s G].
  do 3 eexists. split; [ reflexivity | ]. unfold dget. simpl. exact G.
Qed.

Lemma gpu_item_spec W result item :
  (W -> wf_item item = true) -> gpu_inv W result ->
  spec W (gpu_item result item) (gpu_inv W).
Proof.
  intros Hw [D L]. unfold gpu_item. spec_clean Hw c.
  assert (T : forall k, In k text_fields -> W -> is_str (gets (cleaned_of item) k) = true)
    by (intros k Hk HW; apply wf_item_text; auto).
  destruct (dhas (cleaned_of item) "Device").
  { unfold gpu_device.
    eapply spec_bind; [ apply spec_py_lower, T; simpl; tauto | intros name _ ].
    eapply spec_bind; [ apply spec_py_lower, T; simpl; tauto | intros driver _ ].
    destruct (is_webcam name driver && negb (is_gpu name driver)).
    - eapply spec_append_in; [ exact L | simpl; tauto | ]. intros xs F Q. split.
      + holds_solve.
      + apply holds_dset_in; auto. apply local_list_snoc; auto.
    - destruct (negb (is_webcam name driver) || is_gpu name driver);
        [ | apply spec_ok; split; auto ].
      eapply spec_append_in; [ exact D | simpl; tauto | ]. intros xs F Q. split.
      + apply holds_dset_in; auto. apply local_list_snoc; auto.
        apply gpu_entry_bus, Hw.
      + holds_solve. }
  repeat match goal with
         | |- spec _ (if ?c then _ else _) _ => destruct c
         end;
    try (apply spec_ok; split; holds_solve; fail).
  - eapply spec_append_in; [ exact L | simpl; tauto | ]. intros xs F Q. split.
    + holds_solve.
    + apply holds_dset_in; auto. apply local_list_snoc; auto.
  - unfold append_in2, append_in, getitem. rewrite dfind_dset_same. simpl.
    split; holds_solve.
Qed.

Lemma gpu_inv_default W : gpu_inv W gpu_default.
Proof.
  split; unfold holds;
    repeat (constructor; [ eexists; split; [ reflexivity | apply local_list_nil ] | ]);
    constructor.
Qed.

Lemma parse_gpu_section_spec W items :
  item_list W items -> spec W (parse_gpu_section items) (device_record W).
Proof.
  intros Hi. unfold parse_gpu_section.
  eapply spec_bind; [ apply spec_py_iter, Hi | intros its Hw ].
  eapply spec_bind; [ apply spec_items with (I := gpu_inv W); auto | ].
  - intros; apply gpu_item_spec; auto.
  - apply gpu_inv_default.
  - intros result [D _]. apply spec_ok. exists result. auto.
Qed.

(** ** The CPU parser *)

Lemma cpu_inv_dset_out result (k : string) v :
  forallb (fun c => negb (String.eqb k c))
          [ "core_speeds"; "vulnerabilities"; "threads"; "cores" ] = true ->
  cpu_inv result -> cpu_inv (dset result k v).
Proof.
  intros N (A & B & C). simpl in N. rewrite !andb_true_iff in N.
  destruct N as (N1 & N2 & N3 & N4 & _).
  repeat split; apply holds_dset_out; auto; simpl; rewrite ?N1, ?N2, ?N3, ?N4; reflexivity.
Qed.

Lemma cpu_inv_copy_out result cleaned src (k : string) :
  forallb (fun c => negb (String.eqb k c))
          [ "core_speeds"; "vulnerabilities"; "threads"; "cores" ] = true ->
  cpu_inv result -> cpu_inv (copy cleaned src result k).
Proof.
  intros N I. unfold copy. destruct (dfind cleaned src); auto using cpu_inv_dset_out.
Qed.

Lemma cpu_inv_int result (k : string) z :
  k = "threads" \/ k = "cores" -> cpu_inv result -> cpu_inv (dset result k (VInt z)).
Proof.
  intros K (A & B & C). repeat split.
  - apply holds_dset_out; auto. destruct K as [-> | ->]; reflexivity.
  - apply holds_dset_out; auto. destruct K as [-> | ->]; reflexivity.
  - apply holds_dset_in; auto. eexists; reflexivity.
Qed.

Lemma cpu_info_cores_spec W result cleaned :
  (W -> is_str (gets cleaned "Info") = true) -> cpu_inv result ->
  spec W (cpu_info_cores result cleaned) cpu_inv.
Proof.
  intros T I. unfold cpu_info_cores.
  destruct (truthy (gets cleaned "Info")); [ | apply spec_ok; auto ].
  eapply spec_bind; [ apply spec_py_lower, T | intros low _ ].
  apply spec_ok.
  destruct (search_core low); repeat match goal with
         | |- context [if ?c then _ else _] => destruct c
         end; auto using cpu_inv_int.
Qed.

Lemma cpu_topology_spec W (k : string) result cleaned :
  k = "threads" \/ k = "cores" -> cpu_inv result ->
  spec W (cpu_topology k result cleaned) cpu_inv.
Proof.
  intros K I. unfold cpu_topology. destruct (dfind cleaned k); [ | apply spec_ok; auto ].
  destruct v; simpl; auto using cpu_inv_int.
  destruct (int_of_string s); simpl; auto using cpu_inv_int.
Qed.

Lemma cpu_core_speeds_spec W result cleaned :
  str_keys cleaned = true -> cpu_inv result ->
  spec W (cpu_core_speeds result cleaned) cpu_inv.
Proof.
  intros Hk I. unfold cpu_core_speeds. apply spec_foldM; auto.
  intros r kv Hin Ir.
  assert (exists s, fst kv = KStr s) as [s ->].
  { unfold str_keys in Hk. rewrite forallb_forall in Hk. specialize (Hk kv Hin).
    destruct (fst kv); try discriminate. eauto. }
  destruct (Str.isdigit s); [ | apply spec_ok; auto ].
  destruct Ir as (A & B & C).
  destruct (holds_find _ _ _ "core_speeds" A ltac:(simpl; tauto)) as (v & F & kvs & ->).
  unfold setitem_in, getitem. rewrite F. simpl. repeat split.
  - apply holds_dset_in; auto. eexists; reflexivity.
  - apply holds_dset_out; auto.
  - apply holds_dset_out; auto.
Qed.

Lemma cpu_inv_minmax result cleaned : cpu_inv result -> cpu_inv (cpu_minmax result cleaned).
Proof.
  intros I. unfold cpu_minmax. destruct (dfind cleaned "min/max"); auto.
  destruct (Str.split "/" (py_str v)) as [| a [| b [| c l]]]; auto.
  destruct (int_of_string a); auto.
  destruct (int_of_string b); repeat apply cpu_inv_dset_out; auto.
Qed.

Lemma cpu_item_spec W result item :
  (W -> wf_item item = true) -> cpu_inv result ->
  spec W (cpu_item result item) cpu_inv.
Proof.
  intros Hw I. unfold cpu_item. spec_clean_keys Hw c Hk.
  eapply spec_bind.
  { apply cpu_info_cores_spec.
    - intros HW. apply wf_item_text; auto. simpl; tauto.
    - repeat (apply cpu_inv_copy_out; [ reflexivity | ]). exact I. }
  intros r1 I1.
  eapply spec_bind; [ apply cpu_topology_spec; auto | intros r2 I2 ].
  eapply spec_bind; [ apply cpu_topology_spec; auto | intros r3 I3 ].
  eapply spec_bind; [ apply cpu_core_speeds_spec; auto | intros r4 I4 ].
  match goal with
  | |- spec _ (match dfind _ _ with _ => _ end) _ => destruct (dfind (cleaned_of item) "Type")
  end.
  - assert (I5 : cpu_inv
        (if dhas (cleaned_of item) "Flags"
         then copy (cleaned_of item) "Flags"
                (copy (cleaned_of item) "governor"
                   (copy (cleaned_of item) "driver"
                      (copy (cleaned_of item) "bogomips"
                         (cpu_minmax (copy (cleaned_of item) "avg" r4 "speed_current")
                            (cleaned_of item)) "bogomips") "scaling_driver")
                   "scaling_governor") "flags"
         else copy (cleaned_of item) "Flags-basic"
                (copy (cleaned_of item) "governor"
                   (copy (cleaned_of item) "driver"
                      (copy (cleaned_of item) "bogomips"
                         (cpu_minmax (copy (cleaned_of item) "avg" r4 "speed_current")
                            (cleaned_of item)) "bogomips") "scaling_driver")
                   "scaling_governor") "flags")).
    { destruct (dhas (cleaned_of item) "Flags");
        repeat (apply cpu_inv_copy_out; [ reflexivity | ]);
        apply cpu_inv_minmax; apply cpu_inv_copy_out; auto. }
    destruct I5 as (A & B & C).
    eapply spec_append_in; [ exact B | simpl; tauto | ]. intros xs F Q. repeat split.
    + apply holds_dset_out; auto.
    + apply holds_dset_in; auto. apply local_list_snoc; auto.
    + apply holds_dset_out; auto.
  - apply spec_ok.
    destruct (dhas (cleaned_of item) "Flags");
      repeat (apply cpu_inv_copy_out; [ reflexivity | ]);
      apply cpu_inv_minmax; apply cpu_inv_copy_out; auto.
Qed.

Lemma cpu_fallback_total W result :
  cpu_inv result -> spec W (cpu_fallback result) (fun _ => True).
Proof.
  intros (A & B & C). unfold cpu_fallback, getitem.
  destruct (holds_find _ _ _ "threads" C ltac:(simpl; tauto)) as (t & Ft & zt & ->).
  destruct (holds_find _ _ _ "cores" C ltac:(simpl; tauto)) as (c & Fc & zc & ->).
  destruct (holds_find _ _ _ "core_speeds" A ltac:(simpl; tauto)) as (s & Fs & kvs & ->).
  rewrite Ft. simpl. destruct (zt =? 0)%Z; simpl.
  - rewrite Fs. simpl. rewrite dfind_dset_same. simpl.
    rewrite dfind_dset_other, Fc by reflexivity. simpl.
    destruct ((0 <? Z.of_nat (Datatypes.length kvs))%Z && (zc =? 0)%Z); simpl; auto.
  - rewrite Ft, Fc. simpl. destruct ((0 <? zt)%Z && (zc =? 0)%Z); simpl; auto.
Qed.

Lemma cpu_inv_default : cpu_inv cpu_default.
Proof.
  repeat split; unfold holds;
    repeat (constructor; [ eexists; split; [ reflexivity | ] | ]);
    try constructor; try (eexists; reflexivity); apply local_list_nil.
Qed.

Lemma parse_cpu_section_spec W items :
  item_list W items -> spec W (parse_cpu_section items) local_dict.
Proof.
  intros Hi. unfold parse_cpu_section.
  eapply spec_bind; [ apply spec_py_iter, Hi | intros its Hw ].
  eapply spec_bind; [ apply spec_items with (I := cpu_inv); auto | ].
  - intros; apply cpu_item_spec; auto.
  - apply cpu_inv_default.
  - intros result I. eapply spec_bind; [ apply cpu_fallback_total, I | ].
    intros r _. apply spec_ok. eexists; reflexivity.
Qed.

(** ** The Memory parser *)

Lemma memory_inv_out result (k : string) v :
  forallb (fun c => negb (String.eqb k c)) [ "modules"; "total"; "used" ] = true ->
  memory_inv result -> memory_inv (dset result k v).
Proof.
  intros N (A & B). simpl in N. rewrite !andb_true_iff in N.
  destruct N as (N1 & N2 & N3 & _).
  split; apply holds_dset_out; auto; simpl; rewrite ?N1, ?N2, ?N3; reflexivity.
Qed.

Lemma memory_inv_text result (k : string) s :
  k = "total" \/ k = "used" -> memory_inv result -> memory_inv (dset result k (VStr s)).
Proof.
  intros K (A & B). split.
  - apply holds_dset_out; auto. destruct K as [-> | ->]; reflexivity.
  - apply holds_dset_in; auto. eexists; reflexivity.
Qed.

Lemma memory_inv_copy_str result cleaned src (k : string) :
  forallb (fun c => negb (String.eqb k c)) [ "modules"; "total"; "used" ] = true ->
  memory_inv result -> memory_inv (copy_str cleaned src result k).
Proof.
  intros N I. unfold copy_str. destruct (dfind cleaned src); auto using memory_inv_out.
Qed.

Lemma memory_item_spec W result item :
  (W -> wf_item item = true) -> memory_inv result ->
  spec W (memory_item result item) memory_inv.
Proof.
  intros Hw I. unfold memory_item. spec_clean Hw c.
  set (c := cleaned_of item).
  assert (I1 : memory_inv (memory_total result c)).
  { unfold memory_total.
    repeat match goal with
           | |- context [if ?b then _ else _] => destruct b
           end; auto using memory_inv_text. }
  assert (I2 : memory_inv (memory_first "used" (memory_total result c) c)).
  { unfold memory_first. destruct (dfind c "used"); auto.
    destruct (negb _); auto using memory_inv_text. }
  assert (I3 : memory_inv
                 (memory_first "available" (memory_first "used" (memory_total result c) c) c)).
  { unfold memory_first at 1. destruct (dfind c "available"); auto.
    destruct (negb _); auto using memory_inv_out. }
  unfold memory_module.
  match goal with
  | |- spec _ (if _ then (if _ then append_in ?r _ _ else _) else _) _ =>
      assert (I4 : memory_inv r)
        by (repeat (apply memory_inv_copy_str; [ reflexivity | ]); exact I3)
  end.
  destruct (dhas c "Device" && dhas c "size"); [ | apply spec_ok; exact I4 ].
  destruct (truthy (gets c "size") && _); [ | apply spec_ok; exact I4 ].
  destruct I4 as [A B].
  eapply spec_append_in; [ exact A | simpl; tauto | ]. intros xs F Q. split.
  - apply holds_dset_in; auto. apply local_list_snoc; auto.
  - apply holds_dset_out; auto.
Qed.

Lemma memory_percent_total W result :
  memory_inv result -> spec W (memory_percent result) (fun _ => True).
Proof.
  intros (A & B). unfold memory_percent, getitem.
  destruct (holds_find _ _ _ "total" B ltac:(simpl; tauto)) as (t & Ft & st & ->).
  destruct (holds_find _ _ _ "used" B ltac:(simpl; tauto)) as (u & Fu & su & ->).
  rewrite Ft, Fu. simpl.
  destruct (negb (st =? "") && negb (su =? "")); simpl; auto.
  unfold memory_ratio. simpl.
  destruct (search_numeral st) as [rt |]; simpl; auto.
  destruct (search_numeral su) as [ru |]; simpl; auto.
  destruct (float_of_numeral rt) as [qt | e] eqn:T; simpl.
  - destruct (float_of_numeral ru) as [qu | e] eqn:U; simpl.
    + destruct (0 <? Qnum qt)%Z; simpl; auto.
    + unfold float_of_numeral in U.
      repeat match type of U with
             | (if ?b then _ else _) = _ => destruct b
             | match ?l with _ => _ end = _ => destruct l
             end; inversion U; subst; simpl; auto.
  - unfold float_of_numeral in T.
    repeat match type of T with
           | (if ?b then _ else _) = _ => destruct b
           | match ?l with _ => _ end = _ => destruct l
           end; inversion T; subst; simpl; auto.
Qed.

Lemma memory_inv_default : memory_inv memory_default.
Proof.
  split; unfold holds;
    repeat (constructor; [ eexists; split; [ reflexivity | ] | ]);
    try constructor; try (eexists; reflexivity); apply local_list_nil.
Qed.

Lemma parse_memory_section_spec W items :
  item_list W items -> spec W (parse_memory_section items) local_dict.
Proof.
  intros Hi. unfold parse_memory_section.
  eapply spec_bind; [ apply spec_py_iter, Hi | intros its Hw ].
  eapply spec_bind; [ apply spec_items with (I := memory_inv); auto | ].
  - intros; apply memory_item_spec; auto.
  - apply memory_inv_default.
  - intros result I. eapply spec_bind; [ apply memory_percent_total, I | ].
    intros r _. apply spec_ok. eexists; reflexivity.
Qed.

(** ** The parsers that only collect entries *)

Lemma spec_append_plain W ks d (k : string) x :
  lists_inv ks d -> In k ks -> spec W (append_in d k x) (lists_inv ks).
Proof.
  intros I Hk. eapply spec_append_in; [ exact I | exact Hk | ].
  intros xs F Q. apply holds_dset_in; auto. apply local_list_snoc; auto.
Qed.

Lemma lists_inv_literal ks d :
  Forall (fun k => dfind d (KStr k) = Some (VList Local [])) ks -> lists_inv ks d.
Proof.
  unfold lists_inv, holds. intros H. eapply Forall_impl; [ | exact H ].
  intros k Hk. eexists. split; [ exact Hk | apply local_list_nil ].
Qed.

Lemma bluetooth_item_spec W result item :
  (W -> wf_item item = true) -> lists_inv [ "devices" ] result ->
  spec W (bluetooth_item result item) (lists_inv [ "devices" ]).
Proof.
  intros Hw I. unfold bluetooth_item. spec_clean Hw c.
  destruct (dhas (cleaned_of item) "Device"); [ | apply spec_ok; auto ].
  apply spec_append_plain; simpl; auto.
Qed.

Lemma parse_bluetooth_section_spec W items :
  item_list W items -> spec W (parse_bluetooth_section items) local_dict.
Proof.
  intros Hi. unfold parse_bluetooth_section.
  eapply spec_bind; [ apply spec_py_iter, Hi | intros its Hw ].
  eapply spec_bind; [ apply spec_items with (I := lists_inv [ "devices" ]); auto | ].
  - intros; apply bluetooth_item_spec; auto.
  - apply lists_inv_literal. repeat constructor.
  - intros result I. apply spec_ok. eexists; reflexivity.
Qed.

Lemma usb_item_spec W result item :
  (W -> wf_item item = true) -> lists_inv [ "devices"; "hubs" ] result ->
  spec W (usb_item result item) (lists_inv [ "devices"; "hubs" ]).
Proof.
  intros Hw I. unfold usb_item. spec_clean Hw c.
  destruct (dhas (cleaned_of item) "Hub"); [ apply spec_append_plain; simpl; auto | ].
  destruct (dhas (cleaned_of item) "Device"); [ | apply spec_ok; auto ].
  apply spec_append_plain; simpl; auto.
Qed.

Lemma parse_usb_section_spec W items :
  item_list W items -> spec W (parse_usb_section items) local_dict.
Proof.
  intros Hi. unfold parse_usb_section.
  eapply spec_bind; [ apply spec_py_iter, Hi | intros its Hw ].
  eapply spec_bind; [ apply spec_items with (I := lists_inv [ "devices"; "hubs" ]); auto | ].
  - intros; apply usb_item_spec; auto.
  - apply lists_inv_literal. repeat constructor.
  - intros result I. apply spec_ok. eexists; reflexivity.
Qed.

Lemma processes_item_spec W st item :
  (W -> wf_item item = true) -> lists_inv [ "cpu_top"; "memory_top" ] (fst st) ->
  spec W (processes_item st item) (fun st' => lists_inv [ "cpu_top"; "memory_top" ] (fst st')).
Proof.
  intros Hw I. destruct st as [result top]. unfold processes_item. spec_clean Hw c.
  simpl in I.
  destruct (dhas (cleaned_of item) "CPU top"); [ apply spec_ok; auto | ].
  destruct (dhas (cleaned_of item) "Memory top"); [ apply spec_ok; auto | ].
  destruct (dhas (cleaned_of item) "command"); [ | apply spec_ok; auto ].
  destruct top; [ apply spec_ok; auto | | ];
    (eapply spec_bind; [ apply spec_append_plain; [ exact I | simpl; auto ] | ];
     intros r Ir; apply spec_ok; exact Ir).
Qed.

Lemma parse_processes_section_spec W items :
  item_list W items -> spec W (parse_processes_section items) local_dict.
Proof.
  intros Hi. unfold parse_processes_section.
  eapply spec_bind; [ apply spec_py_iter, Hi | intros its Hw ].
  eapply spec_bind;
    [ apply spec_items
        with (I := fun st => lists_inv [ "cpu_top"; "memory_top" ] (fst st)); auto | ].
  - intros; apply processes_item_spec; auto.
  - apply lists_inv_literal. repeat constructor.
  - intros result I. apply spec_ok. eexists; reflexivity.
Qed.

Lemma system_item_spec W result item :
  (W -> wf_item item = true) -> spec W (system_item result item) (fun _ => True).
Proof.
  intros Hw. unfold system_item. spec_clean Hw c. apply spec_ok. exact I.
Qed.

Lemma parse_system_section_spec W h n items :
  item_list W items -> spec W (parse_system_section h n items) local_dict.
Proof.
  intros Hi. unfold parse_system_section.
  eapply spec_bind; [ apply spec_py_iter, Hi | intros its Hw ].
  eapply spec_bind; [ apply spec_items with (I := fun _ => True); auto | ].
  - intros; apply system_item_spec; auto.
  - intros result _. apply spec_ok. eexists; reflexivity.
Qed.

Lemma info_item_spec W result item :
  (W -> wf_item item = true) -> spec W (info_item result item) (fun _ => True).
Proof.
  intros Hw. unfold info_item. spec_clean Hw c. apply spec_ok. exact I.
Qed.

Lemma parse_info_section_spec W items :
  item_list W items -> spec W (parse_info_section items) (fun _ => True).
Proof.
  intros Hi. unfold parse_info_section.
  eapply spec_bind; [ apply spec_py_iter, Hi | intros its Hw ].
  apply spec_items with (I := fun _ => True); auto.
  intros; apply info_item_spec; auto.
Qed.

(** ** Numerals *)

Lemma all_app p a b : Str.all p (a ++ b) = Str.all p a && Str.all p b.
Proof.
  induction a as [| c a IH]; simpl; auto. rewrite IH. apply andb_assoc.
Qed.

Lemma all_impl (p q : ascii -> bool) s :
  (forall c, p c = true -> q c = true) -> Str.all p s = true -> Str.all q s = true.
Proof.
  intros H. induction s as [| c s IH]; simpl; auto.
  rewrite !andb_true_iff. intros [A B]. auto.
Qed.

Lemma digit_is_numeral c : Str.is_digit c = true -> is_numeral_char c = true.
Proof. unfold is_numeral_char. intros ->. reflexivity. Qed.

Lemma digits_no_dot s : Str.all Str.is_digit s = true -> Str.mem "." s = false.
Proof.
  induction s as [| c s IH]; simpl; auto.
  rewrite andb_true_iff. intros [A B]. rewrite (IH B), orb_false_r.
  destruct (Ascii.eqb c ".") eqn:E; auto.
  apply Ascii.eqb_eq in E. subst c. discriminate.
Qed.

Lemma split_app_sep sep a b :
  Str.mem sep a = false -> Str.split sep (a ++ String sep b) = a :: Str.split sep b.
Proof.
  induction a as [| c a IH]; simpl.
  - intros _. rewrite Ascii.eqb_refl. reflexivity.
  - destruct (Ascii.eqb c sep); simpl; [ discriminate | ].
    intros H. rewrite (IH H). reflexivity.
Qed.

Lemma span_all p s a r : Str.span p s = (a, r) -> Str.all p a = true.
Proof.
  revert a r. induction s as [| c s IH]; simpl; intros a r H.
  - inversion H. reflexivity.
  - destruct (p c) eqn:P.
    + destruct (Str.span p s) as [a' r'] eqn:S. inversion H; subst. simpl.
      rewrite P. eapply IH. reflexivity.
    + inversion H. reflexivity.
Qed.

Lemma search_found {A : Type} (at_start : string -> option A) s x :
  search at_start s = Some x -> exists t, at_start t = Some x.
Proof.
  induction s as [| c s IH]; simpl.
  - destruct (at_start "") eqn:E; [ intros H; inversion H; subst; eauto | discriminate ].
  - destruct (at_start (String c s)) eqn:E; [ intros H; inversion H; subst; eauto | auto ].
Qed.

Lemma digits_acc_nonneg s acc :
  Str.all Str.is_digit s = true -> (0 <= acc)%Z -> (0 <= digits_acc acc s)%Z.
Proof.
  revert acc. induction s as [| c s IH]; simpl; intros acc H Hacc; auto.
  apply andb_true_iff in H. destruct H as [D H]. apply IH; auto.
  unfold Str.is_digit in D. apply andb_true_iff in D. destruct D as [D1 D2].
  apply Nat.leb_le in D1. unfold digit_val. lia.
Qed.

Lemma digits_value_nonneg s : Str.all Str.is_digit s = true -> (0 <= digits_value s)%Z.
Proof. intros H. apply digits_acc_nonneg; auto. lia. Qed.

Lemma isdigit_all s : Str.isdigit s = true -> Str.all Str.is_digit s = true.
Proof. unfold Str.isdigit. rewrite andb_true_iff. tauto. Qed.

(** What [float] makes of a numeral is never negative. *)
Lemma float_of_numeral_nonneg s q : float_of_numeral s = Ok q -> (0 <= q)%Q.
Proof.
  unfold float_of_numeral. destruct (Str.all is_numeral_char s); [ | discriminate ].
  destruct (Str.split "." s) as [| a [| b [| c l]]]; try discriminate.
  - destruct (Str.isdigit a) eqn:D; [ | discriminate ]. intros H. inversion H; subst.
    apply isdigit_all, digits_value_nonneg in D.
    unfold Qle. simpl. lia.
  - destruct (Str.all Str.is_digit a && Str.all Str.is_digit b && negb (a ++ b =? ""))
      eqn:D; [ | discriminate ].
    remember (Qmake (digits_value (a ++ b)) (pow10 (String.length b))) as x eqn:X.
    intros H. injection H as <-. rewrite Qred_correct. subst x.
    rewrite !andb_true_iff in D. destruct D as [[Da Db] _].
    assert (0 <= digits_value (a ++ b))%Z
      by (apply digits_value_nonneg; rewrite all_app, Da, Db; reflexivity).
    unfold Qle. simpl. lia.
Qed.

(** The text [(\d+(?:\.\d+)?)] matches is a numeral [float] accepts. *)
Lemma decimal_at_float t run :
  decimal_at t = Some run -> exists q, float_of_numeral run = Ok q.
Proof.
  unfold decimal_at. destruct (Str.span Str.is_digit t) as [a rest] eqn:S.
  pose proof (span_all _ _ _ _ S) as Da.
  destruct (a =? "") eqn:Ea; [ discriminate | ].
  assert (Plain : exists q, float_of_numeral a = Ok q).
  { unfold float_of_numeral.
    rewrite (all_impl _ _ _ digit_is_numeral Da).
    rewrite (split_no_sep _ _ (digits_no_dot _ Da)).
    unfold Str.isdigit. rewrite Ea, Da. simpl. eauto. }
  destruct rest as [| c rest']; [ intros H; inversion H; subst; exact Plain | ].
  destruct (Ascii.eqb c ".") eqn:Ec.
  - apply Ascii.eqb_eq in Ec. subst c.
    destruct (Str.span Str.is_digit rest') as [b r2] eqn:S2.
    pose proof (span_all _ _ _ _ S2) as Db.
    destruct (b =? "") eqn:Eb; intros H; inversion H; subst; [ exact Plain | ].
    unfold float_of_numeral.
    assert (Str.all is_numeral_char (a ++ String "." b) = true) as ->.
    { rewrite all_app. simpl.
      rewrite (all_impl _ _ _ digit_is_numeral Da), (all_impl _ _ _ digit_is_numeral Db).
      reflexivity. }
    rewrite (split_app_sep _ _ _ (digits_no_dot _ Da)).
    rewrite (split_no_sep _ _ (digits_no_dot _ Db)).
    rewrite Da, Db. simpl.
    assert ((a ++ b =? "") = false) as ->.
    { apply String.eqb_neq. intros E. destruct a; [ discriminate | discriminate ]. }
    simpl. eauto.
  - destruct c as [[|] [|] [|] [|] [|] [|] [|] [|]];
      try (intros H'; inversion H'; subst; exact Plain); discriminate.
Qed.

Lemma battery_charge_total cleaned :
  exists v, battery_charge cleaned = Ok v
            /\ (v = VInt 0 \/ exists q, v = VFloat q /\ (0 <= q)%Q).
Proof.
  unfold battery_charge. destruct (dfind cleaned "charge"); [ | eauto ].
  destruct (search_decimal (py_str v)) as [run |] eqn:S; [ | eauto ].
  apply search_found in S. destruct S as [t S].
  destruct (decimal_at_float _ _ S) as [q Hq]. rewrite Hq. simpl.
  eexists. split; [ reflexivity | ]. right. exists q. split; auto.
  eapply float_of_numeral_nonneg; eauto.
Qed.

(** ** The Battery parser *)

Lemma battery_item_spec W result item :
  (W -> wf_item item = true) ->
  holds (local_list battery_record) [ "batteries" ] result ->
  spec W (battery_item result item) (holds (local_list battery_record) [ "batteries" ]).
Proof.
  intros Hw I. unfold battery_item. spec_clean Hw c.
  destruct (dhas (cleaned_of item) "ID" || dhas (cleaned_of item) "charge");
    [ | apply spec_ok; auto ].
  destruct (battery_charge_total (cleaned_of item)) as (v & -> & _). simpl.
  eapply spec_append_in with (q := battery_record) (ks := [ "batteries" ]);
    [ apply holds_dset_out; [ reflexivity | exact I ] | simpl; tauto | ].
  intros xs F Q. apply holds_dset_in; [ apply holds_dset_out; [ reflexivity | exact I ] | ].
  apply local_list_snoc; auto. do 2 eexists. split; reflexivity.
Qed.

Lemma getitem_has kvs (k : string) : dhas kvs k = true -> exists v, getitem kvs k = Ok v.
Proof.
  unfold getitem. rewrite dhas_dfind. destruct (dfind kvs k); [ eauto | discriminate ].
Qed.

Lemma battery_flatten_total W result :
  holds (local_list battery_record) [ "batteries" ] result ->
  spec W (battery_flatten result) (fun _ => True).
Proof.
  intros I. unfold battery_flatten, getitem.
  destruct (holds_find _ _ _ "batteries" I ltac:(simpl; tauto)) as (v & F & xs & -> & Q).
  rewrite F. simpl. destruct xs as [| first rest]; simpl; auto.
  inversion Q as [| ? ? (o & kvs & -> & K) _]; subst.
  simpl in K. rewrite !andb_true_iff in K.
  destruct K as (K1 & K2 & K3 & K4 & K5 & K6 & K7 & K8 & _).
  simpl.
  destruct (getitem_has _ _ K1) as [v1 ->]. simpl.
  destruct (getitem_has _ _ K2) as [v2 ->]. simpl.
  destruct (getitem_has _ _ K3) as [v3 ->]. simpl.
  destruct (getitem_has _ _ K4) as [v4 ->]. simpl.
  destruct (getitem_has _ _ K5) as [v5 ->]. simpl.
  destruct (getitem_has _ _ K6) as [v6 ->]. simpl.
  destruct (getitem_has _ _ K7) as [v7 ->]. simpl.
  destruct (getitem_has _ _ K8) as [v8 ->]. simpl. exact Logic.I.
Qed.

Lemma parse_battery_section_spec W items :
  item_list W items -> spec W (parse_battery_section items) local_dict.
Proof.
  intros Hi. unfold parse_battery_section.
  eapply spec_bind; [ apply spec_py_iter, Hi | intros its Hw ].
  eapply spec_bind;
    [ apply spec_items with (I := holds (local_list battery_record) [ "batteries" ]); auto | ].
  - intros; apply battery_item_spec; auto.
  - constructor; [ | constructor ]. eexists. split; [ reflexivity | apply local_list_nil ].
  - intros result I. eapply spec_bind; [ apply battery_flatten_total, I | ].
    intros r _. apply spec_ok. eexists; reflexivity.
Qed.

(** ** The Sensors parser *)

Lemma wf_item_parts v :
  wf_item v = true ->
  used_ok (cleaned_of v) = true /\ cpu_temp_ok (cleaned_of v) = true
  /\ pm_ok (cleaned_of v) = true.
Proof. unfold wf_item. rewrite !andb_true_iff. tauto. Qed.

Lemma sensors_item_spec W result item :
  (W -> wf_item item = true) -> lists_inv [ "temps" ] result ->
  spec W (sensors_item result item) (lists_inv [ "temps" ]).
Proof.
  intros Hw I. unfold sensors_item. spec_clean Hw c.
  set (c := cleaned_of item).
  assert (Add : forall r name temp, lists_inv [ "temps" ] r ->
                                    spec W (add_temp r name temp) (lists_inv [ "temps" ])).
  { intros r name temp Ir. unfold add_temp. apply spec_append_plain; simpl; auto. }
  eapply spec_bind.
  { unfold sensors_cpu. destruct (dfind c "cpu") as [t |] eqn:F; [ | apply spec_ok; exact I ].
    destruct (is_number t); [ apply Add; exact I | ].
    destruct t; try (apply spec_ok; exact I).
    destruct (search_numeral s) as [run |] eqn:S; [ | apply spec_ok; exact I ].
    destruct (float_of_numeral run) as [q | e] eqn:Fl; simpl.
    - apply Add; exact I.
    - assert (e = ValueError) as ->.
      { unfold float_of_numeral in Fl.
        repeat match type of Fl with
               | (if ?b then _ else _) = _ => destruct b
               | match ?l with _ => _ end = _ => destruct l
               end; inversion Fl; reflexivity. }
      split; [ discriminate | ]. intros HW.
      destruct (wf_item_parts _ (Hw HW)) as (_ & T & _).
      unfold cpu_temp_ok in T. fold c in T. rewrite F, S, Fl in T. discriminate. }
  intros r1 I1. eapply spec_bind.
  { unfold sensors_scalar. destruct (dfind c "mobo"); [ | apply spec_ok; exact I1 ].
    destruct (is_number v); [ apply Add | apply spec_ok ]; exact I1. }
  intros r2 I2. unfold sensors_scalar. destruct (dfind c "gpu"); [ | apply spec_ok; exact I2 ].
  destruct (is_number v); [ apply Add | apply spec_ok ]; exact I2.
Qed.

Lemma parse_sensors_section_spec W h n items :
  item_list W items -> spec W (parse_sensors_section h n items) local_dict.
Proof.
  intros Hi. unfold parse_sensors_section.
  eapply spec_bind; [ apply spec_py_iter, Hi | intros its Hw ].
  eapply spec_bind; [ apply spec_items with (I := lists_inv [ "temps" ]); auto | ].
  - intros; apply sensors_item_spec; auto.
  - apply lists_inv_literal. repeat constructor.
  - intros result I. apply spec_ok. eexists; reflexivity.
Qed.

(** ** The Disk parser *)

Lemma float_of_numeral_error s e : float_of_numeral s = Raise e -> e = ValueError.
Proof.
  unfold float_of_numeral. intros H.
  repeat match type of H with
         | (if ?b then _ else _) = _ => destruct b
         | match ?l with _ => _ end = _ => destruct l
         end; inversion H; reflexivity.
Qed.

Lemma percent_of_spec W cleaned :
  (W -> used_ok cleaned = true) ->
  spec W (percent_of (py_str (gets cleaned "used"))) (fun _ => True).
Proof.
  intros Hw. unfold used_ok in Hw.
  destruct (percent_of (py_str (gets cleaned "used"))) as [p | e] eqn:P; simpl; auto.
  split; [ | intros HW; specialize (Hw HW); discriminate ].
  unfold percent_of in P. destruct (search_percent _); [ | discriminate ].
  destruct (float_of_numeral s) eqn:Fl; simpl in P; [ discriminate | ].
  inversion P; subst. rewrite (float_of_numeral_error _ _ Fl). discriminate.
Qed.

Lemma disk_item_spec W result item :
  (W -> wf_item item = true) -> lists_inv disk_lists result ->
  spec W (disk_item result item) (lists_inv disk_lists).
Proof.
  intros Hw I. unfold disk_item. spec_clean Hw c.
  destruct (dhas (cleaned_of item) "Local Storage" || dhas (cleaned_of item) "total").
  - eapply spec_bind;
      [ apply percent_of_spec; intros HW; apply (wf_item_parts _ (Hw HW)) | ].
    intros p _. apply spec_ok. unfold lists_inv in *.
    destruct p; repeat (apply holds_dset_out; [ reflexivity | ]); exact I.
  - destruct (dhas (cleaned_of item) "model" && dhas (cleaned_of item) "size");
      [ | apply spec_ok; exact I ].
    apply spec_append_plain; unfold disk_lists; simpl; auto.
Qed.

Lemma partition_item_spec W result item :
  (W -> wf_item item = true) -> lists_inv disk_lists result ->
  spec W (partition_item result item) (lists_inv disk_lists).
Proof.
  intros Hw I. unfold partition_item. spec_clean Hw c.
  destruct (dhas (cleaned_of item) "ID"); [ | apply spec_ok; exact I ].
  eapply spec_bind;
    [ apply percent_of_spec; intros HW; apply (wf_item_parts _ (Hw HW)) | ].
  intros p _. apply spec_append_plain; unfold disk_lists; simpl; auto.
Qed.

Lemma swap_item_spec W result item :
  (W -> wf_item item = true) -> lists_inv disk_lists result ->
  spec W (swap_item result item) (lists_inv disk_lists).
Proof.
  intros Hw I. unfold swap_item. spec_clean Hw c.
  destruct (dhas (cleaned_of item) "Kernel" || dhas (cleaned_of item) "swappiness").
  { apply spec_ok. apply holds_dset_out; [ reflexivity | exact I ]. }
  destruct (dhas (cleaned_of item) "ID" || dhas (cleaned_of item) "type");
    [ | apply spec_ok; exact I ].
  eapply spec_bind;
    [ apply percent_of_spec; intros HW; apply (wf_item_parts _ (Hw HW)) | ].
  intros p _. apply spec_append_plain; unfold disk_lists; simpl; auto.
Qed.

Lemma iterated_of (t name : string) :
  In t item_sections -> Str.contains t name = true -> iterated name = true.
Proof.
  intros Ht C. unfold iterated, any_in. apply existsb_exists. eauto.
Qed.

Lemma wf_section_items W name v :
  (W -> wf_section name v = true) -> iterated name = true -> item_list W v.
Proof.
  intros Hw It HW. specialize (Hw HW). unfold wf_section in Hw. rewrite It in Hw.
  destruct v; try discriminate. exists o, xs. split; auto.
  rewrite forallb_forall in Hw. apply Forall_forall. intros it Hit.
  specialize (Hw it Hit). destruct (is_dict it); [ exact Hw | discriminate ].
Qed.

Lemma wf_doc_sections W data :
  (W -> wf_doc data = true) ->
  spec W (py_iter data) (fun sections => W -> Forall (fun s => wf_sec s = true) sections).
Proof.
  intros Hw. destruct data; simpl;
    try (split; [ discriminate | intros HW; specialize (Hw HW); discriminate ]);
    intros HW; specialize (Hw HW); simpl in Hw; try discriminate.
  apply Forall_forall. rewrite forallb_forall in Hw. exact Hw.
Qed.

Lemma wf_sec_entries W section :
  (W -> wf_sec section = true) ->
  spec W (py_items section) (fun kvs => W -> Forall (fun kv => wf_entry kv = true) kvs).
Proof.
  intros Hw. destruct section; simpl;
    try (split; [ discriminate | intros HW; specialize (Hw HW); discriminate ]).
  intros HW. specialize (Hw HW). simpl in Hw.
  apply Forall_forall. rewrite forallb_forall in Hw. exact Hw.
Qed.

Lemma wf_entry_name W kv :
  (W -> wf_entry kv = true) ->
  spec W (clean_key_of (fst kv))
       (fun ck => exists name, ck = KStr name /\ (W -> wf_section name (snd kv) = true)).
Proof.
  intros Hw. unfold wf_entry in Hw. destruct (fst kv); simpl;
    try (split; [ discriminate | intros HW; specialize (Hw HW); discriminate ]).
  eauto.
Qed.

Lemma disk_sibling_spec W result kv :
  (W -> wf_entry kv = true) -> lists_inv disk_lists result ->
  spec W (disk_sibling result kv) (lists_inv disk_lists).
Proof.
  intros Hw I. unfold disk_sibling.
  eapply spec_bind; [ apply wf_entry_name, Hw | ].
  intros ck (name & -> & Hs). destruct (snd kv) eqn:V; try (apply spec_ok; exact I).
  destruct (Str.contains "Partition" name) eqn:P.
  - assert (It : item_list W (VList o xs)).
    { apply wf_section_items with (name := name); auto.
      eapply iterated_of; [ | exact P ]. unfold item_sections. simpl. tauto. }
    apply spec_items; auto.
    + intros HW. destruct (It HW) as (o' & its & E' & F). inversion E'; subst. exact F.
    + intros; apply partition_item_spec; auto.
  - destruct (Str.contains "Swap" name) eqn:S; [ | apply spec_ok; exact I ].
    assert (It : item_list W (VList o xs)).
    { apply wf_section_items with (name := name); auto.
      eapply iterated_of; [ | exact S ]. unfold item_sections. simpl. tauto. }
    apply spec_items; auto.
    + intros HW. destruct (It HW) as (o' & its & E' & F). inversion E'; subst. exact F.
    + intros; apply swap_item_spec; auto.
Qed.

Lemma parse_disk_section_spec W items data :
  item_list W items -> (W -> wf_doc data = true) ->
  spec W (parse_disk_section items data) local_dict.
Proof.
  intros Hi Hd. unfold parse_disk_section.
  eapply spec_bind; [ apply spec_py_iter, Hi | intros its Hw ].
  eapply spec_bind; [ apply spec_items with (I := lists_inv disk_lists); auto | ].
  - intros; apply disk_item_spec; auto.
  - apply lists_inv_literal. repeat constructor.
  - intros result I.
    eapply spec_bind; [ apply wf_doc_sections, Hd | intros sections Hs ].
    eapply spec_bind.
    + apply spec_foldM with (I := lists_inv disk_lists); auto.
      intros r section Hin Ir.
      eapply spec_bind.
      * apply wf_sec_entries. intros HW. specialize (Hs HW).
        rewrite Forall_forall in Hs. auto.
      * intros kvs Hk. apply spec_foldM; auto.
        intros r' kv Hkv Ir'. apply disk_sibling_spec; auto.
        intros HW. specialize (Hk HW). rewrite Forall_forall in Hk. auto.
    + intros r _. apply spec_ok. eexists; reflexivity.
Qed.

(** ** Sorting *)

Lemma insertM_spec {A : Type} W (lt : A -> A -> res bool) (P : A -> Prop) x l :
  (forall a b, P a -> P b -> spec W (lt a b) (fun _ => True)) ->
  P x -> Forall P l ->
  spec W (insertM lt x l) (fun l' => Forall P l').
Proof.
  intros Hlt Px. induction l as [| y l IH]; simpl; intros Pl.
  - constructor; auto.
  - inversion Pl; subst.
    eapply spec_bind; [ apply Hlt; auto | ]. intros b _. destruct b.
    + apply spec_ok. auto.
    + eapply spec_bind; [ apply IH; auto | ]. intros l' Pl'. apply spec_ok. auto.
Qed.

Lemma sortM_spec {A : Type} W (lt : A -> A -> res bool) (P : A -> Prop) l :
  (forall a b, P a -> P b -> spec W (lt a b) (fun _ => True)) ->
  Forall P l ->
  spec W (sortM lt l) (fun l' => Forall P l').
Proof.
  intros Hlt. unfold sortM.
  assert (G : forall acc, Forall P acc -> Forall P l ->
                          spec W (foldM (fun acc x => insertM lt x acc) acc l)
                               (fun l' => Forall P l')).
  { induction l as [| x l IH]; simpl; intros acc Pa Pl; auto.
    inversion Pl; subst.
    eapply spec_bind; [ apply insertM_spec; eauto | ]. intros acc' Pa'. apply IH; auto. }
  intros Pl. apply G; auto.
Qed.

Lemma key_lt_spec W a b :
  (W -> is_kstr a = true) -> (W -> is_kstr b = true) ->
  spec W (key_lt a b) (fun _ => True).
Proof.
  intros Ha Hb. destruct a, b; simpl; auto;
    (split; [ discriminate | intros HW; specialize (Ha HW); specialize (Hb HW); discriminate ]).
Qed.

(** ** The Machine parser *)

Lemma dfind_in kvs k : In k (List.map fst kvs) -> exists v, dfind kvs k = Some v.
Proof.
  induction kvs as [| [e w] kvs IH]; simpl; [ tauto | ].
  intros [-> | H].
  - rewrite key_eqb_refl. eauto.
  - destruct (key_eqb e k); eauto.
Qed.

Lemma machine_item_spec W result item :
  (W -> wf_item item = true) -> spec W (machine_item result item) (fun _ => True).
Proof.
  intros Hw. unfold machine_item.
  assert (Hi : W -> is_item item = true) by (intros HW; apply wf_item_is_item; auto).
  destruct item; simpl;
    try (split; [ discriminate | intros HW; specialize (Hi HW); discriminate ]).
  set (P := fun k => In k (List.map fst kvs) /\ (W -> is_kstr k = true)).
  eapply spec_bind.
  { apply sortM_spec with (P := P).
    - intros a b [_ Ha] [_ Hb]. apply key_lt_spec; auto.
    - apply Forall_forall. intros k Hk. split; auto. intros HW. specialize (Hi HW).
      simpl in Hi. unfold str_keys in Hi. rewrite forallb_forall in Hi.
      apply in_map_iff in Hk. destruct Hk as (kv & <- & Hkv).
      specialize (Hi kv Hkv). unfold is_kstr. destruct (fst kv); auto. }
  intros sorted Ps. eapply spec_bind; [ | intros st _; apply spec_ok; exact Logic.I ].
  apply spec_foldM with (I := fun _ => True); auto.
  intros [r fl] k Hk _. rewrite Forall_forall in Ps. destruct (Ps k Hk) as [Kin Ks].
  unfold machine_key, getitem. destruct (dfind_in _ _ Kin) as [v ->]. simpl.
  destruct (is_absent v); simpl; auto.
  destruct k; simpl;
    try (split; [ discriminate | intros HW; specialize (Ks HW); discriminate ]).
  repeat match goal with
         | |- spec _ (if ?c then _ else _) _ => destruct c
         end; simpl; auto.
Qed.

Lemma parse_machine_section_spec W items :
  item_list W items -> spec W (parse_machine_section items) local_dict.
Proof.
  intros Hi. unfold parse_machine_section.
  eapply spec_bind; [ apply spec_py_iter, Hi | intros its Hw ].
  eapply spec_bind; [ apply spec_items with (I := fun _ => True); auto | ].
  - intros; apply machine_item_spec; auto.
  - intros result _. apply spec_ok. eexists; reflexivity.
Qed.

(** ** The Audio and Network parsers *)

Lemma dget_dset_other d (k k' : key) v dflt :
  key_eqb k k' = false -> dget (dset d k v) k' dflt = dget d k' dflt.
Proof. intros N. unfold dget. rewrite dfind_dset_other; auto. Qed.

Lemma bus_attributes_bus device cleaned is_usb :
  dget (bus_attributes device cleaned is_usb) "bus_id" E = dget device "bus_id" E.
Proof.
  unfold bus_attributes. destruct is_usb; rewrite !dget_dset_other by reflexivity; reflexivity.
Qed.

Lemma wf_bus W item :
  (W -> wf_item item = true) -> W -> exists s, gets (cleaned_of item) "bus-ID" = VStr s.
Proof.
  intros Hw HW. apply is_str_inv. apply wf_item_text; auto. simpl; tauto.
Qed.

Lemma audio_item_spec W result item :
  (W -> wf_item item = true) ->
  holds (local_list (device_ok W)) [ "devices" ] result ->
  spec W (audio_item result item) (holds (local_list (device_ok W)) [ "devices" ]).
Proof.
  intros Hw I. unfold audio_item. spec_clean Hw c.
  destruct (dhas (cleaned_of item) "Device"); [ | apply spec_ok; auto ].
  eapply spec_bind.
  { apply spec_py_upper. intros HW. apply wf_item_text; auto. simpl; tauto. }
  intros ty _.
  eapply spec_append_in; [ exact I | simpl; tauto | ]. intros xs F Q.
  apply holds_dset_in; auto. apply local_list_snoc; auto. split.
  - eexists; reflexivity.
  - intros HW. destruct (wf_bus _ _ Hw HW) as [s G].
    do 3 eexists. split; [ reflexivity | ]. rewrite bus_attributes_bus.
    unfold dget. simpl. exact G.
Qed.

Lemma parse_audio_section_spec W items :
  item_list W items -> spec W (parse_audio_section items) (device_record W).
Proof.
  intros Hi. unfold parse_audio_section.
  eapply spec_bind; [ apply spec_py_iter, Hi | intros its Hw ].
  eapply spec_bind;
    [ apply spec_items with (I := holds (local_list (device_ok W)) [ "devices" ]); auto | ].
  - intros; apply audio_item_spec; auto.
  - constructor; [ | constructor ]. eexists. split; [ reflexivity | apply local_list_nil ].
  - intros result I. apply spec_ok. exists result. auto.
Qed.

Lemma net_flush W result cur :
  net_inv W (result, cur) ->
  spec W (match cur with
          | Some dev => append_in result "devices" (VDict Local dev)
          | None => Ok result
          end)
       (fun r => holds (local_list (device_ok W)) [ "devices" ] r
                 /\ holds (local_list local_dict) [ "virtual_devices" ] r).
Proof.
  intros (A & B & C). simpl in *. destruct cur as [dev |]; [ | apply spec_ok; auto ].
  eapply spec_append_in; [ exact A | simpl; tauto | ]. intros xs F Q. split.
  - apply holds_dset_in; auto. apply local_list_snoc; auto.
    split; [ eexists; reflexivity | auto ].
  - apply holds_dset_out; auto.
Qed.

Lemma network_device_spec W st cleaned :
  (W -> is_str (gets cleaned "type") = true) ->
  (W -> exists s, gets cleaned "bus-ID" = VStr s) ->
  net_inv W st -> spec W (network_device st cleaned) (net_inv W).
Proof.
  intros Ht Hb I. destruct st as [result cur]. unfold network_device.
  eapply spec_bind; [ apply net_flush, I | intros r [A B] ].
  eapply spec_bind; [ apply spec_py_upper, Ht | intros ty _ ].
  apply spec_ok. repeat split; auto. simpl. intros dev E' HW. inversion E'; subst dev.
  destruct (Hb HW) as [s G]. do 3 eexists. split; [ reflexivity | ].
  rewrite bus_attributes_bus. unfold dget. simpl. exact G.
Qed.

Lemma network_interface_spec W st cleaned :
  (W -> is_str (dget cleaned "IF" (gets cleaned "IF-ID")) = true) ->
  net_inv W st -> spec W (network_interface st cleaned) (net_inv W).
Proof.
  intros Hn (A & B & C). destruct st as [result cur]. simpl in *.
  unfold network_interface.
  eapply spec_bind; [ apply spec_py_lower, Hn | intros low _ ].
  destruct cur as [dev |].
  - eapply spec_bind.
    + eapply spec_append_in; [ exact A | simpl; tauto | ]. intros xs F Q.
      instantiate (1 := fun r => holds (local_list (device_ok W)) [ "devices" ] r
                                 /\ holds (local_list local_dict) [ "virtual_devices" ] r).
      split; [ | apply holds_dset_out; auto ].
      apply holds_dset_in; auto. apply local_list_snoc; auto.
      split; [ eexists; reflexivity | ]. intros HW.
      destruct (C dev eq_refl HW) as (o & kvs & s & E' & G). inversion E'; subst kvs.
      do 3 eexists. split; [ reflexivity | ].
      unfold dupdate. simpl. rewrite !dget_dset_other by reflexivity. exact G.
    + intros r [A' B']. apply spec_ok. repeat split; auto; simpl; try discriminate.
  - match goal with
    | |- context [append_in _ (if ?b then _ else _) _] => destruct b
    end.
    + eapply spec_bind.
      * eapply spec_append_in; [ exact B | simpl; tauto | ]. intros xs F Q.
        instantiate (1 := fun r => holds (local_list (device_ok W)) [ "devices" ] r
                                   /\ holds (local_list local_dict) [ "virtual_devices" ] r).
        split; [ apply holds_dset_out; auto | ].
        apply holds_dset_in; auto. apply local_list_snoc; auto; try (eexists; reflexivity).
      * intros r [A' B']. apply spec_ok. repeat split; auto; simpl; try discriminate.
    + eapply spec_bind.
      * eapply spec_append_in; [ exact A | simpl; tauto | ]. intros xs F Q.
        instantiate (1 := fun r => holds (local_list (device_ok W)) [ "devices" ] r
                                   /\ holds (local_list local_dict) [ "virtual_devices" ] r).
        split; [ | apply holds_dset_out; auto ].
        apply holds_dset_in; auto. apply local_list_snoc; auto.
        split; [ eexists; reflexivity | ]. intros _.
        do 3 eexists. split; [ reflexivity | ]. reflexivity.
      * intros r [A' B']. apply spec_ok. repeat split; auto; simpl; try discriminate.
Qed.

Lemma network_item_spec W st item :
  (W -> wf_item item = true) -> net_inv W st ->
  spec W (network_item st item) (net_inv W).
Proof.
  intros Hw I. unfold network_item. spec_clean Hw c.
  destruct (dhas (cleaned_of item) "Device").
  - apply network_device_spec; auto.
    + intros HW. apply wf_item_text; auto. simpl; tauto.
    + apply wf_bus, Hw.
  - destruct (dhas (cleaned_of item) "IF" || dhas (cleaned_of item) "IF-ID");
      [ | apply spec_ok; exact I ].
    apply network_interface_spec; auto. intros HW.
    pose proof (wf_item_text _ "IF" (Hw HW) ltac:(simpl; tauto)) as T1.
    pose proof (wf_item_text _ "IF-ID" (Hw HW) ltac:(simpl; tauto)) as T2.
    unfold gets, dget in *. destruct (dfind (cleaned_of item) "IF"); auto.
Qed.

Lemma ip_device_spec (q : value -> Prop) m d :
  ip_stable q -> local_dict d -> q d ->
  match ip_device m d with
  | Ok d' => local_dict d' /\ q d'
  | Raise e => e <> Clobber
  end.
Proof.
  intros St [kvs ->] Q. unfold ip_device. simpl.
  destruct (truthy (dget kvs "IF" (dget kvs "name" E))); simpl;
    [ | split; [ eexists; reflexivity | exact Q ] ].
  destruct (hash_key (dget kvs "IF" (dget kvs "name" E))) as [k | e] eqn:H; simpl.
  - destruct (ip_lookup m k) as [[ipv4 ipv6] |]; simpl;
      [ | split; [ eexists; reflexivity | exact Q ] ].
    destruct (negb (truthy (dget kvs "ip" VNone))); simpl.
    + destruct (negb (truthy (dget (dset kvs "ip" ipv4) "ipv6" VNone))); simpl;
        (split; [ eexists; reflexivity | auto ]).
    + destruct (negb (truthy (dget kvs "ipv6" VNone))); simpl;
        (split; [ eexists; reflexivity | auto ]).
  - destruct (dget kvs "IF" (dget kvs "name" E)); simpl in H; inversion H; discriminate.
Qed.

Lemma ip_loop_spec (q : value -> Prop) m xs :
  ip_stable q -> Forall (fun e => local_dict e /\ q e) xs ->
  exists xs', ip_loop m xs = Ok xs' /\ Forall (fun e => local_dict e /\ q e) xs'.
Proof.
  intros St. induction xs as [| d xs IH]; simpl; intros F; [ eauto | ].
  inversion F as [| ? ? [L Q] F']; subst.
  pose proof (ip_device_spec q m d St L Q) as D.
  destruct (ip_device m d) as [d' | e].
  - destruct (IH F') as (xs' & -> & F2). simpl. eauto.
  - destruct e; try (eexists; split; [ reflexivity | exact F ]). congruence.
Qed.

Lemma add_ip_addresses_spec (q : value -> Prop) m v :
  ip_stable q -> local_list (fun e => local_dict e /\ q e) v ->
  exists v', add_ip_addresses m v = Ok v'
             /\ local_list (fun e => local_dict e /\ q e) v'.
Proof.
  intros St (xs & -> & F). unfold add_ip_addresses.
  destruct m as [m |]; [ | eexists; split; [ reflexivity | exists xs; auto ] ].
  destruct (ip_loop_spec q m xs St F) as (xs' & -> & F'). simpl.
  eexists. split; [ reflexivity | exists xs'; auto ].
Qed.

Lemma text_bus_stable W : ip_stable (fun e => W -> text_bus e).
Proof.
  intros kvs k v K H HW. destruct (H HW) as (o & kvs' & s & E' & G).
  inversion E'; subst kvs'. do 3 eexists. split; [ reflexivity | ].
  rewrite dget_dset_other; [ exact G | ]. destruct K as [-> | ->]; reflexivity.
Qed.

Lemma parse_network_section_spec W h n items :
  item_list W items -> spec W (parse_network_section h n items) (device_record W).
Proof.
  intros Hi. unfold parse_network_section.
  eapply spec_bind; [ apply spec_py_iter, Hi | intros its Hw ].
  eapply spec_bind; [ apply spec_items with (I := net_inv W); auto | ].
  - intros; apply network_item_spec; auto.
  - repeat split; simpl; try discriminate;
      (constructor; [ | constructor ]); eexists; (split; [ reflexivity | apply local_list_nil ]).
  - intros [result cur] I.
    eapply spec_bind; [ apply net_flush, I | intros r [A B] ].
    unfold getitem.
    destruct (holds_find _ _ _ "devices" A ltac:(simpl; tauto)) as (dv & Fd & Ld).
    rewrite Fd. simpl.
    destruct (add_ip_addresses_spec (fun e => W -> text_bus e) (ip_table h n false) dv
                (text_bus_stable W) Ld) as (dv' & -> & Ld'). simpl.
    rewrite dfind_dset_other by reflexivity.
    destruct (holds_find _ _ _ "virtual_devices" B ltac:(simpl; tauto)) as (vv & Fv & Lv).
    rewrite Fv. simpl.
    assert (Lv2 : local_list (fun e => local_dict e /\ True) vv).
    { destruct Lv as (xs & -> & F). exists xs. split; auto.
      eapply Forall_impl; [ | exact F ]. auto. }
    destruct (add_ip_addresses_spec (fun _ => True) (ip_table h n true) vv
                ltac:(intros ? ? ? ? ?; exact Logic.I) Lv2) as (vv' & -> & _). simpl.
    eexists. split; [ reflexivity | ].
    unfold get_network_routing_info. destruct (routing h n) as [[gw dns] iface].
    unfold dupdate. simpl.
    repeat (apply holds_dset_out; [ reflexivity | ]).
    apply holds_dset_in; [ exact A | exact Ld' ].
Qed.

(** ** The Repos parser *)

Lemma spec_setitem_packages W result k v :
  repos_inv result -> spec W (setitem_in result "packages" k v) repos_inv.
Proof.
  intros [A B]. unfold setitem_in, getitem.
  destruct (holds_find _ _ _ "packages" A ltac:(simpl; tauto)) as (p & F & kvs & ->).
  rewrite F. simpl. split.
  - apply holds_dset_in; auto. eexists; reflexivity.
  - apply holds_dset_out; auto.
Qed.

Lemma repos_name_total W cleaned repo_name :
  str_keys cleaned = true -> spec W (repos_name cleaned repo_name) (fun _ => True).
Proof.
  intros Hk. unfold repos_name. apply spec_foldM with (I := fun _ => True); auto.
  intros r kv Hin _. unfold str_keys in Hk. rewrite forallb_forall in Hk.
  specialize (Hk kv Hin). destruct (fst kv); try discriminate. simpl. exact Logic.I.
Qed.

Lemma repos_item_spec W st item :
  (W -> is_dict item = true -> wf_item item = true) -> repos_inv (fst st) ->
  spec W (repos_item st item) (fun st' => repos_inv (fst st')).
Proof.
  intros Hw I. destruct st as [result repo_name]. simpl in I.
  destruct item; simpl; auto.
  - eapply spec_bind with (P := fun r => repos_inv r);
      [ | intros r Ir; apply spec_ok; exact Ir ].
    apply spec_foldM; auto. intros r url _ Ir.
    destruct (truthy url && is_str url); [ | apply spec_ok; exact Ir ].
    destruct Ir as [A B].
    eapply spec_append_in; [ exact B | simpl; tauto | ]. intros ys F Q. split.
    + apply holds_dset_out; auto.
    + apply holds_dset_in; auto. apply local_list_snoc; auto.
  - assert (Hw' : W -> wf_item (VDict o kvs) = true) by (intros HW; apply Hw; auto).
    unfold repos_dict. spec_clean_keys Hw' c Hk.
    eapply spec_bind with (P := repos_inv).
    { destruct (dhas (cleaned_of (VDict o kvs)) "Packages");
        [ apply spec_setitem_packages; auto | apply spec_ok; auto ]. }
    intros r1 I1. eapply spec_bind with (P := repos_inv).
    { destruct (dhas (cleaned_of (VDict o kvs)) "pm"); [ | apply spec_ok; auto ].
      destruct (hash_key (gets (cleaned_of (VDict o kvs)) "pm")) as [k | e] eqn:H; simpl.
      - apply spec_setitem_packages; auto.
      - split.
        + destruct (gets (cleaned_of (VDict o kvs)) "pm"); simpl in H; inversion H; discriminate.
        + intros HW. destruct (wf_item_parts _ (Hw' HW)) as (_ & _ & P).
          unfold pm_ok in P. rewrite H in P. discriminate. }
    intros r2 I2. eapply spec_bind; [ apply repos_name_total; auto | ].
    intros name _. apply spec_ok. exact I2.
Qed.

Lemma parse_repos_section_spec W name items :
  (W -> wf_section name items = true) ->
  spec W (parse_repos_section items) local_dict.
Proof.
  intros Hw. unfold parse_repos_section.
  destruct items; try (apply spec_ok; eexists; reflexivity).
  eapply spec_bind; [ | intros st _; apply spec_ok; eexists; reflexivity ].
  apply spec_foldM with (I := fun st => repos_inv (fst st)).
  - intros st it Hin I. apply repos_item_spec; auto.
    intros HW D. specialize (Hw HW). simpl in Hw. rewrite forallb_forall in Hw.
    specialize (Hw it Hin). rewrite D in Hw. exact Hw.
  - split; (constructor; [ | constructor ]); eexists; (split; [ reflexivity | ]);
      [ eexists; reflexivity | apply local_list_nil ].
Qed.

(** ** The cross-section synthesizer *)

Lemma text_bus_get W o kvs :
  (W -> text_bus (VDict o kvs)) -> W -> exists s, dget kvs "bus_id" E = VStr s.
Proof.
  intros H HW. destruct (H HW) as (o' & kvs' & s & E' & G). inversion E'; subst. eauto.
Qed.

Lemma pci_accept_spec W st o kvs c cat :
  Forall (device_ok W) (fst st) ->
  (W -> text_bus (VDict o kvs)) ->
  spec W (pci_accept st (VDict o kvs) (dget kvs "bus_id" E) c cat)
       (fun st' => Forall (device_ok W) (fst st')).
Proof.
  intros F T. destruct st as [devices seen]. unfold pci_accept. simpl in F.
  destruct (hash_key (dget kvs "bus_id" E)) as [k | e] eqn:H; simpl.
  - destruct (negb (seen_has seen k)); simpl; auto.
    apply Forall_app. split; auto. constructor; auto. split.
    + eexists; reflexivity.
    + intros HW. destruct (text_bus_get _ _ _ T HW) as [s G].
      do 3 eexists. split; [ reflexivity | ]. unfold dget at 1. simpl. exact G.
  - split.
    + destruct (dget kvs "bus_id" E); simpl in H; inversion H; discriminate.
    + intros HW. destruct (text_bus_get _ _ _ T HW) as [s G]. rewrite G in H. discriminate.
Qed.

Lemma pci_gpu_spec W st device :
  device_ok W device -> Forall (device_ok W) (fst st) ->
  spec W (pci_gpu st device) (fun st' => Forall (device_ok W) (fst st')).
Proof.
  intros [[kvs ->] T] F. unfold pci_gpu. simpl.
  destruct (truthy (dget kvs "bus_id" E)); [ | apply spec_ok; exact F ].
  apply pci_accept_spec; auto.
Qed.

Lemma pci_filtered_spec W c cat st device :
  device_ok W device -> Forall (device_ok W) (fst st) ->
  spec W (pci_filtered c cat st device) (fun st' => Forall (device_ok W) (fst st')).
Proof.
  intros [[kvs ->] T] F. unfold pci_filtered. simpl.
  destruct (truthy (dget kvs "bus_id" E)); [ | apply spec_ok; exact F ].
  assert (In_spec : forall needle,
             spec W (py_in_str needle (dget kvs "bus_id" E)) (fun _ => True)).
  { intros needle. destruct (dget kvs "bus_id" E) eqn:G; simpl; auto;
      (split; [ discriminate | intros HW; destruct (text_bus_get _ _ _ T HW) as [s G'];
                               rewrite G in G'; discriminate ]). }
  eapply spec_bind; [ apply In_spec | intros colon _ ].
  destruct colon; cbv iota; [ | apply spec_ok; exact F ].
  eapply spec_bind; [ apply In_spec | intros dash _ ].
  destruct dash; cbn [negb]; cbv iota; [ apply spec_ok; exact F | ].
  apply pci_accept_spec; auto.
Qed.

Lemma bus_lt_spec W a b :
  device_ok W a -> device_ok W b -> spec W (bus_lt a b) (fun _ => True).
Proof.
  intros [[ka ->] Ta] [[kb ->] Tb]. unfold bus_lt. simpl.
  destruct (hash_key (dget ka "bus_id" E)) as [x | e] eqn:Hx; simpl.
  - destruct (hash_key (dget kb "bus_id" E)) as [y | e] eqn:Hy; simpl.
    + apply key_lt_spec; intros HW.
      * destruct (text_bus_get _ _ _ Ta HW) as [s G]. rewrite G in Hx.
        inversion Hx. reflexivity.
      * destruct (text_bus_get _ _ _ Tb HW) as [s G]. rewrite G in Hy.
        inversion Hy. reflexivity.
    + split.
      * destruct (dget kb "bus_id" E); simpl in Hy; inversion Hy; discriminate.
      * intros HW. destruct (text_bus_get _ _ _ Tb HW) as [s G]. rewrite G in Hy.
        discriminate.
  - split.
    + destruct (dget ka "bus_id" E); simpl in Hx; inversion Hx; discriminate.
    + intros HW. destruct (text_bus_get _ _ _ Ta HW) as [s G]. rewrite G in Hx.
      discriminate.
Qed.

Lemma pci_source_spec W parsed (cat : string) :
  holds (devices_holder W) [ "gpu"; "audio"; "network" ] parsed ->
  In cat [ "gpu"; "audio"; "network" ] ->
  exists o xs, pci_source parsed cat = Ok (VList o xs) /\ Forall (device_ok W) xs.
Proof.
  intros H Hc. destruct (holds_find _ _ _ cat H Hc) as (v & F & o & kvs & o' & xs & -> & G & Q).
  unfold pci_source, dget at 1. rewrite F. simpl. rewrite G. eauto.
Qed.

Lemma extract_pci_devices_spec W parsed :
  holds (devices_holder W) [ "gpu"; "audio"; "network" ] parsed ->
  spec W (extract_pci_devices parsed) (fun _ => True).
Proof.
  intros H. unfold extract_pci_devices, pci_scan.
  destruct (pci_source_spec W parsed "gpu" H ltac:(simpl; tauto)) as (o1 & g & -> & Fg).
  destruct (pci_source_spec W parsed "audio" H ltac:(simpl; tauto)) as (o2 & a & -> & Fa).
  destruct (pci_source_spec W parsed "network" H ltac:(simpl; tauto)) as (o3 & n & -> & Fn).
  simpl.
  set (I := fun st : pci_state => Forall (device_ok W) (fst st)).
  assert (Fold : forall f xs st,
             (forall st d, device_ok W d -> I st -> spec W (f st d) I) ->
             Forall (device_ok W) xs -> I st -> spec W (foldM f st xs) I).
  { intros f xs st Hf Fx Ist. apply spec_foldM; auto.
    intros st' d Hd Ist'. apply Hf; auto. rewrite Forall_forall in Fx. auto. }
  eapply spec_bind.
  { eapply spec_bind; [ apply Fold with (xs := g); auto | ].
    - intros; apply pci_gpu_spec; auto.
    - constructor.
    - intros s1 I1. eapply spec_bind; [ apply Fold with (xs := a); auto | ].
      + intros; apply pci_filtered_spec; auto.
      + intros s2 I2. apply Fold with (xs := n); auto.
        intros; apply pci_filtered_spec; auto. }
  intros st Ist. eapply spec_bind.
  - apply sortM_spec with (P := device_ok W); auto.
    intros; apply bus_lt_spec; auto.
  - intros sorted _. apply spec_ok. exact Logic.I.
Qed.

(** ** The orchestrator *)

Lemma store_spec W result k m (P : value -> Prop) (Q : entries -> Prop) :
  spec W m P -> (forall v, P v -> Q (dset result (KStr k) v)) ->
  spec W (store result k m) Q.
Proof.
  intros Hm HQ. unfold store. eapply spec_bind; [ exact Hm | ].
  intros v Pv. apply spec_ok. auto.
Qed.

Lemma full_inv_other W result (k : string) v :
  forallb (fun c => negb (String.eqb k c)) [ "system"; "gpu"; "audio"; "network" ] = true ->
  full_inv W result -> full_inv W (dset result k v).
Proof.
  intros N [A B]. simpl in N. rewrite !andb_true_iff in N.
  destruct N as (N1 & N2 & N3 & N4 & _).
  split; apply holds_dset_out; auto; simpl; rewrite ?N1, ?N2, ?N3, ?N4; reflexivity.
Qed.

Lemma device_record_holder W v : device_record W v -> devices_holder W v.
Proof.
  intros (kvs & -> & H).
  destruct (holds_find _ _ _ "devices" H ltac:(simpl; tauto)) as (l & F & xs & -> & Q).
  exists Local, kvs, Local, xs. split; auto. split; auto.
  unfold dget. rewrite F. reflexivity.
Qed.

Lemma full_inv_devices W result (k : string) v :
  k = "gpu" \/ k = "audio" \/ k = "network" ->
  device_record W v -> full_inv W result -> full_inv W (dset result k v).
Proof.
  intros K D [A B]. split.
  - apply holds_dset_out; auto. destruct K as [-> | [-> | ->]]; reflexivity.
  - apply holds_dset_in; auto. apply device_record_holder, D.
Qed.

Lemma full_inv_system W result v :
  local_dict v -> full_inv W result -> full_inv W (dset result "system" v).
Proof.
  intros L [A B]. split.
  - apply holds_dset_in; auto.
  - apply holds_dset_out; auto.
Qed.

Lemma full_inv_seed W : full_inv W seed.
Proof.
  split.
  - constructor; [ | constructor ]. eexists. split; [ reflexivity | eexists; reflexivity ].
  - repeat (constructor;
            [ eexists; split; [ reflexivity | ];
              exists Local, [], Local, []; repeat split; constructor | ]).
    constructor.
Qed.

Lemma dispatch_spec W h data n result name v :
  (W -> wf_section name v = true) -> (W -> wf_doc data = true) ->
  full_inv W result ->
  spec W (dispatch h data n result name v) (full_inv W).
Proof.
  intros Hs Hd I. unfold dispatch.
  assert (Items : forall t, In t item_sections -> Str.contains t name = true ->
                            item_list W v).
  { intros t Ht C. apply wf_section_items with (name := name); auto.
    eapply iterated_of; eauto. }
  assert (Mem : forall t, existsb (String.eqb t) item_sections = true -> In t item_sections).
  { intros t Ht. apply existsb_exists in Ht. destruct Ht as (x & Hx & E').
    apply String.eqb_eq in E'. subst. exact Hx. }
  destruct (Str.contains "CPU" name) eqn:C1.
  { apply store_spec with (P := local_dict);
      [ apply parse_cpu_section_spec; eapply Items; [ apply Mem | exact C1 ]; reflexivity | ].
    intros r _. apply full_inv_other; [ reflexivity | exact I ]. }
  destruct (Str.contains "Graphics" name) eqn:C2.
  { apply store_spec with (P := device_record W);
      [ apply parse_gpu_section_spec; eapply Items; [ apply Mem | exact C2 ]; reflexivity | ].
    intros r Pr. apply full_inv_devices; auto. }
  destruct (Str.contains "Memory" name) eqn:C3.
  { apply store_spec with (P := local_dict);
      [ apply parse_memory_section_spec; eapply Items; [ apply Mem | exact C3 ]; reflexivity | ].
    intros r _. apply full_inv_other; [ reflexivity | exact I ]. }
  destruct (Str.contains "Audio" name) eqn:C4.
  { apply store_spec with (P := device_record W);
      [ apply parse_audio_section_spec; eapply Items; [ apply Mem | exact C4 ]; reflexivity | ].
    intros r Pr. apply full_inv_devices; auto. }
  destruct (Str.contains "Network" name) eqn:C5.
  { apply store_spec with (P := device_record W);
      [ apply parse_network_section_spec; eapply Items; [ apply Mem | exact C5 ]; reflexivity | ].
    intros r Pr. apply full_inv_devices; auto. }
  destruct (Str.contains "Drives" name) eqn:C6.
  { apply store_spec with (P := local_dict);
      [ apply parse_disk_section_spec; auto;
        eapply Items; [ apply Mem | exact C6 ]; reflexivity | ].
    intros r _. apply full_inv_other; [ reflexivity | exact I ]. }
  destruct (Str.contains "System" name) eqn:C7.
  { apply store_spec with (P := local_dict);
      [ apply parse_system_section_spec; eapply Items; [ apply Mem | exact C7 ]; reflexivity | ].
    intros r Pr. apply full_inv_system; auto. }
  destruct (Str.contains "Machine" name) eqn:C8.
  { apply store_spec with (P := local_dict);
      [ apply parse_machine_section_spec; eapply Items; [ apply Mem | exact C8 ]; reflexivity | ].
    intros r _. apply full_inv_other; [ reflexivity | exact I ]. }
  destruct (Str.contains "Battery" name) eqn:C9.
  { apply store_spec with (P := local_dict);
      [ apply parse_battery_section_spec; eapply Items; [ apply Mem | exact C9 ]; reflexivity | ].
    intros r _. apply full_inv_other; [ reflexivity | exact I ]. }
  destruct (Str.contains "Sensors" name) eqn:C10.
  { apply store_spec with (P := local_dict);
      [ apply parse_sensors_section_spec; eapply Items; [ apply Mem | exact C10 ]; reflexivity | ].
    intros r _. apply full_inv_other; [ reflexivity | exact I ]. }
  destruct (Str.contains "Info" name) eqn:C11.
  { eapply spec_bind;
      [ apply parse_info_section_spec; eapply Items; [ apply Mem | exact C11 ]; reflexivity | ].
    intros info _.
    assert (I' : full_inv W (if negb (dhas result "system")
                             then dset result "system" (VDict Local []) else result)).
    { destruct (negb (dhas result "system")); auto.
      apply full_inv_system; auto. eexists; reflexivity. }
    destruct I' as [A B]. unfold update_in, getitem.
    destruct (holds_find _ _ _ "system" A ltac:(simpl; tauto)) as (s & F & kvs & ->).
    rewrite F. simpl. apply full_inv_system; [ eexists; reflexivity | split; auto ]. }
  destruct (Str.contains "Processes" name) eqn:C12.
  { apply store_spec with (P := local_dict);
      [ apply parse_processes_section_spec; eapply Items; [ apply Mem | exact C12 ]; reflexivity | ].
    intros r _. apply full_inv_other; [ reflexivity | exact I ]. }
  destruct (Str.contains "Repos" name) eqn:C13.
  { apply store_spec with (P := local_dict);
      [ apply parse_repos_section_spec with (name := name); exact Hs | ].
    intros r _. apply full_inv_other; [ reflexivity | exact I ]. }
  destruct (Str.contains "USB" name) eqn:C14.
  { apply store_spec with (P := local_dict);
      [ apply parse_usb_section_spec; eapply Items; [ apply Mem | exact C14 ]; reflexivity | ].
    intros r _. apply full_inv_other; [ reflexivity | exact I ]. }
  destruct (Str.contains "Bluetooth" name) eqn:C15.
  { apply store_spec with (P := local_dict);
      [ apply parse_bluetooth_section_spec; eapply Items; [ apply Mem | exact C15 ]; reflexivity | ].
    intros r _. apply full_inv_other; [ reflexivity | exact I ]. }
  apply spec_ok. exact I.
Qed.

Lemma parse_section_spec W h data st section :
  (W -> wf_sec section = true) -> (W -> wf_doc data = true) ->
  full_inv W (fst st) ->
  spec W (parse_section h data st section) (fun st' => full_inv W (fst st')).
Proof.
  intros Hs Hd I. unfold parse_section.
  eapply spec_bind; [ apply wf_sec_entries, Hs | intros kvs Hk ].
  apply spec_foldM with (I := fun st' => full_inv W (fst st')); auto.
  intros [result n] kv Hin Ir. simpl in Ir. unfold parse_entry.
  eapply spec_bind.
  { apply wf_entry_name. intros HW. specialize (Hk HW). rewrite Forall_forall in Hk. auto. }
  intros ck (name & -> & Hn).
  eapply spec_bind; [ apply dispatch_spec; eauto | ].
  intros r Ir'. apply spec_ok. exact Ir'.
Qed.

(** [parse_full] never writes to an object of its caller, and returns on
    every well-formed document. *)
Lemma parse_full_spec W h data :
  (W -> wf_doc data = true) -> spec W (parse_full h data) (fun _ => True).
Proof.
  intros Hd. unfold parse_full.
  destruct (negb (truthy data) || negb (is_list data)); [ exact Logic.I | ].
  eapply spec_bind; [ apply wf_doc_sections, Hd | intros sections Hs ].
  eapply spec_bind.
  - apply spec_foldM with (I := fun st => full_inv W (fst st)).
    + intros st section Hin I. apply parse_section_spec; auto.
      intros HW. specialize (Hs HW). rewrite Forall_forall in Hs. auto.
    + apply full_inv_seed.
  - intros st [_ B]. eapply spec_bind; [ apply extract_pci_devices_spec, B | ].
    intros pci _. apply spec_ok. exact Logic.I.
Qed.

(** ** The input is never written *)

Lemma spec_untouched {A : Type} (W : Prop) (m : res A) (Q : A -> Prop) :
  spec W m Q -> input_untouched m.
Proof.
  destruct m as [a | e]; simpl; auto. destruct e; auto. intros [H _]. congruence.
Qed.

Lemma item_list_false items : item_list False items.
Proof. intros []. Qed.

Example write_to_input_list_is_caught :
  py_append (arr []) VNone = Raise Clobber
  /\ append_in [ "devices" ~> arr [] ] "devices" VNone = Raise Clobber.
Proof. split; reflexivity. Qed.

Example write_to_input_dict_is_caught :
  py_setitem (obj []) "ip" VNone = Raise Clobber
  /\ py_update (obj []) [ "ip" ~> VNone ] = Raise Clobber
  /\ ip_loop [ (KStr "eth0", (VStr "10.0.0.2", VStr "")) ]
             [ obj [ "IF" ~> VStr "eth0" ] ] = Raise Clobber.
Proof. repeat split; reflexivity. Qed.

(** C10.  [parse_full] never writes to an object of its caller: whatever
    the document and the machine, no run ends on a write to a list or a
    mapping of the input, the outer list, the section mappings, the item
    lists and the item mappings included.  The same holds of the Disk parser,
    which scans the whole raw document, and of the Network parser, whose
    enrichment writes addresses into device records. *)
Theorem parse_full_never_mutates_input :
  forall (h : host) (data : value),
    input_untouched (parse_full h data)
    /\ (forall items, input_untouched (parse_disk_section items data))
    /\ (forall n items, input_untouched (parse_network_section h n items)).
Proof.
  intros h data. split; [ | split ].
  - apply spec_untouched with (W := False) (Q := fun _ => True).
    apply parse_full_spec. intros [].
  - intros items. apply spec_untouched with (W := False) (Q := local_dict).
    apply parse_disk_section_spec; [ apply item_list_false | intros [] ].
  - intros n items. apply spec_untouched with (W := False) (Q := device_record False).
    apply parse_network_section_spec, item_list_false.
Qed.

(** ** Malformed and well-formed input *)


Lemma clean_item_blank it : blank_item it = true -> clean_item it = Ok [].
Proof.
  destruct it; try discriminate. simpl. unfold clean_item. simpl.
  induction kvs as [| [k v] kvs IH]; simpl; auto.
  rewrite !andb_true_iff. intros [[K A] F]. destruct k; try discriminate. simpl.
  rewrite A. auto.
Qed.

Lemma foldM_fixed {A B : Type} (f : A -> B -> res A) (P : B -> Prop) xs a :
  (forall a x, P x -> f a x = Ok a) -> Forall P xs -> foldM f a xs = Ok a.
Proof.
  intros Hf. revert a. induction xs as [| x xs IH]; simpl; intros a F; auto.
  inversion F; subst. rewrite Hf by assumption. simpl. auto.
Qed.

Ltac blank_step :=
  let a := fresh in let x := fresh in let Hx := fresh in
  intros a x Hx;
  match goal with
  | |- ?f _ _ = _ => unfold f
  end;
  rewrite (clean_item_blank _ Hx); try destruct a; reflexivity.

Lemma machine_item_blank result it :
  blank_item it = true -> machine_item result it = Ok result.
Proof.
  destruct it; try discriminate. simpl. intros B. unfold machine_item. simpl.
  assert (K : Forall (fun k => In k (List.map fst kvs) /\ is_kstr k = true)
                     (List.map fst kvs)).
  { apply Forall_forall. intros k Hk. split; auto. apply in_map_iff in Hk.
    destruct Hk as (kv & <- & Hkv). rewrite forallb_forall in B.
    specialize (B kv Hkv). apply andb_true_iff in B. tauto. }
  pose proof (sortM_spec True key_lt _ _
                (fun a b Ha Hb => key_lt_spec True a b (fun _ => proj2 Ha) (fun _ => proj2 Hb))
                K) as S.
  destruct (sortM key_lt (List.map fst kvs)) as [sorted | e]; simpl in S;
    [ | destruct S as [_ N]; destruct (N Logic.I) ].
  assert (S' : Forall (fun k => In k (List.map fst kvs)) sorted)
    by (revert S; apply Forall_impl; intros k [Hk _]; exact Hk).
  simpl. rewrite foldM_fixed with (P := fun k => In k (List.map fst kvs)); auto.
  intros [r fl] k Hk. unfold machine_key, getitem.
  assert (exists v, dfind kvs k = Some v /\ is_absent v = true) as (v & -> & A).
  { clear - B Hk. induction kvs as [| [e w] kvs IH]; simpl in *; [ tauto | ].
    apply andb_true_iff in B. destruct B as [B1 B2].
    apply andb_true_iff in B1. destruct B1 as [_ Aw].
    destruct (key_eqb e k) eqn:K; [ eauto | ].
    destruct Hk as [-> | Hk]; [ rewrite key_eqb_refl in K; discriminate | auto ]. }
  simpl. rewrite A. reflexivity.
Qed.

Section Blank.

Variables (items : value) (its : list value).
Hypothesis Hiter : py_iter items = Ok its.
Hypothesis Hblank : Forall (fun it => blank_item it = true) its.

Lemma cpu_blank : parse_cpu_section items = parse_cpu_section (arr []).
Proof.
  unfold parse_cpu_section. rewrite Hiter. simpl.
  rewrite foldM_fixed with (P := fun it => blank_item it = true); auto. blank_step.
Qed.

Lemma gpu_blank : parse_gpu_section items = parse_gpu_section (arr []).
Proof.
  unfold parse_gpu_section. rewrite Hiter. simpl.
  rewrite foldM_fixed with (P := fun it => blank_item it = true); auto. blank_step.
Qed.

Lemma memory_blank : parse_memory_section items = parse_memory_section (arr []).
Proof.
  unfold parse_memory_section. rewrite Hiter. simpl.
  rewrite foldM_fixed with (P := fun it => blank_item it = true); auto. blank_step.
Qed.

Lemma audio_blank : parse_audio_section items = parse_audio_section (arr []).
Proof.
  unfold parse_audio_section. rewrite Hiter. simpl.
  rewrite foldM_fixed with (P := fun it => blank_item it = true); auto. blank_step.
Qed.

Lemma network_blank h n :
  parse_network_section h n items = parse_network_section h n (arr []).
Proof.
  unfold parse_network_section. rewrite Hiter. simpl.
  rewrite foldM_fixed with (P := fun it => blank_item it = true); auto. blank_step.
Qed.

Lemma disk_blank data : parse_disk_section items data = parse_disk_section (arr []) data.
Proof.
  unfold parse_disk_section. rewrite Hiter. simpl.
  rewrite foldM_fixed with (P := fun it => blank_item it = true); auto. blank_step.
Qed.

Lemma system_blank h n :
  parse_system_section h n items = parse_system_section h n (arr []).
Proof.
  unfold parse_system_section. rewrite Hiter. simpl.
  rewrite foldM_fixed with (P := fun it => blank_item it = true); auto. blank_step.
Qed.

Lemma machine_blank : parse_machine_section items = parse_machine_section (arr []).
Proof.
  unfold parse_machine_section. rewrite Hiter. simpl.
  rewrite foldM_fixed with (P := fun it => blank_item it = true); auto.
  intros; apply machine_item_blank; auto.
Qed.

Lemma battery_blank : parse_battery_section items = parse_battery_section (arr []).
Proof.
  unfold parse_battery_section. rewrite Hiter. simpl.
  rewrite foldM_fixed with (P := fun it => blank_item it = true); auto. blank_step.
Qed.

Lemma sensors_blank h n :
  parse_sensors_section h n items = parse_sensors_section h n (arr []).
Proof.
  unfold parse_sensors_section. rewrite Hiter. simpl.
  rewrite foldM_fixed with (P := fun it => blank_item it = true); auto. blank_step.
Qed.

Lemma bluetooth_blank : parse_bluetooth_section items = parse_bluetooth_section (arr []).
Proof.
  unfold parse_bluetooth_section. rewrite Hiter. simpl.
  rewrite foldM_fixed with (P := fun it => blank_item it = true); auto. blank_step.
Qed.

End Blank.



(** ** Percentages *)

(** C5, as the specification states it, fails on a report whose Drives
    summary reads 250.5%, whose Memory section has 16 GiB in use out of
    8 GiB and whose battery charge text starts with 150.5 Wh: the three
    numbers are stored as computed, above 100.  And a number with two dots
    between the brackets of the Drives summary is not absorbed: it raises
    [ValueError]. *)
Lemma percentages_exceed_100 :
  (exists model disk memory battery,
      parse_full silent_host overfull_report = Ok (VDict Local model)
      /\ dfind model "disk" = Some (VDict Local disk)
      /\ dfind disk "used_percent" = Some (VFloat (501 # 2))
      /\ dfind model "memory" = Some (VDict Local memory)
      /\ dfind memory "used_percent" = Some (VFloat (200 # 1))
      /\ dfind model "battery" = Some (VDict Local battery)
      /\ dfind battery "charge" = Some (VFloat (301 # 2))
      /\ Qle_bool (501 # 2) (inject_Z 100) = false
      /\ Qle_bool (200 # 1) (inject_Z 100) = false
      /\ Qle_bool (301 # 2) (inject_Z 100) = false)
  /\ parse_full silent_host garbled_report = Raise ValueError.
Proof.
  split; [ | vm_compute; reflexivity ].
  do 4 eexists. split; [ vm_compute; reflexivity | repeat split; reflexivity ].
Qed.

Lemma round1_nonneg q : (0 <= q)%Q -> (0 <= round1 q)%Q.
Proof.
  intros H. unfold round1. cbv zeta.
  set (f := (Qnum q * 10 / Z.pos (Qden q))%Z).
  set (up := match (2 * ((Qnum q * 10) mod Z.pos (Qden q)) ?= Z.pos (Qden q))%Z with
             | Eq => Z.odd f
             | Lt => false
             | Gt => true
             end).
  assert (P : (0 <= Qnum q)%Z) by (unfold Qle in H; simpl in H; lia).
  assert (F : (0 <= f)%Z) by (apply Z.div_pos; lia).
  assert (G : (0 <= (if up then f + 1 else f))%Z) by (destruct up; lia).
  remember (if up then (f + 1)%Z else f) as m eqn:M.
  remember (Qmake m 10) as x eqn:X.
  rewrite Qred_correct. subst x. unfold Qle. cbn [Qnum Qden]. lia.
Qed.

Lemma ratio_nonneg u t :
  (0 <= u)%Q -> (0 < Qnum t)%Z -> (0 <= Qred ((u / t) * inject_Z 100))%Q.
Proof.
  intros Hu Ht. rewrite Qred_correct.
  apply Qmult_le_0_compat; [ | unfold Qle; simpl; lia ].
  apply Qle_shift_div_l; [ unfold Qlt; simpl; lia | ].
  rewrite Qmult_0_l. exact Hu.
Qed.

Lemma memory_item_percent result x result' :
  memory_item result x = Ok result' ->
  dfind result' "used_percent" = dfind result "used_percent".
Proof.
  unfold memory_item. intros H. inv_bind H. unfold memory_module in H.
  repeat match type of H with
         | (if ?c then _ else _) = _ => destruct c
         end;
    try (rewrite (append_in_other _ _ _ _ "used_percent" H) by reflexivity);
    try (inversion H; subst result');
    rewrite !dfind_copy_str_other, !memory_first_other, memory_total_other by reflexivity;
    reflexivity.
Qed.

Lemma percent_of_value s p :
  percent_of s = Ok p ->
  percent_value (match p with Some q => VFloat q | None => VInt 0 end)
  /\ default_without search_percent s (match p with Some q => VFloat q | None => VInt 0 end).
Proof.
  unfold percent_of, default_without. destruct (search_percent s) as [run |].
  - intros H. inv_bind H. injection H as <-. split; [ | discriminate ].
    right. exists a. split; auto. eapply float_of_numeral_nonneg; eauto.
  - intros H. injection H as <-. split; [ left | ]; reflexivity.
Qed.

Lemma append_in_holds (q : value -> Prop) ks d (k : string) x d' :
  append_in d k x = Ok d' -> holds (local_list q) ks d -> In k ks -> q x ->
  holds (local_list q) ks d'.
Proof.
  intros H I Hk Qx. apply append_in_inv in H. destruct H as (xs & F & ->).
  apply holds_dset_in; auto.
  destruct (holds_find _ _ _ _ I Hk) as (v & F' & ys & -> & Qy).
  rewrite F in F'. inversion F'; subst ys. apply local_list_snoc; auto.
Qed.

Lemma append_in_holds_out p ks d (k : string) x d' :
  append_in d k x = Ok d' -> holds p ks d ->
  forallb (fun c => negb (key_eqb (KStr k) (KStr c))) ks = true ->
  holds p ks d'.
Proof.
  intros H I N. apply append_in_inv in H. destruct H as (xs & F & ->).
  apply holds_dset_out; auto.
Qed.

Lemma disk_item_percents result x result' :
  disk_item result x = Ok result' -> disk_percents result -> disk_percents result'.
Proof.
  unfold disk_item. intros H [A B]. inv_bind H.
  destruct (dhas a "Local Storage" || dhas a "total").
  - inv_bind H. injection H as <-. destruct (percent_of_value _ _ Ha0) as [P _].
    destruct a0; split;
      repeat first [ apply holds_dset_out; [ reflexivity | ] | assumption
                   | apply holds_dset_in; [ | exact P ] ].
  - destruct (dhas a "model" && dhas a "size"); [ | injection H as <-; split; auto ].
    split; eapply append_in_holds_out; eauto.
Qed.

Lemma partition_item_percents result x result' :
  partition_item result x = Ok result' -> disk_percents result -> disk_percents result'.
Proof.
  unfold partition_item. intros H [A B]. inv_bind H.
  destruct (dhas a "ID"); [ | injection H as <-; split; auto ].
  inv_bind H. destruct (percent_of_value _ _ Ha0) as [P D]. split.
  - eapply append_in_holds_out; eauto.
  - eapply append_in_holds; eauto; [ simpl; tauto | ].
    do 4 eexists. split; [ reflexivity | ].
    split; [ reflexivity | ]. split; [ reflexivity | ]. split; [ exact P | exact D ].
Qed.

Lemma swap_item_percents result x result' :
  swap_item result x = Ok result' -> disk_percents result -> disk_percents result'.
Proof.
  unfold swap_item. intros H [A B]. inv_bind H.
  destruct (dhas a "Kernel" || dhas a "swappiness").
  { injection H as <-. split; apply holds_dset_out; auto. }
  destruct (dhas a "ID" || dhas a "type"); [ | injection H as <-; split; auto ].
  inv_bind H. destruct (percent_of_value _ _ Ha0) as [P D]. split.
  - eapply append_in_holds_out; eauto.
  - eapply append_in_holds; eauto; [ simpl; tauto | ].
    do 4 eexists. split; [ reflexivity | ].
    split; [ reflexivity | ]. split; [ reflexivity | ]. split; [ exact P | exact D ].
Qed.

Lemma disk_sibling_percents result kv result' :
  disk_sibling result kv = Ok result' -> disk_percents result -> disk_percents result'.
Proof.
  unfold disk_sibling. intros H I. inv_bind H.
  destruct a; try (injection H as <-; exact I).
  destruct (snd kv); try (injection H as <-; exact I).
  destruct (Str.contains "Partition" s).
  - revert H. apply foldM_invariant; auto. intros; eapply partition_item_percents; eauto.
  - destruct (Str.contains "Swap" s); [ | injection H as <-; exact I ].
    revert H. apply foldM_invariant; auto. intros; eapply swap_item_percents; eauto.
Qed.

Lemma battery_item_charges result x result' :
  battery_item result x = Ok result' ->
  holds (local_list (entry_percent "charge")) [ "batteries" ] result ->
  holds (local_list (entry_percent "charge")) [ "batteries" ] result'.
Proof.
  unfold battery_item. intros H I. inv_bind H.
  destruct (dhas a "ID" || dhas a "charge"); [ | injection H as <-; exact I ].
  inv_bind H. destruct (battery_charge_total a) as (v & E' & P).
  rewrite E' in Ha0. injection Ha0 as <-.
  eapply append_in_holds; [ exact H | | simpl; tauto | ].
  - apply holds_dset_out; [ reflexivity | exact I ].
  - do 3 eexists. split; [ reflexivity | ]. split; [ reflexivity | exact P ].
Qed.

Lemma battery_flatten_charge result result' :
  battery_flatten result = Ok result' ->
  holds (local_list (entry_percent "charge")) [ "batteries" ] result ->
  exists v bs,
    dfind result' "charge" = Some v /\ percent_value v
    /\ dfind result' "batteries" = Some (VList Local bs)
    /\ Forall (entry_percent "charge") bs
    /\ (bs = [] -> v = VInt 0).
Proof.
  unfold battery_flatten, getitem. intros H I.
  destruct (holds_find _ _ _ "batteries" I ltac:(simpl; tauto)) as (l & F & bs & -> & Q).
  rewrite F in H. simpl in H. destruct bs as [| first rest].
  - injection H as <-. exists (VInt 0), []. dict_simpl.
    repeat split; auto. left; reflexivity.
  - do 8 inv_bind H. injection H as <-.
    inversion Q as [| ? ? (o & kvs & v & -> & Fc & P) _]; subst.
    simpl in Ha. unfold getitem in Ha. rewrite Fc in Ha. injection Ha as <-.
    exists v, (VDict o kvs :: rest). dict_simpl. repeat split; auto. discriminate.
Qed.

Lemma memory_loop_inv its result :
  foldM memory_item memory_default its = Ok result ->
  memory_inv result /\ dfind result "used_percent" = Some (VInt 0).
Proof.
  intros H. split.
  - apply (spec_result False (foldM memory_item memory_default its) memory_inv); auto.
    apply spec_foldM; [ | apply memory_inv_default ].
    intros a x _ I. apply memory_item_spec; [ intros [] | exact I ].
  - revert H.
    apply (foldM_invariant memory_item (fun d => dfind d "used_percent" = Some (VInt 0)));
      [ | reflexivity ].
    intros d x d' I F. rewrite (memory_item_percent _ _ _ F). exact I.
Qed.

Lemma numeral_of_found s run q :
  search_numeral s = Some run -> float_of_numeral run = Ok q -> numeral_of s = Some q.
Proof. unfold numeral_of. intros -> ->. reflexivity. Qed.

Lemma memory_percent_reading result :
  memory_inv result -> dfind result "used_percent" = Some (VInt 0) ->
  exists result', memory_percent result = Ok result' /\ memory_reading result'.
Proof.
  intros (A & B) Z0. unfold memory_percent, getitem.
  destruct (holds_find _ _ _ "total" B ltac:(simpl; tauto)) as (t & Ft & st & ->).
  destruct (holds_find _ _ _ "used" B ltac:(simpl; tauto)) as (u & Fu & su & ->).
  rewrite Ft, Fu. cbn [bind].
  assert (Same : exists result', Ok result = Ok result' /\ memory_reading result').
  { exists result. split; [ reflexivity | ]. exists st, su, (VInt 0).
    repeat split; auto. left. reflexivity. }
  destruct (truthy (VStr st) && truthy (VStr su)); [ | exact Same ].
  unfold memory_ratio, re_numeral. cbn [bind].
  destruct (search_numeral st) as [rt |] eqn:St; [ | exact Same ].
  destruct (search_numeral su) as [ru |] eqn:Su; [ | exact Same ].
  destruct (float_of_numeral rt) as [qt | e] eqn:T; cbn [bind];
    [ | rewrite (float_of_numeral_error _ _ T); exact Same ].
  destruct (float_of_numeral ru) as [qu | e] eqn:U; cbn [bind];
    [ | rewrite (float_of_numeral_error _ _ U); exact Same ].
  destruct (0 <? Qnum qt)%Z eqn:P; [ | exact Same ].
  apply Z.ltb_lt in P.
  remember (round1 (Qred (qu / qt * inject_Z 100))) as pct eqn:Pct.
  eexists. split; [ reflexivity | ]. exists st, su, (VFloat pct).
  rewrite dfind_dset_same, !dfind_dset_other by reflexivity.
  repeat split; auto.
  - intros _. right. exists pct. split; auto. subst pct.
    apply round1_nonneg, ratio_nonneg; auto. eapply float_of_numeral_nonneg; eauto.
  - intros _ _ [N | [N | (q & N & L)]];
      rewrite (numeral_of_found _ _ _ St T) in N || rewrite (numeral_of_found _ _ _ Su U) in N;
      try discriminate.
    injection N as <-. unfold Qle in L. simpl in L. lia.
Qed.

Lemma battery_loop_inv its result :
  foldM battery_item [ "present" ~> VBool false; "batteries" ~> VList Local [] ] its
  = Ok result ->
  holds (local_list battery_record) [ "batteries" ] result
  /\ holds (local_list (entry_percent "charge")) [ "batteries" ] result.
Proof.
  intros H. split.
  - apply (spec_result False
             (foldM battery_item
                [ "present" ~> VBool false; "batteries" ~> VList Local [] ] its)
             (holds (local_list battery_record) [ "batteries" ])); auto.
    apply spec_foldM.
    + intros a x _ I. apply battery_item_spec; [ intros [] | exact I ].
    + constructor; [ | constructor ]. eexists. split; [ reflexivity | apply local_list_nil ].
  - revert H. apply foldM_invariant.
    + intros; eapply battery_item_charges; eauto.
    + repeat constructor. eexists. split; [ reflexivity | ].
      eexists. split; [ reflexivity | constructor ].
Qed.

(** C5, amended.  Every percentage derived from free text is the default [0]
    or a float that is not negative; nothing bounds it by 100.
    - Memory: whenever the loop over the items returns, the parser returns;
      [used_percent] is [0] or a float that is not negative (for a [total]
      text of at most 300 characters), and, when [total] and [used] are
      ASCII text, it is the default [0] if one of them holds no number that
      [float] reads or the total is not positive.
    - Disk: whenever the parser returns, the [used_percent] of the record is
      [0] or a float that is not negative, and so is the [used_percent] of
      every partition and swap entry, which is the default [0] when the
      ASCII [used] text of the entry holds no ["(number%)"].
    - Battery: whenever the loop over the items returns, the parser returns;
      [charge] is [0] or a float that is not negative at the top level and
      in every entry, and [0] at the top level when there is no entry.  The
      charge of an item is [0] when the item has no [charge]; when [charge]
      is text, reading it never raises, and yields the default [0] when the
      ASCII text holds no digit. *)
Theorem percentages_are_non_negative :
  (forall items its result,
      py_iter items = Ok its ->
      foldM memory_item memory_default its = Ok result ->
      exists kvs,
        parse_memory_section items = Ok (VDict Local kvs) /\ memory_reading kvs)
  /\ (forall items data r,
         parse_disk_section items data = Ok r ->
         exists kvs, r = VDict Local kvs /\ disk_percents kvs)
  /\ (forall items its result,
         py_iter items = Ok its ->
         foldM battery_item [ "present" ~> VBool false; "batteries" ~> VList Local [] ] its
         = Ok result ->
         exists kvs v bs,
           parse_battery_section items = Ok (VDict Local kvs)
           /\ dfind kvs "charge" = Some v /\ percent_value v
           /\ dfind kvs "batteries" = Some (VList Local bs)
           /\ Forall (entry_percent "charge") bs
           /\ (bs = [] -> v = VInt 0))
  /\ (forall cleaned,
         (dfind cleaned "charge" = None -> battery_charge cleaned = Ok (VInt 0))
         /\ (forall s,
                dfind cleaned "charge" = Some (VStr s) ->
                exists v,
                  battery_charge cleaned = Ok v /\ percent_value v
                  /\ default_without search_decimal s v)).
Proof.
  split; [ | split; [ | split ] ].
  - intros items its result Hi Hf. unfold parse_memory_section.
    rewrite Hi. cbn [bind]. rewrite Hf. cbn [bind].
    destruct (memory_loop_inv _ _ Hf) as [I Z0].
    destruct (memory_percent_reading _ I Z0) as (result' & -> & R). cbn [bind]. eauto.
  - intros items data r H. unfold parse_disk_section in H. do 4 inv_bind H.
    injection H as <-. eexists. split; [ reflexivity | ].
    revert Ha2. apply foldM_invariant.
    + intros d section d' I F. inv_bind F. revert F. apply foldM_invariant; auto.
      intros; eapply disk_sibling_percents; eauto.
    + revert Ha0. apply foldM_invariant.
      * intros; eapply disk_item_percents; eauto.
      * split; repeat constructor; try (eexists; split; [ reflexivity | ]);
          try (left; reflexivity); try (eexists; split; [ reflexivity | constructor ]).
  - intros items its result Hi Hf. unfold parse_battery_section.
    rewrite Hi. cbn [bind]. rewrite Hf. cbn [bind].
    destruct (battery_loop_inv _ _ Hf) as [R C].
    destruct (spec_total _ _ (battery_flatten_total True result R)) as (result' & Fl & _).
    rewrite Fl. cbn [bind].
    destruct (battery_flatten_charge _ _ Fl C) as (v & bs & F & P & B & Q & N).
    exists result', v, bs. auto 10.
  - intros cleaned. unfold battery_charge. split; [ intros ->; reflexivity | ].
    intros s ->. cbn [py_str]. unfold default_without.
    destruct (search_decimal s) as [run |] eqn:S.
    + apply search_found in S. destruct S as [t S].
      destruct (decimal_at_float _ _ S) as [q Hq]. rewrite Hq. cbn [bind].
      eexists. split; [ reflexivity | ]. split; [ | discriminate ].
      right. exists q. split; auto. eapply float_of_numeral_nonneg; eauto.
    + eexists. split; [ reflexivity | ]. split; [ left | ]; reflexivity.
Qed.

Lemma percentages_are_non_negative_witness :
  (exists kvs,
      parse_memory_section garbled_memory = Ok (VDict Local kvs)
      /\ dfind kvs "used_percent" = Some (VInt 0))
  /\ (exists kvs ps ss,
         parse_disk_section (arr []) unread_partitions = Ok (VDict Local kvs)
         /\ dfind kvs "partitions" = Some (VList Local ps)
         /\ dfind kvs "swap" = Some (VList Local ss)
         /\ Forall used_entry ps /\ Forall used_entry ss)
  /\ (exists kvs v,
         parse_battery_section one_battery = Ok (VDict Local kvs)
         /\ dfind kvs "charge" = Some v /\ percent_value v)
  /\ battery_charge unread_charge = Ok (VInt 0).
Proof.
  destruct percentages_are_non_negative as (M & D & B & C).
  split; [ | split; [ | split ] ].
  - destruct (M garbled_memory _ _ eq_refl eq_refl) as (kvs & E' & t & u & v & Ft & Fu & Fv & _ & Z0).
    exists kvs. split; [ exact E' | ].
    vm_compute in E'. injection E' as <-.
    vm_compute in Ft, Fu. injection Ft as <-. injection Fu as <-.
    rewrite Fv. f_equal. apply Z0; [ reflexivity | reflexivity | ].
    left. reflexivity.
  - destruct (D (arr []) unread_partitions _ eq_refl) as (kvs & E' & _ & P).
    exists kvs.
    destruct (holds_find _ _ _ "partitions" P ltac:(simpl; tauto)) as (p & Fp & ps & -> & Qp).
    destruct (holds_find _ _ _ "swap" P ltac:(simpl; tauto)) as (w & Fw & ss & -> & Qw).
    exists ps, ss. rewrite <- E'. auto.
  - destruct (B one_battery _ _ eq_refl eq_refl) as (kvs & v & bs & E' & F & P & _).
    exists kvs, v. auto.
  - destruct (C unread_charge) as [_ T].
    destruct (T "n/a" eq_refl) as (v & E' & _ & Z0).
    rewrite E'. f_equal. apply Z0; reflexivity.
Defined.

(** * Further properties of the parser *)

(** ** The cleaning loop *)

Lemma clean_entry_dset d k v :
  Forall clean_entry d -> clean_entry (k, v) -> Forall clean_entry (dset d k v).
Proof.
  intros H [A B]. induction d as [| [k' v'] d IH]; simpl.
  - repeat constructor; auto.
  - inversion H as [| ? ? [A' B'] H']; subst.
    destruct (key_eqb k' k); constructor; auto; split; auto.
Qed.

Lemma keys_once_dset d k v : keys_once d = true -> keys_once (dset d k v) = true.
Proof.
  induction d as [| [k' v'] d IH]; simpl; auto.
  intros H. apply andb_true_iff in H. destruct H as [N O].
  destruct (key_eqb k' k) eqn:Ek; simpl.
  - rewrite N, O. reflexivity.
  - rewrite IH by exact O. rewrite andb_true_r.
    rewrite dhas_dset_other; auto. rewrite key_eqb_sym. exact Ek.
Qed.

Lemma dfind_dset_cases d k v k' w :
  dfind (dset d k v) k' = Some w ->
  (w = v /\ key_eqb k k' = true) \/ dfind d k' = Some w.
Proof.
  destruct (key_eqb k k') eqn:Ek.
  - intros H. left. split; auto.
    assert (F : dfind (dset d k v) k' = Some v).
    { clear H. induction d as [| [a b] d IH]; simpl.
      - rewrite Ek. reflexivity.
      - destruct (key_eqb a k) eqn:Ea; simpl.
        + rewrite (key_eqb_trans _ _ _ Ea Ek). reflexivity.
        + destruct (key_eqb a k') eqn:Ea'; auto.
          rewrite (key_eqb_trans _ _ _ Ea' (eq_trans (key_eqb_sym k' k) Ek)) in Ea.
          discriminate. }
    congruence.
  - rewrite dfind_dset_other by exact Ek. auto.
Qed.

(** X1.  What the cleaning loop leaves: no absent value, only textual keys
    without [#], no key twice, and under every key a value the item holds
    under a raw key of that name. *)
Theorem clean_item_entries :
  forall (item : value) (cleaned : entries),
    clean_item item = Ok cleaned ->
    Forall clean_entry cleaned
    /\ keys_once cleaned = true
    /\ forall k v, dfind cleaned k = Some v ->
                   exists kvs raw, py_items item = Ok kvs
                                   /\ In (KStr raw, v) kvs
                                   /\ key_eqb (KStr (clean_key raw)) k = true.
Proof.
  intros item cleaned H. unfold clean_item in H.
  apply bind_ok in H. destruct H as (kvs & Items & H).
  assert (G : forall acc,
             (Forall clean_entry acc /\ keys_once acc = true
              /\ forall k v, dfind acc k = Some v ->
                             exists raw, In (KStr raw, v) kvs
                                         /\ key_eqb (KStr (clean_key raw)) k = true) ->
             forall l, (forall x, In x l -> In x kvs) ->
             foldM (fun cleaned kv =>
                      ck <- clean_key_of (fst kv) ;;
                      Ok (if is_absent (snd kv) then cleaned else dset cleaned ck (snd kv)))
                   acc l = Ok cleaned ->
             Forall clean_entry cleaned /\ keys_once cleaned = true
             /\ forall k v, dfind cleaned k = Some v ->
                            exists raw, In (KStr raw, v) kvs
                                        /\ key_eqb (KStr (clean_key raw)) k = true).
  { intros acc I l. revert acc I. induction l as [| [rk rv] l IH]; simpl; intros acc I Sub F.
    - inversion F; subst. exact I.
    - apply bind_ok in F. destruct F as (acc' & Step & F).
      apply bind_ok in Step. destruct Step as (ck & Ck & Step). injection Step as <-.
      destruct rk as [| | | raw]; try discriminate. injection Ck as <-.
      apply (IH _ ) in F; auto. simpl.
      destruct (is_absent rv) eqn:Ab; [ exact I | ].
      destruct I as (A & B & C). split; [ | split ].
      + apply clean_entry_dset; auto. split; auto.
        exists (clean_key raw). split; auto.
        rewrite contains_char. apply clean_key_no_sep.
      + apply keys_once_dset, B.
      + intros k v Fk. apply dfind_dset_cases in Fk. destruct Fk as [[-> Ek] | Fk]; auto.
        exists raw. split; auto. }
  destruct (G [] ltac:(repeat split; [ constructor | discriminate ]) kvs (fun x H => H) H)
    as (A & B & C).
  repeat split; auto. intros k v Fk. destruct (C k v Fk) as (raw & I & Ek).
  exists kvs, raw. auto.
Qed.

Lemma clean_item_entries_witness :
  exists cleaned,
    clean_item (obj [ "001#1#1#model" ~> VStr "Test CPU"; "002#1#1#cores" ~> VNone ])
    = Ok cleaned
    /\ Forall clean_entry cleaned /\ keys_once cleaned = true.
Proof.
  eexists. split; [ reflexivity | ].
  destruct (clean_item_entries _ _
              (eq_refl : clean_item (obj [ "001#1#1#model" ~> VStr "Test CPU";
                                           "002#1#1#cores" ~> VNone ]) = Ok _))
    as (A & B & _).
  split; assumption.
Defined.

Lemma contains_app_sep p (c : ascii) s :
  Str.mem c (p ++ String c s) = true.
Proof.
  induction p as [| d p IH]; simpl.
  - rewrite Ascii.eqb_refl. reflexivity.
  - rewrite IH. apply orb_true_r.
Qed.

Lemma split_last_app p (c : ascii) s :
  Str.mem c s = false ->
  last (Str.split c (p ++ String c s)) EmptyString = s.
Proof.
  intros N. induction p as [| d p IH].
  - simpl. rewrite Ascii.eqb_refl. rewrite (split_no_sep _ _ N). reflexivity.
  - cbn [append Str.split]. destruct (Ascii.eqb d c).
    + rewrite last_cons_nonempty by apply split_nonempty. exact IH.
    + destruct (Str.split c (p ++ String c s)) as [| f fs] eqn:S.
      * destruct (split_nonempty _ _ S).
      * destruct fs as [| g fs]; [ | exact IH ].
        apply split_single in S. rewrite contains_app_sep in S. discriminate.
Qed.

Lemma clean_key_numbered p name :
  Str.contains "#" name = false -> clean_key (p ++ "#" ++ name) = name.
Proof.
  intros N. rewrite contains_char in N. unfold clean_key.
  rewrite contains_char. change (p ++ "#" ++ name) with (p ++ String "#" name).
  rewrite contains_app_sep. apply split_last_app, N.
Qed.

Lemma dset_fresh d k v : dhas d k = false -> dset d k v = (d ++ [(k, v)])%list.
Proof.
  induction d as [| [k' v'] d IH]; simpl; auto.
  intros H. apply orb_false_iff in H. destruct H as [A B].
  rewrite A, IH by exact B. reflexivity.
Qed.

Lemma dhas_app d e k : dhas (d ++ e)%list k = dhas d k || dhas e k.
Proof.
  induction d as [| [k' v'] d IH]; simpl; auto. rewrite IH. apply orb_assoc.
Qed.

Lemma dhas_plain (l : list field) (name : string) :
  dhas (List.map plain l) name = true -> In name (List.map field_name l).
Proof.
  induction l as [| f l IH]; simpl; [ discriminate | ].
  intros H. apply orb_true_iff in H. destruct H as [H | H]; auto.
  left. apply String.eqb_eq in H. exact H.
Qed.

(** X2.  Cleaning undoes inxi's numbering: an item whose keys are
    ["NNN#N#N#name"] for pairwise distinct names without [#], each with a
    value that is not absent, cleans to the mapping from the names to the
    values, in the item's order; and a single numbered key cleans to its
    name. *)
Theorem clean_item_numbered :
  forall (o : owner) (fields : list field),
    forallb reported fields = true ->
    NoDup (List.map field_name fields) ->
    clean_item (VDict o (List.map numbered fields)) = Ok (List.map plain fields)
    /\ forall f, In f fields ->
                 clean_key (fst (fst f) ++ "#" ++ field_name f) = field_name f.
Proof.
  intros o fields R N. split.
  - unfold clean_item. cbn [py_items bind].
    assert (G : forall acc : list field,
               (forall f, In f fields -> ~ In (field_name f) (List.map field_name acc)) ->
               foldM (fun cleaned kv =>
                        ck <- clean_key_of (fst kv) ;;
                        Ok (if is_absent (snd kv) then cleaned else dset cleaned ck (snd kv)))
                     (List.map plain acc) (List.map numbered fields)
               = Ok (List.map plain (acc ++ fields)%list)).
    { induction fields as [| f fields IH]; intros acc Fresh.
      - simpl. rewrite app_nil_r. reflexivity.
      - cbn [List.map foldM forallb] in *. apply andb_true_iff in R. destruct R as [Rf R].
        unfold reported in Rf. apply andb_true_iff in Rf. destruct Rf as [Rn Rv].
        apply negb_true_iff in Rn, Rv. inversion N as [| ? ? Nf N']; subst.
        unfold numbered at 1. cbn [fst snd clean_key_of bind].
        change (snd (numbered f)) with (snd f).
        rewrite Rv, (clean_key_numbered _ _ Rn).
        rewrite dset_fresh.
        + change [(KStr (field_name f), snd f)] with (List.map plain [f]).
          rewrite <- map_app.
          replace (acc ++ f :: fields)%list with ((acc ++ [f]) ++ fields)%list
            by (rewrite <- app_assoc; reflexivity).
          apply IH; auto. intros g Hg. rewrite map_app, in_app_iff. simpl.
          intros [I | [I | []]].
          * apply (Fresh g (or_intror Hg) I).
          * apply Nf. rewrite I. apply in_map, Hg.
        + destruct (dhas (List.map plain acc) (field_name f)) eqn:D; auto.
          apply dhas_plain in D. destruct (Fresh f (or_introl eq_refl) D). }
    apply (G []). intros f _ [].
  - intros f Hf. apply clean_key_numbered.
    rewrite forallb_forall in R. specialize (R f Hf). unfold reported in R.
    apply andb_true_iff in R. destruct R as [R _]. apply negb_true_iff in R. exact R.
Qed.

Lemma clean_item_numbered_witness :
  forallb reported cpu_fields = true
  /\ NoDup (List.map field_name cpu_fields)
  /\ clean_item (obj (List.map numbered cpu_fields)) = Ok (List.map plain cpu_fields).
Proof.
  assert (R : forallb reported cpu_fields = true) by reflexivity.
  assert (N : NoDup (List.map field_name cpu_fields)).
  { repeat constructor; simpl; intuition discriminate. }
  split; [ exact R | ]. split; [ exact N | ].
  apply (clean_item_numbered Caller cpu_fields R N).
Defined.

(** ** Sections the orchestrator does not know *)

Lemma dispatch_unknown h data n result name v :
  any_in section_words name = false -> dispatch h data n result name v = Ok result.
Proof.
  unfold any_in, section_words. cbn [existsb]. intros H.
  repeat (apply orb_false_iff in H; destruct H as [?C H]).
  unfold dispatch. rewrite C, C0, C1, C2, C3, C4, C5, C6, C7, C8, C9, C10, C11, C12, C13.
  reflexivity.
Qed.

Lemma parse_section_unknown h data result n s :
  unknown_section s = true ->
  exists n', parse_section h data (result, n) s = Ok (result, n').
Proof.
  destruct s as [| | | | | |o kvs]; try discriminate.
  unfold parse_section, unknown_section. cbn [py_items bind]. revert n.
  induction kvs as [| [k v] kvs IH]; intros n U; cbn [forallb foldM fst] in *.
  - eauto.
  - apply andb_true_iff in U. destruct U as [Uk U].
    destruct k as [| | | k]; try discriminate. apply negb_true_iff in Uk.
    unfold parse_entry at 1. cbn [fst snd clean_key_of bind].
    rewrite (dispatch_unknown _ _ _ _ _ _ Uk). cbn [bind]. apply IH, U.
Qed.

(** X3.  Sections whose names contain none of the fifteen words the
    dispatch looks for are ignored: a non-empty document made of such
    sections only yields the eleven empty categories and an empty
    [pci_inxi].  A Partition section, read only from inside the Drives
    parser, is one of them. *)
Theorem parse_full_ignores_unknown_sections :
  forall (h : host) (o : owner) (sections : list value),
    sections <> [] ->
    forallb unknown_section sections = true ->
    parse_full h (VList o sections) = Ok (VDict Local bare_model).
Proof.
  intros h o sections N U. unfold parse_full.
  assert (T : truthy (VList o sections) = true) by (destruct sections; [ destruct N | ]; auto).
  rewrite T. cbn [negb orb is_list py_iter bind].
  assert (G : forall n, exists n',
               foldM (parse_section h (VList o sections)) (seed, n) sections = Ok (seed, n')).
  { generalize (VList o sections) as data. clear N T.
    induction sections as [| s sections IH]; intros data n; simpl in *.
    - eauto.
    - apply andb_true_iff in U. destruct U as [Us U].
      destruct (parse_section_unknown h data seed n s Us) as (n' & ->). simpl.
      apply IH, U. }
  destruct (G O) as (n' & ->). reflexivity.
Qed.

Lemma parse_full_ignores_unknown_sections_witness :
  forallb unknown_section stray_sections = true
  /\ parse_full silent_host (arr stray_sections) = Ok (VDict Local bare_model).
Proof.
  split; [ reflexivity | ].
  apply (parse_full_ignores_unknown_sections silent_host Caller stray_sections);
    [ discriminate | reflexivity ].
Defined.

(** ** The system record *)

Lemma foldM_app {A B : Type} (f : A -> B -> res A) (a : A) (l1 l2 : list B) :
  foldM f a (l1 ++ l2)%list = (a' <- foldM f a l1 ;; foldM f a' l2).
Proof.
  revert a. induction l1 as [| x l1 IH]; intros a; simpl; auto.
  destruct (f a x); simpl; auto.
Qed.

Lemma dhas_keys d k : dhas d k = existsb (fun k' => key_eqb k' k) (List.map fst d).
Proof. induction d as [| [k' v] d IH]; simpl; congruence. Qed.

Lemma keys_dset_present d k v : dhas d k = true -> List.map fst (dset d k v) = List.map fst d.
Proof.
  induction d as [| [k' v'] d IH]; simpl; [ discriminate | ].
  destruct (key_eqb k' k); simpl; auto. intros H. rewrite IH; auto.
Qed.

Lemma keys_copy cleaned src d dst :
  dhas d (KStr dst) = true -> List.map fst (copy cleaned src d dst) = List.map fst d.
Proof.
  intros H. unfold copy. destruct (dfind cleaned src); auto using keys_dset_present.
Qed.

Lemma keys_copy_str cleaned src d dst :
  dhas d (KStr dst) = true -> List.map fst (copy_str cleaned src d dst) = List.map fst d.
Proof.
  intros H. unfold copy_str. destruct (dfind cleaned src); auto using keys_dset_present.
Qed.

Lemma dhas_dset_cases d k v k' : dhas (dset d k v) k' = dhas d k' || key_eqb k k'.
Proof.
  induction d as [| [a b] d IH]; simpl.
  - apply orb_false_r.
  - destruct (key_eqb a k) eqn:Ea; simpl.
    + destruct (key_eqb a k') eqn:Ea'; simpl; auto.
      destruct (key_eqb k k') eqn:Ek; [ | rewrite orb_false_r; reflexivity ].
      rewrite (key_eqb_trans _ _ _ Ea Ek) in Ea'. discriminate.
    + rewrite IH. apply orb_assoc.
Qed.

Lemma dhas_dupdate d e k : dhas (dupdate d e) k = dhas d k || dhas e k.
Proof.
  unfold dupdate. revert d. induction e as [| [a b] e IH]; intros d; simpl.
  - rewrite orb_false_r. reflexivity.
  - rewrite IH, dhas_dset_cases. rewrite orb_assoc. reflexivity.
Qed.

Lemma key_eqb_text (s : string) (k : key) : key_eqb (KStr s) k = true -> k = KStr s.
Proof.
  destruct k; simpl; try discriminate. intros H. apply String.eqb_eq in H. congruence.
Qed.

Lemma system_item_keys result item result' :
  system_item result item = Ok result' ->
  List.map fst result = List.map fst system_default ->
  List.map fst result' = List.map fst system_default.
Proof.
  unfold system_item. intros H K. inv_bind H. injection H as <-.
  assert (P : forall d (k : string),
             List.map fst d = List.map fst system_default ->
             In k (List.map (fun kv => match fst kv with KStr s => s | _ => "" end)
                            system_default) ->
             dhas d k = true).
  { intros d k Kd I. rewrite dhas_keys, Kd.
    simpl in I. repeat (destruct I as [<- | I]; [ reflexivity | ]). destruct I. }
  repeat first
    [ rewrite keys_copy
    | rewrite keys_copy_str
    | match goal with |- context [if ?c then _ else _] => destruct c end
    | exact K
    | apply P; [ | simpl; tauto ] ].
Qed.

Lemma extra_info_keys h n k :
  dhas (collect_extra_system_info h n) k = true -> exists s, k = KStr s /\ In s extra_keys.
Proof.
  unfold collect_extra_system_info.
  destruct (uptime (extra_info h n)), (hostname (extra_info h n)),
    (install_date (extra_info h n)); cbn [app opt_entry dhas]; intros H.
  all: repeat match type of H with
           | (key_eqb (KStr ?s) ?x || _) = true =>
               apply orb_true_iff in H; destruct H as [H | H];
               [ apply key_eqb_text in H; subst;
                 eexists; split; [ reflexivity | simpl; tauto ] | ]
           end.
  all: discriminate.
Qed.

Lemma parse_system_section_keys h n items sys :
  parse_system_section h n items = Ok (VDict Local sys) ->
  forall k, dhas sys k = true -> exists s, k = KStr s /\ In s system_keys.
Proof.
  unfold parse_system_section. intros H k D. do 2 inv_bind H. injection H as <-.
  assert (K : List.map fst a0 = List.map fst system_default).
  { revert Ha0.
    apply (foldM_invariant system_item
             (fun d => List.map fst d = List.map fst system_default)); auto.
    intros d x d' I F. eapply system_item_keys; eauto. }
  rewrite dhas_dupdate in D. apply orb_true_iff in D. destruct D as [D | D].
  - rewrite dhas_keys, K in D. unfold system_default in D.
    cbn [List.map fst existsb] in D.
    repeat match type of D with
           | (key_eqb (KStr ?s) ?x || _) = true =>
               apply orb_true_iff in D; destruct D as [D | D];
               [ apply key_eqb_text in D; subst;
                 eexists; split; [ reflexivity | simpl; tauto ] | ]
           end. discriminate.
  - destruct (extra_info_keys _ _ _ D) as (s & -> & I). exists s. split; auto.
    unfold system_keys. apply in_or_app. auto.
Qed.

(** X4.  A System section replaces the system record: when the last
    section of a document is a System section, the [system] category is
    exactly the record the System parser builds for it, whose keys are the
    thirteen inxi fields and the host extras; nothing an earlier Info
    section merged into the record survives. *)
Theorem system_section_replaces_record :
  forall (h : host) (o o' : owner) (pre : list value) (k : string) (v r : value),
    Str.contains "System" (clean_key k) = true ->
    any_in before_system (clean_key k) = false ->
    parse_full h (VList o (pre ++ [ VDict o' [ (KStr k, v) ] ])) = Ok r ->
    exists kvs n sys,
      r = VDict Local kvs
      /\ parse_system_section h n v = Ok (VDict Local sys)
      /\ dfind kvs "system" = Some (VDict Local sys)
      /\ forall key, dhas sys key = true -> exists s, key = KStr s /\ In s system_keys.
Proof.
  intros h o o' pre k v r S B H. unfold parse_full in H.
  assert (T : truthy (VList o (pre ++ [ VDict o' [ (KStr k, v) ] ])) = true)
    by (destruct pre; reflexivity).
  rewrite T in H. cbn [negb orb is_list py_iter bind] in H.
  rewrite foldM_app in H.
  apply bind_ok in H. destruct H as (st & Fold & H).
  apply bind_ok in Fold. destruct Fold as ([result n] & Pre & Last).
  cbn [foldM] in Last. apply bind_ok in Last. destruct Last as (st' & Sec & Last).
  injection Last as <-.
  unfold parse_section in Sec. cbn [py_items bind foldM] in Sec.
  apply bind_ok in Sec. destruct Sec as (st'' & Entry & Sec). injection Sec as <-.
  unfold parse_entry in Entry. cbn [fst snd clean_key_of bind] in Entry.
  apply bind_ok in Entry. destruct Entry as (result' & D & Entry). injection Entry as <-.
  unfold any_in, before_system in B. cbn [existsb] in B.
  repeat (apply orb_false_iff in B; destruct B as [?C B]).
  unfold dispatch in D. rewrite C, C0, C1, C2, C3, C4, S in D.
  unfold store in D. apply bind_ok in D. destruct D as (rec & Sys & D). injection D as <-.
  destruct (parse_system_section_dict h n v _ Sys) as (sys & ->).
  apply bind_ok in H. destruct H as (pci & _ & H). injection H as <-.
  exists (dset (dset result "system" (VDict Local sys)) "pci_inxi" pci), n, sys.
  repeat split; auto.
  - cbn [fst]. dict_simpl. reflexivity.
  - apply (parse_system_section_keys _ _ _ _ Sys).
Qed.

Lemma system_section_replaces_record_witness :
  exists kvs sys,
    parse_full silent_host (arr info_then_system) = Ok (VDict Local kvs)
    /\ dfind kvs "system" = Some (VDict Local sys)
    /\ dfind sys "host" = Some (VStr "box")
    /\ dhas sys "processes" = false.
Proof.
  destruct (system_section_replaces_record silent_host Caller Caller
              [ obj [ "000#1#0#Info" ~>
                        arr [ obj [ "001#1#1#Processes" ~> VInt 312;
                                    "002#1#1#uptime" ~> VStr "2h" ] ] ] ]
              "100#1#0#System"
              (arr [ obj [ "101#1#1#Host" ~> VStr "box"; "102#1#1#Kernel" ~> VStr "6.9" ] ])
              _ eq_refl eq_refl eq_refl)
    as (kvs & n & sys & E1 & E2 & E3 & _).
  injection E1 as <-. vm_compute in E3. injection E3 as <-.
  do 2 eexists. split; [ reflexivity | ]. repeat split; reflexivity.
Defined.

(** ** The unified PCI list: order and shape *)

Lemma Qltb_lt q r : Qltb q r = true <-> (q < r)%Q.
Proof.
  unfold Qltb. rewrite andb_true_iff, negb_true_iff, Qle_bool_iff. split.
  - intros [L N]. apply Qle_lteq in L. destruct L as [L | L]; auto.
    apply Qeq_bool_iff in L. congruence.
  - intros L. split; [ apply Qlt_le_weak, L | ].
    destruct (Qeq_bool q r) eqn:E; auto. apply Qeq_bool_iff in E.
    rewrite E in L. destruct (Qlt_irrefl _ L).
Qed.

Lemma Qltb_ge q r : Qltb q r = false <-> (r <= q)%Q.
Proof.
  split.
  - intros H. apply Qnot_lt_le. intros L. apply Qltb_lt in L. congruence.
  - intros H. destruct (Qltb q r) eqn:E; auto. apply Qltb_lt in E.
    destruct (Qlt_not_le _ _ E H).
Qed.

Lemma key_lt_num a b qa qb :
  key_num a = Some qa -> key_num b = Some qb -> key_lt a b = Ok (Qltb qa qb).
Proof.
  destruct a, b; simpl; try discriminate; intros A B;
    injection A as <-; injection B as <-; try reflexivity.
  f_equal. destruct (z <? z0)%Z eqn:L.
  - symmetry. apply Qltb_lt. rewrite <- Zlt_Qlt. apply Z.ltb_lt, L.
  - symmetry. apply Qltb_ge. rewrite <- Zle_Qle. apply Z.ltb_ge, L.
Qed.

Lemma key_lt_cases a b r :
  key_lt a b = Ok r ->
  (exists x y, a = KStr x /\ b = KStr y /\ r = String.ltb x y)
  \/ (exists qa qb, key_num a = Some qa /\ key_num b = Some qb /\ r = Qltb qa qb).
Proof.
  destruct a, b; simpl; try discriminate; intros H; injection H as <-;
    try (left; do 2 eexists; repeat split; reflexivity);
    right; do 2 eexists; repeat split; try reflexivity.
  destruct (z <? z0)%Z eqn:L.
  - symmetry. apply Qltb_lt. rewrite <- Zlt_Qlt. apply Z.ltb_lt, L.
  - symmetry. apply Qltb_ge. rewrite <- Zle_Qle. apply Z.ltb_ge, L.
Qed.

Lemma ascii_compare_lt a b : Ascii.compare a b = Lt <-> (N_of_ascii a < N_of_ascii b)%N.
Proof. unfold Ascii.compare. apply N.compare_lt_iff. Qed.

Lemma ascii_compare_eq a b : Ascii.compare a b = Eq <-> a = b.
Proof.
  split; [ apply Ascii.compare_eq_iff | ].
  intros ->. unfold Ascii.compare. apply N.compare_refl.
Qed.

Lemma string_lt_trans a b c :
  String.compare a b = Lt -> String.compare b c = Lt -> String.compare a c = Lt.
Proof.
  revert b c. induction a as [| x a IH]; intros [| y b] [| z c]; simpl; try discriminate; auto.
  destruct (Ascii.compare x y) eqn:XY; try discriminate;
    destruct (Ascii.compare y z) eqn:YZ; try discriminate; intros H1 H2.
  - apply ascii_compare_eq in XY, YZ. subst. rewrite (proj2 (ascii_compare_eq z z) eq_refl).
    eauto.
  - apply ascii_compare_eq in XY. subst. rewrite YZ. reflexivity.
  - apply ascii_compare_eq in YZ. subst. rewrite XY. reflexivity.
  - apply ascii_compare_lt in XY, YZ.
    rewrite (proj2 (ascii_compare_lt x z) (N.lt_trans _ _ _ XY YZ)). reflexivity.
Qed.

Lemma string_ltb_asym a b : String.ltb a b = true -> String.ltb b a = false.
Proof.
  unfold String.ltb. rewrite (String.compare_antisym b a).
  destruct (String.compare a b); simpl; auto; discriminate.
Qed.

Lemma string_ltb_trans a b c :
  String.ltb b a = false -> String.ltb c b = false -> String.ltb c a = false.
Proof.
  unfold String.ltb. intros H1 H2.
  destruct (String.compare c a) eqn:CA; auto.
  destruct (String.compare b a) eqn:BA; try discriminate.
  - apply String.compare_eq_iff in BA. subst. rewrite CA in H2. discriminate.
  - destruct (String.compare c b) eqn:CB; try discriminate.
    + apply String.compare_eq_iff in CB. subst. congruence.
    + assert (AB : String.compare a b = Lt)
        by (rewrite String.compare_antisym, BA; reflexivity).
      assert (BC : String.compare b c = Lt)
        by (rewrite String.compare_antisym, CB; reflexivity).
      pose proof (string_lt_trans _ _ _ AB BC) as AC.
      rewrite String.compare_antisym, CA in AC. discriminate.
Qed.

Lemma key_lt_asym a b : key_lt a b = Ok true -> key_lt b a = Ok false.
Proof.
  intros H. destruct (key_lt_cases _ _ _ H) as [(x & y & -> & -> & L) | (qa & qb & A & B & L)].
  - simpl. f_equal. apply string_ltb_asym. auto.
  - rewrite (key_lt_num _ _ _ _ B A). f_equal. apply Qltb_ge.
    apply Qlt_le_weak, Qltb_lt. auto.
Qed.

Lemma key_lt_trans a b c :
  key_lt b a = Ok false -> key_lt c b = Ok false -> key_lt c a = Ok false.
Proof.
  intros H1 H2.
  destruct (key_lt_cases _ _ _ H1) as [(x & y & -> & -> & L1) | (qb & qa & B & A & L1)];
    destruct (key_lt_cases _ _ _ H2) as [(x' & y' & -> & E & L2) | (qc & qb' & C & B' & L2)].
  - injection E as <-. simpl. f_equal. eapply string_ltb_trans; eauto.
  - simpl in B'. discriminate.
  - subst b. simpl in B. discriminate.
  - rewrite B in B'. injection B' as <-.
    rewrite (key_lt_num _ _ _ _ C A). f_equal. apply Qltb_ge.
    symmetry in L1, L2. apply Qltb_ge in L1, L2. eapply Qle_trans; eauto.
Qed.

Lemma bus_lt_inv a b r :
  bus_lt a b = Ok r ->
  exists ka kb, bus_key a = Ok ka /\ bus_key b = Ok kb /\ key_lt ka kb = Ok r.
Proof.
  unfold bus_lt, bus_key. intros H. do 4 inv_bind H.
  exists a2, a3. rewrite Ha, Ha0. simpl. auto.
Qed.

Lemma bus_lt_keys a b ka kb :
  bus_key a = Ok ka -> bus_key b = Ok kb -> bus_lt a b = key_lt ka kb.
Proof.
  unfold bus_lt, bus_key. intros A B.
  destruct (py_get a "bus_id" E) as [x |]; [ | discriminate ].
  destruct (py_get b "bus_id" E) as [y |]; [ | discriminate ].
  simpl in *. rewrite A, B. reflexivity.
Qed.

Lemma bus_lt_asym a b : bus_lt a b = Ok true -> bus_lt b a = Ok false.
Proof.
  intros H. destruct (bus_lt_inv _ _ _ H) as (ka & kb & A & B & L).
  rewrite (bus_lt_keys _ _ _ _ B A). apply key_lt_asym, L.
Qed.

Lemma bus_lt_trans a b c :
  bus_lt b a = Ok false -> bus_lt c b = Ok false -> bus_lt c a = Ok false.
Proof.
  intros H1 H2.
  destruct (bus_lt_inv _ _ _ H1) as (kb & ka & B & A & L1).
  destruct (bus_lt_inv _ _ _ H2) as (kc & kb' & C & B' & L2).
  rewrite B in B'. injection B' as <-.
  rewrite (bus_lt_keys _ _ _ _ C A). eapply key_lt_trans; eauto.
Qed.

Lemma insertM_sorted {A : Type} (lt : A -> A -> res bool) (x : A) (l l' : list A) :
  (forall a b, lt a b = Ok true -> lt b a = Ok false) ->
  (forall a b c, lt b a = Ok false -> lt c b = Ok false -> lt c a = Ok false) ->
  sorted_by (fun a b => lt b a = Ok false) l ->
  insertM lt x l = Ok l' ->
  sorted_by (fun a b => lt b a = Ok false) l'.
Proof.
  intros Asym Trans. revert l'. induction l as [| y l IH]; simpl; intros l' S H.
  - injection H as <-. simpl. auto.
  - destruct S as [Fy S]. inv_bind H. destruct a.
    + injection H as <-. simpl. repeat split; auto.
      constructor; [ apply Asym, Ha | ].
      eapply Forall_impl; [ | exact Fy ]. intros z Hz. simpl in Hz.
      eapply Trans; [ apply Asym, Ha | exact Hz ].
    + inv_bind H. injection H as <-. simpl. split; [ | eapply IH; eauto ].
      apply insertM_perm in Ha0.
      eapply Permutation_Forall; [ exact Ha0 | ]. constructor; auto.
Qed.

Lemma sortM_sorted {A : Type} (lt : A -> A -> res bool) (l l' : list A) :
  (forall a b, lt a b = Ok true -> lt b a = Ok false) ->
  (forall a b c, lt b a = Ok false -> lt c b = Ok false -> lt c a = Ok false) ->
  sortM lt l = Ok l' ->
  sorted_by (fun a b => lt b a = Ok false) l'.
Proof.
  intros Asym Trans. unfold sortM.
  apply (foldM_invariant (fun acc x => insertM lt x acc)
           (sorted_by (fun a b => lt b a = Ok false))).
  - intros acc x acc' S H. eapply insertM_sorted; eauto.
  - exact I.
Qed.

Lemma pci_entry_shape device bus c cat e :
  pci_entry device bus c cat = Ok e ->
  exists kvs, e = VDict Local kvs /\ List.map fst kvs = pci_keys
              /\ dfind kvs "bus_id" = Some bus
              /\ dfind kvs "category" = Some (VStr cat).
Proof.
  unfold pci_entry. intros H. do 8 inv_bind H. injection H as <-.
  eexists. repeat split; reflexivity.
Qed.

Lemma pci_gpu_entries st device st' :
  Forall pci_entry_ok (fst st) -> pci_gpu st device = Ok st' ->
  Forall pci_entry_ok (fst st').
Proof.
  unfold pci_gpu. intros F H. inv_bind H. destruct (truthy a) eqn:T.
  - apply pci_accept_cases in H.
    destruct H as [[-> _] | (k & e & _ & _ & En & ->)]; auto.
    simpl. apply Forall_app. split; auto. constructor; auto.
    destruct (pci_entry_shape _ _ _ _ _ En) as (kvs & -> & K & B & C).
    exists kvs, a, "Graphics". repeat split; auto; try (simpl; tauto);
      intros N; destruct N; reflexivity.
  - injection H as <-. exact F.
Qed.

Lemma pci_filtered_entries c cat st device st' :
  In cat pci_categories ->
  Forall pci_entry_ok (fst st) -> pci_filtered c cat st device = Ok st' ->
  Forall pci_entry_ok (fst st').
Proof.
  unfold pci_filtered. intros Hc F H. inv_bind H.
  destruct (truthy a) eqn:T; [ | injection H as <-; exact F ].
  inv_bind H. destruct a0; [ | injection H as <-; exact F ].
  inv_bind H. destruct a0; [ injection H as <-; exact F | ].
  cbn [negb] in H. apply pci_accept_cases in H.
  destruct H as [[-> _] | (k & e & _ & _ & En & ->)]; auto.
  simpl. apply Forall_app. split; auto. constructor; auto.
  destruct (pci_entry_shape _ _ _ _ _ En) as (kvs & -> & K & B & C).
  exists kvs, a, cat. repeat split; auto.
Qed.

(** X5.  The unified PCI list is well-shaped and ordered: every entry has
    the ten keys, a non-empty bus address and one of the categories
    Graphics, Audio, Network; an Audio or Network entry has a bus address
    with a [:] and without a [-] (USB devices are left out); and the list is
    sorted by bus address, no entry comparing greater than a later one. *)
Theorem pci_devices_sorted_and_shaped :
  forall (parsed : entries) (r : value),
    extract_pci_devices parsed = Ok r ->
    exists devices,
      r = VDict Local [ "devices" ~> VList Local devices;
                        "count" ~> VInt (Z.of_nat (List.length devices)) ]
      /\ Forall pci_entry_ok devices
      /\ sorted_by bus_not_after devices.
Proof.
  intros parsed r H. unfold extract_pci_devices in H. do 2 inv_bind H. injection H as <-.
  exists a0. split; [ reflexivity | ]. split.
  - apply sortM_perm in Ha0. eapply Permutation_Forall; [ exact Ha0 | ].
    unfold pci_scan in Ha. do 3 inv_bind Ha. do 3 inv_bind Ha. do 2 inv_bind Ha.
    revert Ha.
    apply (foldM_invariant (pci_filtered "0200" "Network")
             (fun st => Forall pci_entry_ok (fst st)));
      [ intros; eapply pci_filtered_entries; eauto; simpl; tauto | ].
    revert Ha6.
    apply (foldM_invariant (pci_filtered "0403" "Audio")
             (fun st => Forall pci_entry_ok (fst st)));
      [ intros; eapply pci_filtered_entries; eauto; simpl; tauto | ].
    revert Ha3.
    apply (foldM_invariant pci_gpu (fun st => Forall pci_entry_ok (fst st)));
      [ intros; eapply pci_gpu_entries; eauto | constructor ].
  - apply (sortM_sorted bus_lt _ _ bus_lt_asym bus_lt_trans Ha0).
Qed.

Lemma pci_devices_sorted_and_shaped_witness :
  exists devices,
    extract_pci_devices shared_bus_model
    = Ok (VDict Local [ "devices" ~> VList Local devices;
                        "count" ~> VInt (Z.of_nat (List.length devices)) ])
    /\ Forall pci_entry_ok devices /\ sorted_by bus_not_after devices.
Proof.
  destruct (pci_devices_sorted_and_shaped shared_bus_model _ eq_refl)
    as (devices & E' & F & S).
  exists devices. rewrite <- E'. auto.
Defined.

(** ** Audio devices *)

Lemma device_type_family (device_type : string) (device cleaned : entries) :
  let t := if String.eqb device_type "" then "PCI" else device_type in
  dfind device "type" = Some (VStr t) ->
  forallb (fun k : string => negb (dhas device k)) (usb_attributes ++ pcie_attributes) = true ->
  bus_family (VDict Local (bus_attributes device cleaned (String.eqb device_type "USB"))).
Proof.
  intros t Ty Fresh. exists (bus_attributes device cleaned (String.eqb device_type "USB")), t.
  assert (U : String.eqb t "USB" = String.eqb device_type "USB").
  { unfold t. destruct (String.eqb device_type "") eqn:Em; auto.
    apply String.eqb_eq in Em. subst. reflexivity. }
  assert (N : t <> "").
  { unfold t. destruct (String.eqb device_type "") eqn:Em; [ discriminate | ].
    apply String.eqb_neq, Em. }
  cbn [forallb app usb_attributes pcie_attributes] in Fresh.
  repeat (apply andb_true_iff in Fresh; destruct Fresh as [?F Fresh]).
  apply negb_true_iff in F, F0, F1, F2, F3.
  split; [ reflexivity | ]. rewrite U. unfold bus_attributes.
  destruct (String.eqb device_type "USB"); (split; [ | split; [ exact N | ] ]).
  - rewrite !dfind_dset_other by reflexivity. exact Ty.
  - cbn [forallb usb_attributes pcie_attributes].
    rewrite !dhas_dset_cases, ?F, ?F0, ?F1, ?F2, ?F3. split; reflexivity.
  - rewrite !dfind_dset_other by reflexivity. exact Ty.
  - cbn [forallb usb_attributes pcie_attributes].
    rewrite !dhas_dset_cases, ?F, ?F0, ?F1, ?F2, ?F3. split; reflexivity.
Qed.

Lemma bus_attributes_name device cleaned is_usb :
  dfind (bus_attributes device cleaned is_usb) "name" = dfind device "name".
Proof.
  unfold bus_attributes. destruct is_usb; rewrite !dfind_dset_other by reflexivity; reflexivity.
Qed.

Lemma Forall2_snoc {A B : Type} (R : A -> B -> Prop) l l' x y :
  Forall2 R l l' -> R x y -> Forall2 R (l ++ [x])%list (l' ++ [y])%list.
Proof. intros H K. apply Forall2_app; auto. Qed.

Lemma upper_empty t : String.eqb (Str.upper t) "" = String.eqb t "".
Proof. destruct t; reflexivity. Qed.

Lemma bus_attributes_type device cleaned is_usb :
  dfind (bus_attributes device cleaned is_usb) "type" = dfind device "type".
Proof.
  unfold bus_attributes. destruct is_usb; rewrite !dfind_dset_other by reflexivity; reflexivity.
Qed.

Lemma py_upper_text v s : py_upper v = Ok s -> exists t, v = VStr t /\ s = Str.upper t.
Proof. destruct v; try discriminate. intros H. injection H as <-. eauto. Qed.

Lemma audio_item_entries pre x result result' :
  (exists ds, dfind result "devices" = Some (VList Local ds)
              /\ Forall2 from_device (carrying "Device" pre) ds) ->
  audio_item result x = Ok result' ->
  exists ds, dfind result' "devices" = Some (VList Local ds)
             /\ Forall2 from_device (carrying "Device" (pre ++ [x])) ds.
Proof.
  intros (ds & D & F) H. unfold audio_item in H. inv_bind H. rename a into cleaned.
  rewrite carrying_snoc, (cleaned_of_ok _ _ Ha).
  destruct (dhas cleaned "Device").
  - inv_bind H. rename a into device_type. apply append_in_inv in H.
    destruct H as (xs & D' & ->). rewrite D in D'. injection D' as <-.
    rewrite dfind_dset_same. eexists. split; [ reflexivity | ].
    apply Forall2_snoc; auto. split; [ | split ].
    + apply device_type_family; reflexivity.
    + unfold named_after. simpl. unfold dget. rewrite bus_attributes_name. reflexivity.
    + intros t Ty _. apply py_upper_text in Ha0. destruct Ha0 as (t' & Ty' & ->).
      rewrite Ty in Ty'. injection Ty' as <-.
      simpl. unfold dget. rewrite bus_attributes_type. cbn [dfind key_eqb].
      dict_simpl. rewrite upper_empty. reflexivity.
  - injection H as <-. rewrite app_nil_r. eauto.
Qed.

(** X6.  The Audio parser lists one device per item that carries [Device],
    in the items' order and under the item's name.  The type of an entry is
    ["PCI"] when the item gives none and the item's type in upper case
    otherwise (for ASCII text); and every entry has exactly one of the two
    families of bus attributes: [usb_speed] and [usb_rev] when its type is
    ["USB"], [pcie_gen], [pcie_speed] and [pcie_lanes] otherwise. *)
Theorem audio_devices_one_family :
  forall (items : value) (its : list value) (r : value),
    py_iter items = Ok its ->
    parse_audio_section items = Ok r ->
    exists kvs ds,
      r = VDict Local kvs
      /\ dfind kvs "devices" = Some (VList Local ds)
      /\ Forall2 from_device (carrying "Device" its) ds.
Proof.
  intros items its r I H. unfold parse_audio_section in H. rewrite I in H.
  cbn [bind] in H. inv_bind H. injection H as <-.
  assert (G : exists ds, dfind a "devices" = Some (VList Local ds)
                         /\ Forall2 from_device (carrying "Device" ([] ++ its)) ds).
  { revert Ha.
    apply (foldM_prefix audio_item
             (fun pre result =>
                exists ds, dfind result "devices" = Some (VList Local ds)
                           /\ Forall2 from_device (carrying "Device" pre) ds)).
    - intros pre x d d' P F. eapply audio_item_entries; eauto.
    - exists []. repeat split; constructor. }
  destruct G as (ds & D & F). exists a, ds. auto.
Qed.

Lemma audio_devices_one_family_witness :
  exists kvs a b,
    parse_audio_section two_cards = Ok (VDict Local kvs)
    /\ dfind kvs "devices" = Some (VList Local [ VDict Local a; VDict Local b ])
    /\ dfind a "type" = Some (VStr "PCI") /\ dfind b "type" = Some (VStr "USB")
    /\ bus_family (VDict Local a) /\ bus_family (VDict Local b).
Proof.
  destruct (audio_devices_one_family two_cards _ _ eq_refl eq_refl)
    as (kvs & ds & E1 & D & F).
  injection E1 as <-. vm_compute in D. injection D as <-.
  do 3 eexists. split; [ reflexivity | ]. split; [ reflexivity | ].
  split; [ reflexivity | ]. split; [ reflexivity | ].
  inversion F as [| c1 e1 l1 l1' (B1 & _) F1 ]; subst.
  inversion F1 as [| c2 e2 l2 l2' (B2 & _) F2 ]; subst.
  split; [ exact B1 | exact B2 ].
Defined.

(** ** Addresses *)

Lemma dset_same d k v : dfind d k = Some v -> dset d k v = d.
Proof.
  induction d as [| [k' v'] d IH]; simpl; [ discriminate | ].
  destruct (key_eqb k' k); intros H; [ congruence | rewrite IH; auto ].
Qed.

Lemma ip_filled_refl e : ip_filled e e.
Proof. left. reflexivity. Qed.

Ltac ip_frame :=
  repeat split; try reflexivity; intros; try congruence;
  rewrite ?dfind_dset_other by (assumption || reflexivity); reflexivity.

Lemma ip_device_filled m d d' : ip_device m d = Ok d' -> ip_filled d d'.
Proof.
  unfold ip_device. intros H. do 2 inv_bind H.
  destruct (truthy a0); [ | injection H as <-; apply ip_filled_refl ].
  inv_bind H. destruct (ip_lookup m a1) as [[ipv4 ipv6] |];
    [ | injection H as <-; apply ip_filled_refl ].
  destruct d as [| | | | | |o kvs]; try discriminate. cbn [py_get bind] in H.
  destruct (truthy (dget kvs "ip" VNone)) eqn:T4; cbn [negb bind py_get] in H.
  - destruct (truthy (dget kvs "ipv6" VNone)) eqn:T6; cbn [negb] in H.
    + injection H as <-. apply ip_filled_refl.
    + destruct o; try discriminate. injection H as <-. right.
      exists kvs, (dset kvs "ipv6" ipv6). ip_frame.
  - destruct o; try discriminate. cbn [bind py_get py_setitem] in H.
    rewrite dget_dset_other in H by reflexivity.
    destruct (truthy (dget kvs "ipv6" VNone)) eqn:T6; cbn [negb py_setitem] in H;
      injection H as <-; right.
    + exists kvs, (dset kvs "ip" ipv4). ip_frame.
    + exists kvs, (dset (dset kvs "ip" ipv4) "ipv6" ipv6). ip_frame.
Qed.

Lemma Forall2_refl {A : Type} (R : A -> A -> Prop) (l : list A) :
  (forall x, R x x) -> Forall2 R l l.
Proof. intros H. induction l; constructor; auto. Qed.

Lemma ip_loop_filled m xs xs' : ip_loop m xs = Ok xs' -> Forall2 ip_filled xs xs'.
Proof.
  revert xs'. induction xs as [| d xs IH]; simpl; intros xs' H.
  - injection H as <-. constructor.
  - destruct (ip_device m d) as [d' | e] eqn:D.
    + inv_bind H. injection H as <-. constructor; auto. eapply ip_device_filled; eauto.
    + destruct e; try discriminate; injection H as <-;
        apply Forall2_refl, ip_filled_refl.
Qed.

Lemma ip_device_again m d d' : ip_device m d = Ok d' -> ip_device m d' = Ok d'.
Proof.
  unfold ip_device. intros H.
  destruct d as [| | | | | |o kvs]; try discriminate. cbn [py_get bind] in H.
  destruct (truthy (dget kvs "IF" (dget kvs "name" E))) eqn:TI;
    [ | injection H as <-; cbn [py_get bind]; rewrite TI; reflexivity ].
  destruct (hash_key (dget kvs "IF" (dget kvs "name" E))) as [k |] eqn:HK;
    [ | discriminate ].
  cbn [bind] in H. destruct (ip_lookup m k) as [[ipv4 ipv6] |] eqn:L;
    [ | injection H as <-; cbn [py_get bind]; rewrite TI, HK; cbn [bind]; rewrite L;
        reflexivity ].
  assert (Same : forall kvs',
             (forall k', key_eqb "ip" k' = false -> key_eqb "ipv6" k' = false ->
                         dfind kvs' k' = dfind kvs k') ->
             dget kvs' "IF" (dget kvs' "name" E) = dget kvs "IF" (dget kvs "name" E)).
  { intros kvs' Fr. unfold dget. rewrite !Fr by reflexivity. reflexivity. }
  destruct (truthy (dget kvs "ip" VNone)) eqn:T4; cbn [negb bind py_get] in H.
  - destruct (truthy (dget kvs "ipv6" VNone)) eqn:T6; cbn [negb] in H.
    + injection H as <-. cbn [py_get bind]. rewrite TI, HK. cbn [bind]. rewrite L.
      cbn [py_get bind]. rewrite T4. cbn [negb bind py_get]. rewrite T6. reflexivity.
    + destruct o; try discriminate. injection H as <-. cbn [py_get bind].
      rewrite (Same (dset kvs "ipv6" ipv6))
        by (intros; apply dfind_dset_other; assumption).
      rewrite TI, HK. cbn [bind]. rewrite L. cbn [py_get bind].
      rewrite dget_dset_other by reflexivity. rewrite T4. cbn [negb bind py_get].
      destruct (truthy (dget (dset kvs "ipv6" ipv6) "ipv6" VNone)); cbn [negb py_setitem];
        [ reflexivity | ].
      rewrite (dset_same (dset kvs "ipv6" ipv6)) by apply dfind_dset_same. reflexivity.
  - destruct o; try discriminate. cbn [bind py_get py_setitem] in H.
    rewrite dget_dset_other in H by reflexivity.
    destruct (truthy (dget kvs "ipv6" VNone)) eqn:T6; cbn [negb py_setitem] in H;
      injection H as <-; cbn [py_get bind].
    + rewrite (Same (dset kvs "ip" ipv4))
        by (intros; apply dfind_dset_other; assumption).
      rewrite TI, HK. cbn [bind]. rewrite L. cbn [py_get bind].
      assert (A : (if negb (truthy (dget (dset kvs "ip" ipv4) "ip" VNone))
                   then py_setitem (VDict Local (dset kvs "ip" ipv4)) "ip" ipv4
                   else Ok (VDict Local (dset kvs "ip" ipv4)))
                  = Ok (VDict Local (dset kvs "ip" ipv4))).
      { destruct (truthy (dget (dset kvs "ip" ipv4) "ip" VNone)); cbn [negb py_setitem]; auto.
        rewrite (dset_same (dset kvs "ip" ipv4)) by apply dfind_dset_same. reflexivity. }
      rewrite A. cbn [bind py_get]. rewrite dget_dset_other by reflexivity.
      rewrite T6. reflexivity.
    + set (kvs2 := dset (dset kvs "ip" ipv4) "ipv6" ipv6).
      rewrite (Same kvs2)
        by (intros; unfold kvs2; rewrite !dfind_dset_other; auto).
      rewrite TI, HK. cbn [bind]. rewrite L. cbn [py_get bind].
      assert (F4 : dfind kvs2 "ip" = Some ipv4)
        by (unfold kvs2; rewrite dfind_dset_other by reflexivity; apply dfind_dset_same).
      assert (F6 : dfind kvs2 "ipv6" = Some ipv6) by apply dfind_dset_same.
      assert (A : (if negb (truthy (dget kvs2 "ip" VNone))
                   then py_setitem (VDict Local kvs2) "ip" ipv4
                   else Ok (VDict Local kvs2))
                  = Ok (VDict Local kvs2)).
      { destruct (truthy (dget kvs2 "ip" VNone)); cbn [negb py_setitem]; auto.
        rewrite (dset_same kvs2) by exact F4. reflexivity. }
      rewrite A. cbn [bind py_get].
      destruct (truthy (dget kvs2 "ipv6" VNone)); cbn [negb py_setitem]; auto.
      rewrite (dset_same kvs2) by exact F6. reflexivity.
Qed.

Lemma ip_loop_again m xs xs' : ip_loop m xs = Ok xs' -> ip_loop m xs' = Ok xs'.
Proof.
  revert xs'. induction xs as [| d xs IH]; simpl; intros xs' H.
  - injection H as <-. reflexivity.
  - destruct (ip_device m d) as [d' | e] eqn:D.
    + inv_bind H. injection H as <-. simpl.
      rewrite (ip_device_again _ _ _ D), (IH _ Ha). reflexivity.
    + destruct e; try discriminate; injection H as <-; simpl; rewrite D; reflexivity.
Qed.

Lemma add_ip_addresses_filled m o xs devices' :
  add_ip_addresses m (VList o xs) = Ok devices' ->
  exists xs', devices' = VList o xs' /\ Forall2 ip_filled xs xs'.
Proof.
  unfold add_ip_addresses. destruct m as [m |]; intros H.
  - inv_bind H. injection H as <-. exists a. split; auto. apply (ip_loop_filled _ _ _ Ha).
  - injection H as <-. exists xs. split; auto. apply Forall2_refl, ip_filled_refl.
Qed.

(** X7.  [_add_ip_addresses] only fills gaps: the list keeps its length and
    its order; a device is left as it is or gets [ip] and [ipv6] written,
    every other field and every address already present being kept; when the
    [ip] command gives no table nothing changes; and a second pass over the
    result changes nothing more. *)
Theorem add_ip_addresses_fills_gaps :
  forall (m : option (list (key * (value * value)))) (devices devices' : value),
    add_ip_addresses m devices = Ok devices' ->
    (forall o xs, devices = VList o xs ->
                  exists xs', devices' = VList o xs' /\ Forall2 ip_filled xs xs')
    /\ (m = None -> devices' = devices)
    /\ add_ip_addresses m devices' = Ok devices'.
Proof.
  intros m devices devices' H. unfold add_ip_addresses in *.
  destruct m as [m |].
  - destruct devices as [| | | | |o xs|];
      try (injection H as <-; repeat split; solve [ intros; discriminate | reflexivity ]).
    inv_bind H. injection H as <-. repeat split.
    + intros o' xs' E'. injection E' as <- <-. exists a. split; auto.
      apply (ip_loop_filled _ _ _ Ha).
    + discriminate.
    + rewrite (ip_loop_again _ _ _ Ha). reflexivity.
  - injection H as <-. repeat split; auto.
    intros o xs ->. exists xs. split; auto. apply Forall2_refl, ip_filled_refl.
Qed.

Lemma add_ip_addresses_fills_gaps_witness :
  exists a b,
    add_ip_addresses (Some eth0_table) (VList Local two_interfaces)
    = Ok (VList Local [ VDict Local a; b ])
    /\ Forall2 ip_filled two_interfaces [ VDict Local a; b ]
    /\ dfind a "ip" = Some (VStr "192.168.1.9")
    /\ dfind a "ipv6" = Some (VStr "fe80::1")
    /\ b = VDict Local [ "name" ~> VStr "wlan0"; "ip" ~> E ].
Proof.
  destruct (add_ip_addresses_fills_gaps (Some eth0_table) (VList Local two_interfaces) _ eq_refl)
    as (F & _ & _).
  destruct (F Local two_interfaces eq_refl) as (xs' & E' & F2).
  injection E' as <-.
  do 2 eexists. split; [ reflexivity | ]. split; [ exact F2 | ]. repeat split; reflexivity.
Defined.

(** ** The Network record *)

Lemma bus_family_hardware e : bus_family e -> hardware e = true.
Proof.
  intros (kvs & t & -> & Ty & _). simpl. rewrite dhas_dfind, Ty. reflexivity.
Qed.

Lemma bus_family_frame kvs kvs' :
  (forall k : string, In k ("type" :: usb_attributes ++ pcie_attributes)%list ->
                      dfind kvs' k = dfind kvs k) ->
  bus_family (VDict Local kvs) -> bus_family (VDict Local kvs').
Proof.
  intros Fr (kvs0 & t & E0 & Ty & N & U & P). injection E0 as <-.
  exists kvs', t. split; [ reflexivity | ].
  split; [ rewrite Fr by (simpl; tauto); exact Ty | ]. split; [ exact N | ].
  cbn [forallb usb_attributes pcie_attributes] in *.
  rewrite !dhas_dfind in *. rewrite !Fr by (simpl; tauto). auto.
Qed.

Lemma bus_family_update dev interface_name cleaned :
  bus_family (VDict Local dev) ->
  bus_family
    (VDict Local
       (dupdate dev
          [ "IF" ~> interface_name; "state" ~> gets cleaned "state";
            "mac" ~> gets cleaned "mac"; "speed" ~> gets cleaned "speed";
            "duplex" ~> gets cleaned "duplex"; "ip" ~> gets cleaned "ip";
            "ipv6" ~> gets cleaned "ipv6" ])).
Proof.
  apply bus_family_frame. intros k Hk. unfold dupdate. cbn [fold_left fst snd].
  simpl in Hk.
  repeat (destruct Hk as [<- | Hk]; [ rewrite !dfind_dset_other by reflexivity; reflexivity | ]).
  destruct Hk.
Qed.

Lemma ip_filled_hardware e e' : ip_filled e e' -> hardware e' = hardware e.
Proof.
  intros [-> | (kvs & kvs' & -> & -> & Fr & _)]; auto.
  simpl. rewrite !dhas_dfind, Fr by reflexivity. reflexivity.
Qed.

Lemma ip_filled_family e e' : ip_filled e e' -> bus_family e -> bus_family e'.
Proof.
  intros [-> | (kvs & kvs' & -> & -> & Fr & _)]; auto.
  apply bus_family_frame. intros k Hk. simpl in Hk.
  repeat (destruct Hk as [<- | Hk]; [ apply Fr; reflexivity | ]). destruct Hk.
Qed.

Lemma ip_filled_bare b e e' : ip_filled e e' -> bare_interface b e -> bare_interface b e'.
Proof.
  intros F (kvs0 & s & E0 & I & Nm & V & H). pose proof (ip_filled_hardware _ _ F) as Hw.
  destruct F as [-> | (kvs & kvs' & -> & -> & Fr & _)].
  - exists kvs0, s. auto.
  - injection E0 as <-. exists kvs', s. split; [ reflexivity | ].
    rewrite !Fr by reflexivity. repeat split; auto. congruence.
Qed.

Lemma ip_filled_list (q : value -> Prop) xs xs' :
  (forall e e', ip_filled e e' -> q e -> q e') ->
  Forall2 ip_filled xs xs' -> Forall q xs -> Forall q xs'.
Proof.
  intros Q F. induction F as [| x y l l' R F IH]; intros G; inversion G; subst;
    constructor; eauto.
Qed.

Lemma ip_filled_count xs xs' :
  Forall2 ip_filled xs xs' ->
  List.length (filter hardware xs') = List.length (filter hardware xs).
Proof.
  intros F. induction F as [| x y l l' R F IH]; simpl; auto.
  rewrite (ip_filled_hardware _ _ R). destruct (hardware x); simpl; congruence.
Qed.

Lemma filter_snoc {A : Type} (p : A -> bool) (l : list A) (x : A) :
  List.length (filter p (l ++ [x])%list)
  = (List.length (filter p l) + (if p x then 1 else 0))%nat.
Proof.
  rewrite filter_app, length_app. simpl. destruct (p x); reflexivity.
Qed.

Lemma network_item_accounted pre x st st' :
  (exists ds vs,
      dfind (fst st) "devices" = Some (VList Local ds)
      /\ dfind (fst st) "virtual_devices" = Some (VList Local vs)
      /\ Forall listed_device ds /\ Forall (bare_interface true) vs
      /\ (forall dev, snd st = Some dev -> bus_family (VDict Local dev))
      /\ (List.length (filter hardware ds) + pending (snd st))%nat
         = List.length (carrying "Device" pre)) ->
  network_item st x = Ok st' ->
  exists ds vs,
    dfind (fst st') "devices" = Some (VList Local ds)
    /\ dfind (fst st') "virtual_devices" = Some (VList Local vs)
    /\ Forall listed_device ds /\ Forall (bare_interface true) vs
    /\ (forall dev, snd st' = Some dev -> bus_family (VDict Local dev))
    /\ (List.length (filter hardware ds) + pending (snd st'))%nat
       = List.length (carrying "Device" (pre ++ [x])).
Proof.
  intros (ds & vs & D & V & Fd & Fv & Cur & Cnt) H. destruct st as [result cur].
  cbn [fst snd] in *. unfold network_item in H. inv_bind H. rename a into cleaned.
  rewrite carrying_snoc, (cleaned_of_ok _ _ Ha), length_app.
  destruct (dhas cleaned "Device") eqn:Dev.
  - unfold network_device in H. inv_bind H. rename a into result1. inv_bind H.
    rename a into device_type. injection H as <-. cbn [fst snd List.length].
    assert (New : forall dev, Some (bus_attributes
                    [ "name" ~> gets cleaned "Device"; "vendor" ~> gets cleaned "vendor";
                      "driver" ~> gets cleaned "driver"; "bus_id" ~> gets cleaned "bus-ID";
                      "chip_id" ~> gets cleaned "chip-ID";
                      "class_id" ~> gets cleaned "class-ID";
                      "port" ~> gets cleaned "port"; "mac" ~> gets cleaned "mac";
                      "type" ~> VStr (if String.eqb device_type "" then "PCI"
                                      else device_type) ]
                    cleaned (String.eqb device_type "USB")) = Some dev ->
                  bus_family (VDict Local dev)).
    { intros dev E'. injection E' as <-. apply device_type_family; reflexivity. }
    destruct cur as [dev |].
    + apply append_in_inv in Ha0. destruct Ha0 as (xs & D' & ->).
      rewrite D in D'. injection D' as <-.
      exists (ds ++ [ VDict Local dev ])%list, vs. rewrite dfind_dset_same.
      rewrite dfind_dset_other by reflexivity.
      repeat split; auto.
      * apply Forall_app. split; auto. constructor; auto. left. apply Cur. reflexivity.
      * rewrite filter_snoc, (bus_family_hardware _ (Cur _ eq_refl)). cbn [pending] in *; lia.
    + injection Ha0 as <-. exists ds, vs. repeat split; auto. cbn [pending] in *; lia.
  - cbn [List.length]. rewrite Nat.add_0_r.
    destruct (dhas cleaned "IF" || dhas cleaned "IF-ID");
      [ | injection H as <-; exists ds, vs; repeat split; auto ].
    unfold network_interface in H. inv_bind H. rename a into low.
    destruct (dget cleaned "IF" (gets cleaned "IF-ID")) as [| | | |s| |] eqn:Name;
      try discriminate.
    injection Ha0 as <-.
    destruct cur as [dev |].
    + inv_bind H. injection H as <-. apply append_in_inv in Ha0.
      destruct Ha0 as (xs & D' & ->). rewrite D in D'. injection D' as <-.
      cbn [fst snd]. rewrite dfind_dset_same, dfind_dset_other by reflexivity.
      do 2 eexists. split; [ reflexivity | ]. split; [ exact V | ].
      pose proof (bus_family_update dev (VStr s) cleaned (Cur _ eq_refl)) as Fam.
      repeat split; auto; try discriminate.
      * apply Forall_app. split; auto. constructor; auto. left. exact Fam.
      * rewrite filter_snoc, (bus_family_hardware _ Fam). cbn [pending] in *; lia.
    + inv_bind H. injection H as <-. cbn [fst snd].
      assert (Bare : forall b, any_in virtual_keywords (Str.lower s) = b ->
                bare_interface b
                  (VDict Local
                     (dset [ "IF" ~> VStr s; "state" ~> gets cleaned "state";
                             "mac" ~> gets cleaned "mac"; "speed" ~> gets cleaned "speed";
                             "duplex" ~> gets cleaned "duplex"; "ip" ~> gets cleaned "ip";
                             "ipv6" ~> gets cleaned "ipv6" ] "name" (VStr s)))).
      { intros b Eb. do 2 eexists. split; [ reflexivity | ].
        repeat split; try reflexivity. exact Eb. }
      destruct (any_in virtual_keywords (Str.lower s)) eqn:Virt;
        apply append_in_inv in Ha0; destruct Ha0 as (xs & D' & ->).
      * rewrite V in D'. injection D' as <-.
        rewrite dfind_dset_same, dfind_dset_other by reflexivity.
        do 2 eexists. split; [ exact D | ]. split; [ reflexivity | ].
        repeat split; auto; try discriminate.
        apply Forall_app. split; auto.
      * rewrite D in D'. injection D' as <-.
        rewrite dfind_dset_same, dfind_dset_other by reflexivity.
        do 2 eexists. split; [ reflexivity | ]. split; [ exact V | ].
        repeat split; auto; try discriminate.
        -- apply Forall_app. split; auto. constructor; auto. right. auto.
        -- rewrite filter_snoc. simpl. cbn [pending] in *; lia.
Qed.

Lemma bus_attributes_other device cleaned is_usb (k : string) :
  forallb (fun a => negb (String.eqb a k)) (usb_attributes ++ pcie_attributes) = true ->
  dfind (bus_attributes device cleaned is_usb) k = dfind device k.
Proof.
  cbn [forallb app usb_attributes pcie_attributes]. intros F.
  repeat (apply andb_true_iff in F; destruct F as [?N F]).
  apply negb_true_iff in N, N0, N1, N2, N3.
  unfold bus_attributes.
  destruct is_usb; rewrite !dfind_dset_other by (cbn [key_eqb]; assumption); reflexivity.
Qed.

Lemma from_device_new cleaned device_type (device : entries) :
  py_upper (gets cleaned "type") = Ok device_type ->
  dfind device "name" = Some (gets cleaned "Device") ->
  dfind device "type"
  = Some (VStr (if String.eqb device_type "" then "PCI" else device_type)) ->
  forallb (fun k : string => negb (dhas device k)) (usb_attributes ++ pcie_attributes) = true ->
  from_device cleaned
    (VDict Local (bus_attributes device cleaned (String.eqb device_type "USB"))).
Proof.
  intros U Nm Ty Fresh. split; [ | split ].
  - apply device_type_family; auto.
  - unfold named_after. cbn [py_get]. unfold dget.
    rewrite bus_attributes_name, Nm. reflexivity.
  - intros t Tt _. apply py_upper_text in U. destruct U as (t' & Tt' & ->).
    rewrite Tt in Tt'. injection Tt' as <-.
    cbn [py_get]. unfold dget. rewrite bus_attributes_type, Ty, upper_empty. reflexivity.
Qed.

Lemma dfind_interface_info dev (interface_name : value) cleaned (k : string) :
  forallb (fun a => negb (String.eqb a k))
          ("IF" :: copied_fields ++ address_fields) = true ->
  dfind (dupdate dev
           [ "IF" ~> interface_name; "state" ~> gets cleaned "state";
             "mac" ~> gets cleaned "mac"; "speed" ~> gets cleaned "speed";
             "duplex" ~> gets cleaned "duplex"; "ip" ~> gets cleaned "ip";
             "ipv6" ~> gets cleaned "ipv6" ]) k
  = dfind dev k.
Proof.
  cbn [forallb app copied_fields address_fields]. intros F.
  repeat (apply andb_true_iff in F; destruct F as [?N F]).
  apply negb_true_iff in N, N0, N1, N2, N3, N4, N5.
  unfold dupdate. cbn [fold_left fst snd].
  rewrite !dfind_dset_other by (cbn [key_eqb]; assumption). reflexivity.
Qed.

Lemma from_device_update d dev (interface_name : value) cleaned :
  from_device d (VDict Local dev) ->
  from_device d
    (VDict Local
       (dupdate dev
          [ "IF" ~> interface_name; "state" ~> gets cleaned "state";
            "mac" ~> gets cleaned "mac"; "speed" ~> gets cleaned "speed";
            "duplex" ~> gets cleaned "duplex"; "ip" ~> gets cleaned "ip";
            "ipv6" ~> gets cleaned "ipv6" ])).
Proof.
  intros (B & Nm & Ty). split; [ | split ].
  - apply bus_family_update, B.
  - unfold named_after in *. cbn [py_get] in *. unfold dget in *.
    rewrite dfind_interface_info by reflexivity. exact Nm.
  - intros t Tt A. specialize (Ty t Tt A). cbn [py_get] in *. unfold dget in *.
    rewrite dfind_interface_info by reflexivity. exact Ty.
Qed.

Lemma from_interface_update dev cleaned :
  from_interface cleaned
    (VDict Local
       (dupdate dev
          [ "IF" ~> link_name cleaned; "state" ~> gets cleaned "state";
            "mac" ~> gets cleaned "mac"; "speed" ~> gets cleaned "speed";
            "duplex" ~> gets cleaned "duplex"; "ip" ~> gets cleaned "ip";
            "ipv6" ~> gets cleaned "ipv6" ])).
Proof.
  eexists. split; [ reflexivity | ]. unfold dupdate. cbn [fold_left fst snd].
  split; [ | split ]; repeat constructor; intros;
    rewrite ?dfind_dset_other by reflexivity; apply dfind_dset_same.
Qed.

Lemma from_device_filled d e e' : ip_filled e e' -> from_device d e -> from_device d e'.
Proof.
  intros F (B & Nm & Ty). split; [ eapply ip_filled_family; eauto | ].
  destruct F as [-> | (kvs & kvs' & -> & -> & Fr & _)]; [ split; assumption | ].
  unfold named_after in *. split.
  - cbn [py_get] in *. unfold dget in *. rewrite Fr by reflexivity. exact Nm.
  - intros t Tt A. specialize (Ty t Tt A). cbn [py_get] in *. unfold dget in *.
    rewrite Fr by reflexivity. exact Ty.
Qed.

Lemma from_interface_filled i e e' :
  ip_filled e e' -> from_interface i e -> from_interface i e'.
Proof.
  intros [-> | (kvs & kvs' & -> & -> & Fr & I4 & I6)] (kvs0 & E0 & If & C & A); [ exists kvs0; auto | ].
  injection E0 as <-. exists kvs'. split; [ reflexivity | ].
  split; [ rewrite Fr by reflexivity; exact If | ]. split.
  - unfold copied_fields in *.
    repeat match goal with
           | H : Forall _ (_ :: _) |- _ => inversion H; subst; clear H
           end.
    repeat constructor; rewrite Fr by reflexivity; assumption.
  - unfold address_fields in *.
    inversion A as [| ? ? A4 A']; subst. inversion A' as [| ? ? A6 _]; subst.
    repeat constructor; intros T.
    + specialize (A4 T). rewrite I4; [ exact A4 | ]. unfold dget. rewrite A4. exact T.
    + specialize (A6 T). rewrite I6; [ exact A6 | ]. unfold dget. rewrite A6. exact T.
Qed.

Lemma link_entry_filled l e e' : ip_filled e e' -> link_entry l e -> link_entry l e'.
Proof.
  intros F. destruct l as [d | d i | i]; cbn [link_entry].
  - intros (D & kvs & -> & U). split; [ eapply from_device_filled; eauto | ].
    destruct F as [-> | (kvs0 & kvs' & E0 & -> & Fr & _)]; [ exists kvs; auto | ].
    injection E0 as <-. exists kvs'. split; [ reflexivity | ].
    rewrite dhas_dfind in *. rewrite Fr by reflexivity. exact U.
  - intros (D & I). split; [ eapply from_device_filled | eapply from_interface_filled ]; eauto.
  - intros (I & Nm & H). split; [ eapply from_interface_filled; eauto | ].
    split; [ | rewrite (ip_filled_hardware _ _ F); exact H ].
    destruct F as [-> | (kvs0 & kvs' & -> & -> & Fr & _)]; [ exact Nm | ].
    cbn [py_get] in *. unfold dget in *. rewrite Fr by reflexivity. exact Nm.
Qed.

Lemma link_entries_filled ls xs xs' :
  Forall2 ip_filled xs xs' -> Forall2 link_entry ls xs -> Forall2 link_entry ls xs'.
Proof.
  intros F. revert ls. induction F as [| x y l l' R F IH]; intros ls G;
    inversion G; subst; constructor; eauto using link_entry_filled.
Qed.

Lemma filter_stays_snoc (ls : list link) (l : link) :
  filter (fun l => negb (goes_virtual l)) (ls ++ [ l ])
  = (filter (fun l => negb (goes_virtual l)) ls ++ (if goes_virtual l then [] else [ l ]))%list.
Proof. rewrite filter_app. simpl. destruct (goes_virtual l); reflexivity. Qed.

Lemma filter_virtual_snoc (ls : list link) (l : link) :
  filter goes_virtual (ls ++ [ l ])
  = (filter goes_virtual ls ++ (if goes_virtual l then [ l ] else []))%list.
Proof. rewrite filter_app. simpl. destruct (goes_virtual l); reflexivity. Qed.

Lemma network_item_links pre x st st' :
  links_inv pre st -> network_item st x = Ok st' -> links_inv (pre ++ [x]) st'.
Proof.
  unfold links_inv. rewrite map_app, fold_left_app. cbn [List.map fold_left].
  set (ls := fold_left link_step (List.map cleaned_of pre) ([], None)).
  intros (ds & vs & D & V & Fd & Fv & Cur) H. destruct st as [result cur].
  cbn [fst snd] in *. unfold network_item in H. inv_bind H. rename a into cleaned.
  rewrite (cleaned_of_ok _ _ Ha). unfold link_step.
  destruct (dhas cleaned "Device") eqn:Dev.
  - unfold network_device in H. inv_bind H. rename a into result1. inv_bind H.
    rename a into device_type. injection H as <-. cbn [fst snd].
    assert (New : from_device cleaned
                    (VDict Local
                       (bus_attributes
                          [ "name" ~> gets cleaned "Device"; "vendor" ~> gets cleaned "vendor";
                            "driver" ~> gets cleaned "driver"; "bus_id" ~> gets cleaned "bus-ID";
                            "chip_id" ~> gets cleaned "chip-ID";
                            "class_id" ~> gets cleaned "class-ID";
                            "port" ~> gets cleaned "port"; "mac" ~> gets cleaned "mac";
                            "type" ~> VStr (if String.eqb device_type "" then "PCI"
                                            else device_type) ]
                          cleaned (String.eqb device_type "USB")))
                  /\ dhas (bus_attributes
                          [ "name" ~> gets cleaned "Device"; "vendor" ~> gets cleaned "vendor";
                            "driver" ~> gets cleaned "driver"; "bus_id" ~> gets cleaned "bus-ID";
                            "chip_id" ~> gets cleaned "chip-ID";
                            "class_id" ~> gets cleaned "class-ID";
                            "port" ~> gets cleaned "port"; "mac" ~> gets cleaned "mac";
                            "type" ~> VStr (if String.eqb device_type "" then "PCI"
                                            else device_type) ]
                          cleaned (String.eqb device_type "USB")) "IF" = false).
    { split; [ apply from_device_new; auto | ].
      rewrite dhas_dfind, bus_attributes_other by reflexivity. reflexivity. }
    destruct (snd ls) as [d |] eqn:Pend; destruct cur as [dev |]; try contradiction.
    + apply append_in_inv in Ha0. destruct Ha0 as (xs & D' & ->).
      rewrite D in D'. injection D' as <-.
      exists (ds ++ [ VDict Local dev ])%list, vs. rewrite dfind_dset_same.
      rewrite dfind_dset_other by reflexivity.
      rewrite filter_stays_snoc, filter_virtual_snoc. cbn [goes_virtual]. rewrite app_nil_r.
      split; [ reflexivity | ]. split; [ exact V | ].
      split; [ | split; [ exact Fv | exact New ] ].
      apply Forall2_snoc; auto. destruct Cur as [Fm Un].
      split; [ exact Fm | ]. exists dev. auto.
    + injection Ha0 as <-. exists ds, vs. auto.
  - destruct (dhas cleaned "IF" || dhas cleaned "IF-ID");
      [ | injection H as <-; exists ds, vs; auto ].
    unfold network_interface in H. inv_bind H. rename a into low.
    fold (link_name cleaned) in *.
    assert (Txt : link_text cleaned = match link_name cleaned with VStr s => s | _ => "" end)
      by reflexivity.
    destruct (link_name cleaned) as [| | | |s| |] eqn:Name; try discriminate.
    injection Ha0 as <-. cbn [fst snd].
    rewrite filter_stays_snoc, filter_virtual_snoc.
    destruct (snd ls) as [d |] eqn:Pend; destruct cur as [dev |]; try contradiction.
    + inv_bind H. injection H as <-. apply append_in_inv in Ha0.
      destruct Ha0 as (xs & D' & ->). rewrite D in D'. injection D' as <-.
      cbn [fst snd goes_virtual]. rewrite app_nil_r.
      rewrite dfind_dset_same, dfind_dset_other by reflexivity.
      do 2 eexists. split; [ reflexivity | ]. split; [ exact V | ].
      split; [ | split; [ exact Fv | exact Logic.I ] ].
      apply Forall2_snoc; auto. destruct Cur as [Fm Un]. split.
      * apply from_device_update, Fm.
      * rewrite <- Name. apply from_interface_update.
    + inv_bind H. injection H as <-. cbn [fst snd goes_virtual].
      unfold names_virtual. rewrite Txt.
      assert (Bare : link_entry (Loose cleaned)
                       (VDict Local
                          (dset [ "IF" ~> VStr s; "state" ~> gets cleaned "state";
                                  "mac" ~> gets cleaned "mac"; "speed" ~> gets cleaned "speed";
                                  "duplex" ~> gets cleaned "duplex"; "ip" ~> gets cleaned "ip";
                                  "ipv6" ~> gets cleaned "ipv6" ] "name" (VStr s)))).
      { cbn [link_entry]. rewrite Name. split; [ | split; reflexivity ].
        eexists. split; [ reflexivity | ]. rewrite Name.
        split; [ | split ]; repeat constructor. }
      destruct (any_in virtual_keywords (Str.lower s)) eqn:Virt;
        apply append_in_inv in Ha0; destruct Ha0 as (xs & D' & ->).
      * rewrite V in D'. injection D' as <-.
        rewrite dfind_dset_same, dfind_dset_other by reflexivity. rewrite app_nil_r.
        do 2 eexists. split; [ exact D | ]. split; [ reflexivity | ].
        split; [ exact Fd | ]. split; [ | exact Logic.I ].
        apply Forall2_snoc; auto.
      * rewrite D in D'. injection D' as <-.
        rewrite dfind_dset_same, dfind_dset_other by reflexivity. rewrite app_nil_r.
        do 2 eexists. split; [ reflexivity | ]. split; [ exact V | ].
        split; [ | split; [ exact Fv | exact Logic.I ] ].
        apply Forall2_snoc; auto.
Qed.

Lemma dfind_routing_other d h n (k : string) :
  k = "devices" \/ k = "virtual_devices" ->
  dfind (dupdate d (get_network_routing_info h n)) k = dfind d k.
Proof.
  intros Hk. unfold get_network_routing_info. destruct (routing h n) as [[gw dns] iface].
  unfold dupdate. cbn [fold_left fst snd].
  destruct Hk as [-> | ->]; rewrite !dfind_dset_other by reflexivity; reflexivity.
Qed.

(** X8.  The Network parser accounts for every item.  For items whose
    interface names are ASCII text, group the cleaned items in their order
    into links: a device item alone, a device item with the interface item
    that comes next, an interface item that follows no device item.  Then
    [devices] lists, in that order, one entry per link other than the loose
    interfaces with a virtual name, and [virtual_devices] one entry per
    loose interface with a virtual name.  The entry of a device item has
    the item's name, its type (["PCI"] when it gives none, else in upper
    case) and one family of bus attributes; an interface item merged into
    it adds its name under [IF] and its [state], [mac], [speed], [duplex]
    and addresses, leaving name, type and bus attributes as they were; a
    device without interface has no [IF]; a loose interface is named after
    itself and has no [type].  So each item that carries [Device] yields
    exactly one hardware entry of [devices], the other entries of [devices]
    are interfaces that are not virtual, and [virtual_devices] holds only
    interfaces whose name matches a virtual keyword. *)
Theorem network_devices_accounted :
  forall (h : host) (n : nat) (items : value) (its : list value) (r : value),
    py_iter items = Ok its ->
    ascii_links its ->
    parse_network_section h n items = Ok r ->
    exists kvs ds vs,
      r = VDict Local kvs
      /\ dfind kvs "devices" = Some (VList Local ds)
      /\ dfind kvs "virtual_devices" = Some (VList Local vs)
      /\ Forall2 link_entry
           (filter (fun l => negb (goes_virtual l)) (links_of (List.map cleaned_of its))) ds
      /\ Forall2 link_entry (filter goes_virtual (links_of (List.map cleaned_of its))) vs
      /\ Forall listed_device ds
      /\ Forall (bare_interface true) vs
      /\ List.length (filter hardware ds) = List.length (carrying "Device" its).
Proof.
  intros h n items its r I _ H. unfold parse_network_section in H. rewrite I in H.
  cbn [bind] in H. apply bind_ok in H. destruct H as ([result cur] & Fold & H).
  assert (L : links_inv ([] ++ its) (result, cur)).
  { revert Fold. apply (foldM_prefix network_item links_inv).
    - intros pre x st st' P F. eapply network_item_links; eauto.
    - exists [], []. cbn. repeat split; constructor. }
  assert (G : exists ds vs,
             dfind (fst (result, cur)) "devices" = Some (VList Local ds)
             /\ dfind (fst (result, cur)) "virtual_devices" = Some (VList Local vs)
             /\ Forall listed_device ds /\ Forall (bare_interface true) vs
             /\ (forall dev, snd (result, cur) = Some dev -> bus_family (VDict Local dev))
             /\ (List.length (filter hardware ds) + pending (snd (result, cur)))%nat
                = List.length (carrying "Device" ([] ++ its))).
  { revert Fold.
    apply (foldM_prefix network_item
             (fun pre st =>
                exists ds vs,
                  dfind (fst st) "devices" = Some (VList Local ds)
                  /\ dfind (fst st) "virtual_devices" = Some (VList Local vs)
                  /\ Forall listed_device ds /\ Forall (bare_interface true) vs
                  /\ (forall dev, snd st = Some dev -> bus_family (VDict Local dev))
                  /\ (List.length (filter hardware ds) + pending (snd st))%nat
                     = List.length (carrying "Device" pre))).
    - intros pre x st st' P F. eapply network_item_accounted; eauto.
    - exists [], []. repeat split; auto; discriminate. }
  destruct G as (ds & vs & D & V & Fd & Fv & Cur & Cnt). cbn [fst snd app] in *.
  destruct L as (ds' & vs' & D' & V' & Ld & Lv & Pend). cbn [fst snd] in *.
  rewrite D in D'. injection D' as <-. rewrite V in V'. injection V' as <-.
  apply bind_ok in H. destruct H as (result1 & Flush & H).
  assert (G : exists ds1,
             dfind result1 "devices" = Some (VList Local ds1)
             /\ dfind result1 "virtual_devices" = Some (VList Local vs)
             /\ Forall listed_device ds1
             /\ List.length (filter hardware ds1) = List.length (carrying "Device" its)
             /\ Forall2 link_entry
                  (filter (fun l => negb (goes_virtual l)) (links_of (List.map cleaned_of its)))
                  ds1
             /\ Forall2 link_entry (filter goes_virtual (links_of (List.map cleaned_of its))) vs).
  { unfold links_of.
    destruct (snd (fold_left link_step (List.map cleaned_of its) ([], None))) as [d |];
      destruct cur as [dev |]; try contradiction.
    - apply append_in_inv in Flush. destruct Flush as (xs & D' & ->).
      rewrite D in D'. injection D' as <-.
      exists (ds ++ [ VDict Local dev ])%list.
      rewrite dfind_dset_same, dfind_dset_other by reflexivity.
      rewrite filter_stays_snoc, filter_virtual_snoc. cbn [goes_virtual]. rewrite app_nil_r.
      repeat split; auto.
      + apply Forall_app. split; auto. constructor; auto. left. apply Cur. reflexivity.
      + rewrite filter_snoc, (bus_family_hardware _ (Cur _ eq_refl)).
        cbn [pending] in Cnt. exact Cnt.
      + apply Forall2_snoc; auto. destruct Pend as [Fm Un].
        split; [ exact Fm | ]. exists dev. auto.
    - injection Flush as <-. exists ds. repeat split; auto.
      cbn [pending] in Cnt. lia. }
  clear D Fd Cnt Cur Ld Lv Pend. destruct G as (ds1 & D & V1 & Fd & Cnt & Ld & Lv).
  unfold getitem in H at 1. rewrite D in H. cbn [bind] in H.
  apply bind_ok in H. destruct H as (devices & Ip & H).
  destruct (add_ip_addresses_filled _ _ _ _ Ip) as (ds2 & -> & F2).
  unfold getitem in H. rewrite dfind_dset_other, V1 in H by reflexivity. cbn [bind] in H.
  apply bind_ok in H. destruct H as (virtuals & Ipv & H).
  destruct (add_ip_addresses_filled _ _ _ _ Ipv) as (vs2 & -> & Fv2).
  injection H as <-. do 3 eexists. split; [ reflexivity | ].
  rewrite !dfind_routing_other by tauto.
  rewrite dfind_dset_same, dfind_dset_other, dfind_dset_same by reflexivity.
  split; [ reflexivity | ]. split; [ reflexivity | ].
  split; [ eapply link_entries_filled; eauto | ].
  split; [ eapply link_entries_filled; eauto | ].
  repeat split.
  - eapply ip_filled_list; [ | exact F2 | exact Fd ].
    intros e e' F [B | B]; [ left; eapply ip_filled_family | right; eapply ip_filled_bare ];
      eauto.
  - eapply ip_filled_list; [ | exact Fv2 | exact Fv ].
    intros e e' F B. eapply ip_filled_bare; eauto.
  - rewrite (ip_filled_count _ _ F2). exact Cnt.
Qed.

Lemma network_devices_accounted_witness :
  ascii_links [ obj [ "001#1#1#Device" ~> VStr "RTL8111"; "002#1#1#bus-ID" ~> VStr "02:00.0" ];
                obj [ "003#1#1#IF" ~> VStr "enp2s0"; "004#1#1#state" ~> VStr "up" ];
                obj [ "005#1#1#IF-ID" ~> VStr "docker0"; "006#1#1#state" ~> VStr "down" ];
                obj [ "007#1#1#Device" ~> VStr "AX200"; "008#1#1#type" ~> VStr "" ] ]
  /\ exists kvs card lone bridge,
      parse_network_section silent_host 0 three_links = Ok (VDict Local kvs)
      /\ dfind kvs "devices" = Some (VList Local [ VDict Local card; VDict Local lone ])
      /\ dfind kvs "virtual_devices" = Some (VList Local [ VDict Local bridge ])
      /\ dfind card "name" = Some (VStr "RTL8111") /\ dfind card "IF" = Some (VStr "enp2s0")
      /\ dfind card "state" = Some (VStr "up")
      /\ dfind lone "name" = Some (VStr "AX200") /\ dfind lone "IF" = None
      /\ dfind bridge "name" = Some (VStr "docker0")
      /\ Forall listed_device [ VDict Local card; VDict Local lone ]
      /\ List.length (filter hardware [ VDict Local card; VDict Local lone ]) = 2%nat.
Proof.
  assert (A : ascii_links
                [ obj [ "001#1#1#Device" ~> VStr "RTL8111"; "002#1#1#bus-ID" ~> VStr "02:00.0" ];
                  obj [ "003#1#1#IF" ~> VStr "enp2s0"; "004#1#1#state" ~> VStr "up" ];
                  obj [ "005#1#1#IF-ID" ~> VStr "docker0"; "006#1#1#state" ~> VStr "down" ];
                  obj [ "007#1#1#Device" ~> VStr "AX200"; "008#1#1#type" ~> VStr "" ] ])
    by (repeat constructor).
  split; [ exact A | ].
  destruct (network_devices_accounted silent_host 0 three_links _ _ eq_refl A eq_refl)
    as (kvs & ds & vs & E1 & D & V & _ & _ & Fd & _ & Cnt).
  injection E1 as <-. vm_compute in D, V. injection D as <-. injection V as <-.
  do 4 eexists. split; [ reflexivity | ]. split; [ reflexivity | ].
  split; [ reflexivity | ]. repeat split; try reflexivity; try exact Fd; try exact Cnt.
Defined.

(** ** The Disk record *)

Lemma drive_entry_typed cleaned : drive_typed (drive_entry cleaned).
Proof.
  unfold drive_entry.
  destruct (Str.contains "nvme" (Str.lower (py_str (gets cleaned "ID"))));
    destruct (Str.contains "SSD" (Str.upper (py_str (gets cleaned "tech"))));
    try destruct (Str.contains "NVME" (Str.upper (py_str (gets cleaned "tech"))));
    do 2 eexists; (split; [ reflexivity | split; [ reflexivity | simpl; tauto ] ]).
Qed.

Lemma disk_item_partition_side result x result' :
  disk_item result x = Ok result' -> agree_on partition_side result' result.
Proof.
  unfold disk_item. intros H k Hk. inv_bind H. simpl in Hk.
  destruct (dhas a "Local Storage" || dhas a "total").
  - inv_bind H. injection H as <-.
    destruct a0; repeat (destruct Hk as [<- | Hk]; [ dict_simpl; reflexivity | ]);
      destruct Hk.
  - destruct (dhas a "model" && dhas a "size"); [ | injection H as <-; reflexivity ].
    repeat (destruct Hk as [<- | Hk];
            [ apply (append_in_other _ _ _ _ _ H); reflexivity | ]).
    destruct Hk.
Qed.

Lemma partition_item_drive_side result x result' :
  partition_item result x = Ok result' -> agree_on drive_side result' result.
Proof.
  unfold partition_item. intros H k Hk. inv_bind H. simpl in Hk.
  destruct (dhas a "ID"); [ | injection H as <-; reflexivity ].
  inv_bind H.
  repeat (destruct Hk as [<- | Hk];
          [ apply (append_in_other _ _ _ _ _ H); reflexivity | ]).
  destruct Hk.
Qed.

Lemma swap_item_drive_side result x result' :
  swap_item result x = Ok result' -> agree_on drive_side result' result.
Proof.
  unfold swap_item. intros H k Hk. inv_bind H. simpl in Hk.
  destruct (dhas a "Kernel" || dhas a "swappiness").
  - injection H as <-.
    repeat (destruct Hk as [<- | Hk]; [ dict_simpl; reflexivity | ]). destruct Hk.
  - destruct (dhas a "ID" || dhas a "type"); [ | injection H as <-; reflexivity ].
    inv_bind H.
    repeat (destruct Hk as [<- | Hk];
            [ apply (append_in_other _ _ _ _ _ H); reflexivity | ]).
    destruct Hk.
Qed.

Lemma agree_on_trans ks a b c : agree_on ks a b -> agree_on ks b c -> agree_on ks a c.
Proof. intros H1 H2 k Hk. rewrite (H1 k Hk). apply H2, Hk. Qed.

Lemma agree_on_refl ks a : agree_on ks a a.
Proof. intros k _. reflexivity. Qed.

Lemma foldM_frame {A : Type} ks (f : entries -> A -> res entries) xs :
  (forall a x a', f a x = Ok a' -> agree_on ks a' a) ->
  forall a a', foldM f a xs = Ok a' -> agree_on ks a' a.
Proof.
  intros Hf. induction xs as [| x xs IH]; simpl; intros a a' H.
  - injection H as <-. apply agree_on_refl.
  - inv_bind H. eapply agree_on_trans; eauto.
Qed.

Lemma disk_sibling_drive_side result kv result' :
  disk_sibling result kv = Ok result' -> agree_on drive_side result' result.
Proof.
  unfold disk_sibling. intros H. inv_bind H.
  destruct a; try (injection H as <-; apply agree_on_refl).
  destruct (snd kv); try (injection H as <-; apply agree_on_refl).
  destruct (Str.contains "Partition" s).
  - revert H. apply foldM_frame. apply partition_item_drive_side.
  - destruct (Str.contains "Swap" s); [ | injection H as <-; apply agree_on_refl ].
    revert H. apply foldM_frame. apply swap_item_drive_side.
Qed.

Lemma disk_siblings_drive_side sections result result' :
  foldM (fun result section => kvs <- py_items section ;; foldM disk_sibling result kvs)
        result sections = Ok result' ->
  agree_on drive_side result' result.
Proof.
  apply foldM_frame. intros a x a' H. inv_bind H. revert H.
  apply foldM_frame. apply disk_sibling_drive_side.
Qed.

Lemma disk_item_drives pre x result result' :
  dfind result "drives" = Some (VList Local (drives_of pre)) ->
  disk_item result x = Ok result' ->
  dfind result' "drives" = Some (VList Local (drives_of (pre ++ [x]))).
Proof.
  intros D H. unfold disk_item in H. inv_bind H. rename a into cleaned.
  unfold drives_of. rewrite map_app, filter_app, map_app. cbn [List.map filter].
  rewrite (cleaned_of_ok _ _ Ha). unfold drive_item at 2.
  destruct (dhas cleaned "Local Storage" || dhas cleaned "total").
  - inv_bind H. injection H as <-. cbn [negb andb List.map]. rewrite app_nil_r.
    destruct a; dict_simpl; exact D.
  - cbn [negb andb]. destruct (dhas cleaned "model" && dhas cleaned "size").
    + apply append_in_inv in H. destruct H as (xs & D' & ->).
      rewrite D in D'. injection D' as <-. rewrite dfind_dset_same. reflexivity.
    + injection H as <-. cbn [List.map]. rewrite app_nil_r. exact D.
Qed.

(** X9.  The drives of the Disk record are, in order, the Drives items with
    a [model] and a [size] that are not the storage summary (an item with
    [Local Storage] or [total] is never listed, whatever else it carries);
    every drive has one of the types HDD, SSD, NVMe; and the sections of the
    full document never change the list. *)
Theorem disk_drives_listed :
  forall (items data : value) (its : list value) (r : value),
    py_iter items = Ok its ->
    parse_disk_section items data = Ok r ->
    exists kvs,
      r = VDict Local kvs
      /\ dfind kvs "drives" = Some (VList Local (drives_of its))
      /\ Forall drive_typed (drives_of its).
Proof.
  intros items data its r I H. unfold parse_disk_section in H. rewrite I in H.
  cbn [bind] in H. apply bind_ok in H. destruct H as (result1 & Fold & H).
  apply bind_ok in H. destruct H as (sections & _ & H).
  apply bind_ok in H. destruct H as (result2 & Sib & H). injection H as <-.
  exists result2. split; [ reflexivity | ]. split.
  - rewrite (disk_siblings_drive_side _ _ _ Sib "drives") by (simpl; tauto).
    change its with ([] ++ its)%list. revert Fold.
    apply (foldM_prefix disk_item
             (fun pre result => dfind result "drives" = Some (VList Local (drives_of pre)))).
    + intros pre x a a' P F. eapply disk_item_drives; eauto.
    + reflexivity.
  - unfold drives_of. apply Forall_forall. intros e He. apply in_map_iff in He.
    destruct He as (c & <- & _). apply drive_entry_typed.
Qed.

Lemma disk_drives_listed_witness :
  exists kvs a b,
    parse_disk_section three_drive_items (arr []) = Ok (VDict Local kvs)
    /\ dfind kvs "drives" = Some (VList Local [ VDict Local a; VDict Local b ])
    /\ dfind a "type" = Some (VStr "NVMe") /\ dfind b "type" = Some (VStr "HDD")
    /\ Forall drive_typed [ VDict Local a; VDict Local b ].
Proof.
  destruct (disk_drives_listed three_drive_items (arr []) _ _ eq_refl eq_refl)
    as (kvs & E1 & D & F).
  injection E1 as <-.
  do 3 eexists. split; [ reflexivity | ]. split; [ reflexivity | ].
  split; [ reflexivity | ]. split; [ reflexivity | exact F ].
Defined.

Lemma dfind_dset_eq d k v k' : key_eqb k k' = true -> dfind (dset d k v) k' = Some v.
Proof.
  intros Ek. induction d as [| [a b] d IH]; simpl.
  - rewrite Ek. reflexivity.
  - destruct (key_eqb a k) eqn:Ea; simpl.
    + rewrite (key_eqb_trans _ _ _ Ea Ek). reflexivity.
    + destruct (key_eqb a k') eqn:Ea'; auto.
      rewrite (key_eqb_trans _ _ _ Ea' (eq_trans (key_eqb_sym k' k) Ek)) in Ea.
      discriminate.
Qed.

Lemma dset_agree ks a b k v : agree_on ks a b -> agree_on ks (dset a k v) (dset b k v).
Proof.
  intros H k0 Hk. destruct (key_eqb k k0) eqn:Ek.
  - rewrite !dfind_dset_eq by exact Ek. reflexivity.
  - rewrite !dfind_dset_other by exact Ek. apply H, Hk.
Qed.

Lemma append_in_agree ks a b (k : string) x a' b' :
  In k ks -> agree_on ks a b ->
  append_in a k x = Ok a' -> append_in b k x = Ok b' -> agree_on ks a' b'.
Proof.
  intros Hk H Ha Hb. apply append_in_inv in Ha, Hb.
  destruct Ha as (xs & Fa & ->). destruct Hb as (ys & Fb & ->).
  rewrite (H k Hk), Fb in Fa. injection Fa as <-. apply dset_agree, H.
Qed.

Lemma foldM_agree {A : Type} ks (f : entries -> A -> res entries) xs :
  (forall a b x a' b', agree_on ks a b -> f a x = Ok a' -> f b x = Ok b' ->
                       agree_on ks a' b') ->
  forall a b a' b', agree_on ks a b -> foldM f a xs = Ok a' -> foldM f b xs = Ok b' ->
                    agree_on ks a' b'.
Proof.
  intros Hf. induction xs as [| x xs IH]; simpl; intros a b a' b' H Fa Fb.
  - injection Fa as <-. injection Fb as <-. exact H.
  - apply bind_ok in Fa, Fb. destruct Fa as (a1 & Sa & Fa). destruct Fb as (b1 & Sb & Fb).
    eapply IH; [ | exact Fa | exact Fb ]. eapply Hf; eauto.
Qed.

Lemma partition_item_agree a b x a' b' :
  agree_on partition_side a b ->
  partition_item a x = Ok a' -> partition_item b x = Ok b' ->
  agree_on partition_side a' b'.
Proof.
  unfold partition_item. intros H Fa Fb.
  destruct (clean_item x) as [cleaned |]; [ | discriminate ]. cbn [bind] in *.
  destruct (dhas cleaned "ID"); [ | injection Fa as <-; injection Fb as <-; exact H ].
  destruct (percent_of (py_str (gets cleaned "used"))) as [pct |]; [ | discriminate ].
  cbn [bind] in *. eapply append_in_agree; eauto. simpl; tauto.
Qed.

Lemma swap_item_agree a b x a' b' :
  agree_on partition_side a b ->
  swap_item a x = Ok a' -> swap_item b x = Ok b' ->
  agree_on partition_side a' b'.
Proof.
  unfold swap_item. intros H Fa Fb.
  destruct (clean_item x) as [cleaned |]; [ | discriminate ]. cbn [bind] in *.
  destruct (dhas cleaned "Kernel" || dhas cleaned "swappiness").
  { injection Fa as <-. injection Fb as <-. apply dset_agree, H. }
  destruct (dhas cleaned "ID" || dhas cleaned "type");
    [ | injection Fa as <-; injection Fb as <-; exact H ].
  destruct (percent_of (py_str (gets cleaned "used"))) as [pct |]; [ | discriminate ].
  cbn [bind] in *. eapply append_in_agree; eauto. simpl; tauto.
Qed.

Lemma disk_sibling_agree a b kv a' b' :
  agree_on partition_side a b ->
  disk_sibling a kv = Ok a' -> disk_sibling b kv = Ok b' ->
  agree_on partition_side a' b'.
Proof.
  unfold disk_sibling. intros H Fa Fb.
  destruct (clean_key_of (fst kv)) as [ck |]; [ | discriminate ]. cbn [bind] in *.
  destruct ck; try (injection Fa as <-; injection Fb as <-; exact H).
  destruct (snd kv); try (injection Fa as <-; injection Fb as <-; exact H).
  destruct (Str.contains "Partition" s).
  - eapply (foldM_agree partition_side partition_item); eauto.
    intros; eapply partition_item_agree; eauto.
  - destruct (Str.contains "Swap" s);
      [ | injection Fa as <-; injection Fb as <-; exact H ].
    eapply (foldM_agree partition_side swap_item); eauto.
    intros; eapply swap_item_agree; eauto.
Qed.

Lemma agree_on_sym ks a b : agree_on ks a b -> agree_on ks b a.
Proof. intros H k Hk. symmetry. apply H, Hk. Qed.

(** X10.  The two halves of the Disk record have separate sources: the
    partitions, the swap entries and the swap settings are read from the
    sections of the full document and do not depend on the items of the
    Drives section; the drives and the storage summary are read from those
    items and do not depend on the rest of the document. *)
Theorem disk_sources_independent :
  forall (items items' data data' : value) (r r' r'' : entries),
    parse_disk_section items data = Ok (VDict Local r) ->
    (parse_disk_section items' data = Ok (VDict Local r') -> agree_on partition_side r r')
    /\ (parse_disk_section items data' = Ok (VDict Local r'') -> agree_on drive_side r r'').
Proof.
  intros items items' data data' r r' r'' H. unfold parse_disk_section in *.
  apply bind_ok in H. destruct H as (its & I & H).
  apply bind_ok in H. destruct H as (result1 & Fold & H).
  apply bind_ok in H. destruct H as (sections & S & H).
  apply bind_ok in H. destruct H as (result2 & Sib & H). injection H as <-.
  split; intros H'.
  - apply bind_ok in H'. destruct H' as (its' & I' & H').
    apply bind_ok in H'. destruct H' as (result1' & Fold' & H').
    rewrite S in H'. cbn [bind] in H'.
    apply bind_ok in H'. destruct H' as (result2' & Sib' & H'). injection H' as <-.
    assert (A : agree_on partition_side result1 result1').
    { apply agree_on_trans with (b := disk_default).
      - apply (foldM_frame partition_side disk_item its disk_item_partition_side _ _ Fold).
      - apply agree_on_sym.
        apply (foldM_frame partition_side disk_item its' disk_item_partition_side _ _ Fold'). }
    eapply (foldM_agree partition_side
              (fun result section => kvs <- py_items section ;; foldM disk_sibling result kvs));
      [ | exact A | exact Sib | exact Sib' ].
    intros a b s a' b' Hab Fa Fb.
    destruct (py_items s) as [kvs |]; [ | discriminate ]. cbn [bind] in *.
    eapply (foldM_agree partition_side disk_sibling); eauto.
    intros; eapply disk_sibling_agree; eauto.
  - rewrite I in H'. cbn [bind] in H'. rewrite Fold in H'. cbn [bind] in H'.
    apply bind_ok in H'. destruct H' as (sections' & S' & H').
    apply bind_ok in H'. destruct H' as (result2' & Sib' & H'). injection H' as <-.
    eapply agree_on_trans.
    + apply (disk_siblings_drive_side _ _ _ Sib).
    + apply agree_on_sym. apply (disk_siblings_drive_side _ _ _ Sib').
Qed.

Lemma disk_sources_independent_witness :
  exists r r' r'',
    parse_disk_section three_drive_items one_partition = Ok (VDict Local r)
    /\ parse_disk_section (arr []) one_partition = Ok (VDict Local r')
    /\ parse_disk_section three_drive_items (arr []) = Ok (VDict Local r'')
    /\ agree_on partition_side r r' /\ agree_on drive_side r r''.
Proof.
  do 3 eexists. split; [ reflexivity | ]. split; [ reflexivity | ]. split; [ reflexivity | ].
  split.
  - refine (proj1 (disk_sources_independent three_drive_items (arr []) one_partition (arr [])
                     _ _ [] _) _); reflexivity.
  - refine (proj2 (disk_sources_independent three_drive_items (arr []) one_partition (arr [])
                     _ [] _ _) _); reflexivity.
Defined.
